(* ===== verification/_CoqProject ===== *)
-Q . S2P
Prelude.v
CString.v
Ere.v
AuUtil.v
GetOpt.v
LibcSort.v
AufsType.v
Float32.v
Scan.v
FhsmData.v
AufsAbi.v
BuildConf.v
Log.v
Sys.v
Br.v
Shm.v
Fhsm.v
FhsmDump.v
FhsmList.v
Msg.v
FhsmCtl.v
Daemon.v
Mvdown.v
Event.v
FhsmDaemon.v
MvdownRun.v
FhsmCycle.v
FhsmArgs.v
FhsmRun.v
Rdu.v
RduLib.v
RduLock.v
Ftw.v
Mtab.v
Plink.v
Mount.v
LinuxList.v
Uloop.v
UloMod.v
Ulolib.v
UloSys.v
Ulobdev.v
Ulohttp.v
Logrow.v
LibAu.v
Pathconf.v
AuCmd.v
Cmdline.v
