(* ===== verification/Prelude.v ===== *)
(** * aufs-util in Rocq: header of the development

    aufs-util is the set of userspace programs of the aufs union filesystem.  This
    development models, from the C sources under src/, the subsystems that carry its
    own logic, and proves what makes them correct (or where they are not).

    ** The program

    - FHSM (src/fhsm/): "file-based hierarchical storage management".  The controller
      [aufhsm] keeps a table of watermarks, one element per branch with the FHSM
      attribute, in POSIX shared memory, and starts the daemon [aufhsmd].  The daemon
      loads a private copy of the table, waits for notifications of the kernel, for
      messages of the controller through a fifo, and for signals; when a branch is
      used beyond its watermark it forks a child, which moves the files of a list
      down to the next branch, one by one, with an ioctl.
    - libau (src/libau/): a preloaded library; the environment variable LIBAU says
      which of its functions work.  readdir(3) in userspace (RDU) asks the kernel for
      the raw entries of all branches and merges them: duplicates and whited-out names
      go, and the buffer is compacted; threads share an array of such buffers.
      pathconf(3) asks the branch that a new link would go to.
    - Pseudo-links (src/plink.c, auplink.c): files with several names on a lower branch.
      The inode numbers found in the ".wh..wh.plnk" directories of the writable branches
      are collected, the aufs is walked to copy up every name of these files, then the
      pseudo-links are removed.  Without glibc the walk is src/extlib/non-glibc/au_nftw.c.
    - The helpers of mount(8) and umount(8) (src/mount.aufs.c, umount.aufs.c): they flush
      the pseudo-links when branches are about to change, run the real command, start or
      stop FHSM, and rewrite /etc/mtab under its lock (src/mtab.c, proc_mnt.c).

    - The commands aumvdown (moving files down by hand) and auibusy (src/aumvdown.c,
      auibusy.c, perror.c).
    - The samples: a userspace loopback block device (src/sample/uloop/), that is a
      filter for the loop driver of the kernel, which has user processes store the
      pages of a sparse cache file when they are first read, the library those
      processes use, and two of them, for a block device and for a file on a web
      server; and logrow (src/sample/logrow/), which grows the file behind a loop device.

    ** How C is modelled

    A function that only computes is a Rocq function; one that does system calls, or
    can end the process, is a monadic term over an explicit world (Prelude.v: [M],
    [outcome]; Sys.v: [world]).  Outcomes are a return, an exit with its status,
    undefined behaviour (null or wild dereference, access outside an object, a failed
    assertion), or loss of fuel.  Every fallible call takes its outcome from the list
    [w_faults] of the world, so that a theorem about all worlds is one about all
    patterns of failure; theorems about the normal case say [w_faults w = []].  A
    pointer into an array is an index, a pointer into a byte buffer an offset; the
    float watermarks are their 32-bit patterns (Float32.v).  Integers are Z with the
    wrap-around written out where the code can reach it.

    The kernel is not part of the repository: its answers come from a state [K]
    through the interfaces [AufsKernel] (Sys.v), [RduKernel] (RduLib.v), [MountKernel]
    (Mtab.v), [PlinkKernel] (Plink.v), [PathConf] (Pathconf.v) and [IbusyKernel]
    (AuCmd.v), and what is assumed of them is a hypothesis of the theorem that needs it;
    the loop driver is the interface [LoopDriver] (UloMod.v), libcurl the interface [Curl]
    (Ulohttp.v).  A part with globals of its own is run inside another program by [zoom]
    (Mount.v).  External inputs of the same sort are the results of realpath(3), of fork(2)
    and waitpid(2), and what epoll_wait(2) returns.

    Where the meaning of the code rests on a nontrivial function of the C library, that
    function is defined, from its documentation, and has theorems of its own: regular
    expressions (Ere.v: the matcher is proved equal to the relation that says what a
    pattern means), getopt_long(3) with its permutation of the operands (GetOpt.v: it
    reads back any vector that was written from options and operands), sorting,
    numbers in and out.  The main() of a program takes what getopt(3) returned; Cmdline.v
    puts the two together into functions of [argv].

    Where threads or processes run beside one another (UloSys.v, RduLock.v), each is a
    program counter, a step of the system is a step of one of them between two points
    where the code takes a lock or blocks, and the theorems are about every reachable
    state, so about every interleaving.

    ** Files

    - Prelude.v: bytes, machine integers, outcomes, the monad, invariants
      ([preserves]) and weakest preconditions ([wp]) with their tactics.
    - CString.v, LibcSort.v, Float32.v, Scan.v, Ere.v, GetOpt.v: the parts of the C
      library that are used: strings and number formats, qsort and bsearch, binary32,
      sscanf with "%f", regcomp and regexec, getopt_long.
    - AufsType.v, AufsAbi.v: src/libau/linux/aufs_type.h: what the programs interpret; the
      other constants, the layout of the structures and the ioctl numbers.
    - AuUtil.v (au_util.h): version and texts; Log.v (fhsm/log.h,
      extlib/non-glibc/error_at_line.c): messages; BuildConf.v (ver.c, c2sh.c, c2tmac.c):
      the programs that the build runs.
    - Sys.v: the world and the system calls; frame lemmas ([mute], [glob_inv]).
    - FhsmData.v (fhsm/comm.h, au_fhsm_csum), Br.v (br.c), Shm.v (fhsm/shm.c), Fhsm.v
      and FhsmDump.v (fhsm/fhsm.c): the table, its signature, the branches, shared memory,
      creating and following the table, showing it.
    - FhsmList.v (fhsm/list.c), Msg.v (fhsm/msg.c), FhsmCtl.v (fhsm/aufhsm.c and
      mng_fhsm.c): the list files, messages, the controller.
    - Daemon.v (fhsm/daemon.h), Mvdown.v (fhsm/mvdown.c), Event.v (fhsm/event.c),
      FhsmDaemon.v (fhsm/aufhsmd.c): the daemon's state, moving down, the event loop,
      its start.  On top of them, whole runs: MvdownRun.v (a child that moves files
      down, from its list of files to its exit), FhsmCycle.v (a notification, the
      children it starts, the end of the loop), FhsmArgs.v (the watermark arguments of
      a command line), FhsmRun.v (one run of the controller and the daemon after it, or
      the daemon that is told to read the table again).
    - Rdu.v, RduLib.v, RduLock.v (libau/rdu_lib.c, libau/rdu.c, libau/rdu.h): merging;
      reading, the registry of directories, readdir; its locks, with threads.
    - Ftw.v (extlib/non-glibc/au_nftw.c), Mtab.v (mtab.c, proc_mnt.c,
      extlib/non-glibc/au_decode_mntpnt.c), Plink.v (plink.c, auplink.c), Mount.v
      (mount.aufs.c, umount.aufs.c): the walk, the mount tables, pseudo-links, the helpers.
    - LinuxList.v (fhsm/linux-list.h): the daemon's linked list on a heap.
    - Uloop.v (sample/uloop/drivers/block/uloop.c, include/linux/uloop.h), Ulolib.v
      (libuloop.c), UloSys.v (driver, readers and processes together; the interface
      [UloStore] of a callback), Ulobdev.v (ulobdev.c) and Ulohttp.v (ulohttp.c), which
      discharge it; UloMod.v (loading and unloading the driver); Logrow.v
      (sample/logrow/logrow.c).
    - LibAu.v (libau/libau.c, the entry functions of libau/rdu.c), Pathconf.v
      (libau/pathconf.c), AuCmd.v (aumvdown.c, auibusy.c, perror.c).
    - Cmdline.v: the tables of options of all programs, and the programs from [argv].

    Definitions keep the names of the C functions; a loop has a definition of its own,
    named in the comment before it.

    ** What the theorems show

    - The table: the checksum notices any one-byte change and does not depend on the
      order of the elements; signing verifies; search is exact; a first run creates
      one default element per FHSM branch, a later run keeps the settings, and the
      daemon loads what the controller published, under the same name.
    - Moving down: the last record of the list is parsed back exactly; one successful
      move cuts exactly that record and records the kernel's statistics; each errno
      has its stated effect; the child's loop terminates.  A child passes over the
      records that the kernel refuses, whatever their number, moves the first file that
      it takes, and exits; it leaves the list with exactly the records before that one.
    - The event loop: at most one operation per branch; nothing new is started once
      a signal, the message to exit or an error of handle_fhsm() stops the daemon (an error
      of handle_msg() does not); it ends only when nothing is in progress; a message to
      exit that was sent is received.  A notification of the kernel forks one child for
      each branch that is used beyond its watermark and has no operation in progress, and
      no other; a message to exit and the ends of those children, in any order, end the
      loop.
    - RDU: the merge is the reference definition [merged] on every buffer, and
      [merged] is what a union of branches should show; a program that calls
      readdir(3) again and again gets its entries one after the other and then the end, for
      every way the kernel may split its answers; the registry keeps descriptors unique.
    - Pseudo-links: a flush copies up every name of every pseudo-linked file before the
      kernel forgets the links and before they are removed; the arrays are never written
      beyond their ends.  The walk visits exactly the entries of the tree ([entries]).
    - Mount tables: the new /etc/mtab is the old one with one line replaced or appended,
      and it is only written under the lock; it is renamed before stdio has written all of
      it, so that it is complete only when the process has exited, if nothing fails there.
    - The linked list of the daemon implements the list that Event.v and Mvdown.v use.
    - The loopback device: whatever the interleaving of readers and processes and
      whatever fails but the reading of the bitmap, a read within the pages that have a
      bit that is reported as done has the bytes of the target; a set bit means a stored
      page; no step of the driver crashes.  The two programs are instances, from ulo_init()
      on, with any list of faults behind it.
    - The locks of libau: a thread gets the buffer of its own directory and is alone on
      it, if no other thread closes that directory; there is no deadlock.
    - Command lines: options are found however they are written, except where a loop of
      opt() ends too early; the vectors that one program builds for another (the mount
      helpers for aufhsm, aufhsm for aufhsmd) are read back as they were meant.  The
      pattern of mount.aufs flushes for exactly the options it should.
    - What is typed as watermarks is what is shown of the table: percentages survive the
      conversion to free ratios in single precision; and a run of aufhsm, from main() to the
      signed table, is what a daemon on the same mount point loads, for any row of
      arguments, the last one that names a branch deciding for it; a daemon that is
      running loads the new table when it reads the controller's message.
    - logrow appends zeros and nothing else; aumvdown moves its operands in order up to
      the first failure; pathconf answers from the branch the kernel names
      in aufs, and as the real function outside.
    - Defects, each as a theorem about the code as it is: see the findings in
      PROJECT.json.

    ** Fuel

    The loops whose end is not structural take fuel: mvdown_loop() gets one unit per
    byte of the list and is proved never to run out; rdu_fill() is proved to succeed
    with some finite fuel for every delivery of the kernel; follow_next(),
    each_stbr() and handle_fhsm() depend on what the kernel answers and the event loop
    on its list of events, so their theorems hold for all fuels.  The loops of logrow
    and of auibusy get one unit per byte and per pending fault and are proved to end.

    ** Not modelled

    The wording of diagnostics (where a message goes and what it does to errno is Log.v)
    and strerror(3), what is compiled only for debugging, unit tests or without threads
    (AUFHSM_UT, DEBUG, no _REENTRANT), the shell scripts, time other than as a number of
    polls, the contents of uninitialised memory (reading it is undefined behaviour).  What
    the map leaves of the C sources is licences, includes, prototypes and those variants. *)
From stdpp Require Export base gmap strings list numbers sorting.
From Stdlib Require Export ZArith Lia Ascii.
#[global] Open Scope Z_scope.

(** ** Bytes *)

Abbreviation byte := ascii (only parsing).
Abbreviation bytes := (list ascii).

(** The literal ["abc"] as the bytes of a C string, without its terminator. *)
Definition lit (s : string) : bytes := String.list_ascii_of_string s.

Definition NUL : ascii := Ascii.zero.

Definition byte_val (c : ascii) : Z := Z.of_N (N_of_ascii c).
Definition byte_of (z : Z) : ascii := ascii_of_N (Z.to_N (z mod 256)).

(** [(int)*p] for a signed [char *p]. *)
Definition schar_val (c : ascii) : Z :=
  if byte_val c <? 128 then byte_val c else byte_val c - 256.

(** ** Machine integers *)

Definition wrap_u (w z : Z) : Z := z mod 2 ^ w.
Definition wrap_s (w z : Z) : Z := (z + 2 ^ (w - 1)) mod 2 ^ w - 2 ^ (w - 1).

Definition u8 (z : Z) : Z := wrap_u 8 z.
Definition u16 (z : Z) : Z := wrap_u 16 z.
Definition u32 (z : Z) : Z := wrap_u 32 z.
Definition u64 (z : Z) : Z := wrap_u 64 z.
Definition i16 (z : Z) : Z := wrap_s 16 z.
Definition i32 (z : Z) : Z := wrap_s 32 z.
Definition i64 (z : Z) : Z := wrap_s 64 z.

(** Little-endian fields of structures. *)
Fixpoint le_bytes (n : nat) (z : Z) : bytes :=
  match n with
  | O => []
  | S k => byte_of z :: le_bytes k (z / 256)
  end.

Fixpoint le_val (l : bytes) : Z :=
  match l with
  | [] => 0
  | c :: r => byte_val c + 256 * le_val r
  end.

(** ** Outcomes and the monad of the C code

    A C function runs on a world [W] and either returns, ends the process with a
    status (exit(3), AuFin, AuLogFin), commits undefined behaviour (an access
    outside an object, a null dereference), or is cut by the fuel of a loop
    whose termination is not structural. *)
Inductive outcome (A : Type) : Type :=
  | Ret (a : A)
  | Exit (status : Z)
  | Ub (what : string)
  | NoFuel.
Arguments Ret {A}.
Arguments Exit {A}.
Arguments Ub {A}.
Arguments NoFuel {A}.

Definition M (W A : Type) : Type := W -> outcome A * W.

#[export] Instance M_ret W : MRet (M W) := fun A a w => (Ret a, w).
#[export] Instance M_bind W : MBind (M W) := fun A B f m w =>
  match m w with
  | (Ret a, w') => f a w'
  | (Exit s, w') => (Exit s, w')
  | (Ub x, w') => (Ub x, w')
  | (NoFuel, w') => (NoFuel, w')
  end.

Section monad.
Context {W : Type}.

Definition get : M W W := fun w => (Ret w, w).
Definition gets {A} (f : W -> A) : M W A := fun w => (Ret (f w), w).
Definition modify (f : W -> W) : M W unit := fun w => (Ret tt, f w).
Definition exit_ {A} (s : Z) : M W A := fun w => (Exit s, w).
Definition ub {A} (x : string) : M W A := fun w => (Ub x, w).
Definition nofuel {A} : M W A := fun w => (NoFuel, w).
Definition when (c : bool) (m : M W unit) : M W unit :=
  if c then m else mret tt.

Lemma bind_ret {A B} (a : A) (f : A -> M W B) w :
  (mret a ≫= f : M W B) w = f a w.
Proof. reflexivity. Qed.

Lemma bind_run {A B} (m : M W A) (f : A -> M W B) w a w' :
  m w = (Ret a, w') -> (m ≫= f : M W B) w = f a w'.
Proof. intros H. unfold mbind, M_bind. by rewrite H. Qed.

Lemma bind_gets {A B} (h : W -> A) (f : A -> M W B) w :
  (gets h ≫= f : M W B) w = f (h w) w.
Proof. reflexivity. Qed.

Lemma bind_modify {B} (h : W -> W) (f : unit -> M W B) w :
  (modify h ≫= f : M W B) w = f tt (h w).
Proof. reflexivity. Qed.

Lemma bind_assoc {A B C} (m : M W A) (f : A -> M W B) (g : B -> M W C) w :
  ((m ≫= f) ≫= g : M W C) w = (m ≫= (fun a => f a ≫= g) : M W C) w.
Proof. unfold mbind, M_bind. by destruct (m w) as [[]]. Qed.

(** [preserves I m]: whatever [m]'s outcome is, the invariant [I] holds of
    the world it leaves. *)
Definition preserves (I : W -> Prop) {A} (m : M W A) : Prop :=
  forall w, I w -> I (m w).2.

Lemma preserves_ret I {A} (a : A) : preserves I (mret a : M W A).
Proof. by intros w. Qed.

Lemma preserves_bind I {A B} (m : M W A) (f : A -> M W B) :
  preserves I m -> (forall a, preserves I (f a)) ->
  preserves I (m ≫= f : M W B).
Proof.
  intros Hm Hf w Hw. specialize (Hm w Hw). unfold mbind, M_bind.
  destruct (m w) as [[] w']; simpl in *; auto. by apply Hf.
Qed.

Lemma preserves_gets I {A} (f : W -> A) : preserves I (gets f).
Proof. by intros w. Qed.

Lemma preserves_exit I {A} s : preserves I (exit_ s : M W A).
Proof. by intros w. Qed.

Lemma preserves_ub I {A} x : preserves I (ub x : M W A).
Proof. by intros w. Qed.

Lemma preserves_nofuel I {A} : preserves I (nofuel : M W A).
Proof. by intros w. Qed.

Lemma preserves_modify I f :
  (forall w, I w -> I (f w)) -> preserves I (modify f).
Proof. intros H w Hw. by apply H. Qed.

Lemma preserves_if I {A} (c : bool) (m1 m2 : M W A) :
  preserves I m1 -> preserves I m2 -> preserves I (if c then m1 else m2).
Proof. by destruct c. Qed.

Lemma preserves_when I (c : bool) m : preserves I m -> preserves I (when c m).
Proof. intros H. destruct c; [done | apply preserves_ret]. Qed.
End monad.

Create HintDb pres.
#[export] Hint Resolve preserves_ret preserves_gets preserves_exit preserves_ub
  preserves_nofuel preserves_if preserves_when : pres.

(** Walks a body of [≫=], [if] and [match], leaving the primitive steps. *)
Ltac pres_step :=
  match goal with
  | |- preserves _ (mbind _ _) => apply preserves_bind; [|intros ?]
  | |- preserves _ (if ?c then _ else _) => destruct c
  | |- preserves _ (match ?x with _ => _ end) => destruct x
  | |- preserves _ (let _ := _ in _) => cbv zeta
  | |- preserves _ _ => solve [auto with pres]
  end.
Ltac pres := repeat pres_step.

(** Runs a monadic term on a known prefix. *)
Ltac mrun := cbn [mbind M_bind mret M_ret get gets modify exit_ ub when fst snd].

(** ** Weakest preconditions

    [wp s m Q w]: if [m] returns from [w], the result satisfies [Q]; and, when [s]
    is [true], no loop of [m] runs out of fuel.  Exits and undefined behaviour are
    let through, so the theorems that exclude them say so separately. *)
Section wp.
Context {W : Type}.
Implicit Types s : bool.

Definition wp (s : bool) {A} (m : M W A) (Q : A -> W -> Prop) (w : W) : Prop :=
  match m w with
  | (Ret a, w') => Q a w'
  | (NoFuel, _) => s = false
  | _ => True
  end.

Lemma wp_bind s {A B} (m : M W A) (f : A -> M W B) Q w :
  wp s m (fun a w' => wp s (f a) Q w') w -> wp s (m ≫= f) Q w.
Proof. unfold wp, mbind, M_bind. by destruct (m w) as [[] ?]. Qed.

Lemma wp_mono s {A} (m : M W A) (Q Q' : A -> W -> Prop) w :
  wp s m Q w -> (forall a w', Q a w' -> Q' a w') -> wp s m Q' w.
Proof. unfold wp. destruct (m w) as [[] ?]; auto. Qed.

Lemma wp_run s {A} (m : M W A) Q w a w' : wp s m Q w -> m w = (Ret a, w') -> Q a w'.
Proof. unfold wp. intros H Hm. by rewrite Hm in H. Qed.

Lemma wp_fuel {A} (m : M W A) Q w : wp true m Q w -> (m w).1 <> NoFuel.
Proof. unfold wp. by destruct (m w) as [[] ?]. Qed.

Lemma wp_ret s {A} (a : A) (Q : A -> W -> Prop) w : Q a w -> wp s (mret a) Q w.
Proof. done. Qed.
Lemma wp_gets s {A} (f : W -> A) (Q : A -> W -> Prop) w : Q (f w) w -> wp s (gets f) Q w.
Proof. done. Qed.
Lemma wp_modify s f (Q : unit -> W -> Prop) w : Q tt (f w) -> wp s (modify f) Q w.
Proof. done. Qed.
Lemma wp_exit s {A} st (Q : A -> W -> Prop) w : wp s (exit_ st) Q w.
Proof. done. Qed.
Lemma wp_ub s {A} x (Q : A -> W -> Prop) w : wp s (ub x) Q w.
Proof. done. Qed.
End wp.

(** Walks a body; the lemma of each operation comes from the hint database [wp],
    and its result and new world are introduced. *)
Create HintDb wp.
#[export] Hint Resolve wp_ret wp_gets wp_modify wp_exit wp_ub : wp.

Ltac wp_step :=
  lazymatch goal with
  | |- wp _ (mbind _ _) _ _ => apply wp_bind
  | |- wp _ (mret _) _ _ => apply wp_ret
  | |- wp _ (gets _) _ _ => apply wp_gets
  | |- wp _ (modify _) _ _ => apply wp_modify
  | |- wp _ (exit_ _) _ _ => apply wp_exit
  | |- wp _ (ub _) _ _ => apply wp_ub
  | |- wp _ (if ?c then _ else _) _ _ => destruct c eqn:?
  | |- wp _ (let _ := _ in _) _ _ => cbv zeta
  | |- wp _ (match ?x with _ => _ end) _ _ => destruct x eqn:?
  end.

(** ** Generic lemmas *)

Ltac bool_lia := repeat first
  [ rewrite Bool.andb_true_iff in * | rewrite Bool.orb_true_iff in *
  | rewrite Z.ltb_lt in * | rewrite Z.leb_le in * | rewrite Z.eqb_eq in *
  | rewrite Z.ltb_ge in * | rewrite Z.leb_gt in * | rewrite Z.eqb_neq in *
  | rewrite Bool.andb_false_iff in * | rewrite Bool.orb_false_iff in * ]; try lia.

Lemma byte_val_range c : 0 <= byte_val c < 256.
Proof.
  unfold byte_val. pose proof (N_ascii_bounded c). lia.
Qed.

Lemma byte_of_val c : byte_of (byte_val c) = c.
Proof.
  unfold byte_of. rewrite Z.mod_small by apply byte_val_range.
  unfold byte_val. rewrite N2Z.id. apply ascii_N_embedding.
Qed.

Lemma byte_val_of z : byte_val (byte_of z) = z mod 256.
Proof.
  unfold byte_val, byte_of. pose proof (Z.mod_pos_bound z 256 eq_refl).
  rewrite N_ascii_embedding by lia. lia.
Qed.

Lemma byte_val_inj c d : byte_val c = byte_val d -> c = d.
Proof. intros H. by rewrite <- (byte_of_val c), <- (byte_of_val d), H. Qed.

#[export] Instance byte_val_Inj : Inj (=) (=) byte_val := byte_val_inj.

Lemma length_le_bytes n z : length (le_bytes n z) = n.
Proof. revert z; induction n; simpl; auto. Qed.

Lemma le_val_bytes n z : le_val (le_bytes n z) = z mod 256 ^ (Z.of_nat n).
Proof.
  revert z; induction n as [|n IH]; intros z.
  - simpl. by rewrite Z.mod_1_r.
  - cbn [le_bytes le_val]. rewrite byte_val_of, IH, Nat2Z.inj_succ.
    rewrite Z.pow_succ_r by lia.
    rewrite Z.rem_mul_r by lia. reflexivity.
Qed.

Lemma le_bytes_val l : le_bytes (length l) (le_val l) = l.
Proof.
  induction l as [|c l IH]; [done|]. cbn [length le_bytes le_val].
  pose proof (byte_val_range c). f_equal.
  - rewrite <- (byte_of_val c) at 2. unfold byte_of. f_equal. f_equal.
    rewrite (Z.mul_comm 256), Z.mod_add by lia. reflexivity.
  - rewrite (Z.mul_comm 256), Z.div_add by lia.
    rewrite (Z.div_small (byte_val c)) by lia. exact IH.
Qed.

Lemma le_val_range l : 0 <= le_val l < 256 ^ (Z.of_nat (length l)).
Proof.
  induction l as [|c l IH]; [simpl; lia|].
  cbn [le_val length]. rewrite Nat2Z.inj_succ, Z.pow_succ_r by lia.
  pose proof (byte_val_range c). lia.
Qed.

Lemma wrap_s_small w z : 0 < w -> - 2 ^ (w - 1) <= z < 2 ^ (w - 1) -> wrap_s w z = z.
Proof.
  intros Hw Hz. unfold wrap_s.
  assert (2 ^ w = 2 * 2 ^ (w - 1)) as E
    by (rewrite <- Z.pow_succ_r by lia; f_equal; lia).
  rewrite Z.mod_small; lia.
Qed.

Lemma wrap_u_small w z : 0 <= z < 2 ^ w -> wrap_u w z = z.
Proof. intros. by apply Z.mod_small. Qed.

Lemma schar_val_range c : -128 <= schar_val c < 128.
Proof.
  unfold schar_val. pose proof (byte_val_range c). case_match; bool_lia.
Qed.

Lemma schar_val_inj c d : schar_val c = schar_val d -> c = d.
Proof.
  unfold schar_val. pose proof (byte_val_range c). pose proof (byte_val_range d).
  repeat case_match; bool_lia; intros; apply byte_val_inj; lia.
Qed.
