(* ===== verification/CString.v ===== *)
(** * The C library functions on strings and buffers that the programs use

    A C string is a [bytes] without its terminator; a buffer is a [bytes] that
    may hold NULs.  Positions are indices; a function that returns a pointer
    returns an optional index or suffix. *)
From S2P Require Import Prelude.

(** ** Searching *)

Fixpoint first_idx (c : ascii) (l : bytes) : option nat :=
  match l with
  | [] => None
  | x :: r => if decide (x = c) then Some O else S <$> first_idx c r
  end.

Fixpoint last_idx (c : ascii) (l : bytes) : option nat :=
  match l with
  | [] => None
  | x :: r =>
      match last_idx c r with
      | Some i => Some (S i)
      | None => if decide (x = c) then Some O else None
      end
  end.

(** memrchr(m, c, n) *)
Definition memrchr (m : bytes) (c : ascii) (n : nat) : option nat :=
  last_idx c (take n m).

(** The C string that starts a buffer: the bytes before the first NUL. *)
Fixpoint cstr (m : bytes) : bytes :=
  match m with
  | [] => []
  | x :: r => if decide (x = NUL) then [] else x :: cstr r
  end.

(** strchr(s, c) for [c] other than NUL, on a C string. *)
Definition strchr (s : bytes) (c : ascii) : option nat := first_idx c s.
Definition strrchr (s : bytes) (c : ascii) : option nat := last_idx c s.

(** ** Comparing *)

Fixpoint strcmp (a b : bytes) : Z :=
  match a, b with
  | [], [] => 0
  | [], _ => -1
  | _, [] => 1
  | x :: a', y :: b' =>
      if byte_val x <? byte_val y then -1
      else if byte_val y <? byte_val x then 1
      else strcmp a' b'
  end.

(** strncmp(a, b, n) on two buffers of at least [n] bytes, or with a NUL before. *)
Fixpoint strncmp (n : nat) (a b : bytes) : Z :=
  match n with
  | O => 0
  | S k =>
      match a, b with
      | [], [] => 0
      | [], y :: _ => if decide (y = NUL) then 0 else -1
      | x :: _, [] => if decide (x = NUL) then 0 else 1
      | x :: a', y :: b' =>
          if byte_val x <? byte_val y then -1
          else if byte_val y <? byte_val x then 1
          else if decide (x = NUL) then 0
          else strncmp k a' b'
      end
  end.

Definition tolower (c : ascii) : ascii :=
  if (65 <=? byte_val c) && (byte_val c <=? 90) then byte_of (byte_val c + 32)
  else c.

Definition strcasecmp (a b : bytes) : Z := strcmp (map tolower a) (map tolower b).

(** strstr(s, p): the suffix of [s] that starts with [p]. *)
Fixpoint strstr (s p : bytes) : option bytes :=
  if decide (take (length p) s = p) then Some s
  else match s with [] => None | _ :: r => strstr r p end.

(** ** Printing numbers: %d, %llu and %04x *)

Definition digit (d : Z) : ascii :=
  if d <? 10 then byte_of (48 + d) else byte_of (87 + d).

Definition undigit (c : ascii) : Z :=
  if byte_val c <? 58 then byte_val c - 48 else byte_val c - 87.

Fixpoint digits_fuel (fuel : nat) (base z : Z) : bytes :=
  match fuel with
  | O => []
  | S k => (if z <? base then [] else digits_fuel k base (z / base))
           ++ [digit (z mod base)]
  end.

Definition digits (base z : Z) : bytes :=
  digits_fuel (S (Z.to_nat (Z.log2 z))) base z.

Definition undigits (base : Z) (l : bytes) : Z :=
  fold_left (fun acc c => acc * base + undigit c) l 0.

Definition pad_left (n : nat) (l : bytes) : bytes :=
  replicate (n - length l) (digit 0) ++ l.

(** [%llu], [%04x] *)
Definition fmt_u (z : Z) : bytes := digits 10 z.
Definition fmt_04x (z : Z) : bytes := pad_left 4 (digits 16 z).
(** [%d] *)
Definition fmt_d (z : Z) : bytes :=
  if z <? 0 then lit "-" ++ digits 10 (- z) else digits 10 z.

(** ** Lemmas on searching *)

Lemma first_idx_None c l : first_idx c l = None <-> c ∉ l.
Proof.
  induction l as [|x l IH]; simpl; [set_solver|].
  case_decide; [set_solver|]. rewrite fmap_None, IH. set_solver.
Qed.

Lemma first_idx_app c l1 l2 :
  c ∉ l1 -> first_idx c (l1 ++ c :: l2) = Some (length l1).
Proof.
  induction l1 as [|x l1 IH]; simpl; intros H.
  - by rewrite decide_True.
  - rewrite decide_False by set_solver. rewrite IH by set_solver. done.
Qed.

Lemma first_idx_Some c l i :
  first_idx c l = Some i ->
  c ∉ take i l /\ l = take i l ++ c :: drop (S i) l.
Proof.
  revert i; induction l as [|x l IH]; simpl; intros i H; [done|].
  case_decide as E; simplify_eq/=.
  - split; [set_solver|done].
  - apply fmap_Some in H as (j & Hj & ->). apply IH in Hj as [H1 H2].
    simpl. split; [set_solver|]. by rewrite <- H2.
Qed.

Lemma last_idx_None c l : last_idx c l = None <-> c ∉ l.
Proof.
  induction l as [|x l IH]; simpl; [set_solver|].
  destruct (last_idx c l) as [i|] eqn:E.
  - split; [done|]. intros H. exfalso.
    assert (c ∉ l) as Hn by set_solver. apply IH in Hn. done.
  - case_decide; [set_solver|]. split; [|done]. intros _.
    assert (c ∉ l) by by apply IH. set_solver.
Qed.

Lemma last_idx_app c l1 l2 :
  c ∉ l2 -> last_idx c (l1 ++ c :: l2) = Some (length l1).
Proof.
  intros H. induction l1 as [|x l1 IH]; simpl.
  - apply last_idx_None in H. by rewrite H, decide_True.
  - by rewrite IH.
Qed.

Lemma last_idx_Some c l i :
  last_idx c l = Some i ->
  c ∉ drop (S i) l /\ l = take i l ++ c :: drop (S i) l.
Proof.
  revert i; induction l as [|x l IH]; simpl; intros i H; [done|].
  destruct (last_idx c l) as [j|] eqn:E.
  - injection H as <-. destruct (IH j eq_refl) as [H1 H2]. split; [done|].
    simpl. by rewrite <- H2.
  - case_decide; simplify_eq/=. apply last_idx_None in E. by rewrite drop_0.
Qed.

Lemma last_idx_lt c l i : last_idx c l = Some i -> (i < length l)%nat.
Proof.
  intros (_ & H)%last_idx_Some. rewrite H, length_app. cbn [length].
  rewrite length_take. destruct (decide (i <= length l)%nat); [lia|].
  rewrite drop_ge, take_ge in H by lia. apply (f_equal length) in H.
  rewrite length_app in H. simpl in H. lia.
Qed.

Lemma cstr_app s r : NUL ∉ s -> cstr (s ++ NUL :: r) = s.
Proof.
  induction s as [|x s IH]; intros H; simpl.
  - done.
  - rewrite decide_False by set_solver. by rewrite IH by set_solver.
Qed.

Lemma cstr_id s : NUL ∉ s -> cstr s = s.
Proof.
  induction s as [|x s IH]; intros H; simpl; [done|].
  rewrite decide_False by set_solver. by rewrite IH by set_solver.
Qed.

Lemma cstr_no_nul m : NUL ∉ cstr m.
Proof. induction m as [|x m IH]; simpl; [set_solver|]. case_decide; set_solver. Qed.

(** ** Lemmas on comparing *)

Lemma strcmp_refl a : strcmp a a = 0.
Proof. induction a; simpl; [done|]. rewrite Z.ltb_irrefl. done. Qed.

Lemma strcmp_0 a b : strcmp a b = 0 <-> a = b.
Proof.
  split; [|intros ->; apply strcmp_refl].
  revert b; induction a as [|x a IH]; destruct b as [|y b]; simpl; try done.
  repeat case_match; try done. intros H'. bool_lia.
  f_equal; [|by apply IH]. apply byte_val_inj. lia.
Qed.

Lemma strcmp_antisym a b : strcmp b a = - strcmp a b.
Proof.
  revert b; induction a as [|x a IH]; destruct b as [|y b]; simpl; try done.
  repeat case_match; try done; bool_lia.
Qed.

Lemma strcmp_lt_trans a b c :
  strcmp a b < 0 -> strcmp b c < 0 -> strcmp a c < 0.
Proof.
  revert b c; induction a as [|x a IH]; destruct b as [|y b], c as [|z c];
    simpl; try done; try lia.
  repeat case_match; bool_lia; intros; eauto.
Qed.

Lemma strcmp_range a b : strcmp a b = -1 \/ strcmp a b = 0 \/ strcmp a b = 1.
Proof.
  revert b; induction a as [|x a IH]; destruct b as [|y b]; simpl; auto.
  repeat case_match; auto.
Qed.

(** strcmp induces a strict total order. *)
Lemma strcmp_total a b : strcmp a b < 0 \/ a = b \/ strcmp b a < 0.
Proof.
  destruct (strcmp_range a b) as [H|[H|H]]; [lia | | rewrite (strcmp_antisym a b); lia].
  apply strcmp_0 in H. auto.
Qed.

(** ** Lemmas on strstr *)

Lemma strstr_Some s p t :
  strstr s p = Some t ->
  exists l r, s = l ++ t /\ t = p ++ r /\
    (forall l1 l2, l = l1 ++ l2 -> l2 <> [] -> take (length p) (l2 ++ t) <> p).
Proof.
  revert t; induction s as [|x s IH]; simpl; intros t; case_decide as E;
    intros H; simplify_eq.
  - exists [], []. rewrite take_nil in E. subst p. repeat split.
    intros l1 l2 H. symmetry in H. apply app_eq_nil in H as [_ ->]. done.
  - exists [], (drop (length p) (x :: s)).
    split; [done|]. split; [by rewrite <- E at 1; rewrite take_drop|].
    intros l1 l2 H. symmetry in H. apply app_eq_nil in H as [_ ->]. done.
  - destruct (IH t H) as (l & r & -> & Ht & Hm). exists (x :: l), r.
    split; [done|]. split; [done|]. intros l1 l2 Hl Hne.
    destruct l1 as [|y l1]; simpl in Hl; [subst l2; by simpl|].
    injection Hl as <- Hl. by apply (Hm l1).
Qed.

Lemma strstr_None s p :
  strstr s p = None -> forall l r, s <> l ++ p ++ r.
Proof.
  induction s as [|x s IH]; simpl; case_decide as E; intros H l r Hs; try done.
  - symmetry in Hs. apply app_eq_nil in Hs as [_ Hs].
    apply app_eq_nil in Hs as [-> _]. done.
  - destruct l as [|y l]; simpl in Hs.
    + apply E. rewrite Hs. by rewrite take_app_length.
    + injection Hs as -> Hs. by eapply IH.
Qed.

(** ** Lemmas on printing numbers *)

Lemma undigit_digit d : 0 <= d < 16 -> undigit (digit d) = d.
Proof.
  intros H. unfold undigit, digit.
  destruct (d <? 10) eqn:E; bool_lia; rewrite !byte_val_of, !Z.mod_small by lia;
    case_match; bool_lia.
Qed.

Lemma undigits_app base l c :
  undigits base (l ++ [c]) = undigits base l * base + undigit c.
Proof. unfold undigits. by rewrite fold_left_app. Qed.

Lemma log2_div_lt base z :
  2 <= base -> base <= z -> Z.log2 (z / base) < Z.log2 z.
Proof.
  intros Hb Hz.
  assert (0 < z / base) as Hp by (apply Z.div_str_pos; lia).
  apply Z.log2_lt_pow2; [lia|].
  assert (2 ^ Z.log2 z <= z < 2 ^ Z.succ (Z.log2 z)) as [Hl Hu]
    by (apply Z.log2_spec; lia).
  rewrite Z.pow_succ_r in Hu by apply Z.log2_nonneg.
  apply Z.div_lt_upper_bound; nia.
Qed.

Lemma digits_fuel_undigits fuel base z :
  2 <= base <= 16 -> 0 <= z -> Z.log2 z < Z.of_nat fuel ->
  undigits base (digits_fuel fuel base z) = z.
Proof.
  intros Hb. revert z; induction fuel as [|k IH]; intros z Hz Hf.
  - pose proof (Z.log2_nonneg z). lia.
  - cbn [digits_fuel]. rewrite undigits_app.
    pose proof (Z.mod_pos_bound z base ltac:(lia)).
    rewrite undigit_digit by lia. destruct (z <? base) eqn:E; bool_lia.
    + cbn. rewrite Z.mod_small; lia.
    + rewrite IH.
      * pose proof (Z.div_mod z base). lia.
      * apply Z.div_pos; lia.
      * pose proof (log2_div_lt base z). lia.
Qed.

Lemma digits_undigits base z :
  2 <= base <= 16 -> 0 <= z -> undigits base (digits base z) = z.
Proof.
  intros. apply digits_fuel_undigits; [done..|].
  pose proof (Z.log2_nonneg z). lia.
Qed.

Lemma digits_inj base a b :
  2 <= base <= 16 -> 0 <= a -> 0 <= b -> digits base a = digits base b -> a = b.
Proof.
  intros Hb Ha Hb' H. rewrite <- (digits_undigits base a), H by done.
  by apply digits_undigits.
Qed.

Lemma digits_fuel_length fuel base z n :
  2 <= base -> 0 <= z < base ^ (Z.of_nat n) -> (0 < n)%nat ->
  (length (digits_fuel fuel base z) <= n)%nat.
Proof.
  intros Hb. revert z n; induction fuel as [|k IH]; intros z n Hz Hn; [simpl; lia|].
  cbn [digits_fuel]. rewrite length_app. simpl. destruct (z <? base) eqn:E; bool_lia; [simpl; lia|].
  destruct n as [|[|n]]; [lia | | ].
  - rewrite Z.pow_1_r in Hz. lia.
  - enough (length (digits_fuel k base (z / base)) <= S n)%nat by lia.
    apply IH; [|lia]. split; [apply Z.div_pos; lia|].
    apply Z.div_lt_upper_bound; [lia|].
    rewrite <- Z.pow_succ_r by lia.
    replace (Z.succ (Z.of_nat (S n))) with (Z.of_nat (S (S n))) by lia. lia.
Qed.

Lemma digits_length base z n :
  2 <= base -> 0 <= z < base ^ (Z.of_nat n) -> (0 < n)%nat ->
  (length (digits base z) <= n)%nat.
Proof. intros. by apply digits_fuel_length. Qed.

Lemma digits_not_nil base z : digits base z <> [].
Proof. unfold digits. cbn [digits_fuel]. by intros [_ H]%app_nil. Qed.

Lemma digit_spec d :
  0 <= d < 16 ->
  48 <= byte_val (digit d) < 58 \/ 97 <= byte_val (digit d) < 103.
Proof.
  intros H. unfold digit. destruct (d <? 10) eqn:E; bool_lia; rewrite byte_val_of, Z.mod_small; lia.
Qed.

Lemma digits_fuel_elem fuel base z c :
  2 <= base <= 16 -> c ∈ digits_fuel fuel base z ->
  exists d, 0 <= d < base /\ c = digit d.
Proof.
  intros Hb. revert z; induction fuel as [|k IH]; intros z; simpl; [set_solver|].
  rewrite elem_of_app, list_elem_of_singleton. intros [H| ->].
  - case_match; [set_solver|eauto].
  - exists (z mod base). split; [|done]. apply Z.mod_pos_bound. lia.
Qed.

(** No character of a printed number is the given separator. *)
Lemma digits_not_elem base z c :
  2 <= base <= 16 ->
  ~ (48 <= byte_val c < 58) -> ~ (97 <= byte_val c < 103) ->
  c ∉ digits base z.
Proof.
  intros Hb H1 H2 (d & Hd & ->)%digits_fuel_elem; [|done].
  destruct (digit_spec d); lia.
Qed.

Lemma undigits_pad base n l : undigits base (pad_left n l) = undigits base l.
Proof.
  unfold pad_left, undigits. rewrite fold_left_app. f_equal.
  induction (n - length l)%nat as [|k IH]; simpl; [done|].
  change (undigit (digit 0)) with 0. done.
Qed.

Lemma pad_left_length n l : length (pad_left n l) = Nat.max n (length l).
Proof. unfold pad_left. rewrite length_app, length_replicate. lia. Qed.

Lemma pad_left_elem n l c : c ∈ pad_left n l -> c = digit 0 \/ c ∈ l.
Proof.
  unfold pad_left. rewrite elem_of_app. intros [H|H]; [|auto].
  apply elem_of_replicate in H as [-> _]. auto.
Qed.
