(* ===== verification/Ere.v ===== *)
(** * Extended regular expressions: regcomp(3) and regexec(3), as the sources use them

    mount.aufs.c and ver.c compile one pattern each, with REG_EXTENDED | REG_NOSUB, and
    ask whether a string has a match.  The expressions are parsed from the patterns of
    the sources ([regcomp]), have a denotation ([matches], with the two anchors), and
    are run by derivatives ([regexec]), which is proved equal to the denotation.  Of
    POSIX the patterns need characters, escapes, brackets with ranges, groups,
    alternatives, the anchors and the repetitions [*], [+] and [?]. *)
From S2P Require Import Prelude CString.

Inductive ere :=
  | RVoid
  | REps
  | RSet (neg : bool) (ranges : list (ascii * ascii))
  | RBol
  | REol
  | RCat (r s : ere)
  | RAlt (r s : ere)
  | RStar (r : ere).

Definition RChr (c : ascii) : ere := RSet false [(c, c)].
Definition RAny : ere := RSet true [].
Definition ROpt (r : ere) : ere := RAlt r REps.
Definition RPlus (r : ere) : ere := RCat r (RStar r).

Definition in_range (c : ascii) (ab : ascii * ascii) : bool :=
  (byte_val ab.1 <=? byte_val c) && (byte_val c <=? byte_val ab.2).
Definition in_set (neg : bool) (rs : list (ascii * ascii)) (c : ascii) : bool :=
  xorb neg (existsb (in_range c) rs).

(** ** What an expression means

    [matches r b w e]: [r] matches [w], where [b] says that [w] starts at the start of
    the string and [e] that it ends at its end. *)
Definition is_nil (w : bytes) : bool := match w with [] => true | _ => false end.

Inductive matches : ere -> bool -> bytes -> bool -> Prop :=
  | m_eps b e : matches REps b [] e
  | m_set neg rs c b e : in_set neg rs c = true -> matches (RSet neg rs) b [c] e
  | m_bol e : matches RBol true [] e
  | m_eol b : matches REol b [] true
  | m_cat r s b u v e :
      matches r b u (e && is_nil v) -> matches s (b && is_nil u) v e ->
      matches (RCat r s) b (u ++ v) e
  | m_alt_l r s b w e : matches r b w e -> matches (RAlt r s) b w e
  | m_alt_r r s b w e : matches s b w e -> matches (RAlt r s) b w e
  | m_star_nil r b e : matches (RStar r) b [] e
  | m_star_cons r b u v e :
      matches r b u (e && is_nil v) -> matches (RStar r) (b && is_nil u) v e ->
      matches (RStar r) b (u ++ v) e.

(** A match somewhere in the string. *)
Definition found (r : ere) (s : bytes) : Prop :=
  exists x u y, s = x ++ u ++ y /\ matches r (is_nil x) u (is_nil y).

(** ** regexec(3) by derivatives *)

Fixpoint nullable (b e : bool) (r : ere) : bool :=
  match r with
  | RVoid | RSet _ _ => false
  | REps | RStar _ => true
  | RBol => b
  | REol => e
  | RCat r s => nullable b e r && nullable b e s
  | RAlt r s => nullable b e r || nullable b e s
  end.

Fixpoint deriv (b : bool) (c : ascii) (r : ere) : ere :=
  match r with
  | RVoid | REps | RBol | REol => RVoid
  | RSet neg rs => if in_set neg rs c then REps else RVoid
  | RCat r s =>
      let d := RCat (deriv b c r) s in
      if nullable b false r then RAlt d (deriv b c s) else d
  | RAlt r s => RAlt (deriv b c r) (deriv b c s)
  | RStar r => RCat (deriv b c r) (RStar r)
  end.

(** Does [r] match some prefix of [s]? *)
Fixpoint match_here (b : bool) (r : ere) (s : bytes) : bool :=
  nullable b (is_nil s) r ||
  match s with
  | [] => false
  | c :: s' => match_here false (deriv b c r) s'
  end.

Fixpoint search (b : bool) (r : ere) (s : bytes) : bool :=
  match_here b r s ||
  match s with
  | [] => false
  | _ :: s' => search false r s'
  end.

(** true: regexec() returns 0 *)
Definition regexec (r : ere) (s : bytes) : bool := search true r s.

(** ** regcomp(3)

    A recursive descent over the pattern; [None] is an error, or a construct that is
    left out. *)

(** The ranges of a bracket expression, up to its closing bracket. *)
Fixpoint p_ranges (s : bytes) (acc : list (ascii * ascii))
    : option (list (ascii * ascii) * bytes) :=
  match s with
  | [] => None
  | "]"%char :: r => Some (reverse acc, r)
  | "["%char :: _ => None
  | a :: r =>
      match r with
      | "-"%char :: b :: r' =>
          if decide (b = "]"%char) then p_ranges r ((a, a) :: acc)
          else if byte_val b <? byte_val a then None
          else p_ranges r' ((a, b) :: acc)
      | _ => p_ranges r ((a, a) :: acc)
      end
  end.

Definition p_bracket (s : bytes) : option (ere * bytes) :=
  let '(neg, s) := match s with "^"%char :: r => (true, r) | _ => (false, s) end in
  match s with
  | "]"%char :: r => '(rs, r) ← p_ranges r [("]"%char, "]"%char)]; Some (RSet neg rs, r)
  | _ => '(rs, r) ← p_ranges s []; Some (RSet neg rs, r)
  end.

(** The repetitions behind an atom. *)
Fixpoint p_post (r : ere) (s : bytes) : ere * bytes :=
  match s with
  | "*"%char :: s' => p_post (RStar r) s'
  | "+"%char :: s' => p_post (RPlus r) s'
  | "?"%char :: s' => p_post (ROpt r) s'
  | _ => (r, s)
  end.

Definition p_atom (group : bytes -> option (ere * bytes)) (s : bytes) : option (ere * bytes) :=
  match s with
  | [] => None
  | "("%char :: r =>
      '(x, r) ← group r;
      match r with ")"%char :: r => Some (x, r) | _ => None end
  | "["%char :: r => p_bracket r
  | "."%char :: r => Some (RAny, r)
  | "^"%char :: r => Some (RBol, r)
  | "$"%char :: r => Some (REol, r)
  | "\"%char :: c :: r => Some (RChr c, r)
  | c :: r => if decide (c ∈ [ "*"; "+"; "?"; "{"; ")"; "|"; "\" ]%char) then None
              else Some (RChr c, r)
  end.

(** The concatenation of the items of an alternative, the last one first. *)
Fixpoint cat_of (acc : list ere) (r : ere) : ere :=
  match acc with [] => r | a :: acc => cat_of acc (RCat a r) end.
Definition cat_items (acc : list ere) : ere :=
  match acc with [] => REps | a :: acc => cat_of acc a end.

(** A pattern up to [)] or the end.  [lhs] is the alternative before the last bar, [acc]
    what the current one has so far. *)
Fixpoint p_alt (fuel : nat) (lhs : option ere) (acc : list ere) (s : bytes)
    : option (ere * bytes) :=
  match fuel with
  | O => None
  | S k =>
      let done := match lhs with Some l => RAlt l (cat_items acc) | None => cat_items acc end in
      match s with
      | [] => Some (done, [])
      | ")"%char :: _ => Some (done, s)
      | "|"%char :: r => p_alt k (Some done) [] r
      | _ =>
          '(x, r) ← p_atom (p_alt k None []) s;
          let '(x, r) := p_post x r in
          p_alt k lhs (x :: acc) r
      end
  end.

Definition regcomp (pat : bytes) : option ere :=
  '(r, rest) ← p_alt (S (length pat)) None [] pat;
  match rest with [] => Some r | _ => None end.

(** ** The executable matcher is the denotation *)

#[export] Hint Constructors matches : core.

Lemma is_nil_spec w : is_nil w = true <-> w = [].
Proof. by destruct w. Qed.

Lemma nullable_spec r b e : nullable b e r = true <-> matches r b [] e.
Proof.
  split.
  - revert b e. induction r; intros bb ee H; simpl in H; try done; eauto.
    + by destruct bb.
    + by destruct ee.
    + apply andb_true_iff in H as [H1 H2]. apply (m_cat _ _ _ [] []); simpl.
      * rewrite Bool.andb_true_r. auto.
      * rewrite Bool.andb_true_r. auto.
    + apply orb_true_iff in H as [H|H]; eauto.
  - intros H. remember [] as w eqn:Ew. induction H; simplify_eq/=; try done.
    + apply app_eq_nil in Ew as [-> ->]. simpl in *. rewrite Bool.andb_true_r in *.
      by rewrite IHmatches1, IHmatches2.
    + by rewrite IHmatches.
    + by rewrite IHmatches, Bool.orb_true_r.
Qed.

(** An empty iteration adds nothing. *)
Lemma star_cons_inv r b c w e :
  matches (RStar r) b (c :: w) e ->
  exists u v, w = u ++ v /\ matches r b (c :: u) (e && is_nil v) /\ matches (RStar r) false v e.
Proof.
  intros H. remember (RStar r) as rr eqn:Er. remember (c :: w) as cw eqn:Ew.
  revert c w Ew. induction H; intros c0 w0 Ew; simplify_eq/=.
  destruct u as [|c1 u]; simpl in *.
  - rewrite Bool.andb_true_r in *. by apply IHmatches2.
  - simplify_eq. rewrite Bool.andb_false_r in *. eauto 10.
Qed.

Lemma deriv_spec r b c w e : matches (deriv b c r) false w e <-> matches r b (c :: w) e.
Proof.
  revert b w e. induction r as [| |neg rs| | |r1 IH1 r2 IH2|r1 IH1 r2 IH2|r IH]; intros b w e; simpl.
  - split; intros H; inversion H.
  - split; intros H; inversion H.
  - destruct (in_set neg rs c) eqn:E.
    + split; intros H; inversion H; subst; auto.
    + split; intros H; inversion H; subst; congruence.
  - split; intros H; inversion H.
  - split; intros H; inversion H.
  - assert (matches (RCat (deriv b c r1) r2) false w e <->
      exists u v, w = u ++ v /\ matches r1 b (c :: u) (e && is_nil v) /\ matches r2 false v e) as Hc.
    { split.
      - intros H; inversion H; subst. rewrite IH1 in *. eauto.
      - intros (u & v & -> & H1 & H2). apply m_cat; [by apply IH1|done]. }
    assert (matches (RCat r1 r2) b (c :: w) e <->
      matches (RCat (deriv b c r1) r2) false w e \/
      (nullable b false r1 = true /\ matches (deriv b c r2) false w e)) as Hs.
    { rewrite Hc, IH2, nullable_spec. split.
      - intros H; inversion H as [| | | |? ? ? u v ? H1 H2 Heq Ew| | | |]; subst.
        destruct u as [|c0 u]; simplify_eq/=.
        + right. rewrite Bool.andb_true_r in *. rewrite Bool.andb_false_r in H1. done.
        + left. rewrite Bool.andb_false_r in H2. eauto.
      - intros [(u & v & -> & H1 & H2)|[H1 H2]].
        + rewrite app_comm_cons. apply m_cat; [done|]. by rewrite Bool.andb_false_r.
        + apply (m_cat _ _ _ [] (c :: w)); simpl;
            [by rewrite Bool.andb_false_r|by rewrite Bool.andb_true_r]. }
    rewrite Hs. destruct (nullable b false r1); [|naive_solver].
    split; [intros H; inversion H; subst; auto|intros [?|[_ ?]]; auto].
  - split; intros H; inversion H; subst.
    1, 3: apply m_alt_l; by apply IH1. all: apply m_alt_r; by apply IH2.
  - split.
    + intros H; inversion H; subst. rewrite app_comm_cons.
      apply m_star_cons; [by apply IH|]. by rewrite Bool.andb_false_r.
    + intros H. apply star_cons_inv in H as (u & v & -> & H1 & H2).
      apply m_cat; [by apply IH|done].
Qed.

Lemma match_here_spec s b r :
  match_here b r s = true <-> exists u y, s = u ++ y /\ matches r b u (is_nil y).
Proof.
  revert b r. induction s as [|c s IH]; intros b r; simpl; rewrite orb_true_iff, nullable_spec.
  - split.
    + intros [H|H]; [|done]. by exists [], [].
    + intros (u & y & E & H). symmetry in E. apply app_eq_nil in E as [-> ->]. by left.
  - rewrite IH. split.
    + intros [H|(u & y & -> & H)]; [by exists [], (c :: s)|].
      exists (c :: u), y. split; [done|]. by apply deriv_spec.
    + intros ([|c0 u] & y & E & H); simplify_eq/=; [by left|].
      right. exists u, y. split; [done|]. by apply deriv_spec.
Qed.

Lemma search_spec s b r :
  search b r s = true <->
  exists x u y, s = x ++ u ++ y /\ matches r (b && is_nil x) u (is_nil y).
Proof.
  revert b. induction s as [|c s IH]; intros b; cbn [search]; rewrite orb_true_iff, match_here_spec.
  - split.
    + intros [(u & y & E & H)|H]; [|done]. exists [], u, y. by rewrite Bool.andb_true_r.
    + intros (x & u & y & E & H). symmetry in E. apply app_eq_nil in E as [-> E].
      rewrite Bool.andb_true_r in H. left. by exists u, y.
  - rewrite IH. split.
    + intros [(u & y & E & H)|(x & u & y & -> & H)].
      * exists [], u, y. by rewrite Bool.andb_true_r.
      * exists (c :: x), u, y. by rewrite Bool.andb_false_r.
    + intros ([|c0 x] & u & y & E & H); simplify_eq/=.
      * left. rewrite Bool.andb_true_r in H. by exists u, y.
      * right. rewrite Bool.andb_false_r in H. eauto.
Qed.

(** The executable matcher answers exactly whether the expression has a match. *)
Lemma regexec_spec r s : regexec r s = true <-> found r s.
Proof. apply search_spec. Qed.

(** An expression that begins with [^] is only tried at the start. *)
Lemma matches_bol_cat r b w e : matches (RCat RBol r) b w e <-> b = true /\ matches r true w e.
Proof.
  split.
  - intros H; inversion H as [| | | |? ? ? u v ? H1 H2| | | |]; subst. inversion H1; subst.
    simpl in *. done.
  - intros [-> H]. by apply (m_cat _ _ _ [] w).
Qed.

Lemma search_false_bol r s : search false (RCat RBol r) s = false.
Proof.
  apply not_true_is_false. rewrite search_spec. intros (x & u & y & _ & H).
  by apply matches_bol_cat in H as [? _].
Qed.

Lemma regexec_bol r s : regexec (RCat RBol r) s = match_here true r s.
Proof.
  apply Bool.eq_iff_eq_true. rewrite regexec_spec, match_here_spec. split.
  - intros (x & u & y & -> & H). apply matches_bol_cat in H as [Hx H].
    destruct x as [|? ?]; [|done]. by exists u, y.
  - intros (u & y & -> & H). exists [], u, y. split; [done|]. by apply matches_bol_cat.
Qed.

(** ** Matching at one place, as rewriting *)

Definition same_at (b : bool) (r s : ere) : Prop := forall w e, matches r b w e <-> matches s b w e.

Lemma match_here_same b r r' s : same_at b r r' -> match_here b r s = match_here b r' s.
Proof.
  intros H. apply Bool.eq_iff_eq_true. rewrite !match_here_spec. unfold same_at in H.
  by setoid_rewrite H.
Qed.

Ltac inv_match :=
  repeat match goal with
  | H : matches (RCat _ _) _ _ _ |- _ => inversion H; clear H; subst
  | H : matches (RAlt _ _) _ _ _ |- _ => inversion H; clear H; subst
  | H : matches (RSet _ _) _ _ _ |- _ => inversion H; clear H; subst
  | H : matches RVoid _ _ _ |- _ => inversion H
  | H : matches REps _ _ _ |- _ => inversion H; clear H; subst
  | H : matches REol _ _ _ |- _ => inversion H; clear H; subst
  end.

(** The hypothesis that matches the same, up to the laws of the flags. *)
Ltac same_flags :=
  match goal with
  | Hnil : forall u v, is_nil (u ++ v) = _, H : matches ?r ?b ?w ?e |- matches ?r ?b' ?w ?e' =>
      replace e' with e; [replace b' with b; [exact H|]|];
      rewrite ?Hnil; repeat match goal with |- context [is_nil ?x] => destruct (is_nil x) end;
      by repeat match goal with x : bool |- _ => destruct x end
  end.

Lemma same_cat_eps b r : same_at b (RCat REps r) r.
Proof.
  intros w e. split; intros H; inv_match; simpl in *; [by rewrite Bool.andb_true_r in *|].
  apply (m_cat _ _ _ [] w); simpl; [done|by rewrite Bool.andb_true_r].
Qed.

Lemma same_cat_assoc b r1 r2 r3 : same_at b (RCat (RCat r1 r2) r3) (RCat r1 (RCat r2 r3)).
Proof.
  assert (forall u v : bytes, is_nil (u ++ v) = is_nil u && is_nil v) as Hnil by by intros [].
  intros w e. split; intros H; inv_match.
  - rewrite <- app_assoc. apply m_cat; [|apply m_cat]; same_flags.
  - rewrite app_assoc. apply m_cat; [apply m_cat|]; same_flags.
Qed.

Lemma same_cat_alt b r1 r2 r3 :
  same_at b (RCat (RAlt r1 r2) r3) (RAlt (RCat r1 r3) (RCat r2 r3)).
Proof. intros w e. split; intros H; inv_match; eauto. Qed.

Lemma match_here_alt b r1 r2 s :
  match_here b (RAlt r1 r2) s = match_here b r1 s || match_here b r2 s.
Proof.
  apply Bool.eq_iff_eq_true. rewrite orb_true_iff, !match_here_spec. split.
  - intros (u & y & -> & H). inv_match; eauto.
  - intros [(u & y & -> & H)|(u & y & -> & H)]; eauto 10.
Qed.

Lemma match_here_cat_eps b r s : match_here b (RCat REps r) s = match_here b r s.
Proof. apply match_here_same, same_cat_eps. Qed.
Lemma match_here_cat_assoc b r1 r2 r3 s :
  match_here b (RCat (RCat r1 r2) r3) s = match_here b (RCat r1 (RCat r2 r3)) s.
Proof. apply match_here_same, same_cat_assoc. Qed.
Lemma match_here_cat_alt b r1 r2 r3 s :
  match_here b (RCat (RAlt r1 r2) r3) s
  = match_here b (RCat r1 r3) s || match_here b (RCat r2 r3) s.
Proof. rewrite <- match_here_alt. apply match_here_same, same_cat_alt. Qed.

Lemma match_here_set b neg rs r s :
  match_here b (RCat (RSet neg rs) r) s =
    match s with [] => false | c :: s' => in_set neg rs c && match_here false r s' end.
Proof.
  destruct s as [|c s]; [done|]. cbn [match_here nullable andb orb deriv].
  destruct (in_set neg rs c); cbn [andb]; [apply match_here_cat_eps|].
  apply not_true_is_false. rewrite match_here_spec. intros (u & y & _ & H). inv_match.
Qed.

Lemma match_here_set_end b neg rs s :
  match_here b (RSet neg rs) s = match s with [] => false | c :: _ => in_set neg rs c end.
Proof.
  destruct s as [|c s]; [done|]. cbn [match_here nullable orb deriv].
  destruct (in_set neg rs c); [by destruct s|].
  apply not_true_is_false. rewrite match_here_spec. intros (u & y & _ & H). inv_match.
Qed.

Lemma match_here_eps b s : match_here b REps s = true.
Proof. by destruct s. Qed.
Lemma match_here_eol b s : match_here b REol s = is_nil s.
Proof.
  apply Bool.eq_iff_eq_true. rewrite match_here_spec, is_nil_spec. split.
  - intros (u & y & -> & H). inversion H as [| | |? E| | | | |]; subst. by apply is_nil_spec.
  - intros ->. by exists [], [].
Qed.

Lemma in_set_chr c d : in_set false [(c, c)] d = bool_decide (c = d).
Proof.
  unfold in_set, in_range. cbn [existsb fst snd xorb]. rewrite Bool.orb_false_r.
  apply Bool.eq_iff_eq_true. rewrite andb_true_iff, !Z.leb_le, bool_decide_eq_true. split.
  - intros ?. apply byte_val_inj. lia.
  - intros ->. lia.
Qed.

(** A literal word, as [regcomp] reads it. *)
Fixpoint word (w : bytes) : ere :=
  match w with
  | [] => REps
  | [c] => RChr c
  | c :: w => RCat (RChr c) (word w)
  end.

Lemma match_here_cat_chr b c r s :
  match_here b (RCat (RChr c) r) s =
    match s with [] => false | d :: s' => bool_decide (c = d) && match_here false r s' end.
Proof. unfold RChr. rewrite match_here_set. destruct s as [|d s]; [done|]. by rewrite in_set_chr. Qed.

Lemma match_here_cat_word w b r s :
  w <> [] ->
  match_here b (RCat (word w) r) s =
    bool_decide (take (length w) s = w) && match_here false r (drop (length w) s).
Proof.
  intros Hw. destruct w as [|c w]; [done|]. clear Hw. revert c b s.
  induction w as [|c' w IH]; intros c b s.
  - cbn [word]. rewrite match_here_cat_chr. destruct s as [|d s]; [done|]. cbn [length take drop].
    f_equal. apply bool_decide_ext. rewrite take_0. split; [by intros ->|by intros [= ->]].
  - change (word (c :: c' :: w)) with (RCat (RChr c) (word (c' :: w))).
    rewrite match_here_cat_assoc, match_here_cat_chr. destruct s as [|d s]; [done|].
    rewrite IH, Bool.andb_assoc. change (length (c :: c' :: w)) with (S (length (c' :: w))).
    cbn [drop]. f_equal. rewrite <- bool_decide_and. apply bool_decide_ext.
    cbn [take].
    split; [by intros [-> ->]|intros H; by injection H].
Qed.

(** A repetition of characters that the string is made of stops anywhere. *)
Lemma match_here_star_any neg rs r s :
  Forall (fun c => in_set neg rs c = true) s ->
  match_here false (RCat (RStar (RSet neg rs)) r) s = true <->
  exists x y, s = x ++ y /\ match_here false r y = true.
Proof.
  intros Hs. rewrite match_here_spec. split.
  - intros (u & y & -> & H). inversion H as [| | | |? ? ? u1 v ? H1 H2| | | |]; subst.
    exists u1, (v ++ y). rewrite <- app_assoc. split; [done|]. apply match_here_spec. eauto.
  - intros (x & y & -> & H). apply match_here_spec in H as (u & z & -> & H).
    exists (x ++ u), z. split; [by rewrite app_assoc|]. apply m_cat; [|done].
    apply Forall_app in Hs as [Hx _]. generalize (is_nil z && is_nil u).
    induction Hx as [|c x Hc Hx IH]; intros e; [auto|].
    apply (m_star_cons _ _ [c]); [auto|]. apply IH.
Qed.
