(* ===== verification/AuUtil.v ===== *)
(** * au_util.h: the version and the texts that the programs print

    The build with FHSM ([AUFHSM] defined) and without DEBUG.  A text is a list of lines,
    with tabs and newlines written as the escapes of C. *)
From S2P Require Import Prelude CString.

Definition newline : bytes := [byte_of 10].
(** The C literal: backslash-t and backslash-n are a tab and a newline, and
    backslash-q stands for a double quote. *)
Fixpoint unescape (s : bytes) : bytes :=
  match s with
  | [] => []
  | c :: r =>
      match r with
      | d :: r' =>
          if decide (c = "\"%char) then
            byte_of (if decide (d = "n"%char) then 10
                     else if decide (d = "t"%char) then 9
                     else if decide (d = "q"%char) then 34 else byte_val d) :: unescape r'
          else c :: unescape r
      | [] => [c]
      end
  end.
Definition clit (s : string) : bytes := unescape (lit s).

Definition AuRelease : bytes := lit "20160926".
Definition AuFhsmStr : bytes := lit " with FHSM".
Definition AuVersionGitBranch : bytes := lit "aufs3.x-rcN".
Definition AuVersion : bytes :=
  lit "aufs-util for " ++ AuVersionGitBranch ++ AuFhsmStr ++ lit " " ++ AuRelease.

Definition MTab : bytes := lit "/etc/mtab".

(** printf("%s version %s\n", program_invocation_short_name, AuVersion) *)
Definition version_text (prog : bytes) : bytes :=
  prog ++ lit " version " ++ AuVersion ++ newline.
