(* ===== verification/GetOpt.v ===== *)
(** * getopt(3) and getopt_long(3): the command lines of the programs

    The part of the C library's option parser that the programs rely on, in its default
    mode, which permutes [argv] so that the operands come last, and in the mode that
    POSIXLY_CORRECT selects, which stops at the first operand.  One call is
    [getopt_long]; the state between two calls says what of [argv] is left, inside which
    cluster of flags the next call goes on, and which operands were skipped.  The option
    strings of the sources use flags and options with a required argument.

    A run is proved to end ([getopt_n_ends]), and the options are proved to be read back
    from any way to write them ([getopt_render]): clusters, attached and separate
    arguments, long options and their abbreviations, operands in between, "--". *)
From S2P Require Import Prelude CString.

Inductive has_arg := no_argument | required_argument.

(** [struct option] without a flag pointer *)
Record longopt := LongOpt { lo_name : bytes; lo_has : has_arg; lo_val : ascii }.

#[export] Instance has_arg_eq_dec : EqDecision has_arg.
Proof. solve_decision. Defined.
#[export] Instance longopt_eq_dec : EqDecision longopt.
Proof. solve_decision. Defined.

Inductive ordering := PERMUTE | REQUIRE_ORDER.

(** The character returned, [optarg], and the index of a long option that was found. *)
Record optres := OptRes { r_opt : ascii; r_arg : option bytes; r_ind : option nat }.

(** [g_rest] is [argv] from [optind] on, the operands that were skipped apart; while
    [g_next] is not empty its first element is the cluster that [g_next] ends. *)
Record gstate := GState { g_rest : list bytes; g_next : bytes; g_skipped : list bytes }.

Section getopt.
Context (order : ordering) (short : bytes) (longs : option (list longopt)).

(** What the option string says of a character; colons are not options. *)
Definition short_find (c : ascii) : option has_arg :=
  if decide (c = ":"%char \/ c = ";"%char) then None
  else
    i ← strchr short c;
    match drop (S i) short with
    | d :: _ => Some (if decide (d = ":"%char) then required_argument else no_argument)
    | [] => Some no_argument
    end.

Definition bad_opt : optres := OptRes "?" None None.
(** A missing argument is told apart when the option string begins with a colon. *)
Definition missing_arg : optres :=
  match short with ":"%char :: _ => OptRes ":" None None | _ => bad_opt end.

(** An exact name is preferred; an abbreviation must not be ambiguous. *)
Definition same_effect (o p : longopt) : bool :=
  bool_decide (lo_has o = lo_has p) && bool_decide (lo_val o = lo_val p).
Definition abbreviates (n : bytes) (o : longopt) : bool :=
  bool_decide (take (length n) (lo_name o) = n).

Fixpoint find_from (P : longopt -> bool) (i : nat) (ls : list longopt) : option (nat * longopt) :=
  match ls with
  | [] => None
  | o :: ls => if P o then Some (i, o) else find_from P (S i) ls
  end.

Definition long_find (ls : list longopt) (n : bytes) : option (nat * longopt) :=
  match find_from (fun o => bool_decide (lo_name o = n)) 0 ls with
  | Some io => Some io
  | None =>
      '(i, o) ← find_from (abbreviates n) 0 ls;
      if forallb (fun p => negb (abbreviates n p) || same_effect o p) ls then Some (i, o) else None
  end.

(** The text before the first "=", and what follows it. *)
Fixpoint split_eq (s : bytes) : bytes * option bytes :=
  match s with
  | [] => ([], None)
  | c :: r => if decide (c = "="%char) then ([], Some r)
              else let '(n, v) := split_eq r in (c :: n, v)
  end.

(** process_long_option(): [s] follows the dashes, [r] is [argv] behind it. *)
Definition long_option (ls : list longopt) (s : bytes) (r sk : list bytes) : optres * gstate :=
  let '(n, v) := split_eq s in
  match long_find ls n with
  | None => (bad_opt, GState r [] sk)
  | Some (i, o) =>
      match v, lo_has o with
      | Some v, required_argument => (OptRes (lo_val o) (Some v) (Some i), GState r [] sk)
      | Some _, no_argument => (bad_opt, GState r [] sk)
      | None, no_argument => (OptRes (lo_val o) None (Some i), GState r [] sk)
      | None, required_argument =>
          match r with
          | a :: r => (OptRes (lo_val o) (Some a) (Some i), GState r [] sk)
          | [] => (missing_arg, GState [] [] sk)
          end
      end
  end.

(** A flag [c] of the cluster [cur]; [n] follows it there, [r] is [argv] behind it. *)
Definition short_option (c : ascii) (n cur : bytes) (r sk : list bytes) : optres * gstate :=
  let next := match n with [] => GState r [] sk | _ => GState (cur :: r) n sk end in
  match short_find c with
  | None => (bad_opt, next)
  | Some no_argument => (OptRes c None None, next)
  | Some required_argument =>
      match n with
      | _ :: _ => (OptRes c (Some n) None, GState r [] sk)
      | [] => match r with
              | a :: r => (OptRes c (Some a) None, GState r [] sk)
              | [] => (missing_arg, GState [] [] sk)
              end
      end
  end.

(** What follows a leading dash; the first flag and the rest of an element that is not an
    operand ("-" is one). *)
Definition undash (a : bytes) : option bytes :=
  match a with
  | c :: r => if decide (c = "-"%char) then Some r else None
  | [] => None
  end.
Definition flags_of (a : bytes) : option (ascii * bytes) :=
  match undash a with Some (c :: n) => Some (c, n) | _ => None end.
Definition nonoption (a : bytes) : bool :=
  match flags_of a with Some _ => false | None => true end.
Fixpoint split_nonopts (l : list bytes) : list bytes * list bytes :=
  match l with
  | [] => ([], [])
  | a :: r => if nonoption a then let '(x, y) := split_nonopts r in (a :: x, y) else ([], l)
  end.

(** A new element of [argv], [sk] being the operands before it. *)
Definition next_element (sk rest : list bytes) : option optres * gstate :=
  match rest with
  | [] => (None, GState sk [] [])
  | a :: r =>
      if decide (a = lit "--") then (None, GState (sk ++ r) [] [])
      else
        match flags_of a with
        | None => (None, GState (sk ++ rest) [] [])
        | Some (c, n) =>
            let '(x, st) := match longs, undash (c :: n) with
                            | Some ls, Some s => long_option ls s r sk
                            | _, _ => short_option c n a r sk
                            end in
            (Some x, st)
        end
  end.

(** One call; [None] is -1, and [g_rest] then begins with the first operand. *)
Definition getopt_long (st : gstate) : option optres * gstate :=
  match g_next st, g_rest st with
  | c :: n, cur :: r => let '(x, st) := short_option c n cur r (g_skipped st) in (Some x, st)
  | _, _ =>
      match order with
      | PERMUTE => let '(x, y) := split_nonopts (g_rest st) in next_element (g_skipped st ++ x) y
      | REQUIRE_ORDER => next_element (g_skipped st) (g_rest st)
      end
  end.

(** At most [n] calls, up to the one that answers -1. *)
Fixpoint getopt_n (n : nat) (st : gstate) : list optres * gstate :=
  match n with
  | O => ([], st)
  | S k =>
      match getopt_long st with
      | (None, st) => ([], st)
      | (Some x, st) => let '(xs, st) := getopt_n k st in (x :: xs, st)
      end
  end.

(** What is left to read: every call but the last consumes some of it. *)
Definition size_of (l : list bytes) : nat := foldr (fun a n => S (length a) + n)%nat 0%nat l.
Definition weight (st : gstate) : nat :=
  match g_next st with
  | [] => size_of (g_rest st)
  | n => length n + size_of (tail (g_rest st))
  end.

Definition start (args : list bytes) : gstate := GState args [] [].

(** All calls of a program that loops until -1: the results, and the operands. *)
Definition getopt_all (args : list bytes) : list optres * list bytes :=
  let '(xs, st) := getopt_n (S (size_of args)) (start args) in (xs, g_rest st).

(** The order in which the run leaves [argv]: the elements that hold options, and "--",
    come to stand before the operands.  [ahead] is what a call has before it. *)
Definition ahead (st : gstate) : list bytes :=
  match g_next st, order with
  | [], PERMUTE => (split_nonopts (g_rest st)).2
  | _, _ => g_rest st
  end.
Definition taken (st st' : gstate) : list bytes :=
  take (length (ahead st) - length (g_rest st')) (ahead st).
Definition taken_last (st : gstate) : list bytes :=
  match ahead st with a :: _ => if decide (a = lit "--") then [a] else [] | [] => [] end.

Fixpoint getopt_argv (n : nat) (st : gstate) : list bytes :=
  match n with
  | O => g_skipped st ++ g_rest st
  | S k =>
      match getopt_long st with
      | (None, st') => taken_last st ++ g_rest st'
      | (Some _, st') => taken st st' ++ getopt_argv k st'
      end
  end.

(** ** A run ends *)

Lemma split_nonopts_size l x y : split_nonopts l = (x, y) -> (size_of y <= size_of l)%nat.
Proof.
  revert x y; induction l as [|a l IH]; intros x y; simpl; [by intros [= <- <-]|].
  destruct (nonoption a).
  - destruct (split_nonopts l) as [x' y'] eqn:E. intros [= <- <-].
    specialize (IH _ _ eq_refl). lia.
  - intros [= <- <-]. done.
Qed.

Lemma short_option_weight c n cur r sk x st :
  short_option c n cur r sk = (x, st) -> (weight st <= length n + size_of r)%nat.
Proof.
  unfold short_option. intros H. destruct (short_find c) as [[]|]; [|destruct n|];
    [| destruct r | |]; try destruct n; simplify_eq; unfold weight; simpl; lia.
Qed.

Lemma long_option_weight ls s r sk x st :
  long_option ls s r sk = (x, st) -> (weight st <= size_of r)%nat.
Proof.
  unfold long_option. destruct (split_eq s) as [n v].
  destruct (long_find ls n) as [[i o]|]; [|intros [= <- <-]; unfold weight; simpl; lia].
  destruct v, (lo_has o); [| |destruct r|destruct r]; intros; simplify_eq;
    unfold weight; simpl; lia.
Qed.

Lemma flags_of_length a c n : flags_of a = Some (c, n) -> length a = S (S (length n)).
Proof.
  unfold flags_of, undash. destruct a as [|d [|e a]]; [done|by case_decide|].
  case_decide; [|done]. by intros [= <- <-].
Qed.

Lemma next_element_weight sk rest x st :
  next_element sk rest = (Some x, st) -> (weight st < size_of rest)%nat.
Proof.
  destruct rest as [|a r]; [done|]. cbn [next_element size_of foldr]. fold (size_of r).
  case_decide; [done|]. destruct (flags_of a) as [[c m]|] eqn:Ea; [|done].
  apply flags_of_length in Ea. intros Hx. repeat case_match; simplify_eq;
    repeat match goal with
    | E : long_option _ _ _ _ = _ |- _ => apply long_option_weight in E
    | E : short_option _ _ _ _ _ = _ |- _ => apply short_option_weight in E
    end; lia.
Qed.

Lemma getopt_long_weight st x st' :
  getopt_long st = (Some x, st') -> (weight st' < weight st)%nat.
Proof.
  destruct st as [rest n sk]. unfold getopt_long. cbn [g_next g_rest g_skipped].
  assert (match order with
      | PERMUTE => let '(x, y) := split_nonopts rest in next_element (sk ++ x) y
      | REQUIRE_ORDER => next_element sk rest
      end = (Some x, st') -> (weight st' < size_of rest)%nat) as Hn.
  { destruct order; [|apply next_element_weight].
    destruct (split_nonopts rest) as [u v] eqn:E. intros H%next_element_weight.
    apply split_nonopts_size in E. lia. }
  destruct n as [|c n]; [done|]. destruct rest as [|cur r].
  - intros H%Hn. simpl in H. lia.
  - intros H. destruct (short_option _ _ _ _ _) as [x' st0] eqn:E. simplify_eq.
    apply short_option_weight in E.
    change (weight _) with (S (length n) + size_of r)%nat at 2. lia.
Qed.

(** The run reached -1. *)
Fixpoint ends (n : nat) (st : gstate) : bool :=
  match n with
  | O => false
  | S k => match getopt_long st with (None, _) => true | (Some _, st) => ends k st end
  end.

Lemma getopt_n_ends n st : (weight st < n)%nat -> ends n st = true.
Proof.
  revert st; induction n as [|n IH]; intros st Hn; [lia|]. simpl.
  destruct (getopt_long st) as [[x|] st'] eqn:E; [|done].
  apply IH. apply getopt_long_weight in E. lia.
Qed.

(** Once the run ends, more calls are not made. *)
Lemma getopt_n_enough n m st : ends n st = true -> (n <= m)%nat -> getopt_n m st = getopt_n n st.
Proof.
  revert m st; induction n as [|n IH]; intros m st He Hm; [done|].
  destruct m as [|m]; [lia|]. simpl in *. destruct (getopt_long st) as [[x|] st'] eqn:E; [|done].
  by rewrite (IH m st') by (done || lia).
Qed.

(** ** Without operands [argv] stays as it is *)

Lemma short_option_taken c n cur r sk x st :
  short_option c n cur r sk = (x, st) ->
  g_skipped st = sk /\ exists l, cur :: r = l ++ g_rest st.
Proof.
  unfold short_option. intros H.
  assert (exists l, cur :: r = l ++ r) as H1 by by exists [cur].
  assert (exists l, cur :: r = l ++ cur :: r) as H2 by by exists [].
  assert (forall a r', r = a :: r' -> exists l, cur :: r = l ++ r') as H3
    by (intros a r' ->; by exists [cur; a]).
  assert (exists l, cur :: r = l ++ []) as H4 by (exists (cur :: r); by rewrite app_nil_r).
  repeat case_match; simplify_eq; cbn [g_skipped g_rest]; eauto.
Qed.

Lemma long_option_taken ls s a r sk x st :
  long_option ls s r sk = (x, st) -> g_skipped st = sk /\ exists l, a :: r = l ++ g_rest st.
Proof.
  unfold long_option. intros H.
  assert (exists l, a :: r = l ++ r) as H1 by by exists [a].
  assert (forall b r', r = b :: r' -> exists l, a :: r = l ++ r') as H3
    by (intros b r' ->; by exists [a; b]).
  assert (exists l, a :: r = l ++ []) as H4 by (exists (a :: r); by rewrite app_nil_r).
  repeat case_match; simplify_eq; cbn [g_skipped g_rest]; eauto.
Qed.

Lemma next_element_taken sk rest o st :
  next_element sk rest = (o, st) ->
  match o with
  | Some _ => g_skipped st = sk /\ exists l, rest = l ++ g_rest st
  | None => g_rest st =
      sk ++ match rest with a :: r => if decide (a = lit "--") then r else rest | [] => [] end
  end.
Proof.
  unfold next_element. intros H. destruct rest as [|a r]; simplify_eq/=.
  { by rewrite app_nil_r. }
  destruct (decide (a = lit "--")); simplify_eq/=; [done|].
  repeat case_match; simplify_eq/=; try done;
    repeat match goal with
    | E : long_option _ _ _ _ = _ |- _ => eapply long_option_taken in E; exact E
    | E : short_option _ _ _ _ _ = _ |- _ => apply short_option_taken in E; exact E
    end.
Qed.

Lemma split_nonopts_app l x y : split_nonopts l = (x, y) -> l = x ++ y.
Proof.
  revert x y; induction l as [|a l IH]; intros x y; simpl; [by intros [= <- <-]|].
  destruct (nonoption a); [|by intros [= <- <-]].
  destruct (split_nonopts l) as [x' y']. intros [= <- <-]. simpl. f_equal. by apply IH.
Qed.

(** One call: the skipped operands are those it found before its element. *)
Lemma getopt_long_taken st o st' :
  getopt_long st = (o, st') ->
  exists x, g_rest st = x ++ ahead st /\
    match o with
    | Some _ => g_skipped st' = g_skipped st ++ x /\ ahead st = taken st st' ++ g_rest st'
    | None => exists l, ahead st = taken_last st ++ l /\ g_rest st' = g_skipped st ++ x ++ l
    end.
Proof.
  intros H.
  assert (forall sk rest, ahead st = rest -> next_element sk rest = (o, st') ->
    match o with
    | Some _ => g_skipped st' = sk /\ ahead st = taken st st' ++ g_rest st'
    | None => exists l, ahead st = taken_last st ++ l /\ g_rest st' = sk ++ l
    end) as Hn.
  { intros sk rest Ha E. apply next_element_taken in E. unfold taken, taken_last. rewrite Ha.
    destruct o as [x|].
    - destruct E as [Es [l El]]. split; [done|]. rewrite El at 3. f_equal.
      rewrite El, length_app, Nat.add_sub. by rewrite take_app_length.
    - destruct rest as [|a r]; [by exists []|]. case_decide; eauto. }
  unfold getopt_long in H. unfold ahead in *. destruct st as [rest n sk].
  cbn [g_rest g_next g_skipped] in *. destruct n as [|c n]; [|destruct rest as [|cur r]].
  - destruct order.
    + destruct (split_nonopts rest) as [x y] eqn:Ex. exists x.
      split; [by apply split_nonopts_app|]. specialize (Hn (sk ++ x) y eq_refl H).
      destruct o; [done|]. destruct Hn as (l & ? & ->). exists l. by rewrite <- app_assoc.
    + exists []. rewrite app_nil_r. split; [done|]. by apply (Hn sk rest).
  - exists []. rewrite app_nil_r. split; [done|]. 
    assert (next_element sk [] = (o, st')) as E.
    { destruct order; [|done]. revert H. cbn [split_nonopts]. by rewrite app_nil_r. }
    specialize (Hn sk [] ltac:(by destruct order) E). by destruct o, order.
  - exists []. rewrite app_nil_r. split; [done|].
    destruct (short_option _ _ _ _ _) as [x st0] eqn:E. simplify_eq.
    apply short_option_taken in E as [Es [l El]]. split; [done|]. unfold taken, ahead.
    cbn [g_rest g_next]. destruct order; rewrite El at 3; f_equal;
      by rewrite El, length_app, Nat.add_sub, take_app_length.
Qed.

Lemma getopt_argv_same n st xs st' :
  ends n st = true -> getopt_n n st = (xs, st') -> g_rest st' = [] ->
  g_skipped st = [] /\ getopt_argv n st = g_rest st.
Proof.
  revert st xs. induction n as [|n IH]; intros st xs; [done|]. cbn [ends getopt_n getopt_argv].
  destruct (getopt_long st) as [[x|] st1] eqn:E; apply getopt_long_taken in E as (u & Hu & E).
  - destruct (getopt_n n st1) as [xs' st2] eqn:En. intros He [= <- <-] Hr.
    destruct (IH st1 xs' He En Hr) as [Hs ->]. destruct E as [Es Ea]. rewrite Hs in Es.
    symmetry in Es. apply app_eq_nil in Es as [-> ->]. by rewrite Hu, Ea.
  - intros _ [= <- <-] Hr. destruct E as (l & Ea & El). rewrite El in Hr.
    apply app_eq_nil in Hr as [Hs Hr]. apply app_eq_nil in Hr as [-> ->].
    split; [done|]. by rewrite El, Hs, Hu, Ea.
Qed.

(** ** Reading back what was written *)

(** A run to its end, without its length. *)
Inductive runs : gstate -> list optres -> list bytes -> Prop :=
  | runs_end st st' : getopt_long st = (None, st') -> runs st [] (g_rest st')
  | runs_step st x st' xs ops :
      getopt_long st = (Some x, st') -> runs st' xs ops -> runs st (x :: xs) ops.

Lemma runs_getopt_n st xs ops n :
  runs st xs ops -> (length xs < n)%nat ->
  ends n st = true /\ exists st', getopt_n n st = (xs, st') /\ g_rest st' = ops.
Proof.
  intros H. revert n. induction H as [st st' E|st x st' xs ops E H IH]; intros [|n] Hn; simpl in *;
    [lia| |lia|]; rewrite E.
  - eauto.
  - destruct (IH n) as (He & st2 & -> & Hr); [lia|]. eauto.
Qed.

Lemma runs_getopt_all args xs ops : runs (start args) xs ops -> getopt_all args = (xs, ops).
Proof.
  intros H. unfold getopt_all.
  destruct (runs_getopt_n _ _ _ (S (length xs + size_of args)) H) as (_ & st & E & <-); [lia|].
  rewrite (getopt_n_enough (S (size_of args)) (S (length xs + size_of args))) in E
    by (try apply getopt_n_ends; unfold weight, start; simpl; lia).
  by rewrite E.
Qed.

(** The ways to write options and operands. *)
Inductive item :=
  | Flags (cs : bytes)                          (* -abc *)
  | FlagArg (cs : bytes) (c : ascii) (arg : bytes)   (* -abcARG *)
  | FlagSep (cs : bytes) (c : ascii) (arg : bytes)   (* -abc ARG *)
  | Long (n : bytes) (i : nat) (o : longopt)               (* --name *)
  | LongEq (n : bytes) (i : nat) (o : longopt) (arg : bytes) (* --name=ARG *)
  | LongSep (n : bytes) (i : nat) (o : longopt) (arg : bytes) (* --name ARG *)
  | Operand (a : bytes).

Definition render (it : item) : list bytes :=
  match it with
  | Flags cs => ["-"%char :: cs]
  | FlagArg cs c arg => ["-"%char :: cs ++ c :: arg]
  | FlagSep cs c arg => ["-"%char :: cs ++ [c]; arg]
  | Long n _ _ => [lit "--" ++ n]
  | LongEq n _ _ arg => [lit "--" ++ n ++ "="%char :: arg]
  | LongSep n _ _ arg => [lit "--" ++ n; arg]
  | Operand a => [a]
  end.

Definition flag_res (c : ascii) : optres := OptRes c None None.
Definition results (it : item) : list optres :=
  match it with
  | Flags cs => map flag_res cs
  | FlagArg cs c arg | FlagSep cs c arg => map flag_res cs ++ [OptRes c (Some arg) None]
  | Long _ i o => [OptRes (lo_val o) None (Some i)]
  | LongEq _ i o arg | LongSep _ i o arg => [OptRes (lo_val o) (Some arg) (Some i)]
  | Operand _ => []
  end.
Definition operand (it : item) : list bytes := match it with Operand a => [a] | _ => [] end.

(** A flag without argument that does not look like the start of a long option. *)
Definition plain_flag (c : ascii) : Prop := short_find c = Some no_argument /\ c <> "-"%char.
Definition long_name (n : bytes) (i : nat) (o : longopt) (h : has_arg) : Prop :=
  exists ls, longs = Some ls /\ long_find ls n = Some (i, o) /\ lo_has o = h /\ "="%char ∉ n.

Definition written (it : item) : Prop :=
  match it with
  | Flags cs => cs <> [] /\ Forall plain_flag cs
  | FlagArg cs c arg =>
      Forall plain_flag cs /\ short_find c = Some required_argument /\ c <> "-"%char /\ arg <> []
  | FlagSep cs c arg => Forall plain_flag cs /\ short_find c = Some required_argument /\ c <> "-"%char
  | Long n i o => n <> [] /\ long_name n i o no_argument
  | LongEq n i o arg => long_name n i o required_argument
  | LongSep n i o arg => n <> [] /\ long_name n i o required_argument
  | Operand a => nonoption a = true
  end.

Lemma runs_same st st' xs ops :
  getopt_long st = getopt_long st' -> runs st' xs ops -> runs st xs ops.
Proof.
  intros E H. inversion H as [? st2 E2|? x st2 xs' ? E2 H2]; subst.
  - apply runs_end. by rewrite E.
  - eapply runs_step; [by rewrite E|done].
Qed.

(** Inside a cluster, and at its start. *)
Lemma inside_cluster cur r c n sk :
  getopt_long (GState (cur :: r) (c :: n) sk)
  = let '(x, st) := short_option c n cur r sk in (Some x, st).
Proof. done. Qed.

Lemma next_element_eq a r sk :
  nonoption a = false -> getopt_long (GState (a :: r) [] sk) = next_element sk (a :: r).
Proof.
  intros Ha. unfold getopt_long. cbn [g_next g_rest g_skipped split_nonopts].
  rewrite Ha, app_nil_r. by destruct order.
Qed.

Lemma enter_cluster c n r sk :
  c <> "-"%char ->
  getopt_long (GState (("-"%char :: c :: n) :: r) [] sk)
  = getopt_long (GState (("-"%char :: c :: n) :: r) (c :: n) sk).
Proof.
  intros Hc. rewrite next_element_eq by done. unfold next_element.
  rewrite decide_False by (intros H; by injection H).
  change (flags_of ("-"%char :: c :: n)) with (Some (c, n)). cbv iota.
  unfold undash. rewrite decide_False by done. by destruct longs.
Qed.

Lemma flags_then cs tl cur r sk xs ops :
  Forall plain_flag cs -> tl <> [] ->
  runs (GState (cur :: r) tl sk) xs ops ->
  runs (GState (cur :: r) (cs ++ tl) sk) (map flag_res cs ++ xs) ops.
Proof.
  intros Hcs Htl H. induction Hcs as [|c cs [Hc _] Hcs IH]; [done|]. cbn [app map].
  eapply runs_step; [|apply IH]. rewrite inside_cluster. unfold short_option. rewrite Hc.
  destruct (cs ++ tl) eqn:E; [|done]. by apply app_eq_nil in E as [_ ->].
Qed.

Lemma last_flag c cur r sk xs ops :
  plain_flag c -> runs (GState r [] sk) xs ops ->
  runs (GState (cur :: r) [c] sk) (flag_res c :: xs) ops.
Proof.
  intros [Hc _] H. eapply runs_step; [|done]. rewrite inside_cluster. unfold short_option.
  by rewrite Hc.
Qed.

(** A cluster is read from its first flag on. *)
Lemma cluster_runs n r sk xs ops :
  (exists c m, n = c :: m /\ c <> "-"%char) ->
  runs (GState (("-"%char :: n) :: r) n sk) xs ops ->
  runs (GState (("-"%char :: n) :: r) [] sk) xs ops.
Proof. intros (c & m & -> & Hc). apply runs_same. by apply enter_cluster. Qed.

Lemma head_flag cs c tl :
  Forall plain_flag cs -> c <> "-"%char -> exists d m, cs ++ c :: tl = d :: m /\ d <> "-"%char.
Proof. intros Hcs Hc. destruct Hcs as [|d cs [_ Hd] Hcs]; simpl; eauto. Qed.

Lemma split_eq_plain n : "="%char ∉ n -> split_eq n = (n, None).
Proof.
  induction n as [|c n IH]; intros Hn; [done|]. simpl.
  rewrite decide_False by set_solver. by rewrite IH by set_solver.
Qed.
Lemma split_eq_value n v : "="%char ∉ n -> split_eq (n ++ "="%char :: v) = (n, Some v).
Proof.
  induction n as [|c n IH]; intros Hn; [done|]. simpl.
  rewrite decide_False by set_solver. by rewrite IH by set_solver.
Qed.

Lemma enter_long ls s r sk :
  longs = Some ls -> s <> [] ->
  getopt_long (GState ((lit "--" ++ s) :: r) [] sk)
  = let '(x, st) := long_option ls s r sk in (Some x, st).
Proof.
  intros Hl Hs. rewrite next_element_eq by done. unfold next_element.
  rewrite decide_False by by destruct s. cbn. by rewrite Hl.
Qed.

Lemma operand_skipped a r sk :
  order = PERMUTE -> nonoption a = true ->
  getopt_long (GState (a :: r) [] sk) = getopt_long (GState r [] (sk ++ [a])).
Proof.
  intros Ho Ha. unfold getopt_long. cbn [g_next g_rest g_skipped split_nonopts].
  rewrite Ho, Ha. destruct (split_nonopts r) as [x y]. by rewrite <- app_assoc.
Qed.

Lemma item_runs it r sk xs ops :
  order = PERMUTE \/ operand it = [] -> written it ->
  runs (GState r [] (sk ++ operand it)) xs ops ->
  runs (GState (render it ++ r) [] sk) (results it ++ xs) ops.
Proof.
  intros Ho Hw H. destruct it as [cs|cs c arg|cs c arg|n i o|n i o arg|n i o arg|a];
    cbn [render results operand app] in *; rewrite ?app_nil_r in H.
  - destruct Hw as [Hne Hcs]. destruct (exists_last Hne) as (cs' & c & ->).
    apply Forall_app in Hcs as [Hcs Hc]. inversion Hc as [|? ? [Hf Hd] _]; subst.
    apply cluster_runs; [by apply head_flag|].
    rewrite map_app, <- app_assoc. apply flags_then; [done..|]. by apply last_flag.
  - destruct Hw as (Hcs & Hf & Hd & Harg). apply cluster_runs; [by apply head_flag|].
    rewrite <- app_assoc. apply flags_then; [done..|]. eapply runs_step; [|exact H].
    rewrite inside_cluster. unfold short_option. rewrite Hf. by destruct arg.
  - destruct Hw as (Hcs & Hf & Hd). apply cluster_runs; [by apply head_flag|].
    rewrite <- app_assoc. apply flags_then; [done..|]. eapply runs_step; [|exact H].
    rewrite inside_cluster. unfold short_option. by rewrite Hf.
  - destruct Hw as (Hne & ls & Hl & Hf & Hh & Hn). eapply runs_step; [|exact H].
    rewrite (enter_long ls) by done. unfold long_option.
    by rewrite split_eq_plain, Hf, Hh by done.
  - destruct Hw as (ls & Hl & Hf & Hh & Hn). eapply runs_step; [|exact H].
    rewrite (enter_long ls) by (done || by destruct n). unfold long_option.
    by rewrite split_eq_value, Hf, Hh by done.
  - destruct Hw as (Hne & ls & Hl & Hf & Hh & Hn). eapply runs_step; [|exact H].
    rewrite (enter_long ls) by done. unfold long_option.
    by rewrite split_eq_plain, Hf, Hh by done.
  - destruct Ho as [Ho|Ho]; [|done]. eapply runs_same; [|exact H]. by apply operand_skipped.
Qed.

(** What may follow the options: nothing, or "--" and operands of any look. *)
Definition dashed (tl : option (list bytes)) : list bytes :=
  match tl with Some l => lit "--" :: l | None => [] end.

Lemma tail_runs tl sk : runs (GState (dashed tl) [] sk) [] (sk ++ default [] tl).
Proof.
  destruct tl as [l|]; cbn [dashed default].
  - apply (runs_end _ (GState (sk ++ l) [] [])). by rewrite next_element_eq.
  - apply (runs_end _ (GState (sk ++ []) [] [])). unfold getopt_long. cbn.
    rewrite app_nil_r. by destruct order.
Qed.

Lemma items_run its r sk ops :
  order = PERMUTE \/ concat (map operand its) = [] -> Forall written its ->
  runs (GState r [] (sk ++ concat (map operand its))) [] ops ->
  runs (GState (concat (map render its) ++ r) [] sk) (concat (map results its)) ops.
Proof.
  intros Ho Hits. revert sk. induction Hits as [|it its Hit Hits IH]; intros sk H; simpl in *.
  - by rewrite app_nil_r in H.
  - assert ((order = PERMUTE \/ operand it = []) /\
      (order = PERMUTE \/ concat (map operand its) = [])) as [Ho1 Ho2].
    { destruct Ho as [Ho|Ho]; [auto|]. apply app_eq_nil in Ho as [? ?]. auto. }
    rewrite <- app_assoc. apply item_runs; [done..|]. apply IH; [done|]. by rewrite <- app_assoc.
Qed.

(** Whatever way the options are written, with operands between them, getopt_long()
    returns them in their order and leaves the operands, in theirs. *)
Lemma getopt_render its tl :
  order = PERMUTE -> Forall written its ->
  getopt_all (concat (map render its) ++ dashed tl)
  = (concat (map results its), concat (map operand its) ++ default [] tl).
Proof.
  intros Ho Hits. apply runs_getopt_all, items_run; [by left|done|]. cbn [app]. apply tail_runs.
Qed.

(** The same for a program that stops calling after [n] results. *)
Lemma getopt_n_render its tl n :
  order = PERMUTE -> Forall written its -> (length (concat (map results its)) < n)%nat ->
  exists st, getopt_n n (start (concat (map render its) ++ dashed tl))
             = (concat (map results its), st) /\
    g_rest st = concat (map operand its) ++ default [] tl.
Proof.
  intros Ho Hits Hn. eapply runs_getopt_n; [|done].
  apply items_run; [by left|done|]. cbn [app]. apply tail_runs.
Qed.

(** Options and then one operand are read in either mode. *)
Lemma options_then_operand its a n :
  concat (map operand its) = [] -> Forall written its -> nonoption a = true ->
  (length (concat (map results its)) < n)%nat ->
  exists st, getopt_n n (start (concat (map render its) ++ [a])) = (concat (map results its), st) /\
    g_rest st = [a].
Proof.
  intros Ho Hits Ha Hn. eapply runs_getopt_n; [|done]. apply items_run; [by right|done|].
  rewrite Ho. apply (runs_end _ (GState [a] [] [])). unfold getopt_long.
  cbn [g_rest g_next g_skipped app]. destruct order.
  - cbn [split_nonopts]. by rewrite Ha.
  - unfold next_element. rewrite decide_False by by intros ->.
    unfold nonoption in Ha. by destruct (flags_of a).
Qed.
End getopt.
