(* ===== verification/LibcSort.v ===== *)
(** * qsort(3) and bsearch(3)

    [qsort] is the stable merge sort of the C library; only that it returns a
    sorted permutation is used.  [bsearch] is the library's halving loop, with
    the number of elements as fuel. *)
From S2P Require Import Prelude.

Section qsort.
Context {A : Type} (compar : A -> A -> Z).

Definition cmp_le (a b : A) : Prop := compar a b <= 0.
#[export] Instance cmp_le_dec : RelDecision cmp_le.
Proof. intros a b. unfold cmp_le. apply _. Defined.

Definition qsort (l : list A) : list A := merge_sort cmp_le l.

Lemma qsort_permutation l : Permutation (qsort l) l.
Proof. apply merge_sort_Permutation. Qed.

Lemma qsort_length l : length (qsort l) = length l.
Proof. apply Permutation_length, qsort_permutation. Qed.

(** What makes a comparison function fit for qsort(3). *)
Class Comparator := {
  compar_total : Total cmp_le;
  compar_trans : Transitive cmp_le;
}.

Lemma qsort_sorted `{!Comparator} l : StronglySorted cmp_le (qsort l).
Proof. apply StronglySorted_merge_sort; apply _ || apply compar_total || apply compar_trans. Qed.
End qsort.

Section bsearch.
Context {A : Type} (compar : A -> Z).

Fixpoint bsearch_loop (fuel : nat) (base : list A) (l u : nat) : option nat :=
  match fuel with
  | O => None
  | S k =>
      if (l <? u)%nat then
        let idx := ((l + u) / 2)%nat in
        match base !! idx with
        | None => None
        | Some p =>
            if compar p <? 0 then bsearch_loop k base l idx
            else if 0 <? compar p then bsearch_loop k base (S idx) u
            else Some idx
        end
      else None
  end.

(** bsearch(key, base, nmemb, ...): the index of the element found. *)
Definition bsearch (base : list A) : option nat :=
  bsearch_loop (S (length base)) base 0 (length base).

(** The array is ordered as the comparison with the key sees it. *)
Definition key_ordered (base : list A) : Prop :=
  forall i j x y, (i < j)%nat -> base !! i = Some x -> base !! j = Some y ->
    (compar x < 0 -> compar y < 0) /\ (0 < compar y -> 0 < compar x).

Lemma bsearch_loop_sound fuel base l u i :
  bsearch_loop fuel base l u = Some i ->
  exists x, base !! i = Some x /\ compar x = 0.
Proof.
  revert l u; induction fuel as [|k IH]; intros l u; cbn [bsearch_loop]; [done|].
  destruct (l <? u)%nat; [|done]. cbv zeta.
  destruct (base !! ((l + u) / 2)%nat) as [p|] eqn:E; [|done].
  destruct (compar p <? 0) eqn:E1; [apply IH|].
  destruct (0 <? compar p) eqn:E2; [apply IH|].
  intros H; injection H as <-. exists p. bool_lia. split; [done|lia].
Qed.

Lemma bsearch_loop_complete fuel base l u j y :
  key_ordered base -> (u <= length base)%nat -> (u - l < fuel)%nat ->
  (l <= j < u)%nat -> base !! j = Some y -> compar y = 0 ->
  is_Some (bsearch_loop fuel base l u).
Proof.
  intros Ho. revert l u; induction fuel as [|k IH]; intros l u Hu Hf Hj Hy H0; [lia|].
  cbn [bsearch_loop]. rewrite (proj2 (Nat.ltb_lt l u)) by lia.
  assert (l <= (l + u) / 2 < u)%nat as Hm.
  { split; [apply Nat.div_le_lower_bound | apply Nat.Div0.div_lt_upper_bound]; lia. }
  cbv zeta. set (m := ((l + u) / 2)%nat) in *.
  destruct (lookup_lt_is_Some_2 base m) as [p Hp]; [lia|]. rewrite Hp.
  destruct (compar p <? 0) eqn:E1; [|destruct (0 <? compar p) eqn:E2]; bool_lia; [| |eauto].
  - apply IH; try lia; try done. split; [lia|].
    destruct (decide (m <= j)%nat) as [Hmj|]; [|lia]. exfalso.
    destruct (decide (m = j)) as [->|]; [simplify_eq; lia|].
    destruct (Ho m j p y) as [Hlt _]; try done; lia.
  - apply IH; try lia; try done. split; [|lia].
    destruct (decide (j <= m)%nat) as [Hmj|]; [|lia]. exfalso.
    destruct (decide (m = j)) as [->|]; [simplify_eq; lia|].
    destruct (Ho j m y p) as [_ Hgt]; try done; lia.
Qed.

Lemma bsearch_sound base i :
  bsearch base = Some i -> exists x, base !! i = Some x /\ compar x = 0.
Proof. apply bsearch_loop_sound. Qed.

(** On an ordered array the search fails only when no element matches. *)
Lemma bsearch_complete base :
  key_ordered base -> bsearch base = None -> Forall (fun x => compar x <> 0) base.
Proof.
  intros Ho Hn. apply Forall_lookup. intros j y Hy H0.
  apply lookup_lt_Some in Hy as Hl.
  destruct (bsearch_loop_complete (S (length base)) base 0 (length base) j y)
    as [i Hi]; try done; try lia.
  unfold bsearch in Hn. by rewrite Hi in Hn.
Qed.
End bsearch.

(** An array strictly ordered by an integer key, searched by subtraction. *)
Lemma key_ordered_sub {A} (key : A -> Z) (k : Z) (l : list A) :
  StronglySorted (fun a b => key a <= key b) l ->
  key_ordered (fun x => k - key x) l.
Proof.
  intros Hs i j x y Hij Hx Hy. 
  assert (key x <= key y); [|lia].
  revert i j Hij Hx Hy. induction Hs as [|a l Hs IH Hf]; intros i j Hij Hx Hy; [done|].
  destruct i as [|i], j as [|j]; simplify_eq/=; try lia.
  - rewrite Forall_lookup in Hf. by eapply Hf.
  - eapply (IH i j); eauto with lia.
Qed.
