(* ===== verification/AufsType.v ===== *)
(** * libau/linux/aufs_type.h: constants, branch permissions, ioctl structures

    The part of the kernel interface header that the utilities interpret. *)
From S2P Require Import Prelude CString.

(** ['a' << 24 | 'u' << 16 | 'f' << 8 | 's'] *)
Definition AUFS_SUPER_MAGIC : Z :=
  Z.lor (Z.shiftl 97 24) (Z.lor (Z.shiftl 117 16) (Z.lor (Z.shiftl 102 8) 115)).

Definition AUFS_ROOT_INO : Z := 2.
Definition AUFS_WH_PFX : bytes := lit ".wh.".
Definition AUFS_WH_PFX_LEN : Z := Z.of_nat (length AUFS_WH_PFX).
Definition AUFS_WH_TMP_LEN : Z := 4.
Definition NAME_MAX : Z := 255.
Definition AUFS_MAX_NAMELEN : Z :=
  NAME_MAX - AUFS_WH_PFX_LEN * 2 - 1 - AUFS_WH_TMP_LEN.
Definition AUFS_PLINKDIR_NAME : bytes := AUFS_WH_PFX ++ lit "plnk".
(** doubly whiteouted *)
Definition AUFS_WH_PLINKDIR : bytes := AUFS_WH_PFX ++ AUFS_PLINKDIR_NAME.

(** ** Branch permissions and attributes *)

Definition AuBrPerm_RW : Z := 1.
Definition AuBrPerm_RO : Z := Z.shiftl 1 1.
Definition AuBrPerm_RR : Z := Z.shiftl 1 2.
Definition AuBrPerm_Mask : Z := Z.lor AuBrPerm_RW (Z.lor AuBrPerm_RO AuBrPerm_RR).
Definition AuBrAttr_COO_REG : Z := Z.shiftl 1 3.
Definition AuBrAttr_COO_ALL : Z := Z.shiftl 1 4.
Definition AuBrAttr_COO_Mask : Z := Z.lor AuBrAttr_COO_REG AuBrAttr_COO_ALL.
Definition AuBrAttr_FHSM : Z := Z.shiftl 1 5.
Definition AuBrRAttr_WH : Z := Z.shiftl 1 12.
Definition AuBrWAttr_NoLinkWH : Z := Z.shiftl 1 13.
Definition AuBrWAttr_MOO : Z := Z.shiftl 1 14.
Definition AuBrAttr_CMOO_Mask : Z := Z.lor AuBrAttr_COO_Mask AuBrWAttr_MOO.

(** The predicates return the masked bits, as the C functions do. *)
Definition au_br_writable (brperm : Z) : Z := Z.land brperm AuBrPerm_RW.
Definition au_br_whable (brperm : Z) : Z :=
  Z.land brperm (Z.lor AuBrPerm_RW AuBrRAttr_WH).
Definition au_br_wh_linkable (brperm : Z) : Z :=
  if Z.land brperm AuBrWAttr_NoLinkWH =? 0 then 1 else 0.
Definition au_br_cmoo (brperm : Z) : Z := Z.land brperm AuBrAttr_CMOO_Mask.
Definition au_br_fhsm (brperm : Z) : Z := Z.land brperm AuBrAttr_FHSM.

(** C truth. *)
Definition truth (z : Z) : bool := negb (z =? 0).

(** ** Readdir in userspace *)

(** [ALIGN(x, a)] on [size_t]: [((x) + ((a) - 1)) & ~((a) - 1)]. *)
Definition ALIGN (x a : Z) : Z :=
  Z.land (u64 (x + (a - 1))) (u64 (Z.lnot (a - 1))).

Definition sizeof_au_rdu_ent : Z := 16.

(** [int au_rdu_len(int nlen)] *)
Definition au_rdu_len (nlen : Z) : Z :=
  i32 (ALIGN (sizeof_au_rdu_ent + nlen + 1) 8).

(** ** Move-down *)

Definition AUFS_MVDOWN_DMSG : Z := 1.
Definition AUFS_MVDOWN_OWLOWER : Z := Z.shiftl 1 1.
Definition AUFS_MVDOWN_KUPPER : Z := Z.shiftl 1 2.
Definition AUFS_MVDOWN_ROLOWER : Z := Z.shiftl 1 3.
Definition AUFS_MVDOWN_ROUPPER : Z := Z.shiftl 1 5.
Definition AUFS_MVDOWN_BRID_UPPER : Z := Z.shiftl 1 7.
Definition AUFS_MVDOWN_BRID_LOWER : Z := Z.shiftl 1 8.
Definition AUFS_MVDOWN_FHSM_LOWER : Z := Z.shiftl 1 9.
Definition AUFS_MVDOWN_STFS : Z := Z.shiftl 1 10.
Definition AUFS_MVDOWN_STFS_FAILED : Z := Z.shiftl 1 11.
Definition AUFS_MVDOWN_BOTTOM : Z := Z.shiftl 1 12.

Definition EAU_MVDOWN_OPAQUE : Z := 1.
Definition EAU_Last : Z := 7.

Record aufs_stfs := Stfs {
  f_blocks : Z;
  f_bavail : Z;
  f_files : Z;
  f_ffree : Z
}.

Record aufs_stbr := Stbr {
  st_brid : Z;
  st_bindex : Z;
  st_stfs : aufs_stfs
}.

(** [stbr[AUFS_MVDOWN_UPPER]] and [stbr[AUFS_MVDOWN_LOWER]] are two fields. *)
Record aufs_mvdown := Mvdown {
  mv_flags : Z;
  mv_upper : aufs_stbr;
  mv_lower : aufs_stbr;
  mv_errno : Z
}.

(** [union aufs_brinfo] *)
Record aufs_brinfo := Brinfo {
  bi_id : Z;
  bi_perm : Z;
  bi_path : bytes
}.

#[export] Instance aufs_stfs_eq_dec : EqDecision aufs_stfs.
Proof. solve_decision. Defined.
#[export] Instance aufs_stbr_eq_dec : EqDecision aufs_stbr.
Proof. solve_decision. Defined.
#[export] Instance aufs_mvdown_eq_dec : EqDecision aufs_mvdown.
Proof. solve_decision. Defined.
#[export] Instance aufs_brinfo_eq_dec : EqDecision aufs_brinfo.
Proof. solve_decision. Defined.

(** ** Lemmas *)

Lemma land_pow2_truth p n : 0 <= n -> truth (Z.land p (Z.shiftl 1 n)) = Z.testbit p n.
Proof.
  intros Hn. unfold truth. rewrite Z.shiftl_1_l.
  destruct (Z.testbit p n) eqn:E.
  - apply Bool.negb_true_iff, Z.eqb_neq. intros H.
    apply (f_equal (fun z => Z.testbit z n)) in H.
    rewrite Z.land_spec, E, Z.pow2_bits_true, Z.bits_0 in H by done. done.
  - apply Bool.negb_false_iff, Z.eqb_eq, Z.bits_inj'. intros m Hm.
    rewrite Z.land_spec, Z.bits_0, Z.pow2_bits_eqb by done.
    destruct (Z.eqb_spec n m) as [->|]; [by rewrite E|by rewrite Bool.andb_false_r].
Qed.

(** A permission word is FHSM, writable or whiteout-able according to single bits. *)
Lemma au_br_fhsm_bit p : truth (au_br_fhsm p) = Z.testbit p 5.
Proof. by apply land_pow2_truth. Qed.
Lemma au_br_writable_bit p : truth (au_br_writable p) = Z.testbit p 0.
Proof. apply (land_pow2_truth p 0). lia. Qed.

Lemma ALIGN_8 x :
  0 <= x < 2 ^ 63 -> ALIGN x 8 = (x + 7) / 8 * 8.
Proof.
  intros Hx. unfold ALIGN, u64.
  rewrite (wrap_u_small 64 (x + (8 - 1))) by lia.
  replace (wrap_u 64 (Z.lnot (8 - 1))) with (Z.ldiff (Z.ones 64) (Z.ones 3)) by reflexivity.
  replace (8 - 1) with 7 by lia.
  assert (forall a b c, Z.land a (Z.ldiff b c) = Z.ldiff (Z.land a b) c) as ->.
  { intros a b c. apply Z.bits_inj'. intros n _.
    rewrite Z.ldiff_spec, !Z.land_spec, Z.ldiff_spec. by rewrite Bool.andb_assoc. }
  rewrite Z.land_ones by lia.
  rewrite Z.ldiff_ones_r by lia.
  rewrite (Z.mod_small (x + 7)) by lia.
  rewrite Z.shiftl_mul_pow2, Z.shiftr_div_pow2 by lia. reflexivity.
Qed.

Lemma au_rdu_len_eq nlen :
  0 <= nlen <= 255 -> au_rdu_len nlen = (nlen + 24) / 8 * 8.
Proof.
  intros H. unfold au_rdu_len, sizeof_au_rdu_ent, i32.
  rewrite ALIGN_8 by lia.
  replace (16 + nlen + 1 + 7) with (nlen + 24) by lia.
  apply wrap_s_small; [lia|].
  pose proof (Z.div_mod (nlen + 24) 8). pose proof (Z.mod_pos_bound (nlen + 24) 8).
  lia.
Qed.

(** The record holds the name and its terminator, and stays 8-aligned. *)
Lemma au_rdu_len_spec nlen :
  0 <= nlen <= 255 ->
  (8 | au_rdu_len nlen) /\
  sizeof_au_rdu_ent + nlen + 1 <= au_rdu_len nlen < sizeof_au_rdu_ent + nlen + 9.
Proof.
  intros H. rewrite au_rdu_len_eq by done. split.
  - apply Z.divide_factor_r.
  - unfold sizeof_au_rdu_ent.
    pose proof (Z.div_mod (nlen + 24) 8). pose proof (Z.mod_pos_bound (nlen + 24) 8).
    lia.
Qed.
