(* ===== verification/Float32.v ===== *)
(** * binary32 arithmetic on bit patterns

    A C [float] in memory is its 32-bit pattern (a [Z]); arithmetic decodes it
    to the Standard Library's [spec_float], which rounds to nearest even as
    IEEE 754 prescribes, and encodes the result. *)
From S2P Require Import Prelude.
From Stdlib Require Import Floats.SpecFloat.

Definition f32_decode (b : Z) : spec_float :=
  let s := 2 ^ 31 <=? b in
  let e := b / 2 ^ 23 mod 256 in
  let m := b mod 2 ^ 23 in
  if e =? 255 then if m =? 0 then S754_infinity s else S754_nan
  else if e =? 0 then
    match m with Zpos p => S754_finite s p (-149) | _ => S754_zero s end
  else match m + 2 ^ 23 with
       | Zpos p => S754_finite s p (e - 150)
       | _ => S754_nan
       end.

Definition f32_encode (f : spec_float) : Z :=
  let sgn (s : bool) := if s then 2 ^ 31 else 0 in
  match f with
  | S754_zero s => sgn s
  | S754_infinity s => sgn s + 255 * 2 ^ 23
  | S754_nan => 255 * 2 ^ 23 + 2 ^ 22
  | S754_finite s m e =>
      if Z.pos m <? 2 ^ 23 then sgn s + Z.pos m
      else sgn s + (e + 150) * 2 ^ 23 + (Z.pos m - 2 ^ 23)
  end.

Definition f32_of_Z (z : Z) : Z := f32_encode (binary_normalize 24 128 z 0 false).
Definition f32_div (a b : Z) : Z :=
  f32_encode (SFdiv 24 128 (f32_decode a) (f32_decode b)).
Definition f32_sub (a b : Z) : Z :=
  f32_encode (SFsub 24 128 (f32_decode a) (f32_decode b)).
Definition f32_mul (a b : Z) : Z :=
  f32_encode (SFmul 24 128 (f32_decode a) (f32_decode b)).
Definition f32_ltb (a b : Z) : bool := SFltb (f32_decode a) (f32_decode b).
Definition f32_is_nan (a : Z) : bool :=
  match f32_decode a with S754_nan => true | _ => false end.

(** The nearest binary32 to [n / d]: the quotient of two exact integers is
    rounded once. *)
Definition f32_of_ratio (neg : bool) (n d : Z) : Z :=
  match n, d with
  | Zpos pn, Zpos pd =>
      f32_encode (SFdiv 24 128 (S754_finite neg pn 0) (S754_finite false pd 0))
  | _, _ => f32_encode (S754_zero neg)
  end.

(** The constants of the sources. *)
Definition F32_0_25 : Z := 0x3E800000.
Definition F32_0_5 : Z := 0x3F000000.
Definition F32_1 : Z := 0x3F800000.
Definition F32_100 : Z := 0x42C80000.
Definition F32_NAN : Z := 0x7FC00000.

Example f32_consts :
  (f32_of_ratio false 1 4, f32_of_ratio false 1 2, f32_of_Z 1, f32_of_Z 100)
  = (F32_0_25, F32_0_5, F32_1, F32_100).
Proof. vm_compute. reflexivity. Qed.

(** 0.1f *)
Example f32_tenth : f32_of_ratio false 1 10 = 0x3DCCCCCD.
Proof. vm_compute. reflexivity. Qed.

(** A NaN is neither below nor above anything. *)
Lemma f32_ltb_nan_l a b : f32_is_nan a = true -> f32_ltb a b = false.
Proof.
  unfold f32_is_nan, f32_ltb, SFltb, SFcompare. by destruct (f32_decode a).
Qed.

Lemma f32_ltb_nan_r a b : f32_is_nan b = true -> f32_ltb a b = false.
Proof.
  unfold f32_is_nan, f32_ltb, SFltb, SFcompare.
  by destruct (f32_decode b); destruct (f32_decode a) as [[]|[]| |[]].
Qed.

Lemma SFltb_finite m e n f :
  SFltb (S754_finite false m e) (S754_finite false n f)
  = (e <? f) || ((e =? f) && (m <? n)%positive).
Proof.
  unfold SFltb, SFcompare. destruct (Z.compare_spec e f) as [->|H|H].
  - rewrite Z.ltb_irrefl, Z.eqb_refl. reflexivity.
  - by rewrite (proj2 (Z.ltb_lt e f) H).
  - rewrite (proj2 (Z.ltb_ge e f)), (proj2 (Z.eqb_neq e f)) by lia. done.
Qed.

(** The decoding of a nonnegative finite number *)
Lemma f32_decode_pos x :
  0 <= x < 255 * 2 ^ 23 ->
  exists m e, x = e * 2 ^ 23 + m /\ 0 <= m < 2 ^ 23 /\ 0 <= e < 255 /\
    f32_decode x =
      if e =? 0 then match m with Zpos p => S754_finite false p (-149) | _ => S754_zero false end
      else S754_finite false (Z.to_pos (m + 2 ^ 23)) (e - 150).
Proof.
  intros Hx. exists (x mod 2 ^ 23), (x / 2 ^ 23).
  pose proof (Z.div_mod x (2 ^ 23)). pose proof (Z.mod_pos_bound x (2 ^ 23)).
  assert (0 <= x / 2 ^ 23 < 255) by lia. split_and!; try lia. unfold f32_decode.
  rewrite (proj2 (Z.leb_gt _ _)), (Z.mod_small (x / 2 ^ 23)) by lia.
  rewrite (proj2 (Z.eqb_neq (x / 2 ^ 23) 255)) by lia.
  destruct (Z.eqb_spec (x / 2 ^ 23) 0); [done|].
  destruct (x mod 2 ^ 23 + 2 ^ 23) eqn:E; [lia|done|lia].
Qed.

(** The order of nonnegative finite numbers is that of their patterns. *)
Lemma f32_ltb_pos a b :
  0 <= a < 255 * 2 ^ 23 -> 0 <= b < 255 * 2 ^ 23 -> f32_ltb a b = (a <? b).
Proof.
  intros Ha Hb. destruct (f32_decode_pos a Ha) as (m & e & -> & Hm & He & Da),
    (f32_decode_pos b Hb) as (n & f & -> & Hn & Hf & Db).
  unfold f32_ltb. rewrite Da, Db. apply Bool.eq_iff_eq_true. rewrite Z.ltb_lt.
  destruct (Z.eqb_spec e 0) as [->|He0], (Z.eqb_spec f 0) as [->|Hf0];
    try destruct m as [|p|p]; try destruct n as [|q|q]; try lia; rewrite ?SFltb_finite;
    unfold SFltb; cbn [SFcompare];
    rewrite ?orb_true_iff, ?andb_true_iff, ?Z.ltb_lt, ?Z.eqb_eq, ?Pos.ltb_lt; try lia;
    split; intros; (done || lia).
Qed.
