(* ===== verification/Scan.v ===== *)
(** * sscanf(3) with %f, as far as the sources use it

    The conversion of glibc: optional blanks and sign, then "nan", "inf", "infinity",
    or a decimal or hexadecimal number with an optional point and exponent. *)
From S2P Require Import Prelude CString Float32.

Definition isspace (c : ascii) : bool :=
  let v := byte_val c in (v =? 32) || ((9 <=? v) && (v <=? 13)).

Fixpoint skip_space (s : bytes) : bytes :=
  match s with
  | c :: r => if isspace c then skip_space r else s
  | [] => []
  end.

(** The digit's value in base 10 or 16. *)
Definition digit_val (base : Z) (c : ascii) : option Z :=
  let v := byte_val c in
  let d := if (48 <=? v) && (v <=? 57) then v - 48
           else if (97 <=? v) && (v <=? 102) then v - 87
           else if (65 <=? v) && (v <=? 70) then v - 55
           else 255 in
  if d <? base then Some d else None.

Fixpoint scan_digits (base : Z) (s : bytes) (acc n : Z) : Z * Z * bytes :=
  match s with
  | c :: r =>
      match digit_val base c with
      | Some d => scan_digits base r (acc * base + d) (n + 1)
      | None => (acc, n, s)
      end
  | [] => (acc, n, [])
  end.

Definition scan_sign (s : bytes) : bool * bytes :=
  match s with
  | c :: r => if decide (c = "-"%char) then (true, r)
              else if decide (c = "+"%char) then (false, r) else (false, s)
  | [] => (false, [])
  end.

(** The characters of [w] in either case. *)
Fixpoint scan_word (w s : bytes) : option bytes :=
  match w, s with
  | [], _ => Some s
  | x :: w, c :: s => if decide (x = tolower c) then scan_word w s else None
  | _ :: _, [] => None
  end.

(** Mantissa and exponent.  An exponent character without digits is consumed and
    counts as zero. *)
Definition scan_number (neg : bool) (base expbase digexp : Z) (expch : ascii) (s : bytes)
  : option (Z * bytes) :=
  let '(m, n, s) := scan_digits base s 0 0 in
  let '(m, k, s) :=
    match s with
    | c :: r => if decide (c = "."%char) then
                  let '(m', n', r') := scan_digits base r m 0 in (m', n', r')
                else (m, 0, s)
    | [] => (m, 0, [])
    end in
  if (n =? 0) && (k =? 0) then None
  else
    let '(e, s) :=
      match s with
      | c :: r => if decide (expch = tolower c) then
                    let '(eneg, r) := scan_sign r in
                    let '(e, _, r) := scan_digits 10 r 0 0 in
                    (if eneg : bool then - e else e, r)
                  else (0, s)
      | [] => (0, [])
      end in
    let e := e - k * digexp in
    Some (if 0 <=? e then f32_of_ratio neg (m * expbase ^ e) 1
          else f32_of_ratio neg m (expbase ^ (- e)), s).

Definition F32_INF : Z := 0x7F800000.
Definition f32_signed (neg : bool) (f : Z) : Z := if neg then f + 2 ^ 31 else f.

Definition scan_float (s : bytes) : option (Z * bytes) :=
  let '(neg, s) := scan_sign (skip_space s) in
  match s with
  | [] => None
  | c :: _ =>
      if decide (tolower c = "n"%char) then
        s ← scan_word (lit "nan") s; Some (f32_signed neg F32_NAN, s)
      else if decide (tolower c = "i"%char) then
        s ← scan_word (lit "inf") s;
        match s with
        | c :: _ =>
            if decide (tolower c = "i"%char) then
              s ← scan_word (lit "inity") s; Some (f32_signed neg F32_INF, s)
            else Some (f32_signed neg F32_INF, s)
        | [] => Some (f32_signed neg F32_INF, [])
        end
      else
        match scan_word (lit "0x") s with
        | Some r => scan_number neg 16 2 4 "p"%char r
        | None => scan_number neg 10 10 1 "e"%char s
        end
  end.

(** sscanf(str, "%f-%f", ...): both values, or [None] when fewer than two convert. *)
Definition sscanf_f_dash_f (s : bytes) : option (Z * Z) :=
  '(a, r) ← scan_float s;
  match r with
  | c :: r => if decide (c = "-"%char) then '(b, _) ← scan_float r; Some (a, b) else None
  | [] => None
  end.

Example scan_percent : sscanf_f_dash_f (lit "75-50") = Some (f32_of_Z 75, f32_of_Z 50).
Proof. vm_compute. reflexivity. Qed.
Example scan_point : sscanf_f_dash_f (lit " 12.5-1e1x") = Some (f32_of_ratio false 25 2, f32_of_Z 10).
Proof. vm_compute. reflexivity. Qed.
Example scan_hex : sscanf_f_dash_f (lit "0x1.8p1-+0X2") = Some (f32_of_Z 3, f32_of_Z 2).
Proof. vm_compute. reflexivity. Qed.
Example scan_short : sscanf_f_dash_f (lit "75") = None.
Proof. vm_compute. reflexivity. Qed.
Example scan_nan : sscanf_f_dash_f (lit "NaN-nan") = Some (F32_NAN, F32_NAN).
Proof. vm_compute. reflexivity. Qed.

(** ** strtoull(s, NULL, 0): the value, and whether errno becomes ERANGE *)
Definition strtoull0 (s : bytes) : Z * bool :=
  let '(neg, s) := scan_sign (skip_space s) in
  let '(v, _, _) :=
    match scan_word (lit "0x") s, s with
    | Some r, _ => scan_digits 16 r 0 0
    | None, c :: _ => if decide (c = "0"%char) then scan_digits 8 s 0 0 else scan_digits 10 s 0 0
    | None, [] => (0, 0, [])
    end in
  if v <? 2 ^ 64 then (u64 (if neg : bool then - v else v), false) else (2 ^ 64 - 1, true).

Lemma digit_val_digit d : 0 <= d < 10 -> digit_val 10 (digit d) = Some d.
Proof.
  intros H. unfold digit_val, digit. rewrite (proj2 (Z.ltb_lt d 10)) by lia.
  rewrite byte_val_of, Z.mod_small by lia.
  rewrite (proj2 (Z.leb_le 48 _)), (proj2 (Z.leb_le _ 57)) by lia. cbn [andb].
  replace (48 + d - 48) with d by lia. by rewrite (proj2 (Z.ltb_lt d 10)) by lia.
Qed.

Lemma scan_digits_app ds rest acc n :
  Forall (fun c => exists d, 0 <= d < 10 /\ c = digit d) ds ->
  scan_digits 10 (ds ++ rest) acc n =
    scan_digits 10 rest (fold_left (fun acc c => acc * 10 + undigit c) ds acc)
      (n + Z.of_nat (length ds)).
Proof.
  intros H; revert acc n; induction H as [|c ds (d & Hd & ->) _ IH]; intros acc n.
  - cbn. f_equal. lia.
  - cbn [app scan_digits fold_left length]. rewrite digit_val_digit by done.
    rewrite IH, undigit_digit by lia. f_equal. lia.
Qed.

(** The decimal digits of a positive number start with a digit other than 0. *)
Lemma digits_head z : 0 < z -> exists d r, digits 10 z = digit d :: r /\ 0 < d < 10.
Proof.
  unfold digits. generalize (S (Z.to_nat (Z.log2 z))) (Nat.lt_succ_diag_r (Z.to_nat (Z.log2 z))).
  intros fuel. revert z; induction fuel as [|k IH]; intros z Hk Hz; [lia|].
  cbn [digits_fuel]. destruct (Z.ltb_spec z 10).
  - exists (z mod 10), []. rewrite Z.mod_small by lia. split; [done|lia].
  - destruct (IH (z / 10)) as (d & r & E & Hd).
    + pose proof (log2_div_lt 10 z). pose proof (Z.log2_nonneg (z / 10)). lia.
    + apply Z.div_str_pos. lia.
    + rewrite E. by exists d, (r ++ [digit (z mod 10)]).
Qed.

(** A positive decimal number begins neither blank, signed, nor with a word or "0x". *)
Lemma decimal_head d s :
  0 < d < 10 ->
  scan_sign (skip_space (digit d :: s)) = (false, digit d :: s) /\
  scan_word (lit "0x") (digit d :: s) = None /\
  scan_float (digit d :: s) = scan_number false 10 10 1 "e" (digit d :: s).
Proof.
  intros H.
  assert (d = 1 \/ d = 2 \/ d = 3 \/ d = 4 \/ d = 5 \/ d = 6 \/ d = 7 \/ d = 8 \/ d = 9) as Hd by lia.
  by repeat destruct Hd as [->|Hd]; [..|subst].
Qed.

Lemma strtoull0_decimal d r :
  0 < d < 10 ->
  strtoull0 (digit d :: r) =
    let '(v, _, _) := scan_digits 10 (digit d :: r) 0 0 in
    if v <? 2 ^ 64 then (u64 v, false) else (2 ^ 64 - 1, true).
Proof.
  intros H. destruct (decimal_head d r H) as (E & W & _). unfold strtoull0. rewrite E, W.
  destruct (decide _) as [C|_]; [|done]. exfalso.
  apply (f_equal byte_val) in C. unfold digit in C. rewrite (proj2 (Z.ltb_lt d 10)) in C by lia.
  rewrite byte_val_of, Z.mod_small in C by lia. change (byte_val "0") with 48 in C. lia.
Qed.

Lemma digits_all_digits z :
  0 <= z -> Forall (fun c => exists d, 0 <= d < 10 /\ c = digit d) (digits 10 z).
Proof. intros Hz. apply Forall_forall. intros c. by apply digits_fuel_elem. Qed.

(** A decimal number is read back. *)
Lemma strtoull0_digits z : 0 < z < 2 ^ 64 -> strtoull0 (digits 10 z) = (z, false).
Proof.
  intros H. destruct (digits_head z) as (d & r & E & Hd); [lia|].
  pose proof (digits_undigits 10 z) as Hu. rewrite E in *.
  rewrite strtoull0_decimal by done.
  pose proof (scan_digits_app (digit d :: r) [] 0 0) as Es. rewrite app_nil_r in Es.
  rewrite Es.
  2:{ rewrite <- E. apply digits_all_digits. lia. }
  cbn [scan_digits]. unfold undigits in Hu. rewrite Hu by lia.
  rewrite (proj2 (Z.ltb_lt _ _)) by lia. unfold u64. by rewrite wrap_u_small by lia.
Qed.

(** What ends a whole number for the scanner. *)
Definition ends_number (rest : bytes) : Prop :=
  match rest with c :: _ => c = "-"%char | [] => True end.

(** "%f" reads a whole number back, rounded to single precision. *)
Lemma scan_float_decimal z rest :
  0 <= z -> ends_number rest -> scan_float (fmt_u z ++ rest) = Some (f32_of_ratio false z 1, rest).
Proof.
  intros Hz Hr. destruct (Z.eq_dec z 0) as [->|Hn].
  { destruct rest as [|c rest]; [done|]. cbn in Hr. by subst c. }
  destruct (digits_head z) as (d & r & E & Hd); [lia|]. unfold fmt_u. rewrite E.
  cbn [app]. rewrite (proj2 (proj2 (decimal_head d _ Hd))).
  change (digit d :: r ++ rest) with ((digit d :: r) ++ rest). rewrite <- E.
  unfold scan_number. rewrite scan_digits_app by by apply digits_all_digits.
  fold (undigits 10 (digits 10 z)). rewrite digits_undigits by lia.
  assert (0 < length (digits 10 z))%nat as Hl by (rewrite E; cbn; lia).
  assert (scan_digits 10 rest z (0 + Z.of_nat (length (digits 10 z)))
    = (z, Z.of_nat (length (digits 10 z)), rest)) as ->.
  { destruct rest as [|c rest]; cbn in Hr; [done|]. by subst c. }
  rewrite (proj2 (Z.eqb_neq (Z.of_nat (length (digits 10 z))) 0)) by lia.
  destruct rest as [|c rest]; cbn in Hr; [cbn|subst c; cbn [andb]].
  - change (10 ^ (0 - 0 * 1)) with 1. by rewrite (Z.mul_1_r z).
  - destruct (decide ("-" = ".")%char) as [[=]|_].
    destruct (decide ("e"%char = tolower "-")) as [C|_]; [by vm_compute in C|].
    change (10 ^ (0 - 0 * 1)) with 1. by rewrite (Z.mul_1_r z).
Qed.
