(* ===== verification/FhsmData.v ===== *)
(** * fhsm/comm.h: the watermark table shared by the controller and the daemon

    [struct aufhsm] lives in POSIX shared memory.  The model keeps its fields,
    the bit patterns of its floats, and as many [wmark] elements as the object
    has room for; [fhsm_bytes] is the part of its memory image that the checksum
    covers. *)
From S2P Require Import Prelude CString LibcSort AufsType Float32.

Definition AUFHSM_MAGIC : bytes := lit "AUFHSM".

(** aufhsm_msg_t *)
Definition AuFhsm_MSG_NONE : Z := 0.
Definition AuFhsm_MSG_READ : Z := 1.
Definition AuFhsm_MSG_EXIT : Z := 2.

(** [struct aufhsm_wmark]; [block] and [inode] are the pairs indexed by
    AuFhsm_WM_UPPER and AuFhsm_WM_LOWER. *)
Record aufhsm_wmark := Wmark {
  wm_brid : Z;
  wm_block : Z * Z;
  wm_inode : Z * Z
}.

Record aufhsm := Aufhsm {
  magic : bytes;
  csum : Z;
  nwmark : Z;
  wmark : list aufhsm_wmark
}.

#[export] Instance aufhsm_wmark_eq_dec : EqDecision aufhsm_wmark.
Proof. solve_decision. Defined.
#[export] Instance aufhsm_eq_dec : EqDecision aufhsm.
Proof. solve_decision. Defined.

Definition sizeof_aufhsm : Z := 16.
Definition sizeof_wmark : Z := 20.

(** A zero-filled element, as ftruncate(2) makes it. *)
Definition wmark_zero : aufhsm_wmark := Wmark 0 (0, 0) (0, 0).

Definition set_brid (b : Z) (wm : aufhsm_wmark) : aufhsm_wmark :=
  Wmark b (wm_block wm) (wm_inode wm).
Definition set_block (p : Z * Z) (wm : aufhsm_wmark) : aufhsm_wmark :=
  Wmark (wm_brid wm) p (wm_inode wm).
Definition set_inode (p : Z * Z) (wm : aufhsm_wmark) : aufhsm_wmark :=
  Wmark (wm_brid wm) (wm_block wm) p.
Definition set_wmark (l : list aufhsm_wmark) (p : aufhsm) : aufhsm :=
  Aufhsm (magic p) (csum p) (nwmark p) l.
Definition set_nwmark (n : Z) (p : aufhsm) : aufhsm :=
  Aufhsm (magic p) (csum p) n (wmark p).

Definition au_fhsm_size (nbr : Z) : Z := sizeof_aufhsm + nbr * sizeof_wmark.

(** ** Memory image and checksum *)

(** brid, two bytes of padding, block[2], inode[2] *)
Definition wmark_bytes (wm : aufhsm_wmark) : bytes :=
  le_bytes 2 (wm_brid wm) ++ [NUL; NUL]
  ++ le_bytes 4 (wm_block wm).1 ++ le_bytes 4 (wm_block wm).2
  ++ le_bytes 4 (wm_inode wm).1 ++ le_bytes 4 (wm_inode wm).2.

Arguments wmark_bytes : simpl never.

(** The bytes from offsetof(struct aufhsm, nwmark) to au_fhsm_size(nwmark). *)
Definition fhsm_bytes (p : aufhsm) : bytes :=
  le_bytes 4 (nwmark p)
  ++ concat (map wmark_bytes (take (Z.to_nat (nwmark p)) (wmark p))).

(** The loop [for (; len; len--, p++) csum += *p], on signed chars. *)
Definition csum_bytes (l : bytes) : Z :=
  fold_left (fun acc c => u32 (acc + schar_val c)) l 0.

(** [None] when the table claims more elements than the object holds (the loop
    would leave the object). *)
Definition fhsm_inside (p : aufhsm) : bool :=
  (0 <=? nwmark p) && (nwmark p <=? Z.of_nat (length (wmark p))).

Definition au_fhsm_csum (p : aufhsm) : option Z :=
  if fhsm_inside p then Some (csum_bytes (fhsm_bytes p)) else None.

(** strncpy(fhsm->magic, AUFHSM_MAGIC, 8) pads with NULs. *)
Definition au_fhsm_sign (p : aufhsm) : option aufhsm :=
  c ← au_fhsm_csum p;
  Some (Aufhsm (AUFHSM_MAGIC ++ [NUL; NUL]) c (nwmark p) (wmark p)).

Definition au_fhsm_sign_verify (p : aufhsm) : option bool :=
  if strncmp 8 (magic p) AUFHSM_MAGIC =? 0 then
    c ← au_fhsm_csum p; Some (csum p =? c)
  else Some false.

(** ** Sorting and searching by branch id *)

Definition au_wm_qsort_brid (a b : aufhsm_wmark) : Z := wm_brid a - wm_brid b.

(** qsort(fhsm->wmark, fhsm->nwmark, ...): the first [nwmark] elements. *)
Definition sort_wmarks (n : nat) (l : list aufhsm_wmark) : list aufhsm_wmark :=
  qsort au_wm_qsort_brid (take n l) ++ drop n l.

Definition au_fhsm_sort_brid (p : aufhsm) : aufhsm :=
  set_wmark (sort_wmarks (Z.to_nat (nwmark p)) (wmark p)) p.

Definition au_wm_bsearch_brid (brid : Z) (wm : aufhsm_wmark) : Z :=
  brid - wm_brid wm.

Definition au_wm_search_brid (brid : Z) (p : aufhsm) : option nat :=
  bsearch (au_wm_bsearch_brid brid) (take (Z.to_nat (nwmark p)) (wmark p)).

(** [while (nwm-- > 0) { if (wm->brid == brid) return wm; wm++; }]: the index
    reached, if any. *)
Fixpoint au_wm_lfind (brid : Z) (wm : list aufhsm_wmark) (nwm : nat) : option nat :=
  match nwm with
  | O => None
  | S k =>
      match wm with
      | [] => None
      | w :: r => if wm_brid w =? brid then Some O else S <$> au_wm_lfind brid r k
      end
  end.

(** ** Lemmas *)

#[export] Instance brid_comparator : Comparator au_wm_qsort_brid.
Proof.
  constructor; unfold cmp_le, au_wm_qsort_brid.
  - intros a b. lia.
  - intros a b c. lia.
Qed.

Lemma wmark_bytes_length wm : length (wmark_bytes wm) = 20%nat.
Proof. unfold wmark_bytes. rewrite !length_app, !length_le_bytes. reflexivity. Qed.

(** The image has the length that the C code computes from au_fhsm_size. *)
Lemma fhsm_bytes_length p :
  fhsm_inside p = true ->
  Z.of_nat (length (fhsm_bytes p)) = au_fhsm_size (nwmark p) - 12.
Proof.
  unfold fhsm_inside, fhsm_bytes, au_fhsm_size, sizeof_aufhsm, sizeof_wmark. intros H. bool_lia.
  rewrite length_app, length_le_bytes.
  assert (forall l, length (concat (map wmark_bytes l)) = (20 * length l)%nat) as ->.
  { intros l. induction l as [|w l IH]; [done|]. cbn [map concat].
    rewrite length_app, wmark_bytes_length, IH. cbn. lia. }
  rewrite length_take. lia.
Qed.

Lemma csum_fold l a :
  fold_left (fun acc c => u32 (acc + schar_val c)) l (u32 a)
  = u32 (a + foldr (fun c s => schar_val c + s) 0 l).
Proof.
  revert a; induction l as [|c l IH]; intros a; cbn [fold_left foldr].
  - by rewrite Z.add_0_r.
  - replace (u32 (u32 a + schar_val c)) with (u32 (a + schar_val c)).
    + rewrite IH. f_equal. lia.
    + unfold u32, wrap_u. by rewrite Zplus_mod_idemp_l.
Qed.

Lemma csum_bytes_sum l :
  csum_bytes l = u32 (foldr (fun c s => schar_val c + s) 0 l).
Proof. unfold csum_bytes. change 0 with (u32 0) at 1. by rewrite csum_fold. Qed.

Lemma sum_app l1 l2 :
  foldr (fun c s => schar_val c + s) 0 (l1 ++ l2)
  = foldr (fun c s => schar_val c + s) 0 l1 + foldr (fun c s => schar_val c + s) 0 l2.
Proof. induction l1; simpl; lia. Qed.

Lemma csum_bytes_perm l l' : Permutation l l' -> csum_bytes l = csum_bytes l'.
Proof.
  intros H. rewrite !csum_bytes_sum. f_equal.
  induction H; simpl; lia.
Qed.

Lemma lfind_Some brid l n i :
  au_wm_lfind brid l n = Some i ->
  (i < n)%nat /\ exists w, l !! i = Some w /\ wm_brid w = brid /\
  forall j w', (j < i)%nat -> l !! j = Some w' -> wm_brid w' <> brid.
Proof.
  revert l i; induction n as [|n IH]; intros [|w l] i; simpl; try done.
  destruct (wm_brid w =? brid) eqn:E; bool_lia; intros H; simplify_eq/=.
  - split; [lia|]. exists w. split; [done|]. split; [done|]. intros; lia.
  - apply fmap_Some in H as (j & Hj & ->).
    destruct (IH _ _ Hj) as (Hl & w1 & H1 & H2 & H3).
    split; [lia|]. exists w1. split; [done|]. split; [done|].
    intros [|k] w' Hk Hw'; simplify_eq/=; [lia|]. eapply H3; [|done]. lia.
Qed.

Lemma lfind_None brid l n :
  au_wm_lfind brid l n = None ->
  Forall (fun w => wm_brid w <> brid) (take n l).
Proof.
  revert l; induction n as [|n IH]; intros [|w l]; simpl; try (by constructor).
  destruct (wm_brid w =? brid) eqn:E; [done|]. bool_lia.
  intros H%fmap_None. constructor; auto.
Qed.

Lemma sort_wmarks_length n l : length (sort_wmarks n l) = length l.
Proof.
  unfold sort_wmarks. rewrite length_app, qsort_length, length_take, length_drop. lia.
Qed.

Lemma sort_wmarks_take n l :
  (n <= length l)%nat -> take n (sort_wmarks n l) = qsort au_wm_qsort_brid (take n l).
Proof.
  intros H. unfold sort_wmarks. apply take_app_length'.
  rewrite qsort_length, length_take. lia.
Qed.

Lemma wmark_bytes_perm l l' :
  Permutation l l' ->
  Permutation (concat (map wmark_bytes l)) (concat (map wmark_bytes l')).
Proof.
  induction 1 as [|x l l' _ IH|x y l|l1 l2 l3 _ IH1 _ IH2]; cbn [map concat].
  - done.
  - by apply Permutation_app_head.
  - rewrite !app_assoc. apply Permutation_app_tail, Permutation_app_comm.
  - by etrans.
Qed.

Lemma fhsm_inside_sort p : fhsm_inside (au_fhsm_sort_brid p) = fhsm_inside p.
Proof. unfold fhsm_inside. simpl. by rewrite sort_wmarks_length. Qed.

Lemma qsort_brid_sorted l :
  StronglySorted (fun a b => wm_brid a <= wm_brid b) (qsort au_wm_qsort_brid l).
Proof.
  induction (qsort_sorted au_wm_qsort_brid l) as [|a r Hs IH Hf]; constructor; [done|].
  eapply Forall_impl; [exact Hf|]. unfold cmp_le, au_wm_qsort_brid. intros; lia.
Qed.

Lemma sort_brid_sorted p :
  fhsm_inside p = true ->
  StronglySorted (fun a b => wm_brid a <= wm_brid b)
    (take (Z.to_nat (nwmark p)) (wmark (au_fhsm_sort_brid p))).
Proof.
  intros H. unfold fhsm_inside in H. bool_lia.
  simpl. rewrite sort_wmarks_take by lia. apply qsort_brid_sorted.
Qed.

Create HintDb fhsm.
#[export] Hint Rewrite fhsm_inside_sort sort_wmarks_length : fhsm.
#[export] Hint Resolve sort_brid_sorted : fhsm.

(** ** Properties *)

(** Signing a table whose elements all lie inside its object makes it pass
    the verification, and leaves its elements alone. *)
Theorem sign_then_verify p p' :
  fhsm_inside p = true -> au_fhsm_sign p = Some p' ->
  au_fhsm_sign_verify p' = Some true /\ nwmark p' = nwmark p /\ wmark p' = wmark p.
Proof.
  intros Hi. unfold au_fhsm_sign, au_fhsm_csum. rewrite Hi. simpl.
  intros [= <-]. split; [|done].
  unfold au_fhsm_sign_verify, au_fhsm_csum. 
  change (fhsm_inside (Aufhsm ?a ?b ?c ?d)) with (fhsm_inside p) in *.
  unfold fhsm_inside in *. simpl. rewrite Hi. simpl. by rewrite Z.eqb_refl.
Qed.

Definition demo_table : aufhsm :=
  Aufhsm (replicate 8 NUL) 0 2
    [Wmark 3 (F32_0_25, F32_0_5) (F32_1, F32_1);
     Wmark 1 (F32_0_25, F32_0_5) (F32_1, F32_1)].

Lemma sign_then_verify_witness :
  exists p', au_fhsm_sign demo_table = Some p' /\ au_fhsm_sign_verify p' = Some true.
Proof.
  eexists. split; [reflexivity|].
  apply (sign_then_verify demo_table); reflexivity.
Defined.

(** The checksum notices the corruption of any single byte it covers: two
    images that differ in exactly one byte have different checksums. *)
Theorem csum_detects_byte l1 l2 x y :
  x <> y -> csum_bytes (l1 ++ x :: l2) <> csum_bytes (l1 ++ y :: l2).
Proof.
  intros Hne H. rewrite !csum_bytes_sum, !sum_app in H. cbn [foldr] in H.
  apply Hne, schar_val_inj. unfold u32, wrap_u in H.
  pose proof (schar_val_range x). pose proof (schar_val_range y).
  set (s1 := foldr _ 0 l1) in H. set (s2 := foldr _ 0 l2) in H.
  assert ((schar_val x - schar_val y) mod 2 ^ 32 = 0) as Hm.
  { replace (schar_val x - schar_val y)
      with ((s1 + (schar_val x + s2)) - (s1 + (schar_val y + s2))) by lia.
    rewrite Zminus_mod, H, Z.sub_diag. done. }
  apply Z.mod_divide in Hm as [k Hk]; [|done]. lia.
Qed.

Lemma csum_detects_byte_witness :
  csum_bytes (lit "a" ++ digit 1 :: lit "z") <> csum_bytes (lit "a" ++ digit 2 :: lit "z").
Proof. apply (csum_detects_byte (lit "a") (lit "z")). vm_compute. discriminate. Defined.

(** Sorting a table by branch id never changes its checksum (so a signed
    table stays verified when it is sorted). *)
Theorem csum_sort_invariant p :
  au_fhsm_csum (au_fhsm_sort_brid p) = au_fhsm_csum p.
Proof.
  unfold au_fhsm_csum. rewrite fhsm_inside_sort.
  destruct (fhsm_inside p) eqn:Hi; [|done]. f_equal.
  apply csum_bytes_perm. unfold fhsm_bytes, au_fhsm_sort_brid, set_wmark. cbn [nwmark wmark].
  apply Permutation_app_head, wmark_bytes_perm.
  unfold fhsm_inside in Hi. bool_lia. rewrite sort_wmarks_take by lia.
  apply qsort_permutation.
Qed.

(** Searching a sorted table by branch id is exact: it returns an element of
    that branch when the table has one, and nothing when it has none. *)
Theorem search_brid_correct p brid :
  fhsm_inside p = true ->
  match au_wm_search_brid brid (au_fhsm_sort_brid p) with
  | Some i => exists w, wmark (au_fhsm_sort_brid p) !! i = Some w /\ wm_brid w = brid
  | None => Forall (fun w => wm_brid w <> brid) (take (Z.to_nat (nwmark p)) (wmark p))
  end.
Proof.
  intros Hi. unfold au_wm_search_brid.
  set (n := Z.to_nat (nwmark p)). change (nwmark (au_fhsm_sort_brid p)) with (nwmark p).
  fold n. destruct (bsearch _ _) as [i|] eqn:E.
  - apply bsearch_sound in E as (w & Hw & H0). exists w.
    apply lookup_take_Some in Hw as [Hw _]. unfold au_wm_bsearch_brid in H0.
    split; [done|lia].
  - apply bsearch_complete in E.
    + simpl in E. unfold fhsm_inside in Hi. bool_lia.
      rewrite sort_wmarks_take, qsort_permutation in E by lia.
      eapply Forall_impl; [exact E|]. unfold au_wm_bsearch_brid. simpl. lia.
    + apply key_ordered_sub, sort_brid_sorted, Hi.
Qed.

Lemma search_brid_correct_witness :
  match au_wm_search_brid 3 (au_fhsm_sort_brid demo_table) with
  | Some i => exists w, wmark (au_fhsm_sort_brid demo_table) !! i = Some w /\ wm_brid w = 3
  | None => Forall (fun w => wm_brid w <> 3) (take 2 (wmark demo_table))
  end.
Proof. apply (search_brid_correct demo_table 3). reflexivity. Defined.
