(* ===== verification/AufsAbi.v ===== *)
(** * libau/linux/aufs_type.h: names, defaults, structures and ioctl numbers

    The rest of the interface header: the names of aufs's own files, the defaults, the
    words for branches, and the layout of the structures that the ioctls pass, with the
    request numbers that encode their sizes.  The layout is the one of the LP64 C ABI:
    a field at the next multiple of its alignment, a structure padded to its own. *)
From S2P Require Import Prelude CString AufsType FhsmData.

(** ** Names and defaults *)

Definition AUFS_NAME : bytes := lit "aufs".
Definition AUFS_VERSION : bytes := lit "4.1-20160912".
Definition AUFS_FSTYPE : bytes := AUFS_NAME.
Definition AUFS_FIRST_INO : Z := 11.
Definition AUFS_XINO_FNAME : bytes := lit "." ++ AUFS_NAME ++ lit ".xino".
Definition AUFS_XINO_DEFPATH : bytes := lit "/tmp/" ++ AUFS_XINO_FNAME.
Definition AUFS_XINO_DEF_SEC : Z := 30.
Definition AUFS_XINO_DEF_TRUNC : Z := 45.
Definition AUFS_DIRWH_DEF : Z := 3.
Definition AUFS_RDCACHE_DEF : Z := 10.
Definition AUFS_RDCACHE_MAX : Z := 3600.
Definition AUFS_RDBLK_DEF : Z := 512.
Definition AUFS_RDHASH_DEF : Z := 32.
Definition AUFS_WKQ_NAME : bytes := AUFS_NAME ++ lit "d".
Definition AUFS_MFS_DEF_SEC : Z := 30.
Definition AUFS_MFS_MAX_SEC : Z := 3600.
Definition AUFS_FHSM_CACHE_DEF_SEC : Z := 30.
Definition AUFS_PLINK_WARN : Z := 50.

Definition AUFS_DIROPQ_NAME : bytes := AUFS_WH_PFX ++ lit ".opq".
Definition AUFS_WH_DIROPQ : bytes := AUFS_WH_PFX ++ AUFS_DIROPQ_NAME.
Definition AUFS_BASE_NAME : bytes := AUFS_WH_PFX ++ AUFS_NAME.
Definition AUFS_ORPHDIR_NAME : bytes := AUFS_WH_PFX ++ lit "orph".
Definition AUFS_WH_BASE : bytes := AUFS_WH_PFX ++ AUFS_BASE_NAME.
Definition AUFS_WH_ORPHDIR : bytes := AUFS_WH_PFX ++ AUFS_ORPHDIR_NAME.

(** ** The words for branches *)

Definition AUFS_BRPERM_RW : bytes := lit "rw".
Definition AUFS_BRPERM_RO : bytes := lit "ro".
Definition AUFS_BRPERM_RR : bytes := lit "rr".
Definition AUFS_BRATTR_COO_REG : bytes := lit "coo_reg".
Definition AUFS_BRATTR_COO_ALL : bytes := lit "coo_all".
Definition AUFS_BRATTR_FHSM : bytes := lit "fhsm".
Definition AUFS_BRATTR_UNPIN : bytes := lit "unpin".
Definition AUFS_BRATTR_ICEX : bytes := lit "icex".
Definition AUFS_BRATTR_ICEX_SEC : bytes := lit "icexsec".
Definition AUFS_BRATTR_ICEX_SYS : bytes := lit "icexsys".
Definition AUFS_BRATTR_ICEX_TR : bytes := lit "icextr".
Definition AUFS_BRATTR_ICEX_USR : bytes := lit "icexusr".
Definition AUFS_BRATTR_ICEX_OTH : bytes := lit "icexoth".
Definition AUFS_BRRATTR_WH : bytes := lit "wh".
Definition AUFS_BRWATTR_NLWH : bytes := lit "nolwh".
Definition AUFS_BRWATTR_MOO : bytes := lit "moo".

Definition AuBrAttr_UNPIN : Z := Z.shiftl 1 6.
Definition AuBrAttr_ICEX_SEC : Z := Z.shiftl 1 7.
Definition AuBrAttr_ICEX_SYS : Z := Z.shiftl 1 8.
Definition AuBrAttr_ICEX_TR : Z := Z.shiftl 1 9.
Definition AuBrAttr_ICEX_USR : Z := Z.shiftl 1 10.
Definition AuBrAttr_ICEX_OTH : Z := Z.shiftl 1 11.
Definition AuBrAttr_ICEX : Z :=
  Z.lor AuBrAttr_ICEX_SEC (Z.lor AuBrAttr_ICEX_SYS (Z.lor AuBrAttr_ICEX_TR
    (Z.lor AuBrAttr_ICEX_USR AuBrAttr_ICEX_OTH))).
Definition AuBrRAttr_Mask : Z := AuBrRAttr_WH.
Definition AuBrWAttr_Mask : Z := Z.lor AuBrWAttr_NoLinkWH AuBrWAttr_MOO.

(** [sizeof] of the literal: its terminator counts. *)
Definition AuBrPermStrSz : Z :=
  let plus := lit "+" in
  Z.of_nat (length (AUFS_BRPERM_RW ++ plus ++ AUFS_BRATTR_COO_REG ++ plus ++ AUFS_BRATTR_FHSM
    ++ plus ++ AUFS_BRATTR_UNPIN ++ plus ++ AUFS_BRATTR_ICEX_SEC ++ plus ++ AUFS_BRATTR_ICEX_SYS
    ++ plus ++ AUFS_BRATTR_ICEX_USR ++ plus ++ AUFS_BRATTR_ICEX_OTH ++ plus
    ++ AUFS_BRWATTR_NLWH)) + 1.

(** ** Types and their layout *)

(** [al] is what __attribute__((aligned)) asks for, 1 without it. *)
Inductive ctype :=
  | TInt (size : Z)
  | TArray (n : Z) (t : ctype)
  | TStruct (al : Z) (fields : list (bytes * ctype))
  | TUnion (al : Z) (fields : list (bytes * ctype)).

Definition round_up (x a : Z) : Z := (x + (a - 1)) / a * a.

Fixpoint alignof (t : ctype) : Z :=
  match t with
  | TInt size => size
  | TArray _ t => alignof t
  | TStruct al fs | TUnion al fs => foldr (fun f a => Z.max (let '(_, t) := f in alignof t) a) al fs
  end.

Fixpoint sizeof (t : ctype) : Z :=
  match t with
  | TInt size => size
  | TArray n t => n * sizeof t
  | TStruct al fs =>
      round_up (fold_left (fun off f => let '(_, t) := f in round_up off (alignof t) + sizeof t) fs 0)
        (foldr (fun f a => Z.max (let '(_, t) := f in alignof t) a) al fs)
  | TUnion al fs =>
      round_up (foldr (fun f s => Z.max (let '(_, t) := f in sizeof t) s) 0 fs)
        (foldr (fun f a => Z.max (let '(_, t) := f in alignof t) a) al fs)
  end.

(** Where the fields of a structure start; [off] bytes are taken. *)
Fixpoint offsets_from (off : Z) (fs : list (bytes * ctype)) : list Z :=
  match fs with
  | [] => []
  | (_, t) :: fs => let o := round_up off (alignof t) in o :: offsets_from (o + sizeof t) fs
  end.
Definition offset_in (t : ctype) (name : bytes) : option Z :=
  match t with
  | TStruct _ fs =>
      '(i, _) ← list_find (fun f => f.1 = name) fs;
      offsets_from 0 fs !! i
  | TUnion _ fs => '(_, _) ← list_find (fun f => f.1 = name) fs; Some 0
  | _ => None
  end.

Definition u8_t : ctype := TInt 1.
Definition i16_t : ctype := TInt 2.
Definition u16_t : ctype := TInt 2.
Definition int_t : ctype := TInt 4.
Definition u32_t : ctype := TInt 4.
Definition u64_t : ctype := TInt 8.
Definition ptr_t : ctype := TInt 8.
Definition char_array (n : Z) : ctype := TArray n (TInt 1).

Definition t_au_rdu_cookie : ctype :=
  TStruct 8 [(lit "h_pos", u64_t); (lit "bindex", i16_t); (lit "flags", u8_t); (lit "pad", u8_t);
             (lit "generation", u32_t)].
Definition t_au_rdu_ent : ctype :=
  TStruct 8 [(lit "ino", u64_t); (lit "bindex", i16_t); (lit "type", u8_t); (lit "nlen", u8_t);
             (lit "wh", u8_t); (lit "name", char_array 0)].
Definition t_au_rdu_ent_ul : ctype := TUnion 1 [(lit "e", ptr_t); (lit "ul", u64_t)].

Definition AufsCtlRduV_SZ : Z := 0.
Definition AufsCtlRduV_End : Z := 1.
Definition t_aufs_rdu : ctype :=
  TStruct 8 [(lit "sz", TUnion 1 [(lit "sz", u64_t); (lit "nent", u64_t)]);
             (lit "ent", t_au_rdu_ent_ul); (lit "verify", TArray AufsCtlRduV_End u16_t);
             (lit "blk", u32_t); (lit "tail", t_au_rdu_ent_ul); (lit "rent", u64_t);
             (lit "full", u8_t); (lit "shwh", u8_t); (lit "cookie", t_au_rdu_cookie)].

Definition t_aufs_wbr_fd : ctype := TStruct 8 [(lit "oflags", u32_t); (lit "brid", i16_t)].
Definition t_aufs_ibusy : ctype :=
  TStruct 8 [(lit "ino", u64_t); (lit "h_ino", u64_t); (lit "bindex", i16_t)].

Definition AUFS_MVDOWN_UPPER : Z := 0.
Definition AUFS_MVDOWN_LOWER : Z := 1.
Definition AUFS_MVDOWN_NARRAY : Z := 2.
Definition t_aufs_stfs : ctype :=
  TStruct 1 [(lit "f_blocks", u64_t); (lit "f_bavail", u64_t); (lit "f_files", u64_t);
             (lit "f_ffree", u64_t)].
Definition t_aufs_stbr : ctype :=
  TStruct 8 [(lit "brid", i16_t); (lit "bindex", i16_t); (lit "stfs", t_aufs_stfs)].
Definition t_aufs_mvdown : ctype :=
  TStruct 8 [(lit "flags", u32_t); (lit "stbr", TArray AUFS_MVDOWN_NARRAY t_aufs_stbr);
             (lit "au_errno", TInt 1)].
Definition t_aufs_brinfo : ctype :=
  TUnion 8 [(lit "_spacer", char_array 4096);
            (lit "", TStruct 1 [(lit "id", i16_t); (lit "perm", int_t); (lit "path", char_array 0)])].

(** ** ioctl numbers: _IOC(dir, type, nr, size) *)

Definition _IOC (dir type nr size : Z) : Z :=
  Z.lor (Z.shiftl dir 30) (Z.lor (Z.shiftl size 16) (Z.lor (Z.shiftl type 8) nr)).
Definition _IOC_DIR (n : Z) : Z := Z.land (Z.shiftr n 30) 3.
Definition _IOC_TYPE (n : Z) : Z := Z.land (Z.shiftr n 8) 255.
Definition _IOC_NR (n : Z) : Z := Z.land n 255.
Definition _IOC_SIZE (n : Z) : Z := Z.land (Z.shiftr n 16) (2 ^ 14 - 1).
Definition _IOW (type nr : Z) (t : ctype) : Z := _IOC 1 type nr (sizeof t).
Definition _IOWR (type nr : Z) (t : ctype) : Z := _IOC 3 type nr (sizeof t).

Definition AuCtl_RDU : Z := 0.
Definition AuCtl_RDU_INO : Z := 1.
Definition AuCtl_WBR_FD : Z := 2.
Definition AuCtl_IBUSY : Z := 3.
Definition AuCtl_MVDOWN : Z := 4.
Definition AuCtl_BR : Z := 5.
Definition AuCtl_FHSM_FD : Z := 6.

Definition AuCtlType : Z := byte_val "A".
Definition AUFS_CTL_RDU : Z := _IOWR AuCtlType AuCtl_RDU t_aufs_rdu.
Definition AUFS_CTL_RDU_INO : Z := _IOWR AuCtlType AuCtl_RDU_INO t_aufs_rdu.
Definition AUFS_CTL_WBR_FD : Z := _IOW AuCtlType AuCtl_WBR_FD t_aufs_wbr_fd.
Definition AUFS_CTL_IBUSY : Z := _IOWR AuCtlType AuCtl_IBUSY t_aufs_ibusy.
Definition AUFS_CTL_MVDOWN : Z := _IOWR AuCtlType AuCtl_MVDOWN t_aufs_mvdown.
Definition AUFS_CTL_BRINFO : Z := _IOW AuCtlType AuCtl_BR t_aufs_brinfo.
Definition AUFS_CTL_FHSM_FD : Z := _IOW AuCtlType AuCtl_FHSM_FD int_t.

(** ** The layout is sound *)

Section ctype_ind.
Context (P : ctype -> Prop).
Context (HInt : forall size, P (TInt size)) (HArray : forall n t, P t -> P (TArray n t)).
Context (HStruct : forall al fs, Forall (fun f : bytes * ctype => P f.2) fs -> P (TStruct al fs)).
Context (HUnion : forall al fs, Forall (fun f : bytes * ctype => P f.2) fs -> P (TUnion al fs)).

(** Induction over a type reaches the types of its fields. *)
Fixpoint ctype_ind' (t : ctype) : P t :=
  let fields := fix fields (fs : list (bytes * ctype)) : Forall (fun f : bytes * ctype => P f.2) fs :=
    match fs with
    | [] => Forall_nil_2 (fun f : bytes * ctype => P f.2)
    | f :: fs => Forall_cons_2 (fun f : bytes * ctype => P f.2) f fs (ctype_ind' f.2) (fields fs)
    end in
  match t with
  | TInt size => HInt size
  | TArray n t => HArray n t (ctype_ind' t)
  | TStruct al fs => HStruct al fs (fields fs)
  | TUnion al fs => HUnion al fs (fields fs)
  end.
End ctype_ind.

(** The alignments are powers of two, and arrays have a length. *)
Definition pow2 (z : Z) : Prop := exists k, 0 <= k /\ z = 2 ^ k.
Fixpoint wf_type (t : ctype) : Prop :=
  match t with
  | TInt size => pow2 size
  | TArray n t => 0 <= n /\ wf_type t
  | TStruct al fs | TUnion al fs =>
      pow2 al /\ foldr (fun f p => (let '(_, t) := f in wf_type t) /\ p) True fs
  end.

Definition align_of_fields (al : Z) (fs : list (bytes * ctype)) : Z :=
  foldr (fun f a => Z.max (let '(_, t) := f in alignof t) a) al fs.

Lemma wf_fields fs :
  foldr (fun f p => (let '(_, t) := f in wf_type t) /\ p) True fs <-> Forall (fun f : bytes * ctype => wf_type f.2) fs.
Proof.
  induction fs as [|[n t] fs IH]; simpl; [split; auto using Forall_nil_2|].
  by rewrite IH, Forall_cons.
Qed.

Lemma pow2_pos z : pow2 z -> 0 < z.
Proof. intros (k & Hk & ->). lia. Qed.
Lemma pow2_divide a b : pow2 a -> pow2 b -> a <= b -> (a | b).
Proof.
  intros (i & Hi & ->) (j & Hj & ->) H. apply Z.pow_le_mono_r_iff in H; [|lia|lia].
  exists (2 ^ (j - i)). rewrite <- Z.pow_add_r by lia. f_equal. lia.
Qed.
Lemma pow2_max a b : pow2 a -> pow2 b -> pow2 (Z.max a b).
Proof. intros Ha Hb. by destruct (Z.max_spec a b) as [[_ ->]|[_ ->]]. Qed.

Lemma round_up_spec x a : 0 < a -> (a | round_up x a) /\ x <= round_up x a < x + a.
Proof.
  intros Ha. unfold round_up. split; [apply Z.divide_factor_r|].
  pose proof (Z.div_mod (x + (a - 1)) a). pose proof (Z.mod_pos_bound (x + (a - 1)) a). lia.
Qed.

Lemma align_of_fields_ok al fs :
  pow2 al -> Forall (fun f : bytes * ctype => pow2 (alignof f.2)) fs ->
  pow2 (align_of_fields al fs) /\ Forall (fun f : bytes * ctype => (alignof f.2 | align_of_fields al fs)) fs.
Proof.
  intros Hal H. assert (pow2 (align_of_fields al fs) /\
    Forall (fun f : bytes * ctype => alignof f.2 <= align_of_fields al fs) fs) as [Hp Hle].
  { induction H as [|[n t] fs Ht H [Hp IH]]; cbn [align_of_fields foldr]; [split; [done|constructor]|].
    split; [by apply pow2_max|]. apply Forall_cons. split; [cbn; lia|].
    eapply Forall_impl; [exact IH|]. intros f Hf. cbn beta in *. unfold align_of_fields in Hf. lia. }
  split; [done|]. apply Forall_forall. intros f Hf. rewrite Forall_forall in H, Hle.
  apply pow2_divide; auto.
Qed.

Lemma alignof_pow2 t : wf_type t -> pow2 (alignof t).
Proof.
  induction t as [size|n t IH|al fs IH|al fs IH] using ctype_ind'; cbn [wf_type].
  - done.
  - intros [_ H]. by apply IH.
  - intros [Hal H%wf_fields]. apply (align_of_fields_ok al fs Hal), Forall_forall.
    intros f Hf. rewrite Forall_forall in H, IH. auto.
  - intros [Hal H%wf_fields]. apply (align_of_fields_ok al fs Hal), Forall_forall.
    intros f Hf. rewrite Forall_forall in H, IH. auto.
Qed.

Lemma sizeof_nonneg t : wf_type t -> 0 <= sizeof t.
Proof.
  induction t as [size|n t IH|al fs IH|al fs IH] using ctype_ind'; intros Hw.
  - apply pow2_pos in Hw. cbn. lia.
  - destruct Hw as [Hn Hw]. specialize (IH Hw). cbn. lia.
  - pose proof (pow2_pos _ (alignof_pow2 _ Hw)) as Ha. destruct Hw as [Hal H%wf_fields].
    cbn [sizeof alignof] in *. eapply Z.le_trans; [|apply round_up_spec, Ha].
    assert (forall off, 0 <= off -> 0 <= fold_left (fun off f =>
      let '(_, t) := f in round_up off (alignof t) + sizeof t) fs off) as Hf; [|by apply Hf].
    clear Ha Hal. induction H as [|[m t] fs Ht H IHfs]; intros off Hoff; [done|]. simpl.
    apply Forall_cons in IH as [IHt IH]. apply IHfs; [done|]. cbn in *.
    pose proof (proj2 (round_up_spec off (alignof t) (pow2_pos _ (alignof_pow2 t Ht)))).
    specialize (IHt Ht). lia.
  - pose proof (pow2_pos _ (alignof_pow2 _ Hw)) as Ha. cbn [sizeof alignof] in *.
    eapply Z.le_trans; [|apply round_up_spec, Ha]. clear. induction fs; simpl; lia.
Qed.

(** The end of the fields, as [sizeof] computes it. *)
Definition end_of (off : Z) (fs : list (bytes * ctype)) : Z :=
  fold_left (fun off f => let '(_, t) := f in round_up off (alignof t) + sizeof t) fs off.

Lemma end_of_le fs off : Forall (fun f : bytes * ctype => wf_type f.2) fs -> off <= end_of off fs.
Proof.
  intros H. revert off; induction H as [|[n t] fs Ht H IH]; intros off; [done|]. cbn.
  etrans; [|apply IH]. cbn in Ht. pose proof (sizeof_nonneg t Ht).
  pose proof (proj2 (round_up_spec off _ (pow2_pos _ (alignof_pow2 t Ht)))). lia.
Qed.

Lemma offsets_spec fs off i n t o :
  Forall (fun f : bytes * ctype => wf_type f.2) fs -> fs !! i = Some (n, t) -> offsets_from off fs !! i = Some o ->
  (alignof t | o) /\ off <= o /\ o + sizeof t <= end_of off fs /\
  forall j n' t' o', (i < j)%nat -> fs !! j = Some (n', t') -> offsets_from off fs !! j = Some o' ->
    o + sizeof t <= o'.
Proof.
  intros H. revert off i n t o.
  induction H as [|[m u] fs Hu H IH]; intros off i n t o Hi Ho; [done|].
  cbn in Hu. pose proof (sizeof_nonneg u Hu) as Hsz.
  destruct (round_up_spec off _ (pow2_pos _ (alignof_pow2 u Hu))) as [Hd Hr].
  destruct i as [|i]; cbn in Hi, Ho.
  - simplify_eq. split; [done|]. split; [lia|].
    split; [by apply (end_of_le fs (round_up off (alignof t) + sizeof t))|].
    intros [|j] n' t' o' Hj Hf' Ho'; [lia|]. cbn in Hf', Ho'.
    by destruct (IH _ j _ _ _ Hf' Ho') as (_ & ? & _).
  - destruct (IH _ i _ _ _ Hi Ho) as (H1 & H2 & H3 & H4). split; [done|]. split; [lia|]. split; [done|].
    intros [|j] n' t' o' Hj Hf' Ho'; [lia|]. by apply (H4 j n' t'); [lia|..].
Qed.

(** Every field of a structure lies inside it, at an offset that keeps it aligned wherever
    the structure itself is aligned, behind the fields before it; and the size is a
    multiple of the alignment, so that this holds in arrays too. *)
Lemma struct_layout al fs i n t o base :
  wf_type (TStruct al fs) -> fs !! i = Some (n, t) -> offsets_from 0 fs !! i = Some o ->
  (alignof (TStruct al fs) | base) ->
  (alignof t | base + o) /\ 0 <= o /\ o + sizeof t <= sizeof (TStruct al fs) /\
  (alignof (TStruct al fs) | sizeof (TStruct al fs)) /\
  forall j n' t' o', (i < j)%nat -> fs !! j = Some (n', t') -> offsets_from 0 fs !! j = Some o' ->
    o + sizeof t <= o'.
Proof.
  intros Hw Hi Ho Hb. pose proof (pow2_pos _ (alignof_pow2 _ Hw)) as Ha. destruct Hw as [Hal Hfs%wf_fields].
  destruct (offsets_spec _ _ _ _ _ _ Hfs Hi Ho) as (H1 & H2 & H3 & H4).
  destruct (round_up_spec (end_of 0 fs) _ Ha) as [Hd Hr].
  assert ((alignof t | alignof (TStruct al fs))) as Hdiv.
  { destruct (align_of_fields_ok al fs Hal) as [_ Hall].
    - eapply Forall_impl; [exact Hfs|]. intros f. apply alignof_pow2.
    - rewrite Forall_forall in Hall. apply (Hall (n, t)). by eapply list_elem_of_lookup_2. }
  split; [|split; [done|split; [|split; [exact Hd|exact H4]]]].
  - apply Z.divide_add_r; [by etrans|done].
  - change (sizeof (TStruct al fs)) with (round_up (end_of 0 fs) (alignof (TStruct al fs))). lia.
Qed.

(** ** Request numbers *)

Lemma lor_disjoint a b k : 0 <= b < 2 ^ k -> 0 <= k -> Z.lor (a * 2 ^ k) b = a * 2 ^ k + b.
Proof.
  intros Hb Hk. rewrite <- (Z.add_lor_land (a * 2 ^ k) b).
  assert (Z.land (a * 2 ^ k) b = 0) as ->; [|lia]. apply Z.bits_inj'. intros n Hn.
  rewrite Z.land_spec, Z.bits_0. destruct (Z.ltb_spec n k).
  - by rewrite Z.mul_pow2_bits_low by lia.
  - destruct (Z.eq_dec b 0) as [->|]; [by rewrite Z.bits_0, Bool.andb_false_r|].
    rewrite (Z.bits_above_log2 b n), Bool.andb_false_r; [done|lia|].
    apply Z.log2_lt_pow2; [lia|]. eapply Z.lt_le_trans; [apply Hb|]. by apply Z.pow_le_mono_r.
Qed.

(** The fields of a request number are read back. *)
Lemma ioc_roundtrip dir type nr size :
  0 <= dir < 4 -> 0 <= type < 256 -> 0 <= nr < 256 -> 0 <= size < 2 ^ 14 ->
  let n := _IOC dir type nr size in
  _IOC_DIR n = dir /\ _IOC_TYPE n = type /\ _IOC_NR n = nr /\ _IOC_SIZE n = size /\ 0 <= n < 2 ^ 32.
Proof.
  intros Hd Ht Hn Hs n.
  assert (n = dir * 2 ^ 30 + size * 2 ^ 16 + type * 2 ^ 8 + nr) as ->.
  { unfold n, _IOC. rewrite !Z.shiftl_mul_pow2 by lia.
    rewrite (lor_disjoint type nr 8) by lia.
    rewrite (lor_disjoint size (type * 2 ^ 8 + nr) 16) by lia.
    rewrite (lor_disjoint dir _ 30) by lia. lia. }
  unfold _IOC_DIR, _IOC_TYPE, _IOC_NR, _IOC_SIZE. rewrite !Z.shiftr_div_pow2 by lia.
  change 3 with (Z.ones 2). change 255 with (Z.ones 8). change (2 ^ 14 - 1) with (Z.ones 14).
  rewrite !Z.land_ones by lia. split_and!; zify; Z.to_euclidean_division_equations; lia.
Qed.

(** *** The requests *)

Definition requests : list Z :=
  [AUFS_CTL_RDU; AUFS_CTL_RDU_INO; AUFS_CTL_WBR_FD; AUFS_CTL_IBUSY; AUFS_CTL_MVDOWN;
   AUFS_CTL_BRINFO; AUFS_CTL_FHSM_FD].
Definition arguments : list ctype :=
  [t_aufs_rdu; t_aufs_rdu; t_aufs_wbr_fd; t_aufs_ibusy; t_aufs_mvdown; t_aufs_brinfo; int_t].

(** The requests of aufs are distinct 32-bit numbers of the type 'A', and each carries the
    size of the structure that it passes. *)
Theorem requests_encode :
  NoDup requests /\
  Forall2 (fun n t => _IOC_TYPE n = byte_val "A" /\ _IOC_SIZE n = sizeof t /\ 0 <= n < 2 ^ 32)
    requests arguments.
Proof.
  split; [apply (bool_decide_unpack _); by vm_compute|].
  unfold requests, arguments.
  do 7 (constructor; [split_and!; [reflexivity|reflexivity|by vm_compute|by vm_compute]|]).
  constructor.
Qed.

(** *** What the rest of the development assumes of the layout *)

Definition t_aufhsm_wmark : ctype :=
  TStruct 1 [(lit "brid", i16_t); (lit "block", TArray 2 (TInt 4)); (lit "inode", TArray 2 (TInt 4))].

Definition t_aufhsm : ctype :=
  TStruct 1 [(lit "magic", char_array 8); (lit "csum", u32_t); (lit "nwmark", int_t);
             (lit "wmark", TArray 0 t_aufhsm_wmark)].

(** The sizes that the models use are those of the structures; the name of an entry starts
    three bytes before the end of its structure, within the padding. *)
Lemma layout_agrees :
  sizeof t_au_rdu_ent = sizeof_au_rdu_ent /\ offset_in t_au_rdu_ent (lit "name") = Some 13 /\
  sizeof t_aufhsm_wmark = sizeof_wmark /\ sizeof t_aufhsm = sizeof_aufhsm /\
  offset_in t_aufhsm_wmark (lit "block") = Some 4 /\
  Forall wf_type [t_aufs_rdu; t_au_rdu_ent; t_aufs_wbr_fd; t_aufs_ibusy; t_aufs_mvdown; t_aufs_brinfo].
Proof.
  split_and!; try reflexivity.
  assert (pow2 1 /\ pow2 2 /\ pow2 4 /\ pow2 8) as (? & ? & ? & ?)
    by (split_and!; [exists 0|exists 1|exists 2|exists 3]; done).
  repeat (apply Forall_cons; split); [..|apply Forall_nil_2]; cbn;
    repeat first [assumption|done|split].
Qed.
