(* ===== verification/BuildConf.v ===== *)
(** * ver.c, c2sh.c and c2tmac.c: the programs that the build runs

    [ver] checks the version of the kernel header against a regular expression; [c2sh] and
    [c2tmac] print constants of the C headers as assignments of the shell and as string
    definitions of troff, from which the scripts and the manual are made. *)
From S2P Require Import Prelude CString AuUtil Ere AufsType AufsAbi.

(** ** ver.c *)

Definition ver_pattern : bytes := lit "^4\.[1-9][0-9]?".

Definition ver_text (version : bytes) : bytes :=
  clit "Wrong version!\n" ++ AuVersion ++ lit ", but aufs is " ++ version ++ clit ".\n" ++
  lit "See README in detail and try git branch -a." ++ newline.

(** main(), for any [AUFS_VERSION]: the exit status and what is printed; [None] is the
    failed assertion. *)
Definition ver_main (version : bytes) : option (Z * bytes) :=
  preg ← regcomp ver_pattern;
  if regexec preg version then Some (0, []) else Some (u8 (-1), ver_text version).

(** ** c2sh.c *)

Definition AUFS_WH_PFX2 : bytes := AUFS_WH_PFX ++ AUFS_WH_PFX.

Inductive macro := PStr (v : bytes) | PInt (v : Z).
Definition macro_text (m : macro) : bytes := match m with PStr v => v | PInt v => fmt_d v end.

Definition sh_macros : list (string * macro) :=
  [("AUFS_VERSION"%string, PStr AUFS_VERSION);
   ("AUFS_SUPER_MAGIC"%string, PInt AUFS_SUPER_MAGIC)].
Definition sh_macros2 : list (string * macro) :=
  [("AUFS_ROOT_INO"%string, PInt AUFS_ROOT_INO);
   ("AUFS_WH_PFX"%string, PStr AUFS_WH_PFX); ("AUFS_WH_PFX2"%string, PStr AUFS_WH_PFX2);
   ("AUFS_MAX_NAMELEN"%string, PInt AUFS_MAX_NAMELEN);
   ("AUFS_WKQ_NAME"%string, PStr AUFS_WKQ_NAME); ("AUFS_WH_DIROPQ"%string, PStr AUFS_WH_DIROPQ);
   ("AUFS_WH_BASE"%string, PStr AUFS_WH_BASE); ("AUFS_WH_PLINKDIR"%string, PStr AUFS_WH_PLINKDIR);
   ("AUFS_WH_ORPHDIR"%string, PStr AUFS_WH_ORPHDIR)].

(** printf("%s=%s\n") *)
Definition sh_line (nv : string * macro) : bytes :=
  lit nv.1 ++ lit "=" ++ macro_text nv.2 ++ newline.
Definition c2sh_main : bytes :=
  concat (map sh_line sh_macros) ++
  lit "AUFS_SUPER_MAGIC_HEX=0x" ++ digits 16 AUFS_SUPER_MAGIC ++ newline ++
  concat (map sh_line sh_macros2).

(** ** c2tmac.c *)

Definition LibAuEnv : bytes := lit "LIBAU".

Definition tmac_macros : list (string * macro) :=
  [("AUFS_VERSION"%string, PStr AUFS_VERSION); ("AUFS_XINO_FNAME"%string, PStr AUFS_XINO_FNAME);
   ("AUFS_XINO_DEFPATH"%string, PStr AUFS_XINO_DEFPATH);
   ("AUFS_DIRWH_DEF"%string, PInt AUFS_DIRWH_DEF); ("AUFS_WH_PFX"%string, PStr AUFS_WH_PFX);
   ("AUFS_WH_PFX_LEN"%string, PInt AUFS_WH_PFX_LEN);
   ("AUFS_WH_TMP_LEN"%string, PInt AUFS_WH_TMP_LEN);
   ("AUFS_MAX_NAMELEN"%string, PInt AUFS_MAX_NAMELEN);
   ("AUFS_WKQ_NAME"%string, PStr AUFS_WKQ_NAME); ("AUFS_WH_DIROPQ"%string, PStr AUFS_WH_DIROPQ);
   ("AUFS_WH_BASE"%string, PStr AUFS_WH_BASE); ("AUFS_WH_PLINKDIR"%string, PStr AUFS_WH_PLINKDIR);
   ("AUFS_MFS_DEF_SEC"%string, PInt AUFS_MFS_DEF_SEC);
   ("AUFS_MFS_MAX_SEC"%string, PInt AUFS_MFS_MAX_SEC);
   ("AUFS_RDBLK_DEF"%string, PInt AUFS_RDBLK_DEF); ("AUFS_RDHASH_DEF"%string, PInt AUFS_RDHASH_DEF);
   ("AUFS_RDCACHE_DEF"%string, PInt AUFS_RDCACHE_DEF);
   ("AUFS_RDCACHE_MAX"%string, PInt AUFS_RDCACHE_MAX); ("LibAuEnv"%string, PStr LibAuEnv)].

(** printf(".ds %s %s\n") *)
Definition tmac_line (nv : string * macro) : bytes :=
  lit ".ds " ++ lit nv.1 ++ lit " " ++ macro_text nv.2 ++ newline.
Definition c2tmac_main : bytes := concat (map tmac_line tmac_macros).

(** ** Properties *)

Lemma ver_regcomp :
  regcomp ver_pattern = Some (RCat RBol (RCat (RChr "4") (RCat (RChr ".")
    (RCat (RSet false [("1", "9")]%char) (ROpt (RSet false [("0", "9")]%char)))))).
Proof. reflexivity. Qed.

(** C40. Which headers the build accepts: those whose version is "4." and a digit but 0, and
    whatever follows.  Despite "and later" in the comment that is no version from 5.0
    on, and the optional second digit of the pattern, which is not anchored at its end,
    makes no difference. *)
Theorem ver_accepts version :
  (exists out, ver_main version = Some (0, out)) <->
  exists d r, version = lit "4." ++ d :: r /\ byte_val "1" <= byte_val d <= byte_val "9".
Proof.
  assert (forall b s, match_here b (ROpt (RSet false [("0", "9")]%char)) s = true) as Hopt.
  { intros b s. unfold ROpt. by rewrite match_here_alt, match_here_eps, Bool.orb_true_r. }
  assert (forall d, in_set false [("1", "9")]%char d = true <->
    byte_val "1" <= byte_val d <= byte_val "9") as Hd.
  { intros d. unfold in_set, in_range. cbn [existsb fst snd xorb].
    by rewrite Bool.orb_false_r, andb_true_iff, !Z.leb_le. }
  transitivity (regexec (RCat RBol (RCat (RChr "4") (RCat (RChr ".")
    (RCat (RSet false [("1", "9")]%char) (ROpt (RSet false [("0", "9")]%char)))))) version = true).
  { unfold ver_main. rewrite ver_regcomp. cbn [mbind option_bind].
    destruct (regexec _ _); [naive_solver|]. split; [by intros [? [=]]|done]. }
  rewrite regexec_bol, match_here_cat_chr. split.
  - destruct version as [|c [|c' [|d r]]]; try done; rewrite andb_true_iff, match_here_cat_chr;
      [by intros [_ ?]| |].
    + intros [_ H]. rewrite match_here_set in H. by apply andb_true_iff in H as [_ ?].
    + rewrite match_here_set, Hopt, andb_true_iff, !bool_decide_eq_true, Bool.andb_true_r.
      intros (<- & <- & H). exists d, r. split; [done|]. by apply Hd.
  - intros (d & r & -> & H). cbn [app lit String.list_ascii_of_string].
    rewrite match_here_cat_chr, match_here_set, Hopt, (proj2 (Hd d) H). done.
Qed.

(** The header of the sources is accepted. *)
Example ver_ok : ver_main AUFS_VERSION = Some (0, []).
Proof. vm_compute. reflexivity. Qed.
