(* ===== verification/Log.v ===== *)
(** * fhsm/log.h, fhsm/log.c and extlib/non-glibc/error_at_line.c: messages

    A message goes to stderr or, in the daemon, to syslog(3).  The calls that print may
    leave any value in errno; the macros put the old one back.  A message comes already
    formatted, [%m] apart, which is the text of errno at that moment. *)
From S2P Require Import Prelude CString.

#[local] Ltac Zify.zify_post_hook ::= Z.to_euclidean_division_equations.

(** [au_do_syslog], errno, and what was printed: on stderr, and by level to syslog. *)
Record logger := Logger {
  au_do_syslog : bool;
  lg_errno : Z;
  lg_stderr : list bytes;
  lg_syslog : list (Z * bytes)
}.

Definition LOG_ERR : Z := 3.
Definition LOG_WARNING : Z := 4.
Definition LOG_INFO : Z := 6.
Definition LOG_DEBUG : Z := 7.

Section log.
Context (prog : bytes) (pid : Z) (strerror : Z -> bytes).
(** What a call that prints leaves in errno. *)
Context (io_errno : Z -> Z).
Notation ML := (M logger).

(** Where a macro is used: __func__ and __LINE__. *)
Record place := Place { p_func : bytes; p_line : Z }.
(** The format's own text, and whether ", %m" follows. *)
Record msg := Msg { m_text : bytes; m_errno : bool }.

Definition expand_m (m : msg) (e : Z) : bytes :=
  m_text m ++ (if m_errno m then lit ", " ++ strerror e else []).

Definition set_lerrno (e : Z) : ML unit :=
  modify (fun g => Logger (au_do_syslog g) e (lg_stderr g) (lg_syslog g)).
Definition fprintf_stderr (s : bytes) : ML unit :=
  modify (fun g => Logger (au_do_syslog g) (io_errno (lg_errno g)) (lg_stderr g ++ [s])
                     (lg_syslog g)).
Definition syslog (level : Z) (s : bytes) : ML unit :=
  modify (fun g => Logger (au_do_syslog g) (io_errno (lg_errno g)) (lg_stderr g)
                     (lg_syslog g ++ [(level, s)])).

Definition AuWarn (at_ : place) (m : msg) : ML unit :=
  e ← gets lg_errno;
  fprintf_stderr (prog ++ lit "[" ++ fmt_d pid ++ lit "]:" ++ p_func at_ ++ lit ":" ++
    fmt_d (p_line at_) ++ lit ": " ++ expand_m m e ++ [byte_of 10]) ;;
  set_lerrno e.

Definition AuDoLog (level : Z) (at_ : place) (m : msg) : ML unit :=
  e ← gets lg_errno;
  s ← gets au_do_syslog;
  (if s : bool
   then syslog level (p_func at_ ++ lit ":" ++ fmt_d (p_line at_) ++ lit ": " ++ expand_m m e)
   else AuWarn at_ m) ;;
  set_lerrno e.

Definition AuLogErr (at_ : place) (s : bytes) : ML unit := AuDoLog LOG_ERR at_ (Msg s true).
Definition AuLogWarn (at_ : place) (m : msg) : ML unit := AuDoLog LOG_WARNING at_ m.
Definition AuLogInfo (at_ : place) (m : msg) : ML unit := AuDoLog LOG_INFO at_ m.
Definition AuLogDbg (at_ : place) (m : msg) : ML unit := AuDoLog LOG_DEBUG at_ m.

(** [static unsigned char cnt; if (!cnt++) ...]: the counter of the place is returned. *)
Definition AuLogWarn1 (at_ : place) (m : msg) (cnt : Z) : ML Z :=
  when (cnt =? 0) (AuDoLog LOG_WARNING at_ m) ;;
  mret (u8 (cnt + 1)).

(** [n] executions of one AuLogWarn1. *)
Fixpoint warn_times (n : nat) (at_ : place) (m : msg) (cnt : Z) : ML Z :=
  match n with
  | O => mret cnt
  | S k => cnt ← AuLogWarn1 at_ m cnt; warn_times k at_ m cnt
  end.

(** error_at_line() without glibc: [linenum] is unsigned, and printed by %d; an exit status
    ends the process. *)
Definition error_at_line (status errnum : Z) (filename : bytes) (linenum : Z) (text : bytes)
  : ML unit :=
  fprintf_stderr (prog ++ lit ":" ++ filename ++ lit ":" ++ fmt_d (i32 linenum) ++ lit ": ") ;;
  fprintf_stderr text ;;
  fprintf_stderr (lit ": " ++ (if errnum =? 0 then [] else strerror errnum) ++ [byte_of 10]) ;;
  when (negb (status =? 0)) (exit_ (u8 status)).

(** AuFin: errno is the exit status; 255 when it is not set. *)
Definition AuFin (file : bytes) (line : Z) (text : bytes) : ML unit :=
  e ← gets lg_errno;
  when (e =? 0) (set_lerrno (-1)) ;;
  e ← gets lg_errno;
  error_at_line e e file line text.

(** ** Properties *)

(** Logging is invisible to the code around it: whatever the calls that print do to
    errno, it is what it was, and one message more is on stderr or, when syslog is used,
    in the log. *)
Lemma AuDoLog_once level at_ m (g : logger) :
  exists g', AuDoLog level at_ m g = (Ret tt, g') /\
    lg_errno g' = lg_errno g /\ au_do_syslog g' = au_do_syslog g /\
    if au_do_syslog g
    then lg_stderr g' = lg_stderr g /\ exists s, lg_syslog g' = lg_syslog g ++ [(level, s)]
    else lg_syslog g' = lg_syslog g /\ exists s, lg_stderr g' = lg_stderr g ++ [s].
Proof.
  unfold AuDoLog. rewrite !bind_gets. destruct (au_do_syslog g) eqn:E.
  - eexists. split; [reflexivity|]. cbn. rewrite E. eauto.
  - eexists. split; [reflexivity|]. cbn. rewrite E. eauto.
Qed.

Definition messages (g : logger) : nat := length (lg_stderr g) + length (lg_syslog g).

Lemma warn_times_count n at_ m cnt (g : logger) :
  0 <= cnt < 256 ->
  exists g', warn_times n at_ m cnt g = (Ret (u8 (cnt + Z.of_nat n)), g') /\
    lg_errno g' = lg_errno g /\
    Z.of_nat (messages g') = Z.of_nat (messages g) + ((cnt + Z.of_nat n + 255) / 256 - (cnt + 255) / 256).
Proof.
  revert cnt g. induction n as [|n IH]; intros cnt g Hc; cbn [warn_times].
  - exists g. rewrite Z.add_0_r. unfold u8. rewrite wrap_u_small by lia.
    split; [done|]. split; [done|lia].
  - assert (exists g1, AuLogWarn1 at_ m cnt g = (Ret (u8 (cnt + 1)), g1) /\
      lg_errno g1 = lg_errno g /\
      Z.of_nat (messages g1) = Z.of_nat (messages g) + (if cnt =? 0 then 1 else 0))
      as (g1 & E1 & He1 & Hm1).
    { unfold AuLogWarn1, when. destruct (cnt =? 0).
      - destruct (AuDoLog_once LOG_WARNING at_ m g) as (g1 & E & He & _ & H).
        rewrite (bind_run _ _ _ _ _ E). exists g1. split; [done|]. split; [done|].
        unfold messages. destruct (au_do_syslog g); destruct H as [-> [s ->]];
          rewrite length_app; cbn; lia.
      - exists g. split; [done|]. split; [done|lia]. }
    rewrite (bind_run _ _ _ _ _ E1).
    destruct (IH (u8 (cnt + 1)) g1) as (g2 & E2 & He2 & Hm2); [unfold u8, wrap_u; lia|].
    exists g2. split; [|split; [congruence|]].
    + rewrite E2. do 2 f_equal. unfold u8, wrap_u. rewrite Z.add_mod_idemp_l by lia. f_equal. lia.
    + rewrite Hm2, Hm1. unfold u8, wrap_u. destruct (Z.eqb_spec cnt 0); lia.
Qed.

(** "Warn1" warns more than once: the counter is one byte wide, so that of [n] executions
    every 256th, from the first on, prints its message. *)
Theorem warn1_every_256 n at_ m (g : logger) :
  exists cnt g', warn_times n at_ m 0 g = (Ret cnt, g') /\ lg_errno g' = lg_errno g /\
    Z.of_nat (messages g') = Z.of_nat (messages g) + (Z.of_nat n + 255) / 256.
Proof.
  destruct (warn_times_count n at_ m 0 g) as (g' & E & He & Hm); [lia|].
  eexists _, g'. split; [exact E|]. split; [exact He|]. rewrite Hm. lia.
Qed.

(** AuFin never returns, and the process fails: its status is errno's low byte. *)
Lemma AuFin_ends file line text (g : logger) :
  exists g', AuFin file line text g
    = (Exit (if lg_errno g =? 0 then 255 else u8 (lg_errno g)), g').
Proof.
  unfold AuFin, when. rewrite bind_gets. destruct (Z.eqb_spec (lg_errno g) 0) as [E|E].
  - eexists. cbn. reflexivity.
  - rewrite bind_ret, bind_gets. unfold error_at_line, when, fprintf_stderr.
    rewrite !bind_modify. rewrite (proj2 (Z.eqb_neq _ _)) by done. by eexists.
Qed.
End log.
