(* ===== verification/Sys.v ===== *)
(** * The process and the system calls, as the utilities see them

    A [world] is what a process can observe or change: errno, the files and
    descriptors it uses, POSIX shared memory, the results of fork(2) and
    waitpid(2), what it printed, the state [K] of the aufs kernel module and the
    global variables [G] of the program.

    Every fallible call first takes the next element of [w_faults]: [FErr e]
    makes it fail with errno [e], [FShort n] makes a write(2) stop after [n]
    bytes, [FOk] and the end of the list let it behave normally.  Theorems
    quantify over all worlds, hence over all patterns of failure.

    The kernel side of aufs is not part of the repository: [AufsKernel] is its
    interface, a parameter of the whole development. *)
From S2P Require Import Prelude CString AufsType FhsmData.

Definition EPERM : Z := 1.
Definition ENOENT : Z := 2.
Definition EINTR : Z := 4.
Definition E2BIG : Z := 7.
Definition EAGAIN : Z := 11.
Definition EBUSY : Z := 16.
Definition EEXIST : Z := 17.
Definition ENOTDIR : Z := 20.
Definition EINVAL : Z := 22.
Definition ENOSPC : Z := 28.
Definition EROFS : Z := 30.
Definition ENOSYS : Z := 38.
Definition EMSGSIZE : Z := 90.
Definition EOPNOTSUPP : Z := 95.

Definition EXIT_FAILURE : Z := 1.

Definition PAGE : Z := 4096.
Definition page_round (z : Z) : Z := (z + (PAGE - 1)) / PAGE * PAGE.

(** The answers of the aufs kernel module to the ioctls and reads that the
    utilities issue.  A result [(e, x)] carries the errno [e], or 0. *)
Class AufsKernel (K : Type) := {
  k_is_aufs : bytes -> bool;
  k_dev : bytes -> Z * Z;
  k_ino : bytes -> Z;
  k_br_count : K -> (Z * Z) * K;
  k_br_fill : Z -> K -> (Z * list aufs_brinfo) * K;
  k_wbr_fd : Z -> K -> (Z * bytes) * K;
  k_openat : bytes -> K -> Z * K;
  k_nlink : bytes -> K -> Z;
  k_mvdown : bytes -> aufs_mvdown -> K -> (Z * aufs_mvdown) * K;
  k_fhsm_fd : K -> (Z * Z) * K;
  k_fhsm_read : Z -> K -> (Z * list aufs_stbr) * K;
  (** the external aufhsm-list command on a branch: exit status, list written *)
  k_list_cmd : bytes -> K -> (Z * bytes) * K
}.

Inductive fault := FOk | FErr (e : Z) | FShort (n : nat).

#[export] Instance fault_eq_dec : EqDecision fault.
Proof. solve_decision. Defined.

Section world.
Context {K G : Type}.

Record world := World {
  w_errno : Z;
  w_faults : list fault;
  w_kern : K;
  w_glob : G;
  w_shm : gmap bytes aufhsm;
  w_files : gmap bytes bytes;
  w_fds : gmap Z bytes;
  w_nextfd : Z;
  w_fifos : gmap bytes (list Z);
  w_forks : list Z;
  w_waits : list Z;
  w_out : list bytes
}.

Definition set_errno (x : Z) (w : world) : world :=
  World x (w_faults w) (w_kern w) (w_glob w) (w_shm w) (w_files w) (w_fds w) (w_nextfd w) (w_fifos w) (w_forks w) (w_waits w) (w_out w).
Definition set_faults (x : list fault) (w : world) : world :=
  World (w_errno w) x (w_kern w) (w_glob w) (w_shm w) (w_files w) (w_fds w) (w_nextfd w) (w_fifos w) (w_forks w) (w_waits w) (w_out w).
Definition set_kern (x : K) (w : world) : world :=
  World (w_errno w) (w_faults w) x (w_glob w) (w_shm w) (w_files w) (w_fds w) (w_nextfd w) (w_fifos w) (w_forks w) (w_waits w) (w_out w).
Definition set_glob (x : G) (w : world) : world :=
  World (w_errno w) (w_faults w) (w_kern w) x (w_shm w) (w_files w) (w_fds w) (w_nextfd w) (w_fifos w) (w_forks w) (w_waits w) (w_out w).
Definition set_shm (x : gmap bytes aufhsm) (w : world) : world :=
  World (w_errno w) (w_faults w) (w_kern w) (w_glob w) x (w_files w) (w_fds w) (w_nextfd w) (w_fifos w) (w_forks w) (w_waits w) (w_out w).
Definition set_files (x : gmap bytes bytes) (w : world) : world :=
  World (w_errno w) (w_faults w) (w_kern w) (w_glob w) (w_shm w) x (w_fds w) (w_nextfd w) (w_fifos w) (w_forks w) (w_waits w) (w_out w).
Definition set_fds (x : gmap Z bytes) (w : world) : world :=
  World (w_errno w) (w_faults w) (w_kern w) (w_glob w) (w_shm w) (w_files w) x (w_nextfd w) (w_fifos w) (w_forks w) (w_waits w) (w_out w).
Definition set_nextfd (x : Z) (w : world) : world :=
  World (w_errno w) (w_faults w) (w_kern w) (w_glob w) (w_shm w) (w_files w) (w_fds w) x (w_fifos w) (w_forks w) (w_waits w) (w_out w).
Definition set_fifos (x : gmap bytes (list Z)) (w : world) : world :=
  World (w_errno w) (w_faults w) (w_kern w) (w_glob w) (w_shm w) (w_files w) (w_fds w) (w_nextfd w) x (w_forks w) (w_waits w) (w_out w).
Definition set_forks (x : list Z) (w : world) : world :=
  World (w_errno w) (w_faults w) (w_kern w) (w_glob w) (w_shm w) (w_files w) (w_fds w) (w_nextfd w) (w_fifos w) x (w_waits w) (w_out w).
Definition set_waits (x : list Z) (w : world) : world :=
  World (w_errno w) (w_faults w) (w_kern w) (w_glob w) (w_shm w) (w_files w) (w_fds w) (w_nextfd w) (w_fifos w) (w_forks w) x (w_out w).
Definition set_out (x : list bytes) (w : world) : world :=
  World (w_errno w) (w_faults w) (w_kern w) (w_glob w) (w_shm w) (w_files w) (w_fds w) (w_nextfd w) (w_fifos w) (w_forks w) (w_waits w) x.

(** The next pending fault, consumed. *)
Definition pop_fault : M world fault := fun w =>
  match w_faults w with
  | [] => (Ret FOk, w)
  | f :: r => (Ret f, set_faults r w)
  end.

Definition put_errno (e : Z) : M world unit := modify (set_errno e).

(** A call that returns 0, or -1 with errno set. *)
Definition fallible : M world Z :=
  f ← pop_fault;
  match f with
  | FErr e => put_errno e ;; mret (-1)
  | _ => mret 0
  end.

(** An ioctl whose outcome the kernel decides: errno 0 is success. *)
Definition kernel {A} (step : K -> A * K) : M world A := fun w =>
  let '(a, k) := step (w_kern w) in (Ret a, set_kern k w).

(** AuLogFin and its like end the process. *)
Definition log_fin {A} : M world A := exit_ EXIT_FAILURE.

(** AuFin: [if (!errno) errno = -1; error_at_line(errno, ...)]. *)
Definition au_fin {A} : M world A := fun w =>
  if w_errno w =? 0 then (Exit 255, set_errno (-1) w)
  else (Exit (u8 (w_errno w)), w).

Definition print (l : bytes) : M world unit :=
  modify (fun w => set_out (w_out w ++ [l]) w).

(** ** Descriptors *)

Definition new_fd (what : bytes) : M world Z := fun w =>
  (Ret (w_nextfd w), set_fds (<[w_nextfd w := what]> (w_fds w))
                       (set_nextfd (w_nextfd w + 1) w)).

(** open(2) of an existing object. *)
Definition open_ (what : bytes) : M world Z :=
  err ← fallible;
  if err =? 0 then new_fd what else mret (-1).

(** close(2) releases the descriptor even when it reports an error. *)
Definition close_ (fd : Z) : M world Z :=
  modify (fun w => set_fds (delete fd (w_fds w)) w) ;; fallible.

Definition fd_what (fd : Z) : M world bytes :=
  gets (fun w => default [] (w_fds w !! fd)).

(** [e = errno; if (close(fd)) AuLogErr(...); errno = e;] *)
Definition close_keep (fd : Z) : M world unit :=
  e ← gets w_errno; _ ← close_ fd; put_errno e.

(** ** fork and waitpid: which process the execution follows *)

Definition fork_ : M world Z := fun w =>
  match w_forks w with
  | [] => (Ret 1, w)
  | p :: r => (Ret p, set_forks r w)
  end.

(** The pid that waitpid(2) reports: that of the child unless told otherwise. *)
Definition waitpid_ (pid : Z) : M world Z := fun w =>
  match w_waits w with
  | [] => (Ret pid, w)
  | x :: r => (Ret x, set_waits r w)
  end.

(** ** Regular files *)

Definition file_of (fd : Z) : M world bytes :=
  gets (fun w => default [] (w_files w !! (default [] (w_fds w !! fd)))).

Definition put_file (fd : Z) (c : bytes) : M world unit :=
  modify (fun w => set_files (<[default [] (w_fds w !! fd) := c]> (w_files w)) w).

(** openat(2) with O_CREAT *)
Definition open_creat (path : bytes) : M world Z :=
  err ← fallible;
  if truth err then mret (-1)
  else
    modify (fun w => match w_files w !! path with
                     | Some _ => w
                     | None => set_files (<[path := []]> (w_files w)) w
                     end) ;;
    new_fd path.

(** write(2) on a descriptor opened with O_APPEND; it may be cut short. *)
Definition write_ (fd : Z) (data : bytes) : M world Z :=
  f ← pop_fault;
  match f with
  | FErr e => put_errno e ;; mret (-1)
  | _ =>
      let n := match f with FShort n => Nat.min n (length data) | _ => length data end in
      c ← file_of fd;
      put_file fd (c ++ take n data) ;;
      mret (Z.of_nat n)
  end.

(** ftruncate(2), also growing with zeros *)
Definition ftruncate_ (fd len : Z) : M world Z :=
  if len <? 0 then put_errno EINVAL ;; mret (-1)
  else
    err ← fallible;
    if truth err then mret (-1)
    else
      c ← file_of fd;
      let n := Z.to_nat len in
      put_file fd (take n c ++ replicate (n - length c) NUL) ;; mret 0.

(** lseek(fd, offset, whence) on a descriptor whose position is still 0 *)
Definition lseek_ (fd offset whence : Z) : M world Z :=
  c ← file_of fd;
  if (whence =? 0) || (whence =? 1) then
    (if offset <? 0 then put_errno EINVAL ;; mret (-1) else mret offset)
  else if whence =? 2 then
    (let off := Z.of_nat (length c) + offset in
     if off <? 0 then put_errno EINVAL ;; mret (-1) else mret off)
  else put_errno EINVAL ;; mret (-1).
End world.
Arguments world : clear implicits.

(** The calls that only the faults, errno and descriptors see keep everything
    else; these frame facts are proved once for every projection. *)
Ltac world_simpl :=
  cbn [w_errno w_faults w_kern w_glob w_shm w_files w_fds w_nextfd w_fifos
       w_forks w_waits w_out set_errno set_faults set_kern set_glob set_shm
       set_files set_fds set_nextfd set_fifos set_forks set_waits set_out] in *.

(** Symbolic execution on a world whose faults are known. *)
Ltac sys_run :=
  repeat (unfold mbind, M_bind, mret, M_ret, fallible, pop_fault, gets, modify,
            put_errno, new_fd, open_, close_, fd_what, close_keep, when, au_fin,
            log_fin, exit_, ub, kernel;
          cbn -[Z.ltb Z.leb Z.add Z.sub Z.mul Z.land Z.lor Nat.ltb Nat.eqb Nat.leb
               insert delete lookup alter]).

Section frame.
Context {K G : Type}.

Lemma pop_fault_ok (w : world K G) : w_faults w = [] -> pop_fault w = (Ret FOk, w).
Proof. intros H. unfold pop_fault. by rewrite H. Qed.

Lemma fallible_ok (w : world K G) : w_faults w = [] -> fallible w = (Ret 0, w).
Proof.
  intros H. unfold fallible. by rewrite (bind_run _ _ _ _ _ (pop_fault_ok w H)).
Qed.

Lemma fallible_FOk (w : world K G) r :
  w_faults w = FOk :: r -> fallible w = (Ret 0, set_faults r w).
Proof. intros H. unfold fallible, pop_fault, mbind, M_bind. by rewrite H. Qed.

Lemma fallible_FErr (w : world K G) e r :
  w_faults w = FErr e :: r ->
  fallible w = (Ret (-1), set_errno e (set_faults r w)).
Proof. intros H. unfold fallible, pop_fault, mbind, M_bind. by rewrite H. Qed.

Lemma open_ok (w : world K G) p :
  w_faults w = [] -> open_ p w = new_fd p w.
Proof.
  intros H. unfold open_. by rewrite (bind_run _ _ _ _ _ (fallible_ok w H)).
Qed.

Lemma close_ok (w : world K G) fd :
  w_faults w = [] -> close_ fd w = (Ret 0, set_fds (delete fd (w_fds w)) w).
Proof.
  intros H. unfold close_, mbind at 1, M_bind, modify. by apply fallible_ok.
Qed.

Lemma file_of_run (w : world K G) fd p c :
  w_fds w !! fd = Some p -> w_files w !! p = Some c -> file_of fd w = (Ret c, w).
Proof. intros Hp Hc. unfold file_of, gets. rewrite Hp. simpl. by rewrite Hc. Qed.

Lemma write_ok (w : world K G) fd p c data :
  w_faults w = [] -> w_fds w !! fd = Some p -> w_files w !! p = Some c ->
  write_ fd data w =
    (Ret (Z.of_nat (length data)), set_files (<[p := c ++ data]> (w_files w)) w).
Proof.
  intros Hf Hp Hc. unfold write_. rewrite (bind_run _ _ _ _ _ (pop_fault_ok w Hf)).
  rewrite (bind_run _ _ _ _ _ (file_of_run w fd p c Hp Hc)).
  unfold put_file. rewrite bind_modify, Hp. simpl. by rewrite firstn_all.
Qed.

Lemma write_short (w : world K G) fd p c data n r :
  w_faults w = FShort n :: r -> (n <= length data)%nat ->
  w_fds w !! fd = Some p -> w_files w !! p = Some c ->
  write_ fd data w =
    (Ret (Z.of_nat n),
     set_files (<[p := c ++ take n data]> (w_files w)) (set_faults r w)).
Proof.
  intros Hf Hn Hp Hc. unfold write_.
  rewrite (bind_run _ _ w (FShort n) (set_faults r w))
    by (unfold pop_fault; by rewrite Hf).
  rewrite (bind_run _ _ _ _ _ (file_of_run (set_faults r w) fd p c Hp Hc)).
  rewrite Nat.min_l by done. unfold put_file. rewrite bind_modify. simpl.
  by rewrite Hp.
Qed.

Lemma lseek_bad_whence (w : world K G) fd off whence :
  whence < 0 -> lseek_ fd off whence w = (Ret (-1), set_errno EINVAL w).
Proof.
  intros H. unfold lseek_, file_of. rewrite bind_gets.
  rewrite (proj2 (Z.eqb_neq whence 0)), (proj2 (Z.eqb_neq whence 1)),
    (proj2 (Z.eqb_neq whence 2)) by lia. done.
Qed.

Lemma ftruncate_ok (w : world K G) fd p c len :
  w_faults w = [] -> w_fds w !! fd = Some p -> w_files w !! p = Some c -> 0 <= len ->
  ftruncate_ fd len w =
    (Ret 0, set_files (<[p := take (Z.to_nat len) c
                           ++ replicate (Z.to_nat len - length c) NUL]> (w_files w)) w).
Proof.
  intros Hf Hp Hc Hl. unfold ftruncate_. rewrite (proj2 (Z.ltb_ge _ _)) by done.
  rewrite (bind_run _ _ _ _ _ (fallible_ok w Hf)). cbn [truth negb Z.eqb].
  rewrite (bind_run _ _ _ _ _ (file_of_run w fd p c Hp Hc)).
  unfold put_file. by rewrite bind_modify, Hp.
Qed.
End frame.

(** ** What no system call touches

    The program's globals, the pending fork results and the contents of fifos are
    changed only by the program itself, fork(2) and reads and writes of fifos. *)
Section quiet.
Context {K G : Type}.
Notation world := (world K G).

Definition quiet (w w' : world) : Prop :=
  w_glob w' = w_glob w /\ w_forks w' = w_forks w /\ w_fifos w' = w_fifos w.

#[export] Instance quiet_preorder : PreOrder quiet.
Proof.
  split.
  - done.
  - intros x y z (? & ? & ?) (? & ? & ?). repeat split; congruence.
Qed.

Definition mute {A} (m : M world A) (R : A -> Prop) : Prop :=
  forall s w, wp s m (fun a w' => quiet w w' /\ R a) w.

Lemma wp_mute s {A} (m : M world A) (R : A -> Prop) (Q : A -> world -> Prop) w :
  mute m R -> (forall a w', quiet w w' -> R a -> Q a w') -> wp s m Q w.
Proof. intros H HQ. eapply wp_mono; [apply H|]. intros a w' []. auto. Qed.

Lemma mute_ret {A} (a : A) (R : A -> Prop) : R a -> mute (mret a) R.
Proof. by intros H s w. Qed.
Lemma mute_gets {A} (f : world -> A) : mute (gets f) (fun _ => True).
Proof. by intros s w. Qed.
Lemma mute_modify f :
  (forall w, quiet w (f w)) -> mute (modify f) (fun _ => True).
Proof. intros H s w. by split. Qed.
Lemma mute_exit {A} st (R : A -> Prop) : mute (exit_ st) R.
Proof. by intros s w. Qed.
Lemma mute_ub {A} st (R : A -> Prop) : mute (ub st) R.
Proof. by intros s w. Qed.

Lemma mute_bind {A B} (m : M world A) (f : A -> M world B) R R' :
  mute m R -> (forall a, R a -> mute (f a) R') -> mute (m ≫= f) R'.
Proof.
  intros Hm Hf s w. apply wp_bind. eapply wp_mute; [done|]. intros a w' Hq Ha.
  eapply wp_mute; [by apply Hf|]. intros b w'' Hq' Hb. split; [by etrans|done].
Qed.

Lemma mute_weaken {A} (m : M world A) (R R' : A -> Prop) :
  mute m R -> (forall a, R a -> R' a) -> mute m R'.
Proof. intros H HR s w. eapply wp_mute; [done|]. auto. Qed.

Lemma mute_pop_fault : mute (@pop_fault K G) (fun _ => True).
Proof. intros s w. unfold wp, pop_fault. by destruct (w_faults w). Qed.

Lemma mute_put_errno e : mute (@put_errno K G e) (fun _ => True).
Proof. apply mute_modify. done. Qed.

Lemma mute_fallible : mute (@fallible K G) (fun r => r = 0 \/ r = -1).
Proof.
  eapply mute_bind; [apply mute_pop_fault|]. intros [] _; try by apply mute_ret; left.
  eapply mute_bind; [apply mute_put_errno|]. intros _ _. apply mute_ret. by right.
Qed.

Lemma mute_kernel {A} (step : K -> A * K) : mute (@kernel K G A step) (fun _ => True).
Proof. intros s w. unfold wp, kernel. by destruct (step _). Qed.

Lemma mute_new_fd p : mute (@new_fd K G p) (fun _ => True).
Proof. by intros s w. Qed.

Lemma mute_close fd : mute (@close_ K G fd) (fun r => r = 0 \/ r = -1).
Proof. eapply mute_bind; [by apply mute_modify|]. intros _ _. apply mute_fallible. Qed.

Lemma mute_close_keep fd : mute (@close_keep K G fd) (fun _ => True).
Proof.
  eapply mute_bind; [apply mute_gets|]. intros e _.
  eapply mute_bind; [apply mute_close|]. intros _ _. apply mute_put_errno.
Qed.

Lemma mute_file_of fd : mute (@file_of K G fd) (fun _ => True).
Proof. by intros s w. Qed.
Lemma mute_put_file fd c : mute (@put_file K G fd c) (fun _ => True).
Proof. by intros s w. Qed.
End quiet.

Ltac mute_step :=
  first
  [ eassumption
  | apply mute_ret; first [exact Logic.I | by left | by right | lia]
  | apply mute_gets | apply mute_exit | apply mute_ub
  | apply mute_pop_fault | apply mute_put_errno | apply mute_fallible
  | apply mute_kernel | apply mute_new_fd | apply mute_close | apply mute_close_keep
  | apply mute_file_of | apply mute_put_file
  | solve [apply mute_modify; done]
  | solve [auto with mute]
  | eapply mute_bind; [|intros ? ?]
  | match goal with
    | |- mute (if ?c then _ else _) _ => destruct c eqn:?
    | |- mute (let _ := _ in _) _ => cbv zeta
    | |- mute (match ?x with _ => _ end) _ => destruct x eqn:?
    end ].
Create HintDb mute.

Section quiet2.
Context {K G : Type}.

Lemma mute_open p : mute (@open_ K G p) (fun _ => True).
Proof. unfold open_. repeat mute_step. Qed.
Lemma mute_open_creat p : mute (@open_creat K G p) (fun _ => True).
Proof.
  unfold open_creat. eapply mute_bind; [apply mute_fallible|]. intros e _.
  destruct (truth e); [by apply mute_ret|].
  eapply mute_bind; [|intros ? ?; apply mute_new_fd].
  apply mute_modify. intros w. by case_match.
Qed.

Lemma mute_write fd d : mute (@write_ K G fd d) (fun r => -1 <= r <= Z.of_nat (length d)).
Proof.
  unfold write_. eapply mute_bind; [apply mute_pop_fault|]. intros f _.
  assert (forall n, (n <= length d)%nat ->
    mute (c ← @file_of K G fd; put_file fd (c ++ take n d) ;; mret (Z.of_nat n))
      (fun r => -1 <= r <= Z.of_nat (length d))) as H.
  { intros n Hn. eapply mute_bind; [apply mute_file_of|]. intros c _.
    eapply mute_bind; [apply mute_put_file|]. intros _ _. apply mute_ret. lia. }
  destruct f; [by apply H| |apply H; lia].
  eapply mute_bind; [apply mute_put_errno|]. intros _ _. apply mute_ret. lia.
Qed.

Lemma mute_ftruncate fd n : mute (@ftruncate_ K G fd n) (fun r => r = 0 \/ r = -1).
Proof. unfold ftruncate_. repeat mute_step. Qed.
Lemma mute_lseek fd o wh : mute (@lseek_ K G fd o wh) (fun _ => True).
Proof. unfold lseek_. repeat mute_step. Qed.
End quiet2.
#[export] Hint Resolve mute_open mute_open_creat mute_write mute_ftruncate mute_lseek : mute.

(** The same frame fact for invariants: what only the globals and the pending
    forks decide survives every system call, however the call ends. *)
Section glob_inv.
Context {K G : Type} (P : G -> list Z -> Prop).
Notation world := (world K G).

Definition glob_inv (w : world) : Prop := P (w_glob w) (w_forks w).

Lemma pres_pop_fault : preserves glob_inv pop_fault.
Proof. intros w Hw. unfold pop_fault. by destruct (w_faults w). Qed.
Lemma pres_put_errno e : preserves glob_inv (put_errno e).
Proof. by intros w Hw. Qed.
Lemma pres_fallible : preserves glob_inv fallible.
Proof.
  apply preserves_bind; [apply pres_pop_fault|]. intros []; try by intros w Hw.
Qed.
Lemma pres_kernel {A} (f : K -> A * K) : preserves glob_inv (kernel f).
Proof. intros w Hw. unfold kernel. by destruct (f _). Qed.
Lemma pres_au_fin {A} : preserves glob_inv (@au_fin K G A).
Proof. intros w Hw. unfold au_fin. by destruct (_ =? 0). Qed.
Lemma pres_log_fin {A} : preserves glob_inv (@log_fin K G A).
Proof. by intros w Hw. Qed.
Lemma pres_print l : preserves glob_inv (print l).
Proof. by intros w Hw. Qed.
Lemma pres_new_fd p : preserves glob_inv (new_fd p).
Proof. by intros w Hw. Qed.
Lemma pres_put_file fd c : preserves glob_inv (put_file fd c).
Proof. by intros w Hw. Qed.
Lemma pres_file_of fd : preserves glob_inv (file_of fd).
Proof. by intros w Hw. Qed.
Lemma pres_fd_what fd : preserves glob_inv (fd_what fd).
Proof. by intros w Hw. Qed.
Lemma pres_waitpid p : preserves glob_inv (waitpid_ p).
Proof. intros w Hw. unfold waitpid_. by destruct (w_waits w). Qed.

(** A change of anything else. *)
Lemma pres_modify_other f :
  (forall w, w_glob (f w) = w_glob w /\ w_forks (f w) = w_forks w) ->
  preserves glob_inv (modify f).
Proof. intros H w Hw. unfold glob_inv. simpl. destruct (H w) as [-> ->]. exact Hw. Qed.
End glob_inv.
#[export] Hint Resolve pres_pop_fault pres_put_errno pres_fallible pres_kernel pres_au_fin
  pres_log_fin pres_print pres_new_fd pres_put_file pres_file_of pres_fd_what
  pres_waitpid : pres.
#[export] Hint Extern 2 (preserves (glob_inv _) (modify _)) =>
  (apply pres_modify_other; intros; split; reflexivity) : pres.

Section glob_inv2.
Context {K G : Type} (P : G -> list Z -> Prop).

Lemma pres_open p : preserves (glob_inv P) (@open_ K G p).
Proof. unfold open_. pres. Qed.
Lemma pres_close fd : preserves (glob_inv P) (@close_ K G fd).
Proof. unfold close_. pres. Qed.
End glob_inv2.
#[export] Hint Resolve pres_open pres_close : pres.

Section glob_inv3.
Context {K G : Type} (P : G -> list Z -> Prop).

Lemma pres_close_keep fd : preserves (glob_inv P) (@close_keep K G fd).
Proof. unfold close_keep. pres. Qed.
Lemma pres_open_creat p : preserves (glob_inv P) (@open_creat K G p).
Proof.
  unfold open_creat. pres. apply pres_modify_other. intros w. by case_match.
Qed.
Lemma pres_write fd d : preserves (glob_inv P) (@write_ K G fd d).
Proof. unfold write_. pres. Qed.
Lemma pres_ftruncate fd n : preserves (glob_inv P) (@ftruncate_ K G fd n).
Proof. unfold ftruncate_. pres. Qed.
Lemma pres_lseek fd o wh : preserves (glob_inv P) (@lseek_ K G fd o wh).
Proof. unfold lseek_. pres. Qed.
End glob_inv3.
#[export] Hint Resolve pres_close_keep pres_open_creat pres_write pres_ftruncate pres_lseek : pres.

(** ** A small concrete kernel and world, for evaluating the model *)

Module Demo.
(** Two FHSM branches around a read-only one; move-down always succeeds. *)
Definition branches : list aufs_brinfo :=
  [Brinfo 1 0x21 (lit "/rw"); Brinfo 2 2 (lit "/ro"); Brinfo 3 0x21 (lit "/big")].

#[export] Instance kernel : AufsKernel unit := {
  k_is_aufs _ := true;
  k_dev _ := (0, 42);
  k_ino _ := 2;
  k_br_count k := ((3, 0), k);
  k_br_fill _ k := ((0, branches), k);
  k_wbr_fd _ k := ((0, lit "/rw"), k);
  k_openat _ k := (0, k);
  k_nlink _ _ := 1;
  k_mvdown _ m k := ((0, m), k);
  k_fhsm_fd k := ((3, 0), k);
  k_fhsm_read _ k := ((0, []), k);
  k_list_cmd _ k := ((0, []), k)
}.

Definition world0 {G} (g : G) : world unit G :=
  World 0 [] tt g ∅ ∅ ∅ 3 ∅ [] [] [].
End Demo.
