(* ===== verification/Br.v ===== *)
(** * br.c: the branches of a mounted aufs *)
From S2P Require Import Prelude CString LibcSort AufsType FhsmData Sys.

(** [for (i = 0; i < nbr; i++) if (au_br_fhsm(brinfo[i].perm)) nfhsm++;] *)
Fixpoint nfhsm_loop (br : list aufs_brinfo) (nfhsm : Z) : Z :=
  match br with
  | [] => nfhsm
  | b :: r => nfhsm_loop r (if truth (au_br_fhsm (bi_perm b)) then nfhsm + 1 else nfhsm)
  end.

Definition au_nfhsm (nbr : Z) (brinfo : list aufs_brinfo) : Z :=
  nfhsm_loop (take (Z.to_nat nbr) brinfo) 0.

Definition au_br_qsort_path (a b : aufs_brinfo) : Z := strcmp (bi_path a) (bi_path b).

Definition au_br_sort_path (nbr : Z) (brinfo : list aufs_brinfo) : list aufs_brinfo :=
  qsort au_br_qsort_path (take (Z.to_nat nbr) brinfo) ++ drop (Z.to_nat nbr) brinfo.

Definition au_br_bsearch_path (path : bytes) (b : aufs_brinfo) : Z :=
  strcmp path (bi_path b).

Definition au_br_search_path (path : bytes) (nbr : Z) (brinfo : list aufs_brinfo)
  : option aufs_brinfo :=
  i ← bsearch (au_br_bsearch_path path) (take (Z.to_nat nbr) brinfo);
  brinfo !! i.

Section br.
Context {K G : Type} `{!AufsKernel K}.
Notation world := (world K G).

(** au_br(): the number of branches and the array; every failure is AuFin. *)
Definition au_br (root : bytes) : M world (Z * Z * list aufs_brinfo) :=
  fd ← open_ root;
  if fd <? 0 then au_fin
  else
    err ← fallible; (* fstatfs *)
    if truth err then au_fin
    else if negb (k_is_aufs root) then au_fin
    else
      '(nbr, e) ← kernel k_br_count;
      (if nbr <=? 0 then put_errno e ;; au_fin else mret tt) ;;
      m ← pop_fault; (* errno = posix_memalign(...) *)
      let e := match m with FErr e => e | _ => 0 end in
      put_errno e ;;
      if truth e then au_fin
      else
        '(e, br) ← kernel (k_br_fill nbr);
        if truth e then put_errno e ;; au_fin
        else
          err ← close_ fd;
          if truth err then au_fin else mret (0, nbr, br).
End br.

(** ** Lemmas *)

Lemma nfhsm_loop_count br n :
  nfhsm_loop br n =
    n + Z.of_nat (length (List.filter (fun b => truth (au_br_fhsm (bi_perm b))) br)).
Proof.
  revert n; induction br as [|b r IH]; intros n; cbn [nfhsm_loop List.filter]; [cbn; lia|].
  rewrite IH. destruct (truth _); cbn [length]; lia.
Qed.

#[export] Instance path_comparator : Comparator au_br_qsort_path.
Proof.
  constructor; unfold cmp_le, au_br_qsort_path.
  - intros a b. destruct (strcmp_total (bi_path a) (bi_path b)) as [H|[H|H]]; [lia| |lia].
    rewrite H, strcmp_refl. lia.
  - intros a b c H1 H2.
    destruct (decide (bi_path a = bi_path b)) as [->|Ha]; [done|].
    destruct (decide (bi_path b = bi_path c)) as [<-|Hb]; [done|].
    rewrite <- strcmp_0 in Ha, Hb.
    pose proof (strcmp_lt_trans (bi_path a) (bi_path b) (bi_path c)). lia.
Qed.

Lemma key_ordered_path path l :
  StronglySorted (cmp_le au_br_qsort_path) l -> key_ordered (au_br_bsearch_path path) l.
Proof.
  intros Hs i j x y Hij Hx Hy. unfold au_br_bsearch_path.
  assert (strcmp (bi_path x) (bi_path y) <= 0) as Hle.
  { revert i j Hij Hx Hy. induction Hs as [|a l Hs IH Hf]; intros i j Hij Hx Hy; [done|].
    destruct i as [|i], j as [|j]; simplify_eq/=; try lia.
    - rewrite Forall_lookup in Hf. by eapply Hf.
    - eapply (IH i j); eauto with lia. }
  destruct (decide (bi_path x = bi_path y)) as [->|Hne]; [done|].
  rewrite <- strcmp_0 in Hne. split.
  - intros H. apply (strcmp_lt_trans _ (bi_path x)); lia.
  - intros H. rewrite strcmp_antisym in H |- *.
    pose proof (strcmp_lt_trans (bi_path x) (bi_path y) path).
    pose proof (strcmp_antisym path (bi_path y)). lia.
Qed.

(** ** Properties *)

(** Looking a branch up by its path in the array sorted by path is exact: the
    result has that path, and a path that is not found belongs to no branch. *)
Theorem search_path_correct path nbr brinfo :
  0 <= nbr <= Z.of_nat (length brinfo) ->
  match au_br_search_path path nbr (au_br_sort_path nbr brinfo) with
  | Some b => b ∈ take (Z.to_nat nbr) brinfo /\ bi_path b = path
  | None => Forall (fun b => bi_path b <> path) (take (Z.to_nat nbr) brinfo)
  end.
Proof.
  intros Hn. unfold au_br_search_path, au_br_sort_path.
  set (n := Z.to_nat nbr). set (q := qsort _ _).
  assert (length q = n) as Hq by (unfold q; rewrite qsort_length, length_take; lia).
  rewrite take_app_length' by done.
  destruct (bsearch _ q) as [i|] eqn:E; simpl.
  - apply bsearch_sound in E as (b & Hb & H0).
    rewrite lookup_app_l by (apply lookup_lt_Some in Hb; lia). rewrite Hb.
    apply list_elem_of_lookup_2 in Hb. unfold q in Hb.
    rewrite qsort_permutation in Hb. apply strcmp_0 in H0.
    done.
  - apply bsearch_complete in E; [|apply key_ordered_path, qsort_sorted, _].
    unfold q in E. rewrite qsort_permutation in E.
    eapply Forall_impl; [exact E|]. intros b Hb H. apply Hb. unfold au_br_bsearch_path. by rewrite H, strcmp_refl.
Qed.

Lemma search_path_correct_witness :
  match au_br_search_path (lit "/big") 3 (au_br_sort_path 3 Demo.branches) with
  | Some b => b ∈ Demo.branches /\ bi_path b = lit "/big"
  | None => Forall (fun b => bi_path b <> lit "/big") Demo.branches
  end.
Proof. apply (search_path_correct (lit "/big") 3 Demo.branches). vm_compute. by split. Defined.
