(* ===== verification/Shm.v ===== *)
(** * fhsm/shm.c: names, creation and mapping of POSIX shared memory

    A shared memory object is known by its name; its content is the watermark
    table that the utilities put there.  A mapping is the name and the number of
    bytes mapped (whole pages). *)
From S2P Require Import Prelude CString AufsType FhsmData Sys.

Record fhsm_ptr := Ptr { ptr_name : bytes; ptr_len : Z }.

Definition O_WRONLY : Z := 1.
Definition O_RDWR : Z := 2.
Definition O_CREAT : Z := 64.
Definition O_EXCL : Z := 128.

Definition resize_wmarks (n : nat) (l : list aufhsm_wmark) : list aufhsm_wmark :=
  take n l ++ replicate (n - length l) wmark_zero.

(** Elements an object of [len] bytes has room for. *)
Definition capacity (len : Z) : nat := Z.to_nat ((len - sizeof_aufhsm) / sizeof_wmark).

(** A zero-filled object of [len] bytes. *)
Definition zero_obj (len : Z) : aufhsm :=
  Aufhsm (replicate 8 NUL) 0 0 (replicate (capacity len) wmark_zero).

(** The object's current size, as fstat(2) reports it. *)
Definition obj_size (p : aufhsm) : Z := au_fhsm_size (Z.of_nat (length (wmark p))).

(** snprintf("/%s-%04x%04x-%llu", program_invocation_short_name, major, minor, ino) *)
Definition shm_name_str (prog : bytes) (dev : Z * Z) (ino : Z) : bytes :=
  lit "/" ++ prog ++ lit "-" ++ fmt_04x dev.1 ++ fmt_04x dev.2 ++ lit "-" ++ fmt_u ino.

Section shm.
Context {K G : Type} `{!AufsKernel K}.
Notation world := (world K G).

(** Returns the status and the content of [name]. *)
Definition au_shm_name (prog : bytes) (rootfd sz : Z) : M world (Z * bytes) :=
  err ← fallible;
  if truth err then mret (err, [])
  else
    what ← fd_what rootfd;
    let s := shm_name_str prog (k_dev what) (k_ino what) in
    let n := Z.of_nat (length s) in
    if (0 <? n) && (n <? sz) then mret (0, s)
    else put_errno E2BIG ;; mret (-1, take (Z.to_nat (sz - 1)) s).

(** readlink(2) of /proc/self/fd/N for a shared memory object. *)
Definition fd_link (shm_root what : bytes) : bytes := shm_root ++ what.

(** The returned buffer, byte by byte; [None] bytes are uninitialised heap. *)
Definition au_shm_dir (shm_root : bytes) (st_size : nat) (fd : Z)
  : M world (option (list (option ascii))) :=
  err ← fallible;
  if truth err then mret None
  else
    m ← fallible;
    if truth m then mret None
    else
      let dir := replicate (S st_size) None in
      r ← fallible;
      if r <? 0 then mret (Some dir)
      else
        what ← fd_what fd;
        let got := take st_size (fd_link shm_root what) in
        let dir := map Some got ++ replicate (S st_size - length got) None in
        match last_idx "/"%char got with
        | None => mret (Some dir)
        | Some p =>
            if decide (p = O) then mret (Some dir)
            else mret (Some (<[p := Some NUL]> dir))
        end.

(** ** Opening, creating, mapping *)

Definition shm_open (name : bytes) (oflags : Z) : M world Z :=
  err ← fallible;
  if truth err then mret (-1)
  else
    old ← gets (fun w => w_shm w !! name);
    match old with
    | Some _ =>
        if truth (Z.land oflags O_CREAT) && truth (Z.land oflags O_EXCL)
        then put_errno EEXIST ;; mret (-1)
        else new_fd name
    | None =>
        if truth (Z.land oflags O_CREAT)
        then modify (fun w => set_shm (<[name := zero_obj 0]> (w_shm w)) w) ;;
             new_fd name
        else put_errno ENOENT ;; mret (-1)
    end.

Definition shm_unlink (name : bytes) : M world Z :=
  err ← fallible;
  if truth err then mret (-1)
  else
    old ← gets (fun w => w_shm w !! name);
    match old with
    | Some _ => modify (fun w => set_shm (delete name (w_shm w)) w) ;; mret 0
    | None => put_errno ENOENT ;; mret (-1)
    end.

(** ftruncate(2) on an object: the header survives, elements are dropped or
    zero-filled ones are added. *)
Definition shm_truncate (name : bytes) (len : Z) : M world Z :=
  err ← fallible;
  if truth err then mret (-1)
  else
    modify (fun w => set_shm (alter (fun p =>
      set_wmark (resize_wmarks (capacity len) (wmark p)) p) name (w_shm w)) w) ;;
    mret 0.

Definition au_shm_open (name : bytes) (oflags : Z) : M world Z :=
  fd ← shm_open name oflags;
  if fd <? 0 then mret fd
  else
    err ← fallible; (* fcntl(fd, F_SETLKW, &fl) *)
    if truth err then close_keep fd ;; mret (-1)
    else
      err ← fallible; (* fstatfs(fd, &stfs) *)
      if truth err then close_keep fd ;; mret (-1)
      else mret fd.

(** Returns the status, [*rfd] and [*_p]. *)
Definition au_shm_create (name : bytes) (len : Z)
  : M world (Z * Z * option fhsm_ptr) :=
  let out_fd (rfd err : Z) : M world (Z * Z * option fhsm_ptr) :=
    e ← gets w_errno;
    _ ← close_ rfd;
    _ ← shm_unlink name;
    put_errno e ;; mret (err, rfd, None) in
  rfd ← au_shm_open name (Z.lor O_RDWR (Z.lor O_CREAT O_EXCL));
  if rfd <? 0 then mret (rfd, rfd, None)
  else
    err ← shm_truncate name len;
    if truth err then out_fd rfd err
    else
      m ← fallible; (* mmap, which refuses a length of zero *)
      if truth m || (len <=? 0) then out_fd rfd (-1)
      else mret (0, rfd, Some (Ptr name (page_round len))).

Definition au_shm_map (name : bytes) : M world (Z * Z * option fhsm_ptr) :=
  let out_fd (rfd err : Z) : M world (Z * Z * option fhsm_ptr) :=
    _ ← close_ rfd; mret (err, rfd, None) in
  rfd ← au_shm_open name O_RDWR;
  if rfd <? 0 then mret (rfd, rfd, None)
  else
    err ← fallible; (* fstat *)
    if truth err then out_fd rfd err
    else
      obj ← gets (fun w => w_shm w !! name);
      m ← fallible; (* mmap of st_size bytes; 0 bytes cannot be mapped *)
      let size := match obj with Some p => obj_size p | None => 0 end in
      if truth m then out_fd rfd (-1)
      else mret (0, rfd, Some (Ptr name (page_round size))).

(** ** Access through a mapping *)

Definition shm_read (p : fhsm_ptr) : M world aufhsm :=
  obj ← gets (fun w => w_shm w !! ptr_name p);
  match obj with
  | Some o => mret o
  | None => ub "access through a stale mapping"
  end.

Definition shm_write (p : fhsm_ptr) (o : aufhsm) : M world unit :=
  modify (fun w => set_shm (<[ptr_name p := o]> (w_shm w)) w).
End shm.

(** ** Lemmas *)

Section shm_lemmas.
Context {K G : Type} `{!AufsKernel K}.
Notation world := (world K G).
Implicit Types w : world.

Lemma fallible_run (w : world) :
  w_faults w = [] -> forall B (f : Z -> M world B), (fallible ≫= f) w = f 0 w.
Proof. intros H B f. by rewrite (bind_run _ _ _ _ _ (fallible_ok w H)). Qed.

(** What a fault-free creation does. *)
Lemma au_shm_create_fresh w name len :
  w_faults w = [] -> w_shm w !! name = None -> 0 <= w_nextfd w ->
  0 < len ->
  au_shm_create name len w =
    (Ret (0, w_nextfd w, Some (Ptr name (page_round len))),
     set_shm (<[name := zero_obj len]> (w_shm w))
       (set_fds (<[w_nextfd w := name]> (w_fds w))
          (set_nextfd (w_nextfd w + 1) w))).
Proof.
  intros Hf Hn Hfd Hl. destruct w; simpl in *; subst.
  unfold au_shm_create, au_shm_open, shm_open, shm_truncate. sys_run.
  rewrite Hn. sys_run.
  change (truth (Z.land (Z.lor O_RDWR (Z.lor O_CREAT O_EXCL)) O_CREAT)) with true.
  sys_run. rewrite (proj2 (Z.ltb_ge _ _)) by done. sys_run.
  rewrite (proj2 (Z.ltb_ge _ _)) by done. rewrite (proj2 (Z.leb_gt _ _)) by done. sys_run.
  unfold set_shm, set_fds, set_nextfd. sys_run. do 3 f_equal.
  rewrite alter_insert, decide_True by done. f_equal.
  unfold zero_obj, set_wmark, resize_wmarks. simpl.
  by rewrite take_nil, Nat.sub_0_r.
Qed.
End shm_lemmas.

(** ** Frame facts *)

Section shm_pres.
Context {K G : Type} `{!AufsKernel K} (P : G -> list Z -> Prop).
Notation glob_inv := (@glob_inv K G P).

Lemma pres_au_shm_name prog fd sz : preserves glob_inv (au_shm_name prog fd sz).
Proof. unfold au_shm_name. pres. Qed.
Lemma pres_shm_unlink name : preserves glob_inv (shm_unlink name).
Proof. unfold shm_unlink. pres. Qed.
Lemma pres_shm_truncate name len : preserves glob_inv (shm_truncate name len).
Proof. unfold shm_truncate. pres. Qed.
Lemma pres_shm_open name fl : preserves glob_inv (shm_open name fl).
Proof. unfold shm_open. pres. Qed.
Lemma pres_shm_read p : preserves glob_inv (shm_read p).
Proof. unfold shm_read. pres. Qed.
Lemma pres_shm_write p o : preserves glob_inv (shm_write p o).
Proof. unfold shm_write. pres. Qed.
End shm_pres.
#[export] Hint Resolve pres_au_shm_name pres_shm_unlink pres_shm_truncate pres_shm_open
  pres_shm_read pres_shm_write : pres.

Section shm_pres2.
Context {K G : Type} `{!AufsKernel K} (P : G -> list Z -> Prop).
Notation glob_inv := (@glob_inv K G P).

Lemma pres_au_shm_open name fl : preserves glob_inv (au_shm_open name fl).
Proof. unfold au_shm_open. pres. Qed.
#[local] Hint Resolve pres_au_shm_open : pres.
Lemma pres_au_shm_create name len : preserves glob_inv (au_shm_create name len).
Proof. unfold au_shm_create. pres. Qed.
Lemma pres_au_shm_map name : preserves glob_inv (au_shm_map name).
Proof. unfold au_shm_map. pres. Qed.
End shm_pres2.
#[export] Hint Resolve pres_au_shm_open pres_au_shm_create pres_au_shm_map : pres.

(** ** Names *)

Lemma fmt_04x_inj a b : 0 <= a -> 0 <= b -> fmt_04x a = fmt_04x b -> a = b.
Proof.
  intros Ha Hb H. apply (f_equal (undigits 16)) in H. unfold fmt_04x in H.
  by rewrite !undigits_pad, !digits_undigits in H by lia.
Qed.

Lemma fmt_04x_length a : 0 <= a < 2 ^ 16 -> length (fmt_04x a) = 4%nat.
Proof.
  intros H. unfold fmt_04x. rewrite pad_left_length.
  pose proof (digits_length 16 a 4 ltac:(lia) H ltac:(lia)). lia.
Qed.

Lemma dash_not_hex a : "-"%char ∉ fmt_04x a.
Proof.
  unfold fmt_04x. intros [H|H]%pad_left_elem; [done|].
  revert H. apply digits_not_elem; [lia| |]; vm_compute; intros [??]; congruence.
Qed.

(** Cutting at the first separator is unambiguous. *)
Lemma app_sep_inj (c : ascii) a b a' b' :
  c ∉ a -> c ∉ a' -> a ++ c :: b = a' ++ c :: b' -> a = a' /\ b = b'.
Proof.
  revert a'; induction a as [|x a IH]; intros [|y a'] Ha Ha' H; simpl in *.
  - by injection H.
  - injection H as -> _. set_solver.
  - injection H as -> _. set_solver.
  - injection H as -> H. destruct (IH a') as [-> ->]; set_solver.
Qed.

Lemma shm_name_str_inj prog maj min ino maj' min' ino' :
  0 <= maj < 2 ^ 16 -> 0 <= maj' < 2 ^ 16 -> 0 <= min -> 0 <= min' -> 0 <= ino -> 0 <= ino' ->
  shm_name_str prog (maj, min) ino = shm_name_str prog (maj', min') ino' ->
  maj = maj' /\ min = min' /\ ino = ino'.
Proof.
  intros Ha Ha' Hb Hb' Hc Hc' H. unfold shm_name_str in H.
  apply (app_inv_head (lit "/")), (app_inv_head prog), (app_inv_head (lit "-")) in H.
  cbn [fst snd] in H.
  rewrite !app_assoc in H. rewrite <- !(app_assoc _ (lit "-")) in H. cbn [app lit] in H.
  apply app_sep_inj in H as [H Hi].
  - assert (fmt_04x maj = fmt_04x maj' /\ fmt_04x min = fmt_04x min') as [E1 E2].
    { apply app_inj_1; [by rewrite !fmt_04x_length by done|done]. }
    split; [apply fmt_04x_inj; [lia|lia|done]|]. split; [by apply fmt_04x_inj|].
    unfold fmt_u in Hi. apply (digits_inj 10); [lia|done|done|done].
  - rewrite elem_of_app. intros [E|E]; by apply dash_not_hex in E.
  - rewrite elem_of_app. intros [E|E]; by apply dash_not_hex in E.
Qed.

(** What fstat(2) reports: a major number below 2^16, as Linux has them *)
Definition stat_ok (dev : Z * Z) (ino : Z) : Prop := 0 <= dev.1 < 2 ^ 16 /\ 0 <= dev.2 /\ 0 <= ino.

Section unique.
Context {K G : Type} `{!AufsKernel K}.
Notation world := (world K G).

Lemma au_shm_name_ret prog fd sz (w w' : world) n :
  au_shm_name prog fd sz w = (Ret (0, n), w') ->
  let what := default [] (w_fds w !! fd) in n = shm_name_str prog (k_dev what) (k_ino what).
Proof.
  intros E. cut (wp false (au_shm_name prog fd sz) (fun r _ => r.1 = 0 ->
    r.2 = shm_name_str prog (k_dev (default [] (w_fds w !! fd))) (k_ino (default [] (w_fds w !! fd)))) w).
  { intros Hw. by apply (wp_run _ _ _ _ _ _ Hw E). }
  clear E. unfold au_shm_name, fallible. unfold wp, mbind, M_bind, pop_fault.
  destruct (w_faults w) as [|[|e|m] r]; cbn; try done; destruct (_ && _); done.
Qed.

(** C37. One shared table per aufs: when au_shm_name() gives the same program names for the
    descriptors of two mount points that differ in device (major numbers being below 2^16,
    as in Linux) or in root inode, whatever the sizes of the buffers, the names differ; a
    name that does not fit is an error, and never cut to another's. *)
Theorem shm_name_unique prog fd fd' sz sz' n n' (w w' v v' : world) :
  let root := default [] (w_fds w !! fd) in
  let root' := default [] (w_fds v !! fd') in
  stat_ok (k_dev root) (k_ino root) -> stat_ok (k_dev root') (k_ino root') ->
  (k_dev root, k_ino root) <> (k_dev root', k_ino root') ->
  au_shm_name prog fd sz w = (Ret (0, n), w') -> au_shm_name prog fd' sz' v = (Ret (0, n'), v') ->
  n <> n'.
Proof.
  intros root root' H H' Hne E%au_shm_name_ret E'%au_shm_name_ret En. subst n n'.
  fold root root' in En. apply Hne. unfold stat_ok in *.
  destruct (k_dev root) as [ma mi], (k_dev root') as [ma' mi']. cbn [fst snd] in *.
  by apply shm_name_str_inj in En as (-> & -> & ->); try tauto.
Qed.
End unique.

(** Two mount points on different devices *)
Module ShmDemo.
Definition two_devs : AufsKernel unit :=
  let k := Demo.kernel in {|
  k_is_aufs _ := true; k_dev p := if bool_decide (p = lit "/a") then (0, 42) else (0, 43);
  k_ino _ := 2; k_br_count := @k_br_count _ k; k_br_fill := @k_br_fill _ k;
  k_wbr_fd := @k_wbr_fd _ k; k_openat := @k_openat _ k; k_nlink := @k_nlink _ k;
  k_mvdown := @k_mvdown _ k; k_fhsm_fd := @k_fhsm_fd _ k; k_fhsm_read := @k_fhsm_read _ k;
  k_list_cmd := @k_list_cmd _ k |}.
Definition opened : world unit unit :=
  set_fds (<[4 := lit "/b"]> (<[3 := lit "/a"]> ∅)) (Demo.world0 tt).
Definition name (fd : Z) : bytes :=
  match (@au_shm_name unit unit two_devs (lit "aufhsm") fd 32 opened).1 with
  | Ret (_, n) => n | _ => [] end.
End ShmDemo.

Lemma shm_name_unique_witness :
  ShmDemo.name 3 = lit "/aufhsm-0000002a-2" /\ ShmDemo.name 4 = lit "/aufhsm-0000002b-2" /\
  ShmDemo.name 3 <> ShmDemo.name 4.
Proof.
  split; [vm_compute; reflexivity|]. split; [vm_compute; reflexivity|].
  apply (@shm_name_unique unit unit ShmDemo.two_devs (lit "aufhsm") 3 4 32 32
    (ShmDemo.name 3) (ShmDemo.name 4) ShmDemo.opened ShmDemo.opened ShmDemo.opened ShmDemo.opened).
  - vm_compute. intuition discriminate.
  - vm_compute. intuition discriminate.
  - vm_compute. discriminate.
  - vm_compute. reflexivity.
  - vm_compute. reflexivity.
Defined.
