(* ===== verification/Fhsm.v ===== *)
(** * fhsm/fhsm.c: building and following the watermark table

    The pure functions transform the element array of the table; the monadic
    ones wrap them with the shared-memory calls, in the order of the source. *)
From S2P Require Import Prelude CString LibcSort AufsType Float32 FhsmData Sys Br Shm.

(** 75% - 50% by default *)
Definition wm_init (bi : aufs_brinfo) : aufhsm_wmark :=
  Wmark (bi_id bi) (F32_0_25, F32_0_5) (F32_1, F32_1).

Definition is_fhsm (bi : aufs_brinfo) : bool := truth (au_br_fhsm (bi_perm bi)).

(** [for (i = lo; i < n; i++, wm++) wm->brid = -1;] *)
Definition clear_brids (lo n : nat) (l : list aufhsm_wmark) : list aufhsm_wmark :=
  take lo l ++ map (set_brid (-1)) (take (n - lo) (drop lo l)) ++ drop (Nat.max lo n) l.

Arguments clear_brids : simpl never.
Arguments au_fhsm_size : simpl never.
Arguments page_round : simpl never.
Arguments zero_obj : simpl never.

(** [wm = p->wmark; for (...) if (fhsm) wm_init(wm++, brinfo + i);] from the
    [k]-th element on.  [None]: an element outside the object is written. *)
Fixpoint wm_fill (l : list aufhsm_wmark) (k : nat) (br : list aufs_brinfo)
  : option (list aufhsm_wmark) :=
  match br with
  | [] => Some l
  | b :: r =>
      if is_fhsm b then
        if (k <? length l)%nat then wm_fill (<[k := wm_init b]> l) (S k) r else None
      else wm_fill l k r
  end.

(** fhsm_invalid(): the number of invalid entries and the array, the entries of
    vanished branches cleared.  [br] is the array the caller passes, [nbr] long. *)
Fixpoint fhsm_invalid (l : list aufhsm_wmark) (nwmark : nat) (br : list aufs_brinfo)
  : Z * list aufhsm_wmark :=
  match nwmark, l with
  | S n, wm :: r =>
      let '(err, r') := fhsm_invalid r n br in
      if wm_brid wm <? 0 then (err + 1, wm :: r')
      else if existsb (fun b => wm_brid wm =? bi_id b) br then (err, wm :: r')
      else (err + 1, set_brid (-1) wm :: r')
  | _, _ => (0, l)
  end.

(** fhsm_reinit(): [prev] is the last element found; [None] is AuFin(EINVAL). *)
Fixpoint fhsm_reinit (l : list aufhsm_wmark) (nwmark : nat) (prev : option nat)
    (br : list aufs_brinfo) : option (list aufhsm_wmark) :=
  match br with
  | [] => Some l
  | b :: r =>
      if negb (is_fhsm b) then fhsm_reinit l nwmark prev r
      else if bi_id b <? 0 then None
      else
        match au_wm_lfind (bi_id b) l nwmark with
        | Some i => fhsm_reinit l nwmark (Some i) r
        | None =>
            match au_wm_lfind (-1) l nwmark with
            | Some i =>
                let wm := wm_init b in
                let wm := match prev ≫= (fun j => l !! j) with
                          | Some q => set_inode (wm_inode q) (set_block (wm_block q) wm)
                          | None => wm
                          end in
                fhsm_reinit (<[i := wm]> l) nwmark prev r
            | None => None
            end
        end
  end.

Section fhsm.
Context {K G : Type} `{!AufsKernel K}.
Notation world := (world K G).

(** The whole table through a mapping: every byte up to au_fhsm_size(nwmark)
    must be mapped. *)
Definition shm_table (p : fhsm_ptr) : M world aufhsm :=
  o ← shm_read p;
  if au_fhsm_size (nwmark o) <=? ptr_len p then mret o
  else ub "access beyond the mapping".

(** mremap(fhsm, len, cur_len, MREMAP_MAYMOVE): the third argument is the new
    size, so the mapping ends up [cur_len] bytes long. *)
Definition mremap (p : fhsm_ptr) (old_size new_size : Z) : M world (option fhsm_ptr) :=
  m ← fallible;
  if truth m then mret None else mret (Some (Ptr (ptr_name p) (page_round new_size))).

Definition fhsm_shrink (p : fhsm_ptr) (nfhsm : Z) : M world (Z * fhsm_ptr) :=
  o ← shm_read p;
  let cur_len := au_fhsm_size (nwmark o) in
  let len := au_fhsm_size nfhsm in
  err ← shm_truncate (ptr_name p) len;
  if truth err then mret (err, p)
  else
    m ← mremap p len cur_len;
    match m with
    | Some p' =>
        o ← shm_read p';
        shm_write p' (set_nwmark nfhsm o) ;; mret (0, p')
    | None => _ ← shm_truncate (ptr_name p) cur_len; mret (-1, p)
    end.

Definition fhsm_expand (p : fhsm_ptr) (nfhsm : Z) : M world (Z * fhsm_ptr) :=
  o ← shm_read p;
  let cur_len := au_fhsm_size (nwmark o) in
  let len := au_fhsm_size nfhsm in
  err ← shm_truncate (ptr_name p) len;
  if truth err then mret (err, p)
  else
    m ← mremap p len cur_len;
    match m with
    | Some p' =>
        o ← shm_read p';
        (* the last [wm->brid = -1] writes two bytes at this offset *)
        if au_fhsm_size (nfhsm - 1) + 2 <=? ptr_len p' then
          shm_write p' (set_nwmark nfhsm (set_wmark
            (clear_brids (Z.to_nat (nwmark o)) (Z.to_nat nfhsm) (wmark o)) o)) ;;
          mret (0, p')
        else ub "write beyond the mapping"
    | None => _ ← shm_truncate (ptr_name p) cur_len; mret (-1, p)
    end.

(** Returns the status, [*rfd] and [*rfhsm]. *)
Definition fhsm_create (name : bytes) (nfhsm nbr : Z) (brinfo : list aufs_brinfo)
  : M world (Z * Z * option fhsm_ptr) :=
  '(err, rfd, rp) ← au_shm_create name (au_fhsm_size nfhsm);
  if truth err then mret (err, rfd, rp)
  else
    match rp with
    | None => ub "no mapping"
    | Some p =>
        o ← shm_read p;
        match wm_fill (clear_brids 0 (Z.to_nat nfhsm) (wmark o)) 0
                (take (Z.to_nat nbr) brinfo) with
        | Some l => shm_write p (set_nwmark nfhsm (set_wmark l o)) ;; mret (0, rfd, rp)
        | None => ub "watermark outside the table"
        end
    end.

Definition munmap : M world Z := fallible.

Definition fhsm_map (name : bytes) : M world (Z * Z * option fhsm_ptr) :=
  '(err, rfd, rp) ← au_shm_map name;
  if truth err then mret (err, rfd, rp)
  else
    match rp with
    | None => ub "no mapping"
    | Some p =>
        o ← shm_read p;
        match au_fhsm_sign_verify o with
        | None => ub "checksum outside the object"
        | Some true => mret (0, rfd, rp)
        | Some false =>
            put_errno EINVAL ;;
            _ ← munmap; _ ← close_ rfd;
            mret (-1, rfd, rp)
        end
    end.

(** Signing in place through the mapping. *)
Definition sign_at (p : fhsm_ptr) : M world unit :=
  o ← shm_table p;
  match au_fhsm_sign o with
  | Some o' => shm_write p o'
  | None => ub "checksum outside the object"
  end.

Definition sort_and_sign (p : fhsm_ptr) : M world unit :=
  o ← shm_table p;
  shm_write p (au_fhsm_sort_brid o) ;;
  sign_at p.

(** au_fhsm(): create the table, or map the existing one and follow the
    branches.  The two loops over the branches get [nfhsm], not [nbr]. *)
Definition au_fhsm (name : bytes) (nfhsm nbr : Z) (brinfo : list aufs_brinfo)
  : M world (Z * Z * option fhsm_ptr) :=
  '(err, rfd, rp) ← fhsm_create name nfhsm nbr brinfo;
  if negb (truth err) then
    match rp with
    | Some p => sort_and_sign p ;; mret (0, rfd, Some p)
    | None => ub "no mapping"
    end
  else
    e ← gets w_errno;
    if negb (e =? EEXIST) then mret (err, rfd, rp)
    else
      '(err, rfd, rp) ← fhsm_map name;
      if truth err then mret (err, rfd, rp)
      else
        match rp with
        | None => ub "no mapping"
        | Some p =>
            o ← shm_read p;
            '(err, p) ← (if nwmark o <? nfhsm then fhsm_expand p nfhsm
                         else fhsm_shrink p nfhsm);
            if truth err then
              _ ← munmap; mret (err, rfd, Some p)
            else
              o ← shm_table p;
              let br := take (Z.to_nat nfhsm) brinfo in
              let '(invalid, l) := fhsm_invalid (wmark o) (Z.to_nat (nwmark o)) br in
              shm_write p (set_wmark l o) ;;
              (if truth invalid then
                 match fhsm_reinit l (Z.to_nat (nwmark o)) None br with
                 | Some l' => shm_write p (set_wmark l' o)
                 | None => put_errno EINVAL ;; au_fin
                 end
               else mret tt) ;;
              sort_and_sign p ;; mret (0, rfd, Some p)
        end.

(** The daemon's private copy of the table. *)
Definition au_fhsm_load (name : bytes) : M world (option aufhsm) :=
  '(err, fd, rp) ← fhsm_map name;
  if truth err then mret None
  else
    match rp with
    | None => ub "no mapping"
    | Some ptr =>
        o ← shm_table ptr;
        m ← fallible; (* malloc *)
        p ← (if truth m then mret None
             else
               u ← munmap;
               mret (if truth u then None
                     else Some (set_wmark (take (Z.to_nat (nwmark o)) (wmark o)) o)));
        err ← close_ fd;
        mret (if truth err then None else p)
    end.
End fhsm.

(** ** Lemmas on the element array *)

Lemma page_round_ge z : 0 <= z -> z <= page_round z.
Proof.
  intros H. unfold page_round, PAGE.
  pose proof (Z.div_mod (z + (4096 - 1)) 4096). pose proof (Z.mod_pos_bound (z + (4096 - 1)) 4096).
  lia.
Qed.
#[export] Hint Resolve page_round_ge : fhsm.

Lemma au_nfhsm_count nbr br :
  au_nfhsm nbr br = Z.of_nat (length (List.filter is_fhsm (take (Z.to_nat nbr) br))).
Proof. unfold au_nfhsm. by rewrite nfhsm_loop_count. Qed.

Lemma clear_brids_length lo n l : length (clear_brids lo n l) = length l.
Proof.
  unfold clear_brids. rewrite !length_app, length_map, !length_take, !length_drop. lia.
Qed.

Lemma wm_fill_spec l k br :
  (k + length (List.filter is_fhsm br) <= length l)%nat ->
  wm_fill l k br = Some (take k l ++ map wm_init (List.filter is_fhsm br)
                         ++ drop (k + length (List.filter is_fhsm br)) l).
Proof.
  revert l k; induction br as [|b br IH]; intros l k; cbn [wm_fill List.filter].
  - intros _. cbn [length map app]. by rewrite Nat.add_0_r, take_drop.
  - destruct (is_fhsm b) eqn:E; [|apply IH]. cbn [length map app]. intros H.
    rewrite (proj2 (Nat.ltb_lt _ _)) by lia.
    rewrite IH by (rewrite length_insert; lia). f_equal.
    rewrite (take_S_r _ k (wm_init b)) by (apply list_lookup_insert_eq; lia).
    rewrite take_insert_ge by lia. rewrite drop_insert_lt by lia.
    rewrite <- app_assoc. simpl. do 3 f_equal. f_equal. lia.
Qed.

Lemma fhsm_invalid_length l n br : length (fhsm_invalid l n br).2 = length l.
Proof.
  revert n; induction l as [|wm l IH]; intros [|n]; simpl; try done.
  specialize (IH n). destruct (fhsm_invalid l n br) as [e r]. simpl in *.
  repeat case_match; simpl; by rewrite IH.
Qed.

Definition in_branches (br : list aufs_brinfo) (brid : Z) : Prop :=
  exists b, b ∈ br /\ bi_id b = brid.

Lemma existsb_id brid br :
  existsb (fun b => brid =? bi_id b) br = true <-> in_branches br brid.
Proof.
  unfold in_branches. rewrite existsb_exists. split.
  - intros (b & Hb & H). exists b. rewrite list_elem_of_In. split; [done|]. bool_lia.
  - intros (b & Hb & H). exists b. rewrite <- list_elem_of_In. split; [done|]. bool_lia.
Qed.

#[export] Instance in_branches_dec br brid : Decision (in_branches br brid).
Proof.
  refine (cast_if (decide (existsb (fun b => brid =? bi_id b) br = true)));
    by rewrite <- existsb_id.
Defined.

Lemma existsb_branch wm br :
  existsb (fun b => wm_brid wm =? bi_id b) br = true <-> in_branches br (wm_brid wm).
Proof. apply existsb_id. Qed.

(** The element-wise effect of fhsm_invalid(). *)
Lemma fhsm_invalid_lookup l n br i wm :
  l !! i = Some wm ->
  (fhsm_invalid l n br).2 !! i =
    Some (if bool_decide (i < n)%nat && negb (wm_brid wm <? 0)
             && negb (existsb (fun b => wm_brid wm =? bi_id b) br)
          then set_brid (-1) wm else wm).
Proof.
  revert l i; induction n as [|n IH]; intros [|x l] i Hi; try done.
  cbn [fhsm_invalid]. destruct (fhsm_invalid l n br) as [e r] eqn:E.
  destruct i as [|i]; simpl in Hi; simplify_eq.
  - rewrite bool_decide_true by lia.
    destruct (wm_brid wm <? 0); [done|]. by destruct (existsb _ br).
  - specialize (IH l i Hi). rewrite E in IH. simpl in IH.
    assert (bool_decide (S i < S n)%nat = bool_decide (i < n)%nat) as ->
      by (apply bool_decide_ext; lia).
    rewrite <- IH. destruct (wm_brid x <? 0); [done|].
    by destruct (existsb (fun b => wm_brid x =? bi_id b) br).
Qed.

(** Its result counts the free entries it leaves. *)
Lemma fhsm_invalid_count l n br :
  (n <= length l)%nat ->
  (fhsm_invalid l n br).1 =
    Z.of_nat (length (List.filter (fun wm => wm_brid wm <? 0)
                        (take n (fhsm_invalid l n br).2))).
Proof.
  revert l; induction n as [|n IH]; intros [|x l] H; simpl in H; try done; try lia.
  cbn [fhsm_invalid]. specialize (IH l ltac:(lia)).
  destruct (fhsm_invalid l n br) as [e r]. cbn [fst snd] in *.
  destruct (wm_brid x <? 0) eqn:E; [|destruct (existsb _ br)]; cbn [take List.filter fst snd].
  - rewrite E. cbn [length]. lia.
  - rewrite E. lia.
  - simpl. lia.
Qed.

Definition count_brid (brid : Z) (l : list aufhsm_wmark) : nat :=
  length (List.filter (fun wm => wm_brid wm =? brid) l).

Lemma count_brid_insert i wm l old :
  l !! i = Some old -> wm_brid old = -1 -> wm_brid wm <> -1 ->
  count_brid (-1) l = S (count_brid (-1) (<[i := wm]> l)).
Proof.
  unfold count_brid. revert i; induction l as [|x l IH]; intros [|i] Hl Ho Hw;
    simpl in *; simplify_eq.
  - rewrite (proj2 (Z.eqb_eq _ _) Ho), (proj2 (Z.eqb_neq _ _) Hw). done.
  - specialize (IH i Hl Ho Hw). destruct (wm_brid x =? -1); simpl; by rewrite IH.
Qed.

Lemma lfind_zero_count brid l :
  au_wm_lfind brid l (length l) = None -> count_brid brid l = 0%nat.
Proof.
  intros H. apply lfind_None in H. rewrite take_ge in H by lia.
  unfold count_brid. induction H as [|x l Hx H IH]; simpl; [done|].
  by rewrite (proj2 (Z.eqb_neq _ _) Hx).
Qed.


(** ** fhsm_reinit() gives every FHSM branch an entry *)

Definition has_brid (brid : Z) (l : list aufhsm_wmark) : Prop :=
  exists wm, wm ∈ l /\ wm_brid wm = brid.

(** FHSM branches without an entry in [l]. *)
Definition missing (l : list aufhsm_wmark) (b : aufs_brinfo) : bool :=
  is_fhsm b && match au_wm_lfind (bi_id b) l (length l) with None => true | _ => false end.

Definition ids_nonneg (br : list aufs_brinfo) : Prop :=
  Forall (fun b => is_fhsm b = true -> 0 <= bi_id b) br.

Lemma lfind_has brid l i :
  au_wm_lfind brid l (length l) = Some i -> has_brid brid l.
Proof.
  intros (_ & w & Hw & Hb & _)%lfind_Some. exists w. split; [|done].
  by eapply list_elem_of_lookup_2.
Qed.

Lemma lfind_None_has brid l :
  au_wm_lfind brid l (length l) = None -> ~ has_brid brid l.
Proof.
  intros H%lfind_None (w & Hw & Hb). rewrite take_ge in H by lia.
  rewrite Forall_forall in H. by apply (H w).
Qed.

Lemma filter_length_mono {A} (f g : A -> bool) l :
  (forall x, f x = true -> g x = true) ->
  (length (List.filter f l) <= length (List.filter g l))%nat.
Proof.
  intros H. induction l as [|x l IH]; simpl; [lia|].
  destruct (f x) eqn:E; [rewrite (H x E); simpl; lia|]. destruct (g x); simpl; lia.
Qed.

(** [l'] keeps every used entry of [l] in place. *)
Definition keeps (l l' : list aufhsm_wmark) : Prop :=
  length l' = length l /\
  forall i wm, l !! i = Some wm -> wm_brid wm <> -1 -> l' !! i = Some wm.

Lemma keeps_refl l : keeps l l.
Proof. by split. Qed.

Lemma keeps_trans l1 l2 l3 : keeps l1 l2 -> keeps l2 l3 -> keeps l1 l3.
Proof. intros [E1 H1] [E2 H2]. split; [congruence|]. eauto. Qed.

Lemma keeps_has l l' brid : keeps l l' -> brid <> -1 -> has_brid brid l -> has_brid brid l'.
Proof.
  intros [_ Hk] Hne (w & [i Hi]%list_elem_of_lookup & Hb). exists w. split; [|done].
  eapply list_elem_of_lookup_2, Hk; [done|]. by rewrite Hb.
Qed.

#[export] Instance keeps_preorder : PreOrder keeps.
Proof. split; [exact keeps_refl|exact keeps_trans]. Qed.

Lemma missing_mono l l' b :
  keeps l l' -> (is_fhsm b = true -> 0 <= bi_id b) ->
  missing l' b = true -> missing l b = true.
Proof.
  unfold missing. intros Hk H0. destruct (is_fhsm b) eqn:Ef; [|done]. simpl.
  destruct (au_wm_lfind (bi_id b) l (length l)) eqn:E; [|done].
  apply lfind_has in E. destruct (au_wm_lfind _ l' _) eqn:E'; [done|].
  apply lfind_None_has in E'. intros _. exfalso. apply E'.
  eapply keeps_has; [done| |done]. specialize (H0 eq_refl). lia.
Qed.

Lemma missing_count_mono l l' br :
  ids_nonneg br -> keeps l l' ->
  (length (List.filter (missing l') br) <= length (List.filter (missing l) br))%nat.
Proof.
  intros Hid Hk. induction Hid as [|x br Hx Hid IH]; simpl; [lia|].
  destruct (missing l' x) eqn:E.
  - rewrite (missing_mono l _ x Hk Hx E). simpl. lia.
  - destruct (missing l x); simpl; lia.
Qed.

Lemma insert_free_keeps l i wm old :
  l !! i = Some old -> wm_brid old = -1 -> keeps l (<[i := wm]> l).
Proof.
  intros Hl Ho. split; [apply length_insert|]. intros j x Hj Hx.
  rewrite list_lookup_insert_ne; [done|]. intros ->. simplify_eq.
Qed.

Lemma reinit_spec l prev br :
  ids_nonneg br ->
  (length (List.filter (missing l) br) <= count_brid (-1) l)%nat ->
  exists l', fhsm_reinit l (length l) prev br = Some l' /\ keeps l l' /\
    forall b, b ∈ br -> is_fhsm b = true -> has_brid (bi_id b) l'.
Proof.
  revert l prev; induction br as [|b br IH]; intros l prev Hid Hc; cbn [fhsm_reinit].
  - exists l. split; [done|]. split; [done|]. set_solver.
  - apply Forall_cons in Hid as [Hb Hid]. cbn [List.filter] in Hc.
    destruct (is_fhsm b) eqn:Ef; cbn [negb].
    2: { assert (missing l b = false) as Em by (unfold missing; by rewrite Ef).
         rewrite Em in Hc. destruct (IH l prev Hid Hc) as (l' & -> & Hk & Hall).
         exists l'. split; [done|]. split; [done|]. intros b' [->|Hin]%elem_of_cons Hf.
         { congruence. } { auto. } }
    specialize (Hb eq_refl). rewrite (proj2 (Z.ltb_ge _ _)) by lia.
    assert (missing l b = match au_wm_lfind (bi_id b) l (length l) with
                          | None => true | _ => false end) as Em
      by (unfold missing; by rewrite Ef).
    rewrite Em in Hc.
    destruct (au_wm_lfind (bi_id b) l (length l)) as [i|] eqn:E.
    + destruct (IH l (Some i) Hid Hc) as (l' & -> & Hk & Hall).
      exists l'. split; [done|]. split; [done|]. intros b' [->|Hin]%elem_of_cons Hf; [|auto].
      eapply keeps_has; [done|lia|by eapply lfind_has].
    + cbn [length] in Hc.
      destruct (au_wm_lfind (-1) l (length l)) as [i|] eqn:E1.
      2: { apply lfind_zero_count in E1. lia. }
      apply lfind_Some in E1 as (_ & old & Hi & Ho & _).
      cbv zeta. set (wm := match prev ≫= _ with Some _ => _ | None => _ end).
      assert (wm_brid wm = bi_id b) as Hwm by (unfold wm; by case_match).
      pose proof (insert_free_keeps l i wm old Hi Ho) as Hk1.
      destruct (IH (<[i := wm]> l) prev Hid) as (l' & Hr & Hk & Hall).
      { rewrite (count_brid_insert i wm l old) in Hc by (done || lia).
        pose proof (missing_count_mono l _ br Hid Hk1). lia. }
      rewrite length_insert in Hr. exists l'. split; [done|]. split; [by etrans|].
      intros b' [->|Hin]%elem_of_cons Hf; [|auto].
      apply (keeps_has (<[i := wm]> l)); [done|lia|]. exists wm. split; [|done].
      eapply list_elem_of_lookup_2, list_lookup_insert_eq, lookup_lt_Some, Hi.
Qed.

(** ** Running the monadic part when no call fails *)

(** The table that au_fhsm() leaves for the contents [o]: sorted and signed. *)
Definition published (o : aufhsm) : aufhsm :=
  let s := au_fhsm_sort_brid o in
  Aufhsm (AUFHSM_MAGIC ++ [NUL; NUL]) (csum_bytes (fhsm_bytes s)) (nwmark o) (wmark s).

Lemma set_wmark_id o : set_wmark (wmark o) o = o.
Proof. by destruct o. Qed.


Lemma au_fhsm_size_nonneg n : 0 <= n -> 0 <= au_fhsm_size n.
Proof. unfold au_fhsm_size, sizeof_aufhsm, sizeof_wmark. lia. Qed.

Lemma published_inside o : fhsm_inside o = true -> fhsm_inside (published o) = true.
Proof.
  intros H. rewrite <- (fhsm_inside_sort o) in H. exact H.
Qed.

Lemma published_verified o :
  fhsm_inside o = true -> au_fhsm_sign_verify (published o) = Some true.
Proof.
  intros H. apply (sign_then_verify (au_fhsm_sort_brid o)).
  - by rewrite fhsm_inside_sort.
  - unfold au_fhsm_sign, au_fhsm_csum. by rewrite fhsm_inside_sort, H.
Qed.

Section fhsm_run.
Context {K G : Type} `{!AufsKernel K}.
Notation world := (world K G).
Implicit Types w : world.

Lemma bind_shm_write {B} w p o (f : unit -> M world B) :
  (shm_write p o ≫= f) w = f tt (set_shm (<[ptr_name p := o]> (w_shm w)) w).
Proof. reflexivity. Qed.

Lemma shm_table_run w p o :
  w_shm w !! ptr_name p = Some o -> au_fhsm_size (nwmark o) <= ptr_len p ->
  shm_table p w = (Ret o, w).
Proof.
  intros Ho Hl. unfold shm_table, shm_read. sys_run. rewrite Ho. sys_run.
  rewrite (proj2 (Z.leb_le _ _)) by done. done.
Qed.

Lemma sort_and_sign_run w p o :
  w_shm w !! ptr_name p = Some o -> au_fhsm_size (nwmark o) <= ptr_len p ->
  fhsm_inside o = true ->
  sort_and_sign p w =
    (Ret tt, set_shm (<[ptr_name p := published o]> (w_shm w)) w).
Proof.
  intros Ho Hl Hi. unfold sort_and_sign.
  rewrite (bind_run _ _ _ _ _ (shm_table_run w p o Ho Hl)).
  set (w1 := set_shm (<[ptr_name p := au_fhsm_sort_brid o]> (w_shm w)) w).
  rewrite bind_shm_write. fold w1.
  assert (w_shm w1 !! ptr_name p = Some (au_fhsm_sort_brid o)) as H1
    by (unfold w1; simpl; apply lookup_insert_eq).
  unfold sign_at. rewrite (bind_run _ _ _ _ _ (shm_table_run w1 p _ H1 Hl)).
  unfold au_fhsm_sign, au_fhsm_csum. rewrite fhsm_inside_sort, Hi. simpl.
  unfold shm_write, modify, w1, set_shm. simpl. by rewrite insert_insert_eq.
Qed.

Lemma clear_zero_obj n :
  clear_brids 0 n (replicate n wmark_zero) = replicate n (set_brid (-1) wmark_zero).
Proof.
  unfold clear_brids. rewrite drop_0, Nat.sub_0_r, take_0, Nat.max_0_l.
  rewrite take_ge, drop_ge by (by rewrite length_replicate).
  simpl. rewrite app_nil_r. induction n; simpl; by f_equal.
Qed.

Lemma capacity_size n : capacity (au_fhsm_size (Z.of_nat n)) = n.
Proof.
  unfold capacity, au_fhsm_size, sizeof_aufhsm, sizeof_wmark.
  replace (16 + Z.of_nat n * 20 - 16) with (Z.of_nat n * 20) by lia.
  rewrite Z.div_mul by lia. lia.
Qed.

Lemma fhsm_create_fresh w name nbr br :
  w_faults w = [] -> w_shm w !! name = None -> 0 <= w_nextfd w ->
  let nfhsm := au_nfhsm nbr br in
  let l := map wm_init (List.filter is_fhsm (take (Z.to_nat nbr) br)) in
  fhsm_create name nfhsm nbr br w =
    (Ret (0, w_nextfd w, Some (Ptr name (page_round (au_fhsm_size nfhsm)))),
     set_shm (<[name := Aufhsm (replicate 8 NUL) 0 nfhsm l]> (w_shm w))
       (set_fds (<[w_nextfd w := name]> (w_fds w))
          (set_nextfd (w_nextfd w + 1) w))).
Proof.
  intros Hf Hn Hfd nfhsm l. unfold fhsm_create.
  assert (0 < au_fhsm_size nfhsm) as Hpos
    by (unfold nfhsm, au_nfhsm, au_fhsm_size, sizeof_aufhsm, sizeof_wmark;
        rewrite nfhsm_loop_count; lia).
  rewrite (bind_run _ _ _ _ _ (au_shm_create_fresh w name _ Hf Hn Hfd Hpos)).
  cbv beta iota. change (truth 0) with false. cbv iota.
  unfold shm_read. sys_run. rewrite lookup_insert_eq. sys_run.
  unfold zero_obj. cbn [wmark]. unfold nfhsm. rewrite au_nfhsm_count.
  set (n := length (List.filter is_fhsm (take (Z.to_nat nbr) br))).
  rewrite capacity_size, Nat2Z.id, clear_zero_obj.
  rewrite wm_fill_spec by (rewrite length_replicate; fold n; lia).
  fold n. rewrite drop_ge by (rewrite length_replicate; lia).
  cbn [take app]. rewrite app_nil_r. unfold shm_write. sys_run.
  unfold set_shm, set_wmark, set_nwmark. simpl. by rewrite insert_insert_eq.
Qed.


Lemma fhsm_map_run w name o :
  w_faults w = [] -> w_shm w !! name = Some o -> 0 <= w_nextfd w ->
  au_fhsm_sign_verify o = Some true ->
  fhsm_map name w =
    (Ret (0, w_nextfd w, Some (Ptr name (page_round (obj_size o)))),
     set_fds (<[w_nextfd w := name]> (w_fds w)) (set_nextfd (w_nextfd w + 1) w)).
Proof.
  intros Hf Ho Hfd Hv. destruct w; simpl in *; subst.
  unfold fhsm_map, au_shm_map, au_shm_open, shm_open. sys_run. rewrite Ho.
  change (truth (Z.land O_RDWR O_CREAT)) with false. sys_run.
  rewrite (proj2 (Z.ltb_ge _ _)) by done. sys_run.
  rewrite (proj2 (Z.ltb_ge _ _)) by done. sys_run. rewrite Ho. sys_run.
  unfold shm_read. sys_run. rewrite Ho. sys_run. rewrite Hv. done.
Qed.



End fhsm_run.

(** ** Properties *)

Section fhsm_props.
Context {K G : Type} `{!AufsKernel K}.
Notation world := (world K G).

(** The first run, in full: what the table holds, and what else changes. *)
Lemma au_fhsm_fresh (w : world) name nbr br :
  w_faults w = [] -> w_shm w !! name = None -> 0 <= w_nextfd w ->
  let o := Aufhsm (replicate 8 NUL) 0 (au_nfhsm nbr br)
             (map wm_init (List.filter is_fhsm (take (Z.to_nat nbr) br))) in
  fhsm_inside o = true /\ nwmark o = Z.of_nat (length (wmark o)) /\
  au_fhsm name (au_nfhsm nbr br) nbr br w =
    (Ret (0, w_nextfd w, Some (Ptr name (page_round (au_fhsm_size (nwmark o))))),
     set_shm (<[name := published o]> (w_shm w))
       (set_fds (<[w_nextfd w := name]> (w_fds w)) (set_nextfd (w_nextfd w + 1) w))).
Proof.
  intros Hf Hn Hfd o.
  assert (Z.of_nat (length (wmark o)) = nwmark o) as Hl
    by (unfold o; simpl; rewrite au_nfhsm_count, length_map; done).
  assert (fhsm_inside o = true) as Hi by (unfold fhsm_inside; bool_lia).
  split; [done|]. split; [done|].
  unfold au_fhsm. rewrite (bind_run _ _ _ _ _ (fhsm_create_fresh w name nbr br Hf Hn Hfd)).
  cbv beta iota. change (negb (truth 0)) with true. cbv iota. fold o.
  match goal with |- context [(sort_and_sign ?p ≫= _) ?w1] =>
    rewrite (bind_run _ _ _ _ _ (sort_and_sign_run w1 p o
      ltac:(simpl; apply lookup_insert_eq)
      ltac:(apply page_round_ge, au_fhsm_size_nonneg; rewrite <- Hl; lia) Hi))
  end.
  unfold mret, M_ret. f_equal. cbn [w_shm set_shm ptr_name].
  unfold set_shm. simpl. by rewrite insert_insert_eq.
Qed.

(** C10. First run of the controller: when no table exists and no call fails,
    au_fhsm() succeeds and publishes a table that holds exactly one default
    watermark (75%-50%) per FHSM branch, sorted by branch id, whose signature the
    daemon will accept. *)
Theorem au_fhsm_creates_table (w : world) name nbr br :
  w_faults w = [] -> w_shm w !! name = None -> 0 <= w_nextfd w ->
  exists p w' o,
    au_fhsm name (au_nfhsm nbr br) nbr br w = (Ret (0, w_nextfd w, Some p), w') /\
    w_shm w' !! name = Some o /\ nwmark o = au_nfhsm nbr br /\
    au_fhsm_sign_verify o = Some true /\
    StronglySorted (fun a b => wm_brid a <= wm_brid b) (wmark o) /\
    Permutation (wmark o) (map wm_init (List.filter is_fhsm (take (Z.to_nat nbr) br))).
Proof.
  intros Hf Hn Hfd. set (l := map wm_init _).
  destruct (au_fhsm_fresh w name nbr br Hf Hn Hfd) as (Hi & Hl & E). fold l in Hi, Hl, E.
  set (o := Aufhsm _ 0 _ l) in *. cbn [nwmark wmark o] in Hl.
  rewrite E. eexists _, _, (published o). split; [reflexivity|]. split; [apply lookup_insert_eq|].
  split; [done|]. split; [by apply published_verified|].
  pose proof (sort_brid_sorted o Hi) as Hs. 
  assert (wmark (published o) = qsort au_wm_qsort_brid l) as ->.
  { simpl. unfold sort_wmarks. rewrite take_ge, drop_ge by lia. apply app_nil_r. }
  split; [|apply qsort_permutation].
  simpl in Hs. rewrite sort_wmarks_take, take_ge in Hs by lia. done.
Qed.


(** Loading a table whose signature verifies *)
Lemma au_fhsm_load_run (w : world) name o :
  w_faults w = [] -> 0 <= w_nextfd w -> w_fds w !! w_nextfd w = None ->
  au_fhsm_sign_verify o = Some true -> nwmark o = Z.of_nat (length (wmark o)) ->
  w_shm w !! name = Some o ->
  exists w', au_fhsm_load name w = (Ret (Some o), w') /\
    w_shm w' = w_shm w /\ w_fds w' = w_fds w /\ w_glob w' = w_glob w /\ w_faults w' = [] /\
    w_nextfd w' = w_nextfd w + 1 /\ w_fifos w' = w_fifos w.
Proof.
  intros Hf Hfd Hfree Hv Hn Ho.
  unfold au_fhsm_load. rewrite (bind_run _ _ _ _ _ (fhsm_map_run w name _ Hf Ho Hfd Hv)).
  cbv beta iota. change (truth 0) with false. cbv iota.
  erewrite bind_run; [|apply (shm_table_run _ _ o); [exact Ho|];
    cbn [ptr_len]; unfold obj_size; rewrite <- Hn; apply page_round_ge, au_fhsm_size_nonneg; lia].
  rewrite take_ge by lia. rewrite set_wmark_id.
  destruct w; simpl in *; subst. sys_run. eexists. split; [reflexivity|]. simpl.
  split_and!; try done. by rewrite delete_insert_id.
Qed.

(** What the controller publishes is what the daemon loads: au_fhsm_load()
    verifies the signature, returns a private copy equal to the published table,
    and leaves shared memory and the descriptors as they were. *)
Theorem au_fhsm_load_published (w : world) name o :
  w_faults w = [] -> 0 <= w_nextfd w -> w_fds w !! w_nextfd w = None ->
  fhsm_inside o = true -> nwmark o = Z.of_nat (length (wmark o)) ->
  w_shm w !! name = Some (published o) ->
  exists w', au_fhsm_load name w = (Ret (Some (published o)), w') /\
    w_shm w' = w_shm w /\ w_fds w' = w_fds w.
Proof.
  intros Hf Hfd Hfree Hi Hn Ho.
  destruct (au_fhsm_load_run w name (published o)) as (w' & E & Hs & Hd & _); try done.
  - by apply published_verified.
  - simpl. by rewrite sort_wmarks_length.
  - by exists w'.
Qed.

(** Growing the table marks every new element free and keeps the old ones,
    provided the grown table fits the pages that the old size occupies. *)
Theorem fhsm_expand_within_page (w : world) p o n :
  w_faults w = [] -> w_shm w !! ptr_name p = Some o ->
  nwmark o = Z.of_nat (length (wmark o)) -> (length (wmark o) < n)%nat ->
  au_fhsm_size (Z.of_nat n) <= page_round (au_fhsm_size (nwmark o)) ->
  exists p' w', fhsm_expand p (Z.of_nat n) w = (Ret (0, p'), w') /\
    ptr_name p' = ptr_name p /\
    w_shm w' !! ptr_name p = Some (set_nwmark (Z.of_nat n)
      (set_wmark (wmark o ++ replicate (n - length (wmark o)) (set_brid (-1) wmark_zero)) o)).
Proof.
  intros Hf Ho Hn Hlt Hpg. destruct w; simpl in *; subst.
  unfold fhsm_expand, shm_read, shm_truncate, mremap. sys_run. rewrite Ho. sys_run.
  rewrite lookup_alter_eq, Ho. sys_run.
  rewrite (proj2 (Z.leb_le _ _)).
  2: { unfold au_fhsm_size, sizeof_aufhsm, sizeof_wmark in *. simpl. lia. }
  unfold shm_write. sys_run. eexists _, _. split; [reflexivity|]. split; [done|].
  simpl. rewrite lookup_insert_eq. f_equal. rewrite capacity_size, Hn, !Nat2Z.id.
  unfold set_nwmark, set_wmark. simpl. f_equal.
  unfold resize_wmarks, clear_brids. rewrite (take_ge (wmark o) n) by lia.
  rewrite take_app_length, drop_app_length, take_ge by (rewrite length_replicate; lia).
  rewrite drop_ge by (rewrite length_app, length_replicate; lia).
  rewrite app_nil_r. f_equal. induction (n - _)%nat; simpl; by f_equal.
Qed.

(** C39. Growing it further is fatal: fhsm_expand() passes mremap(2) the new size
    as the old one and vice versa, so the mapping keeps the old size, and marking
    an element beyond its last page writes outside the mapping. *)
Theorem fhsm_expand_beyond_page (w : world) p o nfhsm :
  w_faults w = [] -> w_shm w !! ptr_name p = Some o ->
  page_round (au_fhsm_size (nwmark o)) < au_fhsm_size (nfhsm - 1) + 2 ->
  (fhsm_expand p nfhsm w).1 = Ub "write beyond the mapping".
Proof.
  intros Hf Ho Hpg. destruct w; simpl in *; subst.
  unfold fhsm_expand, shm_read, shm_truncate, mremap. sys_run. rewrite Ho. sys_run.
  rewrite lookup_alter_eq, Ho. sys_run.
  rewrite (proj2 (Z.leb_gt _ _)) by done. done.
Qed.
End fhsm_props.

(** The user's settings on the demonstration mount: 90%-80% for both FHSM
    branches, signed. *)
Definition custom (brid : Z) : aufhsm_wmark :=
  Wmark brid (f32_of_ratio false 1 10, f32_of_ratio false 1 5) (F32_1, F32_1).
Definition custom_table (l : list Z) : aufhsm :=
  published (Aufhsm (replicate 8 NUL) 0 (Z.of_nat (length l)) (map custom l)).
Definition demo_name : bytes := lit "/aufhsm-0000002a-2".
Definition custom_world (l : list Z) : world unit unit :=
  set_shm {[ demo_name := custom_table l ]} (Demo.world0 tt).

Lemma au_fhsm_creates_table_witness :
  exists p w' o,
    au_fhsm demo_name (au_nfhsm 3 Demo.branches) 3 Demo.branches (Demo.world0 tt)
      = (Ret (0, 3, Some p), w') /\
    w_shm w' !! demo_name = Some o /\ nwmark o = 2 /\
    au_fhsm_sign_verify o = Some true /\
    StronglySorted (fun a b => wm_brid a <= wm_brid b) (wmark o) /\
    Permutation (wmark o) (map wm_init (List.filter is_fhsm Demo.branches)).
Proof.
  apply (au_fhsm_creates_table (Demo.world0 tt) demo_name 3 Demo.branches);
    [reflexivity|reflexivity|simpl; lia].
Defined.



Lemma au_fhsm_load_published_witness :
  exists w', au_fhsm_load demo_name (custom_world [1; 3])
      = (Ret (Some (custom_table [1; 3])), w') /\
    w_shm w' = w_shm (custom_world [1; 3]) /\ w_fds w' = w_fds (custom_world [1; 3]).
Proof.
  apply (au_fhsm_load_published (custom_world [1; 3]) demo_name
           (Aufhsm (replicate 8 NUL) 0 2 (map custom [1; 3])));
    [reflexivity|simpl; lia|reflexivity|reflexivity|reflexivity|vm_compute; reflexivity].
Defined.

Lemma fhsm_expand_within_page_witness :
  exists p' w',
    fhsm_expand (Ptr demo_name 4096) 3 (custom_world [1; 3]) = (Ret (0, p'), w') /\
    ptr_name p' = demo_name.
Proof.
  destruct (fhsm_expand_within_page (custom_world [1; 3]) (Ptr demo_name 4096)
              (custom_table [1; 3]) 3) as (p' & w' & H1 & H2 & _);
    [reflexivity|vm_compute; reflexivity|vm_compute; reflexivity|vm_compute; lia
    |vm_compute; discriminate|].
  exists p', w'. split; [exact H1|exact H2].
Defined.

Lemma fhsm_expand_beyond_page_witness :
  (fhsm_expand (Ptr demo_name 4096) 300 (custom_world [1; 3])).1
    = Ub "write beyond the mapping".
Proof.
  apply (fhsm_expand_beyond_page _ _ (custom_table [1; 3]));
    [reflexivity|vm_compute; reflexivity|vm_compute; reflexivity].
Defined.

(** fhsm_invalid() frees exactly the entries whose branch has vanished: other
    entries are untouched, and the returned number is that of the free entries
    (among the first [n]) it leaves. *)
Theorem fhsm_invalid_correct l n br :
  (n <= length l)%nat ->
  let '(err, l') := fhsm_invalid l n br in
  length l' = length l /\
  (forall i wm, l !! i = Some wm ->
     l' !! i = Some (if decide ((i < n)%nat /\ 0 <= wm_brid wm /\
                                ~ in_branches br (wm_brid wm))
                     then set_brid (-1) wm else wm)) /\
  err = Z.of_nat (length (List.filter (fun wm => wm_brid wm <? 0) (take n l'))).
Proof.
  intros Hn. pose proof (fhsm_invalid_length l n br) as H1.
  pose proof (fhsm_invalid_count l n br Hn) as H2.
  pose proof (fhsm_invalid_lookup l n br) as H3.
  destruct (fhsm_invalid l n br) as [err l']. cbn [fst snd] in *.
  split; [done|]. split; [|done]. intros i wm Hi. rewrite (H3 i wm Hi). f_equal.
  case_decide as Hd; rewrite <- existsb_branch in Hd.
  - destruct Hd as (Hlt & H0 & Hb). rewrite bool_decide_true by done.
    rewrite (proj2 (Z.ltb_ge _ _)) by done.
    by destruct (existsb (fun b => wm_brid wm =? bi_id b) br).
  - case_bool_decide; [|done]. destruct (wm_brid wm <? 0) eqn:E; [done|]. bool_lia.
    destruct (existsb (fun b => wm_brid wm =? bi_id b) br); [done|]. exfalso. naive_solver lia.
Qed.

Lemma fhsm_invalid_correct_witness :
  exists err l', fhsm_invalid (map custom [1; 7]) 2 Demo.branches = (err, l') /\
    length l' = 2%nat /\
    err = Z.of_nat (length (List.filter (fun wm => wm_brid wm <? 0) (take 2 l'))).
Proof.
  pose proof (fhsm_invalid_correct (map custom [1; 7]) 2 Demo.branches
                ltac:(vm_compute; lia)) as H.
  destruct (fhsm_invalid (map custom [1; 7]) 2 Demo.branches) as [err l'].
  exists err, l'. destruct H as (H1 & _ & H2). repeat split; assumption.
Defined.

(** fhsm_reinit() gives every FHSM branch an entry whenever the table has
    enough free ones: it never takes the error exit, every FHSM branch ends up with
    an entry, and the entries in use stay as they are. *)
Theorem fhsm_reinit_complete l prev br :
  ids_nonneg br ->
  (length (List.filter (missing l) br) <= count_brid (-1) l)%nat ->
  exists l', fhsm_reinit l (length l) prev br = Some l' /\
    (forall b, b ∈ br -> is_fhsm b = true -> has_brid (bi_id b) l') /\
    (forall i wm, l !! i = Some wm -> wm_brid wm <> -1 -> l' !! i = Some wm).
Proof.
  intros Hid Hc. destruct (reinit_spec l prev br Hid Hc) as (l' & H1 & [_ H2] & H3).
  by exists l'.
Qed.

Lemma fhsm_reinit_complete_witness :
  exists l', fhsm_reinit [custom 1; custom (-1)] 2 None Demo.branches = Some l' /\
    (forall b, b ∈ Demo.branches -> is_fhsm b = true -> has_brid (bi_id b) l').
Proof.
  destruct (fhsm_reinit_complete [custom 1; custom (-1)] None Demo.branches)
    as (l' & H1 & H2 & _).
  - repeat constructor; simpl; lia.
  - vm_compute. lia.
  - exists l'. split; [exact H1|exact H2].
Defined.

(** The loops over the branches stop after [nfhsm] branches although the
    array also lists the branches without the FHSM attribute: on the mount
    rw+fhsm, ro, rw+fhsm a second run of the controller succeeds and drops the
    settings of the last branch, which stays without any watermark. *)
Theorem rerun_forgets_late_branch :
  let run := au_fhsm demo_name (au_nfhsm 3 Demo.branches) 3 Demo.branches
               (custom_world [1; 3]) in
  (exists p, run.1 = Ret (0, 3, Some p)) /\
  has_brid 3 (wmark (custom_table [1; 3])) /\
  exists o, w_shm run.2 !! demo_name = Some o /\ nwmark o = 2 /\
    ~ has_brid 3 (wmark o).
Proof.
  cbv zeta. split; [eexists; vm_compute; reflexivity|]. split.
  - exists (custom 3). split; [vm_compute; right; left|reflexivity].
  - eexists. split; [vm_compute; reflexivity|]. split; [reflexivity|].
    intros (wm & Hw & Hb). simpl in Hw. set_unfold in Hw. naive_solver.
Qed.

(** When a branch is removed, the table is cut before the vanished entries
    are looked for, so the entry of the branch with the highest id is lost even if
    that branch is still there: it gets a copy of another branch's settings. *)
Theorem shrink_loses_highest_branch :
  let settings := published (Aufhsm (replicate 8 NUL) 0 3
                    [wm_init (Brinfo 1 0x21 []); wm_init (Brinfo 2 0x21 []); custom 3]) in
  let br := [Brinfo 2 0x21 (lit "/b2"); Brinfo 3 0x21 (lit "/b3")] in
  let run := au_fhsm demo_name (au_nfhsm 2 br) 2 br
               (set_shm {[ demo_name := settings ]} (Demo.world0 tt)) in
  custom 3 ∈ wmark settings /\
  exists o, w_shm run.2 !! demo_name = Some o /\
    wmark o = map wm_init br.
Proof.
  cbv zeta. split; [vm_compute; right; right; left|].
  eexists. split; vm_compute; reflexivity.
Qed.

(** ** Frame facts *)

Section fhsm_pres.
Context {K G : Type} `{!AufsKernel K} (P : G -> list Z -> Prop).
Notation glob_inv := (@glob_inv K G P).

Lemma pres_shm_table p : preserves glob_inv (shm_table p).
Proof. unfold shm_table. pres. Qed.
Lemma pres_munmap : preserves glob_inv munmap.
Proof. unfold munmap. pres. Qed.
#[local] Hint Resolve pres_shm_table pres_munmap : pres.
Lemma pres_fhsm_map name : preserves glob_inv (fhsm_map name).
Proof. unfold fhsm_map. pres. Qed.
#[local] Hint Resolve pres_fhsm_map : pres.
Lemma pres_au_fhsm_load name : preserves glob_inv (au_fhsm_load name).
Proof. unfold au_fhsm_load. pres. Qed.
End fhsm_pres.
#[export] Hint Resolve pres_au_fhsm_load : pres.
