(* ===== verification/FhsmDump.v ===== *)
(** * fhsm/fhsm.c: au_fhsm_dump(), what the controller shows of the table

    printf("%.2f") of a binary32 value is exact: the value is a fraction, which is rounded
    to the nearest hundredth, to the even one in the middle.  The percentages shown are
    computed from the free ratios in single precision. *)
From S2P Require Import Prelude CString LibcSort Float32 Scan AufsType FhsmData Sys Br Shm Fhsm.
From S2P Require Import AuUtil.
From Stdlib Require Import Floats.SpecFloat.

(** [n / d] to the nearest integer, ties to even *)
Definition round_half_even (n d : Z) : Z :=
  let q := n / d in
  let r := n mod d in
  if (2 * r <? d) || ((2 * r =? d) && Z.even q) then q else q + 1.

Definition fmt_hundredths (z : Z) : bytes :=
  fmt_u (z / 100) ++ lit "." ++ pad_left 2 (fmt_u (z mod 100)).

(** "%.2f"; the sign of a NaN is left out. *)
Definition fmt_2f (b : Z) : bytes :=
  let sgn (s : bool) := if s then lit "-" else [] in
  match f32_decode b with
  | S754_zero s => sgn s ++ lit "0.00"
  | S754_infinity s => sgn s ++ lit "inf"
  | S754_nan => lit "nan"
  | S754_finite s m e =>
      sgn s ++ fmt_hundredths (if 0 <=? e then Z.pos m * 2 ^ e * 100
                               else round_half_even (Z.pos m * 100) (2 ^ (- e)))
  end.

(** [(1 - x) * 100] *)
Definition used_percent (x : Z) : Z := f32_mul (f32_sub (f32_of_Z 1) x) (f32_of_Z 100).

Definition fmt_wmark (a : Z * Z) : bytes :=
  fmt_2f (used_percent a.1) ++ lit "-" ++ fmt_2f (used_percent a.2).

Definition dump_line (b : aufs_brinfo) (wm : aufhsm_wmark) : bytes :=
  bi_path b ++ lit ", " ++ fmt_d (bi_id b) ++ lit ", " ++ fmt_wmark (wm_block wm) ++ lit " "
  ++ fmt_wmark (wm_inode wm) ++ newline.
Definition dump_head (mntpnt : bytes) (n : Z) : bytes :=
  mntpnt ++ lit ", " ++ fmt_d n ++ lit " watermark(s)" ++ newline.

Section dump.
Context {K G : Type}.
Notation world := (world K G).

(** The loop over the branches *)
Fixpoint dump_loop (p : fhsm_ptr) (brinfo : list aufs_brinfo) : M world unit :=
  match brinfo with
  | [] => mret tt
  | b :: r =>
      o ← shm_table p;
      match au_wm_search_brid (bi_id b) o with
      | Some i =>
          match wmark o !! i with
          | Some wm => print (dump_line b wm) ;; dump_loop p r
          | None => ub "watermark outside the table"
          end
      | None => dump_loop p r
      end
  end.

Definition au_fhsm_dump (mntpnt : bytes) (p : fhsm_ptr) (brinfo : list aufs_brinfo) (nbr : Z)
  : M world unit :=
  o ← shm_read p;
  print (dump_head mntpnt (nwmark o)) ;;
  dump_loop p (take (Z.to_nat nbr) brinfo).

(** What should be shown: a line for each branch that the table has an element of. *)
Definition shown (o : aufhsm) (b : aufs_brinfo) : list bytes :=
  match find (fun wm => wm_brid wm =? bi_id b) (take (Z.to_nat (nwmark o)) (wmark o)) with
  | Some wm => [dump_line b wm]
  | None => []
  end.
End dump.

(** ** Properties *)

Section props.
Context {K G : Type}.
Notation world := (world K G).

Lemma search_find (o : aufhsm) brid :
  let l := take (Z.to_nat (nwmark o)) (wmark o) in
  StronglySorted (fun a b => wm_brid a <= wm_brid b) l -> NoDup (map wm_brid l) ->
  match au_wm_search_brid brid o with
  | Some i => exists wm, wmark o !! i = Some wm /\ find (fun wm => wm_brid wm =? brid) l = Some wm
  | None => find (fun wm => wm_brid wm =? brid) l = None
  end.
Proof.
  intros l Hs Hd. unfold au_wm_search_brid. fold l. destruct (bsearch _ l) as [i|] eqn:E.
  - apply bsearch_sound in E as (wm & Hi & H0). unfold au_wm_bsearch_brid in H0.
    exists wm. split; [by apply lookup_take_Some in Hi as [? _]|].
    destruct (find _ l) as [wm'|] eqn:Ef.
    + apply find_some in Ef as [Hin' Hb]. apply Z.eqb_eq in Hb.
      apply list_elem_of_In, list_elem_of_lookup in Hin' as [j Hj]. f_equal.
      assert (j = i) as ->; [|congruence].
      eapply (NoDup_lookup (map wm_brid l)); [done| |]; rewrite list_lookup_fmap.
      * by rewrite Hj.
      * rewrite Hi. cbn. f_equal. lia.
    + apply list_elem_of_lookup_2, list_elem_of_In in Hi. pose proof (find_none _ _ Ef _ Hi) as Hn.
      apply Z.eqb_neq in Hn. lia.
  - apply bsearch_complete in E; [|by apply key_ordered_sub].
    destruct (find _ l) as [wm|] eqn:Ef; [|done]. apply find_some in Ef as [Hin Hb].
    rewrite Forall_forall in E. apply list_elem_of_In, E in Hin.
    unfold au_wm_bsearch_brid in Hin. apply Z.eqb_eq in Hb. lia.
Qed.

Lemma dump_loop_run p o br (w : world) :
  let l := take (Z.to_nat (nwmark o)) (wmark o) in
  StronglySorted (fun a b => wm_brid a <= wm_brid b) l -> NoDup (map wm_brid l) ->
  w_shm w !! ptr_name p = Some o -> au_fhsm_size (nwmark o) <= ptr_len p ->
  dump_loop p br w = (Ret tt, set_out (w_out w ++ concat (map (shown o) br)) w).
Proof.
  intros l Hs Hd Ho Hl. revert w Ho. induction br as [|b br IH]; intros w Ho; simpl.
  - rewrite app_nil_r. by destruct w.
  - rewrite (bind_run _ _ _ _ _ (shm_table_run w p o Ho Hl)).
    pose proof (search_find o (bi_id b) Hs Hd) as Hf. unfold shown at 1.
    destruct (au_wm_search_brid _ o) as [i|].
    + destruct Hf as (wm & -> & ->). unfold print. rewrite bind_modify.
      rewrite IH by done. destruct w. cbn. by rewrite <- app_assoc.
    + rewrite Hf. by apply IH.
Qed.

(** C13. What au_fhsm_dump() shows: the number of watermarks, and then, in the order of the
    branches, one line for each branch that the table has an element of, with the
    percentages of that very element; nothing else changes.  The table is the one that
    au_fhsm() leaves: sorted, each branch once. *)
Theorem dump_shows_table mntpnt p o br nbr (w : world) :
  let l := take (Z.to_nat (nwmark o)) (wmark o) in
  StronglySorted (fun a b => wm_brid a <= wm_brid b) l -> NoDup (map wm_brid l) ->
  w_shm w !! ptr_name p = Some o -> au_fhsm_size (nwmark o) <= ptr_len p ->
  au_fhsm_dump mntpnt p br nbr w =
    (Ret tt, set_out (w_out w ++ dump_head mntpnt (nwmark o) ::
                      concat (map (shown o) (take (Z.to_nat nbr) br))) w).
Proof.
  intros l Hs Hd Ho Hl. unfold au_fhsm_dump, shm_read.
  rewrite bind_assoc, bind_gets, Ho, bind_ret. unfold print. rewrite bind_modify.
  rewrite (dump_loop_run p o) by done. destruct w. cbn. by rewrite <- app_assoc.
Qed.
End props.

(** *** The watermarks that were set are the ones that are shown *)

Definition table1 : aufhsm :=
  Aufhsm AUFHSM_MAGIC 0 2 [Wmark 1 (F32_0_25, F32_0_5) (F32_1, F32_1);
                           Wmark 3 (f32_of_ratio false 1 10, F32_0_5) (F32_1, F32_1)].
Definition dump_world : world unit unit := set_shm (<[lit "/t" := table1]> ∅) (Demo.world0 tt).

Lemma dump_shows_table_witness :
  au_fhsm_dump (lit "/a") (Ptr (lit "/t") 4096)
      [Brinfo 3 0 (lit "/b3"); Brinfo 2 0 (lit "/b2"); Brinfo 1 0 (lit "/b1")] 3 dump_world =
    (Ret tt, set_out [clit "/a, 2 watermark(s)\n"; clit "/b3, 3, 90.00-50.00 0.00-0.00\n";
                      clit "/b1, 1, 75.00-50.00 0.00-0.00\n"] dump_world).
Proof.
  rewrite (dump_shows_table (lit "/a") (Ptr (lit "/t") 4096) table1).
  - vm_compute. reflexivity.
  - vm_compute. repeat constructor; discriminate.
  - vm_compute. repeat constructor; set_solver.
  - reflexivity.
  - vm_compute. discriminate.
Defined.
