(* ===== verification/FhsmList.v ===== *)
(** * fhsm/list.c: the list of files to move down

    The list-file of a branch is a sequence of NUL-terminated records
    "<atime> <blocks> <path>", processed from its end.  A second file keeps the
    records whose move failed. *)
From S2P Require Import Prelude CString AufsType FhsmData Sys Shm.

(** [struct au_fname]: the strings that start at its three pointers. *)
Record au_fname := Fname {
  fn_atime : bytes;
  fn_sz : bytes;
  fn_name : bytes;
  fn_len : Z
}.

#[export] Instance au_fname_eq_dec : EqDecision au_fname.
Proof. solve_decision. Defined.

(** The program's [static char *list_dir], wherever its globals keep it. *)
Class ListDir (G : Type) := {
  list_dir : G -> option bytes;
  with_list_dir : option bytes -> G -> G;
  list_dir_with d g : list_dir (with_list_dir d g) = d
}.

(** au_fname_one(): the last record of the first [len] bytes of [o]; [None] is
    AuLogFin, when a separator is missing. *)
Definition au_fname_one (o : bytes) (len : nat) : option au_fname :=
  let '(atime, flen) :=
    match memrchr o NUL (len - 1) with
    | Some i => (S i, (len - i - 1)%nat)
    | None => (O, len)
    end in
  let a := cstr (drop atime o) in
  i ← strchr a " "%char;
  let sz := drop (S i) a in
  j ← strchr sz " "%char;
  Some (Fname a sz (drop (S j) sz) (i32 (Z.of_nat flen))).

(** The copying loop of move_failed(): the records of [o] from the last one, with
    [left] bytes still to copy.  The mapping is zero beyond the file. *)
Fixpoint rev_records (fuel : nat) (o : bytes) (left : Z) : bytes :=
  match fuel with
  | O => []
  | S k =>
      if 0 <? left then
        let src := match memrchr o NUL (Z.to_nat left) with
                   | Some i => S i
                   | None => O
                   end in
        let rec := cstr (drop src o) ++ [NUL] in
        rec ++ rev_records k o (left - Z.of_nat (length rec))
      else []
  end.

Section list.
Context {K G : Type} `{!AufsKernel K} `{!ListDir G}.
Notation world := (world K G).

Definition au_list_dir : M world (option bytes) :=
  gets (fun w => list_dir (w_glob w)).

Definition set_list_dir (d : option bytes) : M world unit :=
  modify (fun w => set_glob (with_list_dir d (w_glob w)) w).

(** [is_dir]: what stat(2) says of [dir].  A path that is not a directory is
    reported, and set all the same. *)
Definition au_list_dir_set (dir : option bytes) (need_ck is_dir : bool) : M world Z :=
  match dir with
  | None | Some [] => put_errno EINVAL ;; mret (-1)
  | Some _ =>
      if negb need_ck then set_list_dir dir ;; mret 0
      else
        err ← fallible; (* access *)
        if truth err then mret err
        else
          err ← fallible; (* stat *)
          if truth err then mret err
          else
            err ← (if is_dir then mret 0 else put_errno ENOTDIR ;; mret (-1));
            set_list_dir dir ;; mret err
  end.

(** The directory in which the system keeps POSIX shared memory. *)
Definition au_list_dir_def (shm_root : bytes) (st_size : nat)
  : M world (option (list (option ascii))) :=
  let name := lit "/aufs-dummy" in
  fd ← shm_open name (Z.lor O_RDWR O_CREAT);
  if fd <? 0 then mret None
  else
    dir ← au_shm_dir shm_root st_size fd;
    err ← shm_unlink name;
    mret (if truth err then None else dir).

(** ** Moving the failed records back *)

(** The path after a short or failed write of [rev]. *)
Definition move_failed_ssz (listfd failfd : Z) (rev : bytes) (ssz : Z) : M world unit :=
  if 0 <? ssz then
    let n := Z.to_nat ssz in
    if (2 * n <=? length rev)%nat then
      match memrchr (drop n rev) NUL n with
      | None => ub "arithmetic on a null pointer"
      | Some k =>
          off ← lseek_ failfd 2 (Z.of_nat k); (* -(rev + ssz - succeeded) *)
          if off =? -1 then mret tt
          else _ ← ftruncate_ listfd off; mret tt
      end
    else ub "memrchr beyond the buffer"
  else mret tt.

Definition move_failed (listfd failfd : Z) : M world Z :=
  err ← fallible; (* fstat *)
  if truth err then mret err
  else
    o ← file_of failfd;
    let size := length o in
    if (size =? 0)%nat then mret 0
    else
      m ← fallible; (* mmap *)
      if truth m then mret (-1)
      else
        a ← fallible; (* malloc *)
        err ← (if truth a then mret (-1)
               else
                 let body := rev_records size o (i32 (Z.of_nat size - 1)) in
                 if (size <? length body)%nat then ub "copy beyond the buffer"
                 else if negb (length body =? size)%nat then log_fin
                 else
                   let rev := NUL :: body in
                   ssz ← write_ listfd rev;
                   if ssz =? Z.of_nat size + 1 then ftruncate_ failfd 0
                   else move_failed_ssz listfd failfd rev ssz ;; mret (-1));
        _ ← fallible; (* munmap *)
        mret err.

(** ** Running the external lister *)

Definition run_cmd (branch dir name : bytes) : M world Z :=
  err ← fallible; (* sigprocmask *)
  if truth err then mret err
  else
    pid ← fork_;
    err ← (if pid =? 0 then
             err ← fallible; (* fchdir *)
             if truth err then log_fin else exit_ 0 (* execve *)
           else if 0 <? pid then
             '(status, content) ← kernel (k_list_cmd branch);
             modify (fun w => set_files
               (<[dir ++ lit "/" ++ name := content]> (w_files w)) w) ;;
             waited ← waitpid_ pid;
             mret (if waited =? pid then status else -1)
           else mret pid);
    _ ← fallible; (* sigprocmask *)
    mret err.

(** au_list(): the status, [*listfd] and [*failfd] ([None] when not assigned).
    [name] is a buffer of 64 bytes. *)
Definition au_list (prog : bytes) (brfd : Z) : M world (Z * option Z * option Z) :=
  '(err, name) ← au_shm_name prog brfd 64;
  if truth err then mret (err, None, None)
  else
    dir ← au_list_dir;
    match dir with
    | None => mret (err, None, None)
    | Some dir =>
        dirfd ← open_ dir;
        if dirfd <? 0 then mret (err, None, None)
        else
          let base := drop 1 name in
          let out_dirfd (r : Z * option Z * option Z) : M world _ :=
            close_keep dirfd ;; mret r in
          listfd ← open_creat (dir ++ lit "/" ++ base);
          if listfd <? 0 then out_dirfd (listfd, Some listfd, None)
          else if (64 <? Z.of_nat (length name) + 8) then ub "strcpy beyond name[64]"
          else
            failfd ← open_creat (dir ++ lit "/" ++ base ++ lit "-failed");
            if failfd <? 0 then
              close_keep listfd ;; out_dirfd (failfd, Some listfd, Some failfd)
            else
              let out_failfd (err : Z) : M world _ :=
                close_keep failfd ;; close_keep listfd ;;
                out_dirfd (err, Some listfd, Some failfd) in
              err ← fallible; (* fstat *)
              if truth err then out_failfd err
              else
                c ← file_of listfd;
                if (0 <? length c)%nat then
                  err ← move_failed listfd failfd;
                  if truth err then out_failfd err
                  else mret (0, Some listfd, Some failfd)
                else
                  br ← fd_what brfd;
                  err ← run_cmd br dir base;
                  if truth err then out_failfd err
                  else out_dirfd (0, Some listfd, Some failfd)
    end.

(** Appending a record to failfd. *)
Definition au_fname_failed (fname : au_fname) (failfd : Z) : M world Z :=
  let rec := fn_atime fname ++ [NUL] in
  let l := Z.of_nat (length rec) in
  ssz ← write_ failfd rec;
  if ssz =? l then mret 0
  else
    e ← gets w_errno;
    (if 0 <? ssz then
       off ← lseek_ failfd 2 (- ssz); (* lseek(failfd, SEEK_END, -ssz) *)
       if off =? -1 then mret tt
       else _ ← ftruncate_ failfd off; mret tt
     else mret tt) ;;
    put_errno e ;; mret (-1).
End list.

(** ** Records and lists of records *)

(** The line that aufhsm-list prints for a file. *)
Definition fmt_record (atime sz name : bytes) : bytes :=
  atime ++ " "%char :: sz ++ " "%char :: name.

Definition records_bytes (recs : list bytes) : bytes :=
  concat (map (fun r => r ++ [NUL]) recs).

Definition record_ok (r : bytes) : Prop := r <> [] /\ NUL ∉ r.

Lemma records_bytes_app l1 l2 :
  records_bytes (l1 ++ l2) = records_bytes l1 ++ records_bytes l2.
Proof. unfold records_bytes. by rewrite map_app, concat_app. Qed.

Lemma records_bytes_snoc l r : records_bytes (l ++ [r]) = records_bytes l ++ r ++ [NUL].
Proof. rewrite records_bytes_app. unfold records_bytes. simpl. by rewrite app_nil_r. Qed.

(** Looking back from the end of a list of records, the last NUL is the one
    before the last record. *)
Lemma last_nul_records recs r :
  NUL ∉ r ->
  match last_idx NUL (records_bytes recs ++ r) with
  | Some i => S i = length (records_bytes recs)
  | None => recs = []
  end.
Proof.
  intros Hr. destruct recs as [|x recs _] using rev_ind.
  - simpl. by rewrite (proj2 (last_idx_None NUL r)).
  - rewrite records_bytes_snoc, <- !app_assoc. simpl.
    rewrite app_assoc. rewrite last_idx_app by done.
    rewrite !length_app. simpl. lia.
Qed.

(** The offset at which memrchr() makes the last record start. *)
Lemma memrchr_start recs r rest :
  NUL ∉ r ->
  match memrchr (records_bytes recs ++ r ++ rest) NUL
          (length (records_bytes recs) + length r) with
  | Some i => S i
  | None => O
  end = length (records_bytes recs).
Proof.
  intros Hr. unfold memrchr.
  rewrite app_assoc, take_app_length' by (rewrite length_app; lia).
  pose proof (last_nul_records recs r Hr). destruct (last_idx _ _); [done|]. by subst.
Qed.

Lemma rev_records_spec recs done_ fuel :
  Forall record_ok recs -> (length recs <= fuel)%nat ->
  rev_records fuel (records_bytes (recs ++ done_))
    (Z.of_nat (length (records_bytes recs)) - 1) = records_bytes (rev recs).
Proof.
  revert recs done_; induction fuel as [|k IH]; intros recs d H Hf.
  { destruct recs; [done|simpl in Hf; lia]. }
  destruct recs as [|r recs _] using rev_ind; [done|].
  apply Forall_app in H as [H (Hne & Hr)%Forall_singleton].
  rewrite length_app in Hf. simpl in Hf.
  cbn [rev_records].
  assert (Z.of_nat (length (records_bytes (recs ++ [r]))) - 1
          = Z.of_nat (length (records_bytes recs) + length r)) as ->
    by (rewrite records_bytes_snoc, !length_app; simpl; lia).
  rewrite (proj2 (Z.ltb_lt _ _)) by (destruct r; [done|simpl; lia]).
  rewrite Nat2Z.id.
  assert (records_bytes ((recs ++ [r]) ++ d)
          = records_bytes recs ++ r ++ NUL :: records_bytes d) as E
    by (rewrite records_bytes_app, records_bytes_snoc, <- !app_assoc; done).
  rewrite E. cbv zeta. rewrite memrchr_start by done. rewrite drop_app_length.
  rewrite cstr_app by done. rewrite <- E, <- (app_assoc recs [r] d).
  rewrite rev_app_distr. simpl (rev [r]). 
  replace (Z.of_nat (length (records_bytes recs) + length r)
           - Z.of_nat (length (r ++ [NUL])))
    with (Z.of_nat (length (records_bytes recs)) - 1)
    by (rewrite length_app; simpl; lia).
  rewrite IH by (done || lia). done.
Qed.

Lemma records_bytes_length_rev recs :
  length (records_bytes (rev recs)) = length (records_bytes recs).
Proof.
  induction recs as [|r recs IH]; [done|].
  simpl (rev _). rewrite records_bytes_snoc, length_app, IH.
  unfold records_bytes. simpl. rewrite !length_app. simpl. lia.
Qed.

Lemma records_bytes_count recs : (length recs <= length (records_bytes recs))%nat.
Proof.
  induction recs as [|r recs IH]; [done|]. unfold records_bytes in *. simpl.
  rewrite !length_app. simpl. lia.
Qed.

(** ** Properties *)

Lemma fname_one_record recs atime sz name :
  NUL ∉ fmt_record atime sz name -> " "%char ∉ atime -> " "%char ∉ sz ->
  Z.of_nat (length (fmt_record atime sz name)) < 2 ^ 31 - 1 ->
  let o := records_bytes (recs ++ [fmt_record atime sz name]) in
  au_fname_one o (length o) =
    Some (Fname (fmt_record atime sz name) (sz ++ " "%char :: name) name
            (Z.of_nat (length (fmt_record atime sz name)) + 1)).
Proof.
  intros Hn Ha Hs Hl o. set (r := fmt_record atime sz name) in *.
  assert (o = records_bytes recs ++ r ++ [NUL]) as Eo by apply records_bytes_snoc.
  assert (length o - 1 = length (records_bytes recs) + length r)%nat as El
    by (rewrite Eo, !length_app; simpl; lia).
  unfold au_fname_one. rewrite El. rewrite Eo at 1.
  pose proof (memrchr_start recs r [NUL] Hn) as Hm. rewrite <- Eo in Hm |- *.
  set (m := memrchr _ _ _) in *.
  assert (match m with
          | Some i => (S i, (length o - i - 1)%nat) | None => (O, length o)
          end = (length (records_bytes recs), S (length r))) as ->.
  { destruct m as [i|]; f_equal; try done; rewrite Eo, !length_app; simpl; lia. }
  rewrite Eo, drop_app_length, cstr_app by done.
  assert (strchr r " "%char = Some (length atime)) as E1
    by (unfold strchr, r, fmt_record; by apply first_idx_app).
  assert (drop (S (length atime)) r = sz ++ " "%char :: name) as E2.
  { unfold r, fmt_record. by rewrite cons_middle, app_assoc, drop_app_length'
      by (rewrite length_app; simpl; lia). }
  assert (strchr (sz ++ " "%char :: name) " "%char = Some (length sz)) as E3
    by (by apply first_idx_app).
  cbv zeta. rewrite E1. simpl. rewrite E2, E3. simpl.
  rewrite (cons_middle _ sz), (app_assoc sz), drop_app_length'
    by (rewrite length_app; simpl; lia).
  do 2 f_equal. unfold i32. rewrite wrap_s_small by lia. lia.
Qed.

(** au_fname_one() reads back the last record of any list: the three fields of
    the line that the lister printed (a path may contain blanks), and the number
    of bytes by which the list shrinks. *)
Theorem fname_one_last recs atime sz name :
  NUL ∉ fmt_record atime sz name -> " "%char ∉ atime -> " "%char ∉ sz ->
  Z.of_nat (length (fmt_record atime sz name)) < 2 ^ 31 - 1 ->
  let o := records_bytes (recs ++ [fmt_record atime sz name]) in
  au_fname_one o (length o) =
    Some (Fname (fmt_record atime sz name) (sz ++ " "%char :: name) name
            (Z.of_nat (length (fmt_record atime sz name)) + 1)).
Proof. apply fname_one_record. Qed.

(** An empty record stops the daemon: when the last record of a non-empty list is
    empty, no field separator is found and au_fname_one() ends the process. *)
Theorem fname_one_empty_record recs :
  recs <> [] -> au_fname_one (records_bytes recs ++ [NUL])
                  (length (records_bytes recs ++ [NUL])) = None.
Proof.
  intros Hne. set (o := _ ++ [NUL]).
  assert (length o - 1 = length (records_bytes recs) + length (@nil ascii))%nat as El
    by (unfold o; rewrite length_app; simpl; lia).
  unfold au_fname_one. rewrite El.
  pose proof (memrchr_start recs [] [NUL] ltac:(set_solver)) as Hm. fold o in Hm.
  simpl app in Hm. fold o in Hm.
  destruct (memrchr o NUL _) as [i|].
  - rewrite Hm. unfold o. by rewrite drop_app_length.
  - exfalso. destruct recs as [|r recs]; [done|].
    unfold records_bytes in Hm. simpl in Hm. rewrite !length_app in Hm. simpl in Hm. lia.
Qed.

Lemma fname_one_empty_record_witness :
  au_fname_one (records_bytes [lit "1 8 a"] ++ [NUL])
    (length (records_bytes [lit "1 8 a"] ++ [NUL])) = None.
Proof. apply (fname_one_empty_record [lit "1 8 a"]). discriminate. Defined.

Lemma fname_one_last_witness :
  let r := fmt_record (lit "1474848000.5") (lit "16") (lit "dir/a file") in
  let o := records_bytes ([lit "1 8 x"] ++ [r]) in
  au_fname_one o (length o) =
    Some (Fname r (lit "16 dir/a file") (lit "dir/a file")
            (Z.of_nat (length r) + 1)).
Proof.
  apply (fname_one_last [lit "1 8 x"] (lit "1474848000.5") (lit "16") (lit "dir/a file"));
    [| | |vm_compute; reflexivity]; apply (bool_decide_unpack _); vm_compute; exact I.
Defined.

Section list_props.
Context {K G : Type} `{!AufsKernel K} `{!ListDir G}.
Notation world := (world K G).

Lemma move_failed_body F :
  Forall record_ok F -> F <> [] ->
  Z.of_nat (length (records_bytes F)) < 2 ^ 31 ->
  rev_records (length (records_bytes F)) (records_bytes F)
    (i32 (Z.of_nat (length (records_bytes F)) - 1)) = records_bytes (rev F).
Proof.
  intros HF Hne Hl. unfold i32. rewrite wrap_s_small by lia.
  pose proof (rev_records_spec F [] (length (records_bytes F)) HF
                (records_bytes_count F)) as H.
  by rewrite app_nil_r in H.
Qed.

(** When no call fails, move_failed() appends all the failed records to the list, the
    last one first (so that the list's end is tried in the order of failing), and
    empties the fail-file.  It also puts one empty record between the old list and
    the failed ones. *)
Theorem move_failed_result (w : world) listfd failfd lp fp L F :
  w_faults w = [] -> w_fds w !! listfd = Some lp -> w_fds w !! failfd = Some fp ->
  lp <> fp -> w_files w !! lp = Some L -> w_files w !! fp = Some (records_bytes F) ->
  Forall record_ok F -> F <> [] -> Z.of_nat (length (records_bytes F)) < 2 ^ 31 ->
  exists w', move_failed listfd failfd w = (Ret 0, w') /\
    w_files w' !! lp = Some (L ++ NUL :: records_bytes (rev F)) /\
    w_files w' !! fp = Some [].
Proof.
  intros Hf Hl Hff Hne HL HF Hok HFne Hlen.
  pose proof (move_failed_body F Hok HFne Hlen) as Hb.
  assert (length (records_bytes F) <> 0)%nat as H0.
  { pose proof (records_bytes_count F). destruct F; [done|simpl in *; lia]. }
  unfold move_failed. rewrite (bind_run _ _ _ _ _ (fallible_ok w Hf)).
  change (truth 0) with false. cbv iota.
  rewrite (bind_run _ _ _ _ _ (file_of_run w failfd fp _ Hff HF)).
  cbv zeta. rewrite (proj2 (Nat.eqb_neq _ _) H0), Hb, records_bytes_length_rev.
  rewrite !(fallible_run w Hf). change (truth 0) with false. cbv iota.
  rewrite Nat.ltb_irrefl, Nat.eqb_refl. cbn [negb].
  rewrite (fallible_run w Hf). change (truth 0) with false. cbv iota. rewrite bind_assoc.
  rewrite (bind_run _ _ _ _ _ (write_ok w listfd lp L _ Hf Hl HL)).
  cbn [length]. rewrite records_bytes_length_rev.
  rewrite (proj2 (Z.eqb_eq _ _)) by lia. set (w1 := set_files _ w).
  assert (w_files w1 !! fp = Some (records_bytes F)) as HF1
    by (unfold w1; simpl; by rewrite lookup_insert_ne).
  rewrite (bind_run _ _ _ _ _ (ftruncate_ok w1 failfd fp _ 0 Hf Hff HF1 ltac:(lia))).
  set (w2 := set_files _ w1).
  rewrite (bind_run _ _ _ _ _ (fallible_ok w2 Hf)). exists w2. split; [done|].
  unfold w2, w1. simpl. rewrite lookup_insert_ne, !lookup_insert_eq by done. done.
Qed.

(** A partly written record is never taken back: au_fname_failed() passes
    lseek(2) its offset and whence in the wrong order, the seek fails, and the
    fragment stays at the end of the fail-file. *)
Theorem fname_failed_keeps_fragment (w : world) fname failfd fp c n r :
  w_faults w = FShort n :: r -> (0 < n <= length (fn_atime fname))%nat ->
  w_fds w !! failfd = Some fp -> w_files w !! fp = Some c ->
  exists w', au_fname_failed fname failfd w = (Ret (-1), w') /\
    w_files w' !! fp = Some (c ++ take n (fn_atime fname)) /\ w_errno w' = w_errno w.
Proof.
  intros Hf Hn Hfd Hc. unfold au_fname_failed.
  rewrite (bind_run _ _ _ _ _ (write_short w failfd fp c (fn_atime fname ++ [NUL]) n r Hf
             ltac:(rewrite length_app; simpl; lia) Hfd Hc)).
  rewrite length_app. cbn [length].
  rewrite (proj2 (Z.eqb_neq (Z.of_nat n) _)) by lia. rewrite bind_gets.
  rewrite (proj2 (Z.ltb_lt _ _)) by lia. rewrite bind_assoc.
  rewrite (bind_run _ _ _ _ _ (lseek_bad_whence _ failfd 2 (- Z.of_nat n) ltac:(lia))).
  eexists. split; [reflexivity|]. simpl. rewrite lookup_insert_eq. split; [|done].
  by rewrite take_app_le by lia.
Qed.

(** au_list() reports success without opening anything when the list directory
    cannot be opened: the status is still that of au_shm_name(), and neither
    descriptor is assigned. *)
Theorem au_list_open_dir_failure_ignored (w : world) prog brfd dir e r :
  w_faults w = FOk :: FErr e :: r -> list_dir (w_glob w) = Some dir ->
  0 < Z.of_nat (length (shm_name_str prog (k_dev (default [] (w_fds w !! brfd)))
                          (k_ino (default [] (w_fds w !! brfd))))) < 64 ->
  (au_list prog brfd w).1 = Ret (0, None, None).
Proof.
  intros Hf Hd Hn. unfold au_list, au_shm_name.
  rewrite bind_assoc, (bind_run _ _ _ _ _ (fallible_FOk w _ Hf)).
  change (truth 0) with false. cbv iota. unfold fd_what. rewrite bind_assoc, bind_gets.
  cbv zeta. simpl (w_fds _). rewrite (proj2 (Z.ltb_lt _ _)), (proj2 (Z.ltb_lt _ _)) by apply Hn.
  cbn [andb]. rewrite bind_ret. cbv beta iota. change (truth 0) with false. cbv iota.
  unfold au_list_dir. rewrite bind_gets. simpl (w_glob _). rewrite Hd.
  unfold open_. rewrite bind_assoc.
  rewrite (bind_run _ _ _ _ _ (fallible_FErr (set_faults _ w) e r eq_refl)). done.
Qed.
End list_props.

Section list_mute.
Context {K G : Type} `{!AufsKernel K} `{!ListDir G}.

Lemma mute_fname_failed fname fd :
  mute (@au_fname_failed K G fname fd) (fun r => r = 0 \/ r = -1).
Proof.
  unfold au_fname_failed. cbv zeta.
  eapply mute_bind; [apply mute_write|]. intros ssz _.
  destruct (_ =? _); [apply mute_ret; by left|].
  eapply mute_bind; [apply mute_gets|]. intros e _.
  eapply mute_bind with (R := fun _ => True).
  - destruct (0 <? ssz); [|by apply mute_ret].
    eapply mute_bind; [apply mute_lseek|]. intros off _.
    destruct (off =? -1); [by apply mute_ret|].
    eapply mute_bind; [apply mute_ftruncate|]. intros ? _. by apply mute_ret.
  - intros _ _. eapply mute_bind; [apply mute_put_errno|]. intros _ _.
    apply mute_ret. by right.
Qed.
End list_mute.
#[export] Hint Resolve mute_fname_failed : mute.

(** ** A concrete program whose only global is the list directory *)

Module ListDemo.
#[export] Instance dir_only : ListDir (option bytes) :=
  {| list_dir g := g; with_list_dir d _ := d; list_dir_with _ _ := eq_refl |}.
Definition failed : list bytes := [lit "1 8 x"; lit "2 8 y"].
Definition w1 : world unit (option bytes) :=
  World 7 [] tt (Some (lit "/run")) ∅
    (<[lit "/l" := []]> (<[lit "/f" := records_bytes failed]> ∅))
    (<[5 := lit "/l"]> (<[6 := lit "/f"]> ∅)) 7 ∅ [] [] [].
Definition fname : au_fname := Fname (lit "3 8 z") (lit "8 z") (lit "z") 6.
End ListDemo.
Import Demo ListDemo.

Lemma move_failed_result_witness :
  exists w', move_failed 5 6 ListDemo.w1 = (Ret 0, w') /\
    w_files w' !! lit "/l" = Some (NUL :: records_bytes [lit "2 8 y"; lit "1 8 x"]) /\
    w_files w' !! lit "/f" = Some [].
Proof.
  apply (move_failed_result ListDemo.w1 5 6 (lit "/l") (lit "/f") [] ListDemo.failed);
    try (vm_compute; reflexivity); try discriminate.
  repeat constructor; try discriminate;
    apply (bool_decide_unpack _); vm_compute; exact Logic.I.
Defined.

Lemma fname_failed_keeps_fragment_witness :
  exists w', au_fname_failed ListDemo.fname 6 (set_faults [FShort 3] ListDemo.w1) = (Ret (-1), w') /\
    w_files w' !! lit "/f" = Some (records_bytes ListDemo.failed ++ lit "3 8") /\
    w_errno w' = 7.
Proof.
  apply (fname_failed_keeps_fragment (set_faults [FShort 3] ListDemo.w1) ListDemo.fname 6
           (lit "/f") (records_bytes ListDemo.failed) 3 []); try reflexivity.
  apply (bool_decide_unpack _); vm_compute; exact Logic.I.
Defined.

Lemma au_list_open_dir_failure_ignored_witness :
  (au_list (lit "aufhsmd") 9 (set_faults [FOk; FErr ENOENT] ListDemo.w1)).1 = Ret (0, None, None).
Proof.
  apply (au_list_open_dir_failure_ignored (set_faults [FOk; FErr ENOENT] ListDemo.w1)
           (lit "aufhsmd") 9 (lit "/run") ENOENT []);
    try reflexivity. split; vm_compute; reflexivity.
Defined.

Section list_pres.
Context {K G : Type} `{!AufsKernel K} `{!ListDir G} (P : G -> list Z -> Prop).
Notation glob_inv := (@glob_inv K G P).

Lemma pres_fname_failed fname fd : preserves glob_inv (au_fname_failed fname fd).
Proof. unfold au_fname_failed. pres. Qed.
Lemma pres_move_failed_ssz lfd ffd rev ssz :
  preserves glob_inv (move_failed_ssz lfd ffd rev ssz).
Proof. unfold move_failed_ssz. pres. Qed.
#[local] Hint Resolve pres_move_failed_ssz : pres.
Lemma pres_move_failed lfd ffd : preserves glob_inv (move_failed lfd ffd).
Proof. unfold move_failed. pres. Qed.
#[local] Hint Resolve pres_move_failed : pres.
Lemma pres_au_list_dir : preserves glob_inv au_list_dir.
Proof. unfold au_list_dir. pres. Qed.
#[local] Hint Resolve pres_au_list_dir : pres.

(** Listing may fork, so the invariant must not depend on how many results of
    fork(2) remain. *)
Hypothesis P_fork : forall g p fs, P g (p :: fs) -> P g fs.

Lemma pres_fork : preserves glob_inv fork_.
Proof.
  intros w Hw. unfold fork_, Sys.glob_inv in *.
  destruct (w_forks w) as [|p fs] eqn:E; simpl; rewrite ?E; eauto.
Qed.
#[local] Hint Resolve pres_fork : pres.
Lemma pres_run_cmd br dir name : preserves glob_inv (run_cmd br dir name).
Proof. unfold run_cmd. pres. Qed.
#[local] Hint Resolve pres_run_cmd : pres.
Lemma pres_au_list prog brfd : preserves glob_inv (au_list prog brfd).
Proof. unfold au_list. pres. Qed.
End list_pres.
#[export] Hint Resolve pres_fname_failed : pres.
