(* ===== verification/Msg.v ===== *)
(** * fhsm/msg.c: messages from the controller to the daemon through a fifo *)
From S2P Require Import Prelude CString AufsType FhsmData Sys FhsmList.

Section msg.
Context {K G : Type} `{!AufsKernel K} `{!ListDir G}.
Notation world := (world K G).

(** The loop body runs while the clock stays before [until]: [ticks] is how often
    that test still succeeds. *)
Fixpoint wait_for_terminate (ticks : nat) : M world unit :=
  '(fhsmfd, e) ← kernel k_fhsm_fd;
  if 0 <? fhsmfd then mret tt
  else if (fhsmfd =? -1) && ((e =? EOPNOTSUPP) || (e =? EPERM)) then mret tt
  else match ticks with
       | O => mret tt
       | S k => wait_for_terminate k
       end.

Definition fifo_put (path : bytes) (msg : Z) : M world unit :=
  modify (fun w => set_fifos
    (<[path := default [] (w_fifos w !! path) ++ [msg]]> (w_fifos w)) w).

(** mknod(2) of a fifo *)
Definition mknod_fifo (path : bytes) : M world Z :=
  err ← fallible;
  if truth err then mret (-1)
  else
    old ← gets (fun w => w_fifos w !! path);
    match old with
    | Some _ => put_errno EEXIST ;; mret (-1)
    | None => modify (fun w => set_fifos (<[path := []]> (w_fifos w)) w) ;; mret 0
    end.

(** From open(2) on. *)
Definition send_fifo (ticks : nat) (a : bytes) (msg rootfd : Z) : M world Z :=
  fd ← open_ a;
  if fd <? 0 then mret fd
  else if msg =? AuFhsm_MSG_NONE then mret fd
  else
    err ← fallible; (* write *)
    if truth err then mret 1
    else
      fifo_put a msg ;;
      (if (msg =? AuFhsm_MSG_EXIT) && (0 <=? rootfd)
       then wait_for_terminate ticks else mret tt) ;;
      c ← close_ fd;
      mret (if truth c then -1 else 0).

(** au_fhsm_msg(): for AuFhsm_MSG_NONE the result is the open descriptor. *)
Definition au_fhsm_msg (ticks : nat) (name : bytes) (msg rootfd : Z) : M world Z :=
  dir ← au_list_dir;
  match dir with
  | None => mret (-1)
  | Some dir =>
      let a := dir ++ name ++ lit ".msg" in
      if 64 <=? Z.of_nat (length a) then mret (-1)
      else
        err ← mknod_fifo a;
        e ← gets w_errno;
        if truth err && negb (e =? EEXIST) then mret err
        else
          send_fifo ticks a msg rootfd
  end.
End msg.

(** ** What a message leaves in the fifo *)

Section msg_props.
Context {K G : Type} `{!AufsKernel K} `{!ListDir G}.
Notation world := (world K G).

Lemma wait_for_terminate_kern ticks (w : world) :
  exists k, wait_for_terminate ticks w = (Ret tt, set_kern k w).
Proof.
  revert w; induction ticks as [|n IH]; intros w; cbn [wait_for_terminate];
    unfold kernel, mbind, M_bind; destruct (k_fhsm_fd (w_kern w)) as [[fd e] k];
    destruct (0 <? fd); try (by exists k); destruct (_ && _); try (by exists k).
  destruct (IH (set_kern k w)) as [k' ->]. by exists k'.
Qed.

(** The path of the fifo. *)
Definition msg_path (dir name : bytes) : bytes := dir ++ name ++ lit ".msg".

Lemma wp_wait_for_terminate s ticks (w : world) (Q : unit -> world -> Prop) :
  (forall k, Q tt (set_kern k w)) -> wp s (wait_for_terminate ticks) Q w.
Proof.
  intros H. destruct (wait_for_terminate_kern ticks w) as [k E]. unfold wp. rewrite E. apply H.
Qed.

Lemma wp_send_fifo ticks a msg rootfd (w : world) :
  truth msg = true ->
  wp false (send_fifo ticks a msg rootfd) (fun r w' => r = 0 ->
    w_fifos w' !! a = Some (default [] (w_fifos w !! a) ++ [msg])) w.
Proof.
  intros Hm. unfold send_fifo. apply wp_bind. eapply wp_mute; [apply mute_open|].
  intros fd w1 (_ & _ & E1) _. destruct (Z.ltb_spec fd 0); [apply wp_ret; lia|].
  unfold truth in Hm. unfold AuFhsm_MSG_NONE.
  destruct (msg =? 0) eqn:E0; [done|].
  apply wp_bind. eapply wp_mute; [apply mute_fallible|]. intros e w2 (_ & _ & E2) _.
  destruct (truth e); [by apply wp_ret|].
  apply wp_bind, wp_modify, wp_bind. set (w3 := set_fifos _ _).
  assert (w_fifos w3 !! a = Some (default [] (w_fifos w !! a) ++ [msg])) as E3
    by (unfold w3; simpl; by rewrite lookup_insert_eq, E2, E1).
  eapply wp_mono with (Q := fun _ w' => w_fifos w' !! a = w_fifos w3 !! a).
  { destruct (_ && _); [apply wp_wait_for_terminate; done|by apply wp_ret]. }
  intros _ w4 E4. apply wp_bind. eapply wp_mute; [apply mute_close|].
  intros c w5 (_ & _ & E5) _. apply wp_ret. intros _. by rewrite E5, E4, E3.
Qed.

(** Sending succeeds only when the message was put, behind those already there. *)
Lemma au_fhsm_msg_put ticks name msg rootfd (w w' : world) dir :
  list_dir (w_glob w) = Some dir -> truth msg = true ->
  au_fhsm_msg ticks name msg rootfd w = (Ret 0, w') ->
  w_fifos w' !! msg_path dir name
    = Some (default [] (w_fifos w !! msg_path dir name) ++ [msg]).
Proof.
  intros Hd Hm Hrun. set (a := msg_path dir name).
  set (post := fun (r : Z) (w' : world) => r = 0 ->
    w_fifos w' !! a = Some (default [] (w_fifos w !! a) ++ [msg])).
  cut (wp false (au_fhsm_msg ticks name msg rootfd) post w).
  { intros Hw. by apply (wp_run _ _ _ _ _ _ Hw Hrun). }
  clear Hrun w'.
  assert (forall w2, default [] (w_fifos w2 !! a) = default [] (w_fifos w !! a) ->
    wp false (send_fifo ticks a msg rootfd) post w2) as Hsend.
  { intros w2 E2. apply (wp_mono _ _ _ _ _ (wp_send_fifo ticks a msg rootfd w2 Hm)).
    intros r w3 H ->. rewrite H by done. by rewrite E2. }
  unfold au_fhsm_msg, au_list_dir. apply wp_bind, wp_gets. rewrite Hd.
  fold (msg_path dir name). fold a. cbv zeta.
  destruct (64 <=? _); [by apply wp_ret|].
  apply wp_bind. unfold mknod_fifo.
  eapply wp_mono with (Q := fun _ w2 => default [] (w_fifos w2 !! a) = default [] (w_fifos w !! a)).
  { apply wp_bind. eapply wp_mute; [apply mute_fallible|]. intros r w1 (_ & _ & E1) _.
    destruct (truth r); [apply wp_ret; by rewrite E1|]. apply wp_bind, wp_gets. rewrite E1.
    destruct (w_fifos w !! a) eqn:Ea; apply wp_bind, wp_modify, wp_ret; simpl.
    - by rewrite E1, Ea.
    - by rewrite lookup_insert_eq. }
  intros err w2 E2. apply wp_bind, wp_gets.
  destruct (truth err) eqn:Et; cbn [andb].
  { destruct (negb _); [apply wp_ret; intros ->; done|]. apply Hsend; done. }
  apply Hsend; done.
Qed.
End msg_props.
