(* ===== verification/FhsmCtl.v ===== *)
(** * fhsm/aufhsm.c and mng_fhsm.c: the controller of FHSM, and how the mount helpers call it

    The results of the calls of getopt_long(3) and the operands that it leaves are
    arguments here; Cmdline.v computes them from [argv]. *)
From S2P Require Import Prelude CString LibcSort AufsType Float32 Scan FhsmData Sys Br Shm.
From S2P Require Import AuUtil Fhsm FhsmDump FhsmList Msg.

(** The controller's globals. *)
Record controller := Ctl { ct_list_dir : option bytes; ct_optflags : Z }.

#[export] Instance controller_list_dir : ListDir controller :=
  {| list_dir := ct_list_dir;
     with_list_dir d g := Ctl d (ct_optflags g);
     list_dir_with _ _ := eq_refl |}.

Definition OptFhsm_INODE : Z := 0.
Definition OptFhsm_RECREATE : Z := 1.
Definition OptFhsm_KILL : Z := 2.
Definition OptFhsm_QUIET : Z := 3.
Definition OptFhsm_VERBOSE : Z := 4.
Definition opt_set (f name : Z) : Z := Z.lor f (Z.shiftl 1 name).
Definition opt_test (f name : Z) : bool := truth (Z.land f (Z.shiftl 1 name)).

(** One return of getopt_long(3): the end, an option character with [optarg]. *)
Inductive getopt := GetEnd | GetOpt (c : ascii) (optarg : bytes).

(** A C string in a buffer whose bytes may be uninitialised. *)
Fixpoint init_str (b : list (option ascii)) : option bytes :=
  match b with
  | [] => None
  | None :: _ => None
  | Some c :: r => if decide (c = NUL) then Some [] else s ← init_str r; Some (c :: s)
  end.

(** The directory where the programs keep the lists, common to both [opt()]. *)
Section list_dir.
Context {K G : Type} `{!AufsKernel K} `{!ListDir G}.
Context (realpath : bytes -> option bytes) (is_dir : bytes -> bool).
Context (shm_root : bytes) (st_size : nat).
Notation world := (world K G).

Definition opt_list_dir (dir : option bytes) : M world unit :=
  '(dir, need_ck) ← (match dir with
    | Some dir =>
        match realpath dir with
        | None | Some [] => au_fin
        | Some p =>
            m ← fallible; (* strdup *)
            if truth m then au_fin else mret (p, true)
        end
    | None =>
        dir ← au_list_dir_def shm_root st_size;
        match dir with
        | None => au_fin
        | Some b => match init_str b with
                    | Some s => mret (s, false)
                    | None => ub "uninitialised directory name"
                    end
        end
    end);
  err ← au_list_dir_set (Some dir) need_ck (is_dir dir);
  if truth err then au_fin else mret tt.
End list_dir.

(** ** Watermarks on the command line *)

(** The checks of do_wmark(): [None] is AuFin with EINVAL.  The percentages become
    free ratios; comparisons with NaN are false. *)
Definition wmark_values (str : bytes) : option (Z * Z) :=
  '(upper, lower) ← sscanf_f_dash_f str;
  if f32_ltb F32_100 upper || f32_ltb upper (f32_of_Z 0)
     || f32_ltb F32_100 lower || f32_ltb lower (f32_of_Z 0)
     || f32_ltb upper lower
  then None
  else Some (f32_div (f32_sub F32_100 upper) F32_100,
             f32_div (f32_sub F32_100 lower) F32_100).

Definition do_wmark (inode : bool) (wm : aufhsm_wmark) (str : bytes) : option aufhsm_wmark :=
  a ← wmark_values str;
  Some (if inode then set_inode a wm else set_block a wm).

(** [for (i = 1; i < nwmark; i++) memcpy(wm[i].block, wm[i - 1].block, ...)] *)
Fixpoint copy_wmarks (inode : bool) (prev : aufhsm_wmark) (l : list aufhsm_wmark)
  : list aufhsm_wmark :=
  match l with
  | [] => []
  | wm :: r =>
      let wm := if inode then set_inode (wm_inode prev) wm else set_block (wm_block prev) wm in
      wm :: copy_wmarks inode wm r
  end.

Section controller.
Context {K : Type} `{!AufsKernel K}.
Context (realpath : bytes -> option bytes) (is_dir : bytes -> bool).
Context (shm_root : bytes) (st_size : nat) (env_dir : option bytes).
Context (prog : bytes).
(** The exit status of a program that is executed and waited for; how often the
    15 seconds of wait_for_terminate() let it poll. *)
Context (spawn : list bytes -> Z) (ticks : nat).
Notation world := (world K controller).

Definition optflags : M world Z := gets (fun w => ct_optflags (w_glob w)).
Definition set_opt (name : Z) : M world unit :=
  modify (fun w => set_glob (Ctl (ct_list_dir (w_glob w))
                               (opt_set (ct_optflags (w_glob w)) name)) w).

Definition usage : M world unit :=
  print (clit "Usage: " ++ prog ++ clit " [ options ] aufs_mount_point " ++
    clit "[ BranchPath=UPPER-LOWER ... ] | [ UPPER-LOWER ]\n" ++
    clit "\t-i | --inode\t\tset watermark for inode\n" ++
    clit "\t-d DIR | --dir DIR\t\tuse DIR to store the aufhsm file-list\n" ++
    clit "\t-r | --recreate\t\trecreate the data file\n" ++
    clit "\t-k | --kill\t\tkill aufhsmd\n" ++
    clit "\t-q | --quiet\n" ++
    clit "\t-v | --verbose\n" ++
    clit "\t-V | --version\n" ++
    clit "\t-h | --help\n" ++
    clit "Instead of '-d', you can use AUFHSM_LIST_DIR\n").

(** The loop of opt(): at most [argc - 1] calls. *)
Fixpoint opt_loop (n : nat) (calls : list getopt) (dir : option bytes) : M world (option bytes) :=
  match n, calls with
  | S k, GetOpt c optarg :: r =>
      if decide (c = "i"%char) then set_opt OptFhsm_INODE ;; opt_loop k r dir
      else if decide (c = "d"%char) then opt_loop k r (Some optarg)
      else if decide (c = "r"%char) then set_opt OptFhsm_RECREATE ;; opt_loop k r dir
      else if decide (c = "k"%char) then set_opt OptFhsm_KILL ;; opt_loop k r dir
      else if decide (c = "q"%char) then set_opt OptFhsm_QUIET ;; opt_loop k r dir
      else if decide (c = "v"%char) then set_opt OptFhsm_VERBOSE ;; opt_loop k r dir
      else if decide (c = "V"%char) then print (version_text prog) ;; exit_ 0
      else if decide (c = "h"%char \/ c = "?"%char) then usage ;; exit_ 0
      else exit_ EINVAL
  | _, _ => mret dir
  end.

Definition opt (argc : nat) (calls : list getopt) : M world unit :=
  dir ← opt_loop (argc - 1) calls env_dir;
  opt_list_dir realpath is_dir shm_root st_size dir.

Definition wmark_arg (str : bytes) (p : fhsm_ptr) (nbr : Z) (brinfo : list aufs_brinfo)
  : M world unit :=
  flags ← optflags;
  let inode := opt_test flags OptFhsm_INODE in
  let bad : M world unit := put_errno EINVAL ;; au_fin in
  match strrchr str "="%char with
  | Some i =>
      match au_br_search_path (take i str) nbr brinfo with
      | Some b =>
          o ← shm_table p;
          match au_wm_lfind (bi_id b) (wmark o) (Z.to_nat (nwmark o)) with
          | Some k =>
              match wmark o !! k with
              | Some wm =>
                  match do_wmark inode wm (drop (S i) str) with
                  | Some wm => shm_write p (set_wmark (<[k := wm]> (wmark o)) o)
                  | None => bad
                  end
              | None => ub "watermark outside the table"
              end
          | None => mret tt
          end
      | None => put_errno 0 ;; au_fin
      end
  | None =>
      o ← shm_table p;
      match wmark o with
      | wm :: r =>
          match do_wmark inode wm str with
          | Some wm =>
              let n := Z.to_nat (nwmark o - 1) in
              shm_write p (set_wmark (wm :: copy_wmarks inode wm (take n r) ++ drop n r) o)
          | None => bad
          end
      | [] => ub "watermark outside the table"
      end
  end.

Fixpoint wmark_args (args : list bytes) (p : fhsm_ptr) (nbr : Z) (brinfo : list aufs_brinfo)
  : M world unit :=
  match args with
  | [] => mret tt
  | a :: r => wmark_arg a p nbr brinfo ;; wmark_args r p nbr brinfo
  end.

(** fork(2), execve(2) in the child, waitpid(2) in the parent. *)
Definition run_program (av : list bytes) (fail_exec : M world Z) : M world Z :=
  pid ← fork_;
  if pid =? 0 then
    e ← fallible; (* execve *)
    if truth e then fail_exec else exit_ (spawn av)
  else if 0 <? pid then
    waited ← waitpid_ pid;
    mret (if waited =? pid then u8 (spawn av) else -1)
  else mret pid.

Definition fhsmd_argv (dir mntpnt : bytes) (verbose : bool) : list bytes :=
  [lit "aufhsmd"; lit "--dir"; dir]
  ++ (if verbose then [lit "--verbose"] else []) ++ [mntpnt].

Definition au_run_fhsmd (mntpnt : bytes) (verbose : bool) : M world Z :=
  dir ← au_list_dir;
  match dir with
  | None => run_program [lit "aufhsmd"; lit "--dir"] au_fin (* a null ends the vector *)
  | Some dir => run_program (fhsmd_argv dir mntpnt verbose) au_fin
  end.

(** main(), from [getuid() != 0] on; [operands] is [argv] from [optind].  AuWarn is left
    out. *)
Definition main (uid : Z) (argc : nat) (calls : list getopt) (operands : list bytes) : M world Z :=
  if truth uid then put_errno EPERM ;; au_fin
  else
    opt argc calls ;;
    match operands with
    | [] => usage ;; put_errno EINVAL ;; au_fin
    | arg :: wmarks =>
        match realpath arg with
        | None => au_fin
        | Some mntpnt =>
            rootfd ← open_ mntpnt;
            if rootfd <? 0 then au_fin
            else
              err ← fallible; (* fstatfs *)
              if truth err then au_fin
              else if negb (k_is_aufs mntpnt) then put_errno EINVAL ;; au_fin
              else
                '(err, name) ← au_shm_name prog rootfd 32;
                if truth err then au_fin
                else
                  flags ← optflags;
                  if negb (opt_test flags OptFhsm_RECREATE) && opt_test flags OptFhsm_KILL then
                    _ ← au_fhsm_msg ticks name AuFhsm_MSG_EXIT rootfd;
                    put_errno 0 ;; mret 0
                  else
                    _ ← (if opt_test flags OptFhsm_RECREATE then shm_unlink name else mret 0);
                    '(err, nbr, brinfo) ← au_br mntpnt;
                    if truth err then mret err
                    else
                      let nfhsm := au_nfhsm nbr brinfo in
                      if nfhsm <? 2 then put_errno EINVAL ;; au_fin
                      else
                        '(err, shmfd, p) ← au_fhsm name nfhsm nbr brinfo;
                        if truth err then mret err
                        else
                          m ← fallible; (* calloc *)
                          if truth m then au_fin
                          else
                            match p with
                            | None => ub "no mapping"
                            | Some p =>
                                wmark_args wmarks p nbr (au_br_sort_path nbr brinfo) ;;
                                when (negb (opt_test flags OptFhsm_QUIET))
                                  (au_fhsm_dump mntpnt p brinfo nbr) ;;
                                sign_at p ;;
                                err ← close_ shmfd;
                                if truth err then mret err
                                else
                                  let do_notify := opt_test flags OptFhsm_RECREATE
                                                   || negb (length wmarks =? 0)%nat in
                                  _ ← (if do_notify
                                       then au_fhsm_msg ticks name AuFhsm_MSG_READ (-1)
                                       else mret 0);
                                  au_run_fhsmd mntpnt (opt_test flags OptFhsm_VERBOSE)
                            end
        end
    end.

(** mng_fhsm(): what the mount and umount helpers run, if anything. *)
Definition mng_fhsm_opt (nfhsm : Z) (unmount : bool) : option bytes :=
  if negb unmount then Some (if 2 <=? nfhsm then lit "--quiet" else lit "--kill")
  else if nfhsm <? 2 then None else Some (lit "--kill").

Definition mng_fhsm (cwd : bytes) (unmount : bool) : M world unit :=
  '(_, nbr, brinfo) ← au_br cwd; (* an error is already AuFin *)
  match mng_fhsm_opt (au_nfhsm nbr brinfo) unmount with
  | None => mret tt
  | Some o =>
      pid ← fork_;
      if pid =? 0 then
        e ← fallible; (* execve *)
        if truth e then au_fin else exit_ (spawn [lit "aufhsm"; o; cwd])
      else if 0 <? pid then
        waited ← waitpid_ pid;
        if waited =? pid then mret tt else au_fin
      else if negb unmount then au_fin
      else mret tt
  end.
End controller.

(** ** Properties *)

(** The checks of do_wmark() let NaN through, every comparison with it being false:
    "nan-nan" is accepted, and the branch that gets it as its block watermark is never
    moved down on account of its blocks (the inode watermark being off, as by default). *)
Theorem nan_watermark_accepted wm :
  exists wm', do_wmark false wm (lit "nan-nan") = Some wm' /\
    f32_is_nan (wm_block wm').1 = true /\ wm_inode wm' = wm_inode wm /\
    forall free, f32_ltb free (wm_block wm').1 = false.
Proof.
  assert (wmark_values (lit "nan-nan") = Some (F32_NAN, F32_NAN)) as E
    by (vm_compute; reflexivity).
  unfold do_wmark. rewrite E. simpl. eexists. split; [done|]. split; [done|].
  split; [done|]. intros free. by apply f32_ltb_nan_r.
Qed.

(** Percentages as an argument, and as they are shown. *)
Definition wmark_text (u l : Z) : bytes := fmt_u u ++ lit "-" ++ fmt_u l.
Definition wmark_shown (u l : Z) : bytes := fmt_u u ++ lit ".00-" ++ fmt_u l ++ lit ".00".

(** A percentage as it is stored and shown again. *)
Definition typed_percent (u : Z) : Z := f32_of_ratio false u 1.
Definition percent_ok (n : nat) : bool :=
  let u := Z.of_nat n in
  let p := typed_percent u in
  (0 <=? p) && (p <=? typed_percent (u + 1)) && (p <? 255 * 2 ^ 23) &&
  negb (f32_ltb F32_100 p) && negb (f32_ltb p (f32_of_Z 0)) &&
  bool_decide (fmt_2f (used_percent (f32_div (f32_sub F32_100 p) F32_100)) = fmt_u u ++ lit ".00").

Lemma percent_table : forallb percent_ok (seq 0 101) = true.
Proof. vm_compute. reflexivity. Qed.

Lemma percent_spec u :
  0 <= u <= 100 ->
  0 <= typed_percent u < 255 * 2 ^ 23 /\ typed_percent u <= typed_percent (u + 1) /\
  f32_ltb F32_100 (typed_percent u) = false /\ f32_ltb (typed_percent u) (f32_of_Z 0) = false /\
  fmt_2f (used_percent (f32_div (f32_sub F32_100 (typed_percent u)) F32_100)) = fmt_u u ++ lit ".00".
Proof.
  intros Hu. pose proof percent_table as H. rewrite forallb_forall in H.
  specialize (H (Z.to_nat u) ltac:(apply in_seq; lia)). unfold percent_ok in H.
  rewrite Z2Nat.id in H by lia.
  rewrite !andb_true_iff, !negb_true_iff, !Z.leb_le, Z.ltb_lt, bool_decide_eq_true in H. tauto.
Qed.

Lemma percent_mono l u : 0 <= l <= u -> u <= 100 -> typed_percent l <= typed_percent u.
Proof.
  intros Hl Hu. replace u with (l + Z.of_nat (Z.to_nat (u - l))) by lia.
  assert (l + Z.of_nat (Z.to_nat (u - l)) <= 100) as Hn by lia. revert Hn.
  induction (Z.to_nat (u - l)) as [|n IH]; intros Hn; [by rewrite Z.add_0_r|].
  etrans; [apply IH; lia|]. destruct (percent_spec (l + Z.of_nat n)) as (_ & H & _); [lia|].
  by replace (l + Z.of_nat (S n)) with (l + Z.of_nat n + 1) by lia.
Qed.

Lemma wmark_values_text u l :
  0 <= l <= u -> u <= 100 ->
  wmark_values (wmark_text u l) = Some (f32_div (f32_sub F32_100 (typed_percent u)) F32_100,
                                        f32_div (f32_sub F32_100 (typed_percent l)) F32_100).
Proof.
  intros Hl Hu. unfold wmark_values, wmark_text, sscanf_f_dash_f.
  rewrite (scan_float_decimal u (lit "-" ++ fmt_u l)) by (done || lia).
  cbn [lit String.list_ascii_of_string app mbind option_bind]. rewrite decide_True by done.
  rewrite <- (app_nil_r (fmt_u l)), scan_float_decimal by (done || lia). cbn [mbind option_bind].
  fold (typed_percent u) (typed_percent l).
  destruct (percent_spec u) as (Ru & _ & -> & -> & _); [lia|].
  destruct (percent_spec l) as (Rl & _ & -> & -> & _); [lia|].
  rewrite f32_ltb_pos by done. pose proof (percent_mono l u Hl Hu).
  by rewrite (proj2 (Z.ltb_ge _ _)) by lia.
Qed.

(** Watermarks that are given as whole percentages survive the conversion to free ratios
    in single precision: au_fhsm_dump() shows the numbers that were typed. *)
Theorem percentages_shown inode wm u l :
  0 <= l <= u -> u <= 100 ->
  exists wm', do_wmark inode wm (wmark_text u l) = Some wm' /\
    fmt_wmark (if inode then wm_inode wm' else wm_block wm') = wmark_shown u l.
Proof.
  intros Hl Hu. unfold do_wmark. rewrite wmark_values_text by done. eexists. split; [reflexivity|].
  destruct (percent_spec u) as (_ & _ & _ & _ & Eu); [lia|].
  destruct (percent_spec l) as (_ & _ & _ & _ & El); [lia|].
  unfold fmt_wmark, wmark_shown. destruct inode; cbn [wm_inode wm_block fst snd set_inode set_block];
    rewrite Eu, El, <- app_assoc; done.
Qed.

Lemma percentages_shown_witness :
  exists wm', do_wmark true (Wmark 1 (F32_0_25, F32_0_5) (F32_1, F32_1)) (lit "75-33") = Some wm' /\
    fmt_wmark (wm_inode wm') = lit "75.00-33.00".
Proof.
  destruct (percentages_shown true (Wmark 1 (F32_0_25, F32_0_5) (F32_1, F32_1)) 75 33)
    as (wm' & E & H); [lia|lia|]. exists wm'. split; [exact E|exact H].
Defined.

Lemma copy_wmarks_all inode prev l :
  copy_wmarks inode prev l =
    map (fun wm => if inode then set_inode (wm_inode prev) wm
                   else set_block (wm_block prev) wm) l.
Proof.
  revert prev; induction l as [|wm l IH]; intros prev; [done|].
  cbn [copy_wmarks map]. rewrite IH. f_equal. apply map_ext. intros x. by destruct inode.
Qed.

Section ctl_props.
Context {K : Type} `{!AufsKernel K}.
Notation world := (world K controller).

(** An argument without a branch sets the given watermarks on every element of the table
    and changes nothing else: block watermarks, or inode watermarks after --inode. *)
Theorem wmark_arg_all str p nbr br a (w : world) o :
  strrchr str "="%char = None -> wmark_values str = Some a ->
  w_shm w !! ptr_name p = Some o -> wmark o <> [] -> nwmark o = Z.of_nat (length (wmark o)) ->
  au_fhsm_size (nwmark o) <= ptr_len p ->
  let inode := opt_test (ct_optflags (w_glob w)) OptFhsm_INODE in
  wmark_arg str p nbr br w =
    (Ret tt, set_shm (<[ptr_name p := set_wmark
       (map (if inode then set_inode a else set_block a) (wmark o)) o]> (w_shm w)) w).
Proof.
  intros Hs Ha Ho Hne Hn Hlen inode. unfold wmark_arg, optflags. rewrite bind_gets, Hs.
  fold inode. assert (shm_table p w = (Ret o, w)) as Ht.
  { unfold shm_table, shm_read. rewrite bind_assoc, bind_gets, Ho, bind_ret.
    by rewrite (proj2 (Z.leb_le _ _)). }
  rewrite (bind_run _ _ _ _ _ Ht). destruct (wmark o) as [|wm r] eqn:Ew; [done|].
  unfold do_wmark. rewrite Ha. cbn [mbind option_bind]. cbv zeta.
  unfold shm_write, modify. do 3 f_equal. f_equal. f_equal.
  rewrite Hn, copy_wmarks_all. cbn [length map].
  replace (Z.to_nat _) with (length r) by lia. rewrite firstn_all, drop_all, app_nil_r.
  f_equal; [by destruct inode|]. apply map_ext. intros x. by destruct inode.
Qed.
End ctl_props.

Module CtlDemo.
Definition table : aufhsm :=
  Aufhsm AUFHSM_MAGIC 0 2 [Wmark 1 (F32_0_25, F32_0_5) (F32_1, F32_1);
                            Wmark 3 (F32_0_25, F32_0_5) (F32_1, F32_1)].
Definition w1 : world unit controller :=
  World 0 [] tt (Ctl None (opt_set 0 OptFhsm_INODE)) (<[lit "/t" := table]> ∅) ∅ ∅ 3 ∅ [] [] [].
End CtlDemo.
Import Demo.

Lemma wmark_arg_all_witness :
  wmark_arg (lit "75-50") (Ptr (lit "/t") 4096) 3 [] CtlDemo.w1 =
    (Ret tt, set_shm (<[lit "/t" := set_wmark
       (map (set_inode (F32_0_25, F32_0_5)) (wmark CtlDemo.table)) CtlDemo.table]>
         (w_shm CtlDemo.w1)) CtlDemo.w1).
Proof.
  apply (wmark_arg_all (lit "75-50") (Ptr (lit "/t") 4096) 3 [] (F32_0_25, F32_0_5) CtlDemo.w1
           CtlDemo.table); try (vm_compute; reflexivity); discriminate.
Defined.
