(* ===== verification/Daemon.v ===== *)
(** * fhsm/daemon.h: the state of the daemon

    [fhsmd] gathers the global [struct aufhsmd fhsmd], the file-level variables of
    mvdown.c and list.c, and two input streams: what read(2) on the signal
    descriptor returns, and the updates that the parent process makes to the
    shared [comm->msg] while a child polls it. *)
From S2P Require Import Prelude CString AufsType FhsmData Sys Shm FhsmList.

(** [struct in_ope]: a move-down operation in progress. *)
Record in_ope := InOpe { io_brid : Z; io_pid : Z }.

#[export] Instance in_ope_eq_dec : EqDecision in_ope.
Proof. solve_decision. Defined.

Record siginfo := Siginfo { ssi_signo : Z; ssi_pid : Z; ssi_status : Z }.

(** [struct aufhsmd_comm], shared between the daemon and its children. *)
Record aufhsmd_comm := Comm {
  c_msg : Z;
  c_nstbr : Z;
  c_stbr : list aufs_stbr
}.

(** The pointer [fhsmd.comm]: null, valid, or a value that no call assigned. *)
Inductive comm_ptr := CNull | CPtr (c : aufhsmd_comm) | CGarbage.

Definition SIGHUP : Z := 1.
Definition SIGINT : Z := 2.
Definition SIGQUIT : Z := 3.
Definition SIGTERM : Z := 15.
Definition SIGCHLD : Z := 17.

(** The indices of [fhsmd.fd]. *)
Definition AuFd_ROOT : nat := 0.
Definition AuFd_FHSM : nat := 1.
Definition AuFd_SIGNAL : nat := 2.
Definition AuFd_EPOLL : nat := 3.
Definition AuFd_MSG : nat := 4.

(** OptFhsmd_* are bit numbers. *)
Definition OptFhsmd_NODAEMON : Z := 0.
Definition OptFhsmd_VERBOSE : Z := 1.
Definition au_opt_set (f name : Z) : Z := Z.lor f (Z.shiftl 1 name).
Definition au_opt_test (f name : Z) : bool := truth (Z.land f (Z.shiftl 1 name)).

Definition sizeof_comm : Z := 8.
Definition sizeof_stbr : Z := 40.

(** The product of the two sizes and [nstbr], as written. *)
Definition au_fhsmd_comm_len (nstbr : Z) : Z := sizeof_comm * sizeof_stbr * nstbr.

Record fhsmd := Fhsmd {
  d_lcopy : option aufhsm;
  d_comm : comm_ptr;
  d_optflags : Z;
  d_name_lcopy : bytes;
  d_name_fhsmd : bytes;
  d_in_ope : list in_ope;
  d_list_dir : option bytes;
  d_listfd : Z;
  d_failfd : Z;
  d_listsz : Z;
  d_mvdown : aufs_mvdown;
  d_fname : au_fname;
  d_sigs : list (option siginfo);
  d_polls : list (option Z);
  d_fd : list Z
}.

Definition dset_lcopy (x : option aufhsm) (d : fhsmd) : fhsmd :=
  Fhsmd x (d_comm d) (d_optflags d) (d_name_lcopy d) (d_name_fhsmd d) (d_in_ope d) (d_list_dir d) (d_listfd d) (d_failfd d) (d_listsz d) (d_mvdown d) (d_fname d) (d_sigs d) (d_polls d) (d_fd d).
Definition dset_comm (x : comm_ptr) (d : fhsmd) : fhsmd :=
  Fhsmd (d_lcopy d) x (d_optflags d) (d_name_lcopy d) (d_name_fhsmd d) (d_in_ope d) (d_list_dir d) (d_listfd d) (d_failfd d) (d_listsz d) (d_mvdown d) (d_fname d) (d_sigs d) (d_polls d) (d_fd d).
Definition dset_optflags (x : Z) (d : fhsmd) : fhsmd :=
  Fhsmd (d_lcopy d) (d_comm d) x (d_name_lcopy d) (d_name_fhsmd d) (d_in_ope d) (d_list_dir d) (d_listfd d) (d_failfd d) (d_listsz d) (d_mvdown d) (d_fname d) (d_sigs d) (d_polls d) (d_fd d).
Definition dset_name_lcopy (x : bytes) (d : fhsmd) : fhsmd :=
  Fhsmd (d_lcopy d) (d_comm d) (d_optflags d) x (d_name_fhsmd d) (d_in_ope d) (d_list_dir d) (d_listfd d) (d_failfd d) (d_listsz d) (d_mvdown d) (d_fname d) (d_sigs d) (d_polls d) (d_fd d).
Definition dset_name_fhsmd (x : bytes) (d : fhsmd) : fhsmd :=
  Fhsmd (d_lcopy d) (d_comm d) (d_optflags d) (d_name_lcopy d) x (d_in_ope d) (d_list_dir d) (d_listfd d) (d_failfd d) (d_listsz d) (d_mvdown d) (d_fname d) (d_sigs d) (d_polls d) (d_fd d).
Definition dset_in_ope (x : list in_ope) (d : fhsmd) : fhsmd :=
  Fhsmd (d_lcopy d) (d_comm d) (d_optflags d) (d_name_lcopy d) (d_name_fhsmd d) x (d_list_dir d) (d_listfd d) (d_failfd d) (d_listsz d) (d_mvdown d) (d_fname d) (d_sigs d) (d_polls d) (d_fd d).
Definition dset_list_dir (x : option bytes) (d : fhsmd) : fhsmd :=
  Fhsmd (d_lcopy d) (d_comm d) (d_optflags d) (d_name_lcopy d) (d_name_fhsmd d) (d_in_ope d) x (d_listfd d) (d_failfd d) (d_listsz d) (d_mvdown d) (d_fname d) (d_sigs d) (d_polls d) (d_fd d).
Definition dset_listfd (x : Z) (d : fhsmd) : fhsmd :=
  Fhsmd (d_lcopy d) (d_comm d) (d_optflags d) (d_name_lcopy d) (d_name_fhsmd d) (d_in_ope d) (d_list_dir d) x (d_failfd d) (d_listsz d) (d_mvdown d) (d_fname d) (d_sigs d) (d_polls d) (d_fd d).
Definition dset_failfd (x : Z) (d : fhsmd) : fhsmd :=
  Fhsmd (d_lcopy d) (d_comm d) (d_optflags d) (d_name_lcopy d) (d_name_fhsmd d) (d_in_ope d) (d_list_dir d) (d_listfd d) x (d_listsz d) (d_mvdown d) (d_fname d) (d_sigs d) (d_polls d) (d_fd d).
Definition dset_listsz (x : Z) (d : fhsmd) : fhsmd :=
  Fhsmd (d_lcopy d) (d_comm d) (d_optflags d) (d_name_lcopy d) (d_name_fhsmd d) (d_in_ope d) (d_list_dir d) (d_listfd d) (d_failfd d) x (d_mvdown d) (d_fname d) (d_sigs d) (d_polls d) (d_fd d).
Definition dset_mvdown (x : aufs_mvdown) (d : fhsmd) : fhsmd :=
  Fhsmd (d_lcopy d) (d_comm d) (d_optflags d) (d_name_lcopy d) (d_name_fhsmd d) (d_in_ope d) (d_list_dir d) (d_listfd d) (d_failfd d) (d_listsz d) x (d_fname d) (d_sigs d) (d_polls d) (d_fd d).
Definition dset_fname (x : au_fname) (d : fhsmd) : fhsmd :=
  Fhsmd (d_lcopy d) (d_comm d) (d_optflags d) (d_name_lcopy d) (d_name_fhsmd d) (d_in_ope d) (d_list_dir d) (d_listfd d) (d_failfd d) (d_listsz d) (d_mvdown d) x (d_sigs d) (d_polls d) (d_fd d).
Definition dset_sigs (x : list (option siginfo)) (d : fhsmd) : fhsmd :=
  Fhsmd (d_lcopy d) (d_comm d) (d_optflags d) (d_name_lcopy d) (d_name_fhsmd d) (d_in_ope d) (d_list_dir d) (d_listfd d) (d_failfd d) (d_listsz d) (d_mvdown d) (d_fname d) x (d_polls d) (d_fd d).
Definition dset_polls (x : list (option Z)) (d : fhsmd) : fhsmd :=
  Fhsmd (d_lcopy d) (d_comm d) (d_optflags d) (d_name_lcopy d) (d_name_fhsmd d) (d_in_ope d) (d_list_dir d) (d_listfd d) (d_failfd d) (d_listsz d) (d_mvdown d) (d_fname d) (d_sigs d) x (d_fd d).
Definition dset_fd (x : list Z) (d : fhsmd) : fhsmd :=
  Fhsmd (d_lcopy d) (d_comm d) (d_optflags d) (d_name_lcopy d) (d_name_fhsmd d) (d_in_ope d) (d_list_dir d) (d_listfd d) (d_failfd d) (d_listsz d) (d_mvdown d) (d_fname d) (d_sigs d) (d_polls d) x.

#[export] Instance fhsmd_list_dir : ListDir fhsmd := {
  list_dir := d_list_dir;
  with_list_dir := dset_list_dir;
  list_dir_with d g := eq_refl
}.

(** The zero-initialised globals, INIT_LIST_HEAD done. *)
Definition fhsmd0 : fhsmd :=
  Fhsmd None CNull 0 [] [] [] None 0 0 0
    (Mvdown 0 (Stbr 0 0 (Stfs 0 0 0 0)) (Stbr 0 0 (Stfs 0 0 0 0)) 0)
    (Fname [] [] [] 0) [] [] [0; 0; 0; 0; 0].

Section daemon.
Context {K : Type} `{!AufsKernel K}.
Notation world := (world K fhsmd).

Definition gd {A} (f : fhsmd -> A) : M world A := gets (fun w => f (w_glob w)).
Definition md (f : fhsmd -> fhsmd) : M world unit :=
  modify (fun w => set_glob (f (w_glob w)) w).

Definition fd_get (i : nat) : M world Z := gd (fun d => default 0 (d_fd d !! i)).
Definition fd_set (i : nat) (fd : Z) : M world unit :=
  md (fun d => dset_fd (<[i := fd]> (d_fd d)) d).

(** [fhsmd.comm] dereferenced. *)
Definition comm_get : M world aufhsmd_comm :=
  c ← gd d_comm;
  match c with
  | CPtr c => mret c
  | CNull => ub "null dereference of fhsmd.comm"
  | CGarbage => ub "wild dereference of fhsmd.comm"
  end.

Definition comm_put (c : aufhsmd_comm) : M world unit := md (dset_comm (CPtr c)).

(** [cur->...] for the [i]-th element of [comm->stbr]. *)
Definition stbr_get (i : nat) : M world aufs_stbr :=
  c ← comm_get;
  match c_stbr c !! i with
  | Some s => mret s
  | None => ub "stbr outside comm"
  end.

Definition stbr_put (i : nat) (s : aufs_stbr) : M world unit :=
  c ← comm_get;
  comm_put (Comm (c_msg c) (c_nstbr c) (<[i := s]> (c_stbr c))).

(** read(fhsmd.fd[AuFd_SIGNAL], ...): nothing pending is -1 with EAGAIN. *)
Definition read_signal : M world (option siginfo) :=
  e ← fallible;
  if truth e then mret None
  else
    q ← gd d_sigs;
    match q with
    | Some s :: r => md (dset_sigs r) ;; mret (Some s)
    | None :: r => md (dset_sigs r) ;; put_errno EAGAIN ;; mret None
    | [] => put_errno EAGAIN ;; mret None
    end.

(** A child's view of [comm->msg], which the parent may just have changed. *)
Definition poll_msg : M world Z :=
  q ← gd d_polls;
  (match q with
   | Some m :: r =>
       md (dset_polls r) ;;
       c ← comm_get; comm_put (Comm m (c_nstbr c) (c_stbr c))
   | None :: r => md (dset_polls r)
   | [] => mret tt
   end) ;;
  c ← comm_get;
  mret (c_msg c).
End daemon.

(** ** Lemmas *)

Lemma comm_len_fits n : 1 <= n -> sizeof_comm + sizeof_stbr * n <= au_fhsmd_comm_len n.
Proof. unfold au_fhsmd_comm_len, sizeof_comm, sizeof_stbr. lia. Qed.

(** What the daemon's own accessors do to its globals, for [wp] proofs. *)
Section daemon_wp.
Context {K : Type}.
Notation world := (world K fhsmd).

Lemma bind_gd {A B} (h : fhsmd -> A) (f : A -> M world B) w :
  (gd h ≫= f : M world B) w = f (h (w_glob w)) w.
Proof. reflexivity. Qed.

Lemma bind_md {B} h (f : unit -> M world B) w :
  (md h ≫= f : M world B) w = f tt (set_glob (h (w_glob w)) w).
Proof. reflexivity. Qed.

Lemma wp_gd s {A} (f : fhsmd -> A) (Q : A -> world -> Prop) w :
  Q (f (w_glob w)) w -> wp s (gd f) Q w.
Proof. done. Qed.

Lemma wp_md s f (Q : unit -> world -> Prop) w :
  Q tt (set_glob (f (w_glob w)) w) -> wp s (md f) Q w.
Proof. done. Qed.

Lemma wp_comm_get s (Q : aufhsmd_comm -> world -> Prop) w :
  (forall c, d_comm (w_glob w) = CPtr c -> Q c w) -> wp s comm_get Q w.
Proof.
  intros H. unfold comm_get. apply wp_bind, wp_gd.
  destruct (d_comm (w_glob w)) eqn:E; [apply wp_ub| |apply wp_ub]. apply wp_ret. by apply H.
Qed.

Lemma wp_comm_put s c (Q : unit -> world -> Prop) w :
  Q tt (set_glob (dset_comm (CPtr c) (w_glob w)) w) -> wp s (comm_put c) Q w.
Proof. done. Qed.

Lemma wp_stbr_get s i (Q : aufs_stbr -> world -> Prop) w :
  (forall x, Q x w) -> wp s (stbr_get i) Q w.
Proof.
  intros H. unfold stbr_get. apply wp_bind, wp_comm_get. intros c _.
  destruct (c_stbr c !! i); [apply H|done].
Qed.

Lemma wp_stbr_put s i x (Q : unit -> world -> Prop) w :
  (forall c, Q tt (set_glob (dset_comm (CPtr c) (w_glob w)) w)) ->
  wp s (stbr_put i x) Q w.
Proof. intros H. unfold stbr_put. apply wp_bind, wp_comm_get. intros c _. apply H. Qed.

(** Reading the signal queue or the shared message only moves those streams. *)
Definition same_but_inputs (d d' : fhsmd) : Prop :=
  exists sg pl co, d' = dset_sigs sg (dset_polls pl (dset_comm co d)).

Lemma same_but_inputs_refl d : same_but_inputs d d.
Proof. exists (d_sigs d), (d_polls d), (d_comm d). by destruct d. Qed.

Lemma wp_read_signal s (Q : option siginfo -> world -> Prop) w :
  (forall x w', same_but_inputs (w_glob w) (w_glob w') -> w_forks w' = w_forks w ->
     Q x w') -> wp s read_signal Q w.
Proof.
  intros H0. unfold read_signal. apply wp_bind.
  eapply wp_mute; [apply mute_fallible|]. intros e w0 (E1 & E2 & _) _.
  assert (forall x w', same_but_inputs (w_glob w0) (w_glob w') -> w_forks w' = w_forks w0 ->
            Q x w') as H by (intros x w' Hx Hy; apply H0; congruence).
  destruct (truth e); [apply wp_ret, H; [apply same_but_inputs_refl|done]|].
  clear H0 E1 E2. revert w0 H. clear w. intros w H. apply wp_bind, wp_gd.
  assert (forall r, same_but_inputs (w_glob w)
            (dset_sigs r (w_glob w))) as E.
  { intros r. exists r, (d_polls (w_glob w)), (d_comm (w_glob w)).
    by destruct (w_glob w). }
  destruct (d_sigs (w_glob w)) as [|[x|] r].
  - apply wp_bind, wp_modify, wp_ret, H; [apply same_but_inputs_refl|done].
  - apply wp_bind, wp_md, wp_ret, H; [by apply E|done].
  - apply wp_bind, wp_md, wp_bind, wp_modify, wp_ret, H; [by apply E|done].
Qed.

Lemma wp_poll_msg s (Q : Z -> world -> Prop) w :
  (forall x w', same_but_inputs (w_glob w) (w_glob w') -> w_forks w' = w_forks w ->
     Q x w') -> wp s poll_msg Q w.
Proof.
  intros H. unfold poll_msg. apply wp_bind, wp_gd, wp_bind.
  destruct (d_polls (w_glob w)) as [|[x|] r].
  - apply wp_ret, wp_bind, wp_comm_get. intros c Hc.
    apply wp_ret, H; [apply same_but_inputs_refl|done].
  - apply wp_bind, wp_md, wp_bind, wp_comm_get. intros c Hc.
    apply wp_comm_put, wp_bind, wp_comm_get. intros c' Hc'. apply wp_ret, H; [|done].
    exists (d_sigs (w_glob w)), r, (CPtr (Comm x (c_nstbr c) (c_stbr c))).
    simpl. by destruct (w_glob w).
  - apply wp_md, wp_bind, wp_comm_get. intros c Hc. apply wp_ret, H; [|done].
    exists (d_sigs (w_glob w)), r, (d_comm (w_glob w)). simpl. by destruct (w_glob w).
Qed.
End daemon_wp.

(** ** Invariants of the operations in progress

    [P] relates the in-progress list, the pending signals and the pending forks. *)
Section ops_inv.
Context {K : Type} (P : list in_ope -> list (option siginfo) -> list Z -> Prop).
Notation world := (world K fhsmd).

Definition ops_inv (w : world) : Prop :=
  glob_inv (fun d f => P (d_in_ope d) (d_sigs d) f) w.

Lemma pres_gd {A} (f : fhsmd -> A) : preserves ops_inv (gd f).
Proof. by intros w Hw. Qed.
Lemma pres_md f :
  (forall d, d_in_ope (f d) = d_in_ope d /\ d_sigs (f d) = d_sigs d) ->
  preserves ops_inv (md f).
Proof.
  intros H w Hw. unfold ops_inv, glob_inv in *. simpl. by destruct (H (w_glob w)) as [-> ->].
Qed.
Lemma pres_fd_get i : preserves ops_inv (fd_get i).
Proof. by intros w Hw. Qed.
Lemma pres_fd_set i fd : preserves ops_inv (fd_set i fd).
Proof. by apply pres_md. Qed.
Lemma pres_comm_get : preserves ops_inv comm_get.
Proof.
  unfold comm_get. apply preserves_bind; [apply pres_gd|]. intros []; by intros w Hw.
Qed.
Lemma pres_comm_put c : preserves ops_inv (comm_put c).
Proof. by apply pres_md. Qed.
Lemma pres_stbr_get i : preserves ops_inv (stbr_get i).
Proof.
  unfold stbr_get. apply preserves_bind; [apply pres_comm_get|]. intros c.
  destruct (c_stbr c !! i); by intros w Hw.
Qed.
Lemma pres_stbr_put i s : preserves ops_inv (stbr_put i s).
Proof.
  unfold stbr_put. apply preserves_bind; [apply pres_comm_get|]. intros c.
  apply pres_comm_put.
Qed.
Lemma pres_poll_msg : preserves ops_inv poll_msg.
Proof.
  unfold poll_msg. apply preserves_bind; [apply pres_gd|]. intros q.
  apply preserves_bind.
  - destruct q as [|[m|] r]; [by intros w Hw| |by apply pres_md].
    apply preserves_bind; [by apply pres_md|]. intros _.
    apply preserves_bind; [apply pres_comm_get|]. intros c. apply pres_comm_put.
  - intros _. apply preserves_bind; [apply pres_comm_get|]. by intros c w Hw.
Qed.

(** Any system call keeps it. *)
Lemma pres_sys {A} (m : M world A) : (forall Q, preserves (glob_inv Q) m) -> preserves ops_inv m.
Proof. intros H w Hw. by apply (H (fun d f => P (d_in_ope d) (d_sigs d) f)). Qed.

Lemma pres_read_signal :
  (forall ops x sg f, P ops (x :: sg) f -> P ops sg f) -> preserves ops_inv read_signal.
Proof.
  intros Hp. unfold read_signal.
  apply preserves_bind; [by apply pres_sys; intros; apply pres_fallible|]. intros e.
  destruct (truth e); [by intros w Hw|].
  intros w Hw. unfold ops_inv, glob_inv, gd, md, gets, modify, put_errno, modify,
    mbind, M_bind, mret, M_ret in *. simpl.
  destruct (d_sigs (w_glob w)) as [|[x|] r] eqn:E; simpl; rewrite ?E; eauto.
Qed.
End ops_inv.
#[export] Hint Resolve pres_gd pres_fd_get pres_fd_set pres_comm_get pres_comm_put pres_stbr_get
  pres_stbr_put pres_poll_msg : pres.
#[export] Hint Extern 2 (preserves (ops_inv _) (md _)) =>
  (apply pres_md; intros; split; reflexivity) : pres.
#[export] Hint Extern 3 (preserves (ops_inv _) _) =>
  (apply pres_sys; intros; solve [auto with pres nocore]) : pres.
