(* ===== verification/Mvdown.v ===== *)
(** * fhsm/mvdown.c: moving files down, one child process per branch

    [cur] and [next] point into [comm->stbr] and are indices of it. *)
From S2P Require Import Prelude CString LibcSort AufsType Float32 FhsmData Sys Shm.
From S2P Require Import FhsmList Daemon.

(** The watermark test: below the block watermark, or below the inode watermark
    when that one is in use. *)
Definition usage_exceeded (wm : aufhsm_wmark) (s : aufs_stfs) : bool :=
  let block := f32_div (f32_of_Z (f_bavail s)) (f32_of_Z (f_blocks s)) in
  let inode := f32_div (f32_of_Z (f_ffree s)) (f32_of_Z (f_files s)) in
  f32_ltb block (wm_block wm).1
  || (f32_ltb (wm_inode wm).1 F32_1 && f32_ltb inode (wm_inode wm).1).

Definition stbr_compar (brid : Z) (s : aufs_stbr) : Z := brid - st_brid s.

Definition au_stbr_bsearch (brid : Z) (stbr : list aufs_stbr) (nstbr : Z) : option nat :=
  bsearch (stbr_compar brid) (take (Z.to_nat nstbr) stbr).

Section mvdown.
Context {K : Type} `{!AufsKernel K} (prog : bytes).
Notation world := (world K fhsmd).

(** do_mvdown1(): the status and [*done].  The switch is on the errno of the
    ioctl; AU_ERRNO texts are only logged. *)
Definition do_mvdown1 : M world (Z * bool) :=
  fname ← gd d_fname;
  e ← kernel (k_openat (fn_name fname));
  if truth e then
    put_errno e ;; mret (if e =? ENOENT then 0 else -1, true)
  else
    fd ← new_fd (fn_name fname);
    mv ← gd d_mvdown;
    '(e, mv) ← kernel (k_mvdown (fn_name fname) mv);
    md (dset_mvdown mv) ;;
    if negb (truth e) then
      err ← close_ fd; mret (err, true)
    else
      put_errno e ;;
      if e =? EROFS then
        err ← close_ fd; mret (err, true)
      else if e =? EBUSY then
        err ← fallible; (* fstat *)
        if truth err then ub "uninitialised struct stat"
        else
          nlink ← gets (fun w => k_nlink (fn_name fname) (w_kern w));
          failfd ← gd d_failfd;
          err ← (if nlink =? 1 then au_fname_failed fname failfd else mret 0);
          if negb (truth err) then
            err ← close_ fd; mret (err, false)
          else
            close_keep fd ;; mret (err, false)
      else if e =? EINVAL then
        err ← close_ fd; mret (err, false)
      else
        close_keep fd ;; mret (-1, false).

(** test_usage(): nonzero when the branch is used beyond its watermark. *)
Definition test_usage (s : aufs_stbr) : M world bool :=
  l ← gd d_lcopy;
  match l with
  | None => ub "null dereference of fhsmd.lcopy"
  | Some l =>
      match au_wm_search_brid (st_brid s) l ≫= (fun i => wmark l !! i) with
      | Some wm => mret (usage_exceeded wm (st_stfs s))
      | None => mret false
      end
  end.

(** The rest of do_mvdown(), after do_mvdown1(): the list is cut, and what the kernel
    says of the branches stored. *)
Definition do_mvdown_cut (cur : nat) (listfd listsz len : Z) (err : Z) (done : bool)
  : M world (Z * option nat) :=
  if truth err then mret (err, None)
  else
    err ← ftruncate_ listfd (listsz - len);
    if truth err then mret (err, None)
    else
      let listsz := listsz - len in
      md (dset_listsz listsz) ;;
      if truth listsz && negb done then mret (1, None)
      else
        mv ← gd d_mvdown;
        if truth (Z.land (mv_flags mv) AUFS_MVDOWN_STFS_FAILED) then mret (0, None)
        else
          s ← stbr_get cur;
          stbr_put cur (Stbr (st_brid s) (st_bindex s) (st_stfs (mv_upper mv))) ;;
          if negb (st_brid s =? st_brid (mv_upper mv)) then ub "assertion failed"
          else if truth (Z.land (mv_flags mv) AUFS_MVDOWN_BOTTOM) then mret (0, None)
          else
            c ← comm_get;
            let next := au_stbr_bsearch (st_brid (mv_lower mv)) (c_stbr c) (c_nstbr c) in
            match next with
            | Some i => stbr_put i (mv_lower mv) ;; mret (0, Some i)
            | None => mret (0, None)
            end.

(** The request that do_mvdown() prepares in the global [mvdown]. *)
Definition mvdown_request (brid : Z) (old : aufs_mvdown) : aufs_mvdown :=
  Mvdown (Z.lor AUFS_MVDOWN_FHSM_LOWER (Z.lor AUFS_MVDOWN_OWLOWER AUFS_MVDOWN_STFS))
    (Stbr brid (st_bindex (mv_upper old)) (st_stfs (mv_upper old)))
    (mv_lower old) (mv_errno old).

(** do_mvdown(): the tri-state and [*next]. *)
Definition do_mvdown (cur : nat) : M world (Z * option nat) :=
  listfd ← gd d_listfd;
  listsz ← gd d_listsz;
  o ← file_of listfd;
  match au_fname_one o (Z.to_nat listsz) with
  | None => log_fin
  | Some fname =>
      md (dset_fname fname) ;;
      s ← stbr_get cur;
      md (fun d => dset_mvdown (mvdown_request (st_brid s) (d_mvdown d)) d) ;;
      '(err, done) ← do_mvdown1;
      do_mvdown_cut cur listfd listsz (fn_len fname) err done
  end.

(** The loop of mvdown_child(), entered with the current [err] and [*next]. *)
Fixpoint mvdown_loop (fuel : nat) (cur : nat) (err : Z) (next : option nat)
  : M world (Z * option nat) :=
  match fuel with
  | O => nofuel
  | S k =>
      msg ← poll_msg;
      if msg =? AuFhsm_MSG_EXIT then mret (err, next)
      else
        ssi ← read_signal;
        match ssi with
        | Some _ => mret (err, next)
        | None =>
            '(err, next) ← do_mvdown cur;
            if err <=? 0 then mret (err, next)
            else
              match next with
              | Some _ => mret (err, next)
              | None =>
                  s ← stbr_get cur;
                  u ← test_usage s;
                  if (u : bool) then mvdown_loop k cur err next else mret (err, next)
              end
        end
  end.

Definition mvdown_child (cur : nat) : M world (Z * option nat) :=
  s ← stbr_get cur;
  '(e, path) ← kernel (k_wbr_fd (st_brid s));
  if truth e then put_errno e ;; mret (-1, None)
  else
    brfd ← new_fd path;
    '(err, lfd, ffd) ← au_list prog brfd;
    md (fun d => dset_listfd (default (d_listfd d) lfd)
                   (dset_failfd (default (d_failfd d) ffd) d)) ;;
    if truth err then mret (err, None)
    else
      err ← fallible; (* fstat(listfd) *)
      if err <? 0 then mret (err, None)
      else
        listfd ← gd d_listfd;
        o ← file_of listfd;
        if (length o =? 0)%nat then mret (err, None)
        else
          m ← fallible; (* mmap *)
          if truth m then log_fin
          else
            md (dset_listsz (Z.of_nat (length o))) ;;
            mvdown_loop (S (length o)) cur err None.

(** au_mvdown_run(): in daemon mode the move happens in a child process; the
    caller's [*next] is then always null. *)
Definition au_mvdown_run (cur : nat) : M world (Z * option nat) :=
  s ← stbr_get cur;
  u ← test_usage s;
  if negb u then mret (0, None)
  else
    opt ← gd d_optflags;
    if negb (au_opt_test opt OptFhsmd_NODAEMON) then
      ops ← gd d_in_ope;
      if existsb (fun io => io_brid io =? st_brid s) ops then mret (0, None)
      else
        m ← fallible; (* malloc *)
        if truth m then ub "null dereference of in_ope"
        else
          md (fun d => dset_in_ope (InOpe (st_brid s) 0 :: d_in_ope d) d) ;;
          pid ← fork_;
          if pid =? 0 then
            '(err, _) ← mvdown_child cur; exit_ (u8 err)
          else if 0 <? pid then
            md (fun d => dset_in_ope (match d_in_ope d with
                                      | io :: r => InOpe (io_brid io) pid :: r
                                      | [] => []
                                      end) d) ;;
            mret (0, None)
          else mret (pid, None)
    else mvdown_child cur.
End mvdown.

(** ** Termination of the child's loop *)

Lemma fname_one_len o len f :
  (0 < len)%nat -> Z.of_nat len < 2 ^ 31 -> au_fname_one o len = Some f ->
  1 <= fn_len f <= Z.of_nat len.
Proof.
  intros Hl H31. unfold au_fname_one.
  assert (match memrchr o NUL (len - 1) with
          | Some i => (S i, (len - i - 1)%nat) | None => (O, len)
          end.2 <= len /\ 1 <= match memrchr o NUL (len - 1) with
          | Some i => (S i, (len - i - 1)%nat) | None => (O, len)
          end.2)%nat as H.
  { unfold memrchr. destruct (last_idx NUL (take (len - 1) o)) as [i|] eqn:E; simpl; [|lia].
    apply last_idx_lt in E. rewrite length_take in E. lia. }
  destruct (match memrchr o NUL (len - 1) with
            | Some i => _ | None => _ end) as [a l]. simpl in H.
  cbv zeta. destruct (strchr _ _); [|done]. simpl.
  destruct (strchr _ _); [|done]. simpl. intros [= <-]. simpl.
  unfold i32. rewrite wrap_s_small by lia. lia.
Qed.

Section mvdown_wp.
Context {K : Type} `{!AufsKernel K}.
Notation world := (world K fhsmd).
Implicit Types w : world.

(** do_mvdown1() never returns a positive status, and of the globals changes
    [mvdown] only. *)
Lemma wp_do_mvdown1 s w (Q : Z * bool -> world -> Prop) :
  (forall err done_ mv w', err <= 0 -> w_glob w' = dset_mvdown mv (w_glob w) ->
     Q (err, done_) w') ->
  wp s do_mvdown1 Q w.
Proof.
  intros H. assert (dset_mvdown (d_mvdown (w_glob w)) (w_glob w) = w_glob w) as Eid
    by (by destruct (w_glob w)).
  unfold do_mvdown1. apply wp_bind, wp_gd, wp_bind.
  eapply wp_mute; [apply mute_kernel|]. intros e w1 [E1 _] _.
  destruct (truth e).
  { apply wp_bind. eapply wp_mute; [apply mute_put_errno|]. intros _ w2 [E2 _] _.
    apply wp_ret. eapply H; [by destruct (e =? ENOENT)|]. by rewrite E2, E1. }
  apply wp_bind. eapply wp_mute; [apply mute_new_fd|]. intros fd w2 [E2 _] _.
  apply wp_bind, wp_gd, wp_bind. eapply wp_mute; [apply mute_kernel|].
  intros [e' mv] w3 [E3 _] _. apply wp_bind, wp_md.
  set (w4 := set_glob _ w3).
  assert (w_glob w4 = dset_mvdown mv (w_glob w)) as E4
    by (unfold w4; simpl; by rewrite E3, E2, E1).
  clearbody w4. clear E1 E2 E3 w1 w2 w3 e.
  assert (forall (m : M world Z) d, mute m (fun r => r = 0 \/ r = -1) ->
    forall w', w_glob w' = dset_mvdown mv (w_glob w) ->
    wp s (err ← m; mret (err, d)) Q w') as Hm.
  { intros m d Hm w' E. apply wp_bind. eapply wp_mute; [exact Hm|].
    intros r w'' [E'' _] Hr. apply wp_ret. eapply H; [lia|]. by rewrite E''. }
  destruct (negb (truth e')); [by apply Hm; [apply mute_close|]|].
  apply wp_bind. eapply wp_mute; [apply mute_put_errno|]. intros _ w5 [E5 _] _.
  rewrite E4 in E5.
  destruct (e' =? EROFS); [by apply Hm; [apply mute_close|]|].
  destruct (e' =? EBUSY).
  { apply wp_bind. eapply wp_mute; [apply mute_fallible|]. intros r w6 [E6 _] _.
    destruct (truth r); [apply wp_ub|]. apply wp_bind, wp_gets, wp_bind, wp_gd, wp_bind.
    eapply wp_mute with (R := fun r => r = 0 \/ r = -1).
    { destruct (_ =? 1); [apply mute_fname_failed|apply mute_ret; by left]. }
    intros r' w7 [E7 _] Hr'. rewrite E6, E5 in E7.
    destruct (truth r'); cbn [negb]; [|by apply Hm; [apply mute_close|]].
    apply wp_bind. eapply wp_mute; [apply mute_close_keep|]. intros _ w8 [E8 _] _.
    apply wp_ret. eapply H; [lia|]. by rewrite E8, E7. }
  destruct (e' =? EINVAL); [by apply Hm; [apply mute_close|]|].
  apply wp_bind. eapply wp_mute; [apply mute_close_keep|]. intros _ w8 [E8 _] _.
  apply wp_ret. eapply H; [lia|]. by rewrite E8, E5.
Qed.

Definition list_size w : Z := d_listsz (w_glob w).

(** A status above zero means that the list got shorter and is not finished. *)
Lemma wp_do_mvdown_cut s cur fd sz len err dn w (Q : Z * option nat -> world -> Prop) :
  err <= 0 -> 1 <= len <= sz ->
  (forall err next w', err <= 0 \/ 0 < list_size w' < sz -> Q (err, next) w') ->
  wp s (do_mvdown_cut cur fd sz len err dn) Q w.
Proof.
  intros Herr Hlen H. unfold do_mvdown_cut.
  destruct (truth err); [apply wp_ret, H; by left|].
  apply wp_bind. eapply wp_mute; [apply mute_ftruncate|]. intros err' w2 [E2 _] Herr'.
  destruct (truth err'); [apply wp_ret, H; left; lia|].
  cbv zeta. apply wp_bind, wp_md. destruct (truth (sz - len) && negb dn) eqn:Et.
  - apply wp_ret, H. right. unfold list_size. simpl.
    apply andb_true_iff in Et as [Et _]. unfold truth in Et.
    apply Bool.negb_true_iff, Z.eqb_neq in Et. lia.
  - repeat first [progress wp_step | apply wp_gd | apply H; left; lia
                 | apply wp_stbr_get; intros ? | apply wp_stbr_put; intros ?
                 | apply wp_comm_get; intros ? ?].
Qed.

Lemma wp_do_mvdown s cur w (Q : Z * option nat -> world -> Prop) :
  0 < list_size w < 2 ^ 31 ->
  (forall err next w',
     err <= 0 \/ 0 < list_size w' < list_size w -> Q (err, next) w') ->
  wp s (do_mvdown cur) Q w.
Proof.
  intros Hsz H. unfold do_mvdown. apply wp_bind, wp_gd, wp_bind, wp_gd, wp_bind, wp_gets.
  destruct (au_fname_one _ _) as [f|] eqn:Ef; [|apply wp_exit].
  apply fname_one_len in Ef; [|unfold list_size in Hsz; lia..].
  rewrite Z2Nat.id in Ef by (unfold list_size in Hsz; lia).
  apply wp_bind, wp_md, wp_bind, wp_stbr_get. intros x.
  apply wp_bind, wp_md, wp_bind, wp_do_mvdown1. intros err dn mv w1 Herr E1.
  by apply wp_do_mvdown_cut.
Qed.

Lemma wp_test_usage s x w (Q : bool -> world -> Prop) :
  (forall b, Q b w) -> wp s (test_usage x) Q w.
Proof.
  intros H. unfold test_usage. apply wp_bind, wp_gd.
  destruct (d_lcopy _); [|apply wp_ub]. destruct (_ ≫= _); apply wp_ret, H.
Qed.

Lemma same_but_inputs_listsz d d' : same_but_inputs d d' -> d_listsz d' = d_listsz d.
Proof. by intros (? & ? & ? & ->). Qed.

(** C26. The loop of the move-down child terminates: with more fuel than bytes in the
    list (a list below 2 GiB, the range of [int]) it never runs dry, because every
    repetition removes a whole record from the list. *)
Theorem mvdown_loop_terminates fuel cur err next w :
  0 < list_size w < 2 ^ 31 -> (Z.to_nat (list_size w) <= fuel)%nat ->
  (mvdown_loop fuel cur err next w).1 <> NoFuel.
Proof.
  intros Hsz Hf. apply (wp_fuel _ (fun _ _ => True)).
  revert err next w Hsz Hf. induction fuel as [|fuel IH]; intros err next w Hsz Hf; [lia|].
  cbn [mvdown_loop]. apply wp_bind, wp_poll_msg. intros msg w1 E1%same_but_inputs_listsz _.
  destruct (msg =? _); [by apply wp_ret|].
  apply wp_bind, wp_read_signal. intros ssi w2 E2%same_but_inputs_listsz _.
  destruct ssi; [by apply wp_ret|].
  assert (list_size w2 = list_size w) as E by (unfold list_size; congruence).
  apply wp_bind, wp_do_mvdown; [by rewrite E|]. intros err' next' w3 Hsz'.
  destruct (err' <=? 0) eqn:Ee; [by apply wp_ret|].
  destruct next'; [by apply wp_ret|].
  apply wp_bind, wp_stbr_get. intros x. apply wp_bind, wp_test_usage. intros [];
    [|by apply wp_ret].
  bool_lia. rewrite E in Hsz'. apply IH; lia.
Qed.
End mvdown_wp.

(** ** The outcome of one move *)

(** The status and [*done] that the errno of AUFS_CTL_MVDOWN leads to. *)
Definition mvdown1_outcome (e : Z) : Z * bool :=
  if (e =? 0) || (e =? EROFS) then (0, true)
  else if (e =? EBUSY) || (e =? EINVAL) then (0, false)
  else (-1, false).

Section mvdown_props.
Context {K : Type} `{!AufsKernel K}.
Notation world := (world K fhsmd).
Implicit Types w : world.

Lemma close_keep_ok (w : world) fd :
  w_faults w = [] ->
  close_keep fd w = (Ret tt, set_fds (delete fd (w_fds w)) w).
Proof.
  intros H. unfold close_keep. rewrite bind_gets.
  rewrite (bind_run _ _ _ _ _ (close_ok w fd H)). by destruct w.
Qed.

(** What a handler that opened one descriptor and closed it again leaves alone *)
Definition fd_closed (w w' : world) : Prop :=
  w_faults w' = [] /\ w_nextfd w' = w_nextfd w + 1 /\
  forall fd, fd < w_nextfd w -> w_fds w' !! fd = w_fds w !! fd.

Lemma fds_closed {A} (fds : gmap Z A) n x fd : fd < n -> delete n (<[n := x]> fds) !! fd = fds !! fd.
Proof. intros H. by rewrite lookup_delete_ne, lookup_insert_ne by lia. Qed.

Ltac close_done :=
  eexists; split; [reflexivity|];
  repeat match goal with
  | |- fd_closed _ _ => split; [done|]; split; [done|]; intros ? ?; by apply fds_closed
  | |- _ /\ _ => split
  | |- _ => done
  end.

(** What do_mvdown1() makes of the kernel's answer when nothing else fails: success
    and EROFS count as done; EBUSY and EINVAL skip the file; any other errno stops the
    child.  Only a busy file that is still singly linked is queued for a later retry,
    by appending exactly its record to the fail-file; no other file changes. *)
Theorem do_mvdown1_correct w e mv k1 k2 fp c :
  let d := w_glob w in
  let name := fn_name (d_fname d) in
  w_faults w = [] ->
  k_openat name (w_kern w) = (0, k1) -> k_mvdown name (d_mvdown d) k1 = ((e, mv), k2) ->
  d_failfd d < w_nextfd w -> w_fds w !! d_failfd d = Some fp -> w_files w !! fp = Some c ->
  exists w', do_mvdown1 w = (Ret (mvdown1_outcome e), w') /\
    w_glob w' = dset_mvdown mv d /\
    w_files w' = (if (e =? EBUSY) && (k_nlink name k2 =? 1)
                 then <[fp := c ++ fn_atime (d_fname d) ++ [NUL]]> (w_files w)
                 else w_files w) /\
    w_kern w' = k2 /\ fd_closed w w'.
Proof.
  intros d name Hf Ho Hm Hlt Hfd Hc. unfold do_mvdown1. rewrite bind_gd. fold d name.
  rewrite (bind_run _ _ w 0 (set_kern k1 w)) by (unfold kernel; by rewrite Ho).
  change (truth 0) with false. cbv iota.
  set (fd := w_nextfd w).
  set (w1 := set_fds (<[fd := name]> (w_fds w)) (set_nextfd (fd + 1) (set_kern k1 w))).
  rewrite (bind_run _ _ _ fd w1) by done. rewrite bind_gd.
  rewrite (bind_run _ _ w1 (e, mv) (set_kern k2 w1))
    by (unfold kernel; change (w_kern w1) with k1; change (w_glob w1) with d;
        by rewrite Hm).
  cbv beta iota. rewrite bind_md. set (w2 := set_glob _ _).
  assert (w_faults w2 = []) as Hf2 by done.
  unfold mvdown1_outcome, truth. destruct (Z.eqb_spec e 0) as [->|H0]; cbn [negb orb].
  { rewrite (bind_run _ _ _ _ _ (close_ok w2 fd Hf2)). close_done. }
  unfold put_errno. rewrite bind_modify. set (w3 := set_errno e w2).
  assert (w_faults w3 = []) as Hf3 by done.
  destruct (Z.eqb_spec e EROFS) as [->|H1].
  { rewrite (bind_run _ _ _ _ _ (close_ok w3 fd Hf3)). close_done. }
  destruct (Z.eqb_spec e EBUSY) as [->|H2]; cbn [orb andb].
  { rewrite (fallible_run w3 Hf3). cbn [Z.eqb negb]. rewrite bind_gets. cbv beta. rewrite bind_gd.
    change (w_kern w3) with k2.
    destruct (_ =? 1) eqn:El.
    - unfold au_fname_failed. cbv zeta.
      set (rec := fn_atime (d_fname d) ++ [NUL]).
      assert (w_fds w3 !! d_failfd (w_glob w3) = Some fp) as Hfd3.
      { cbn. rewrite lookup_insert_ne; [done|]. unfold fd. fold d. lia. }
      rewrite bind_assoc.
      rewrite (bind_run _ _ _ _ _ (write_ok w3 _ fp c _ Hf3 Hfd3 Hc)).
      rewrite Z.eqb_refl, bind_ret. cbn [truth Z.eqb negb]. set (w4 := set_files _ w3).
      rewrite (bind_run _ _ _ _ _ (close_ok w4 fd Hf3)).
      close_done.
    - rewrite bind_ret. cbn [Z.eqb negb].
      rewrite (bind_run _ _ _ _ _ (close_ok w3 fd Hf3)). close_done. }
  destruct (Z.eqb_spec e EINVAL) as [->|H3].
  { rewrite (bind_run _ _ _ _ _ (close_ok w3 fd Hf3)). close_done. }
  rewrite (bind_run _ _ _ _ _ (close_keep_ok w3 fd Hf3)). close_done.
Qed.

Lemma comm_get_ptr w c : d_comm (w_glob w) = CPtr c -> comm_get w = (Ret c, w).
Proof. intros H. unfold comm_get, gd. rewrite bind_gets. by rewrite H. Qed.

Lemma stbr_get_ptr w c i x :
  d_comm (w_glob w) = CPtr c -> c_stbr c !! i = Some x -> stbr_get i w = (Ret x, w).
Proof.
  intros H Hi. unfold stbr_get. rewrite (bind_run _ _ _ _ _ (comm_get_ptr w c H)).
  by rewrite Hi.
Qed.

Lemma stbr_put_ptr w c i x :
  d_comm (w_glob w) = CPtr c ->
  stbr_put i x w =
    (Ret tt, set_glob (dset_comm (CPtr (Comm (c_msg c) (c_nstbr c) (<[i := x]> (c_stbr c))))
                         (w_glob w)) w).
Proof.
  intros H. unfold stbr_put. by rewrite (bind_run _ _ _ _ _ (comm_get_ptr w c H)).
Qed.

(** Truncating a file to a prefix, as ftruncate_() computes it. *)
Lemma truncate_last (c r : bytes) :
  take (Z.to_nat (Z.of_nat (length c))) (c ++ r)
    ++ replicate (Z.to_nat (Z.of_nat (length c)) - length (c ++ r)) NUL = c.
Proof.
  rewrite Nat2Z.id, take_app_length.
  replace (_ - _)%nat with O by (rewrite length_app; lia). apply app_nil_r.
Qed.

(** A successful move, as do_mvdown1() reports it. *)
Lemma do_mvdown1_moved w mv k1 k2 :
  let d := w_glob w in
  let name := fn_name (d_fname d) in
  w_faults w = [] ->
  k_openat name (w_kern w) = (0, k1) -> k_mvdown name (d_mvdown d) k1 = ((0, mv), k2) ->
  do_mvdown1 w =
    (Ret (0, true),
     set_kern k2 (set_glob (dset_mvdown mv d)
       (set_fds (delete (w_nextfd w) (<[w_nextfd w := name]> (w_fds w)))
          (set_nextfd (w_nextfd w + 1) w)))).
Proof.
  intros d name Hf Ho Hm. unfold do_mvdown1. rewrite bind_gd. fold d name.
  rewrite (bind_run _ _ w 0 (set_kern k1 w)) by (unfold kernel; by rewrite Ho).
  change (truth 0) with false. cbv iota. set (fd := w_nextfd w).
  set (w1 := set_fds (<[fd := name]> (w_fds w)) (set_nextfd (fd + 1) (set_kern k1 w))).
  rewrite (bind_run _ _ _ fd w1) by done. rewrite bind_gd.
  rewrite (bind_run _ _ w1 (0, mv) (set_kern k2 w1))
    by (unfold kernel; change (w_kern w1) with k1; change (w_glob w1) with d;
        by rewrite Hm).
  cbv beta iota. rewrite bind_md. set (w2 := set_glob _ _).
  change (negb (truth 0)) with true. cbv iota.
  by rewrite (bind_run _ _ _ _ _ (close_ok w2 fd Hf)).
Qed.

(** The last record of the list, as do_mvdown() takes it *)
Lemma do_mvdown_last cur w c s recs atime sz name lp :
  let d := w_glob w in
  let rec := fmt_record atime sz name in
  let o := records_bytes (recs ++ [rec]) in
  w_faults w = [] ->
  NUL ∉ rec -> " "%char ∉ atime -> " "%char ∉ sz -> Z.of_nat (length o) < 2 ^ 31 - 1 ->
  w_fds w !! d_listfd d = Some lp -> w_files w !! lp = Some o ->
  d_listsz d = Z.of_nat (length o) -> d_comm d = CPtr c -> c_stbr c !! cur = Some s ->
  let fname := Fname rec (sz ++ " "%char :: name) name (Z.of_nat (length rec) + 1) in
  do_mvdown cur w =
    ('(err, done) ← do_mvdown1;
     do_mvdown_cut cur (d_listfd d) (Z.of_nat (length o)) (Z.of_nat (length rec) + 1) err done)
      (set_glob (dset_mvdown (mvdown_request (st_brid s) (d_mvdown d)) (dset_fname fname d)) w).
Proof.
  intros d rec o Hf HN Ha Hsz Hl Hfd Hfile Hls Hc Hs fname.
  assert (o = records_bytes recs ++ rec ++ [NUL]) as Eo by apply records_bytes_snoc.
  assert (Z.of_nat (length rec) < 2 ^ 31 - 1) as Hr by (rewrite Eo, !length_app in Hl; lia).
  pose proof (fname_one_record recs atime sz name HN Ha Hsz Hr) as Hrec.
  cbv zeta in Hrec. fold rec o fname in Hrec.
  unfold do_mvdown. rewrite !bind_gd. fold d.
  rewrite (bind_run _ _ _ _ _ (file_of_run w _ lp o Hfd Hfile)).
  rewrite Hls, Nat2Z.id, Hrec, bind_md. set (w1 := set_glob _ w).
  by rewrite (bind_run _ _ _ _ _ (stbr_get_ptr w1 c cur s Hc Hs)), bind_md.
Qed.

(** Cutting the last record off the list file, for both ends of do_mvdown_cut() *)
Lemma cut_list (w : world) fd lp recs rec :
  let o := records_bytes (recs ++ [rec]) in
  w_faults w = [] -> w_fds w !! fd = Some lp -> w_files w !! lp = Some o ->
  ftruncate_ fd (Z.of_nat (length o) - (Z.of_nat (length rec) + 1)) w =
    (Ret 0, set_files (<[lp := records_bytes recs]> (w_files w)) w) /\
  Z.of_nat (length o) - (Z.of_nat (length rec) + 1) = Z.of_nat (length (records_bytes recs)).
Proof.
  intros o Hf Hfd Hfile.
  assert (o = records_bytes recs ++ rec ++ [NUL]) as Eo by apply records_bytes_snoc.
  assert (Z.of_nat (length o) - (Z.of_nat (length rec) + 1)
    = Z.of_nat (length (records_bytes recs))) as -> by (rewrite Eo, !length_app; simpl; lia).
  split; [|done]. rewrite (ftruncate_ok w fd lp o (Z.of_nat (length (records_bytes recs))))
    by (done || lia).
  by rewrite Eo, truncate_last.
Qed.

(** A skipped record that is not the last of the list *)
Lemma cut_skipped cur (w : world) lp recs rec :
  let o := records_bytes (recs ++ [rec]) in
  let n := Z.of_nat (length (records_bytes recs)) in
  w_faults w = [] -> w_fds w !! d_listfd (w_glob w) = Some lp -> w_files w !! lp = Some o ->
  0 < n ->
  do_mvdown_cut cur (d_listfd (w_glob w)) (Z.of_nat (length o)) (Z.of_nat (length rec) + 1) 0 false w
  = (Ret (1, None), set_glob (dset_listsz n (w_glob w))
       (set_files (<[lp := records_bytes recs]> (w_files w)) w)).
Proof.
  intros o n Hf Hfd Hfile Hn. destruct (cut_list w _ lp recs rec Hf Hfd Hfile) as [E El].
  fold o in E, El. unfold do_mvdown_cut. change (truth 0) with false. cbv iota.
  rewrite (bind_run _ _ _ _ _ E). change (truth 0) with false. cbv iota zeta.
  rewrite bind_md, El. fold n. unfold truth. by rewrite (proj2 (Z.eqb_neq n 0)) by lia.
Qed.

(** A record that was moved: the statistics that do_mvdown() stores, and the next branch *)
Definition moved_stbr (cur : nat) (s : aufs_stbr) (c : aufhsmd_comm) (mv : aufs_mvdown) :=
  <[cur := Stbr (st_brid s) (st_bindex s) (st_stfs (mv_upper mv))]> (c_stbr c).
Definition moved_next (cur : nat) (s : aufs_stbr) (c : aufhsmd_comm) (mv : aufs_mvdown) :=
  if truth (Z.land (mv_flags mv) AUFS_MVDOWN_BOTTOM) then None
  else au_stbr_bsearch (st_brid (mv_lower mv)) (moved_stbr cur s c mv) (c_nstbr c).
Definition moved_comm (cur : nat) (s : aufs_stbr) (c : aufhsmd_comm) (mv : aufs_mvdown) :=
  Comm (c_msg c) (c_nstbr c)
    (match moved_next cur s c mv with
     | Some i => <[i := mv_lower mv]> (moved_stbr cur s c mv)
     | None => moved_stbr cur s c mv
     end).

Lemma cut_moved cur (w : world) c s lp recs rec :
  let o := records_bytes (recs ++ [rec]) in
  let mv := d_mvdown (w_glob w) in
  w_faults w = [] -> w_fds w !! d_listfd (w_glob w) = Some lp -> w_files w !! lp = Some o ->
  d_comm (w_glob w) = CPtr c -> c_stbr c !! cur = Some s ->
  st_brid (mv_upper mv) = st_brid s ->
  truth (Z.land (mv_flags mv) AUFS_MVDOWN_STFS_FAILED) = false ->
  do_mvdown_cut cur (d_listfd (w_glob w)) (Z.of_nat (length o)) (Z.of_nat (length rec) + 1) 0 true w
  = (Ret (0, moved_next cur s c mv),
     set_glob (dset_comm (CPtr (moved_comm cur s c mv))
         (dset_listsz (Z.of_nat (length (records_bytes recs))) (w_glob w)))
       (set_files (<[lp := records_bytes recs]> (w_files w)) w)).
Proof.
  intros o mv Hf Hfd Hfile Hc Hs Hup Hst.
  destruct (cut_list w _ lp recs rec Hf Hfd Hfile) as [E El]. fold o in E, El.
  unfold do_mvdown_cut. change (truth 0) with false. cbv iota.
  rewrite (bind_run _ _ _ _ _ E). change (truth 0) with false. cbv iota zeta.
  rewrite bind_md, El. change (negb true) with false. rewrite Bool.andb_false_r. cbv iota.
  rewrite bind_gd. set (w4 := set_glob _ _). change (d_mvdown (w_glob w4)) with mv. rewrite Hst.
  rewrite (bind_run _ _ _ _ _ (stbr_get_ptr w4 c cur s Hc Hs)).
  rewrite (bind_run _ _ _ _ _ (stbr_put_ptr w4 c cur _ Hc)).
  rewrite Hup, Z.eqb_refl. cbn [negb]. unfold moved_comm, moved_next. fold (moved_stbr cur s c mv).
  destruct (truth (Z.land (mv_flags mv) AUFS_MVDOWN_BOTTOM)); [done|].
  set (c5 := Comm (c_msg c) (c_nstbr c) _). set (w5 := set_glob _ w4).
  rewrite (bind_run _ _ _ _ _ (comm_get_ptr w5 c5 eq_refl)). cbn [c_stbr c_nstbr c5].
  destruct (au_stbr_bsearch _ _ _) as [i|]; [|done].
  by rewrite (bind_run _ _ _ _ _ (stbr_put_ptr w5 c5 i _ eq_refl)).
Qed.

(** A successful move, end to end: do_mvdown() takes the last record of the list,
    hands its path to the kernel with the source branch and the FHSM flags, cuts exactly
    that record off the list file, and stores the kernel's new statistics of the source
    branch and, unless the target is the bottom branch, those of the target branch found
    by its id, which becomes the next branch to examine. *)
Theorem do_mvdown_moves cur w c s recs atime sz name mv k1 k2 lp :
  let d := w_glob w in
  let o := records_bytes (recs ++ [fmt_record atime sz name]) in
  w_faults w = [] ->
  NUL ∉ fmt_record atime sz name -> " "%char ∉ atime -> " "%char ∉ sz ->
  Z.of_nat (length o) < 2 ^ 31 - 1 ->
  d_listfd d < w_nextfd w -> w_fds w !! d_listfd d = Some lp ->
  w_files w !! lp = Some o -> d_listsz d = Z.of_nat (length o) ->
  d_comm d = CPtr c -> c_stbr c !! cur = Some s ->
  k_openat name (w_kern w) = (0, k1) ->
  k_mvdown name (mvdown_request (st_brid s) (d_mvdown d)) k1 = ((0, mv), k2) ->
  st_brid (mv_upper mv) = st_brid s ->
  truth (Z.land (mv_flags mv) AUFS_MVDOWN_STFS_FAILED) = false ->
  exists w', do_mvdown cur w = (Ret (0, moved_next cur s c mv), w') /\
    w_files w' = <[lp := records_bytes recs]> (w_files w) /\
    list_size w' = Z.of_nat (length (records_bytes recs)) /\
    d_comm (w_glob w') = CPtr (moved_comm cur s c mv) /\ w_kern w' = k2 /\ fd_closed w w'.
Proof.
  intros d o Hf HN Ha Hsz Hl Hlt Hfd Hfile Hls Hc Hs Ho Hm Hup Hst.
  rewrite (do_mvdown_last cur w c s recs atime sz name lp) by done.
  set (w2 := set_glob _ w).
  rewrite (bind_run _ _ _ _ _ (do_mvdown1_moved w2 mv k1 k2 Hf Ho Hm)). set (w3 := set_kern k2 _).
  assert (w_fds w3 !! d_listfd d = Some lp) as Hfd3 by (cbn; by rewrite fds_closed).
  pose proof (cut_moved cur w3 c s lp recs (fmt_record atime sz name) Hf Hfd3 Hfile Hc Hs Hup Hst)
    as E.
  eexists. split; [exact E|]. close_done.
Qed.
End mvdown_props.

(** A filesystem without inode numbers (f_files = f_ffree = 0) divides zero by zero. *)
Lemma f32_div_zero_nan : f32_is_nan (f32_div (f32_of_Z 0) (f32_of_Z 0)) = true.
Proof. vm_compute. reflexivity. Qed.

(** On a filesystem that reports no inodes at all, the inode watermark never starts
    a move-down: 0/0 is NaN, and test_usage() decides by the block watermark alone. *)
Theorem usage_zero_inodes wm s :
  f_files s = 0 -> f_ffree s = 0 ->
  usage_exceeded wm s =
    f32_ltb (f32_div (f32_of_Z (f_bavail s)) (f32_of_Z (f_blocks s))) (wm_block wm).1.
Proof.
  intros H1 H2. unfold usage_exceeded. rewrite H1, H2.
  rewrite (f32_ltb_nan_l _ _ f32_div_zero_nan), Bool.andb_false_r, Bool.orb_false_r. done.
Qed.

(** A branch of 1000 blocks with 100 free, watermark 0.5. *)
Lemma usage_zero_inodes_witness :
  usage_exceeded (Wmark 1 (0x3f000000, 0x3f400000) (0x3f000000, 0x3f400000))
    (Stfs 1000 100 0 0) = true.
Proof.
  rewrite (usage_zero_inodes
    (Wmark 1 (0x3f000000, 0x3f400000) (0x3f000000, 0x3f400000)) (Stfs 1000 100 0 0)
    eq_refl eq_refl).
  vm_compute. reflexivity.
Defined.

(** ** A concrete daemon in the middle of a move-down *)

Module MvDemo.
Definition rec1 : bytes := lit "1 8 x".
Definition list1 : bytes := records_bytes [rec1; fmt_record (lit "2") (lit "16") (lit "a b")].
Definition stbr1 : list aufs_stbr := [Stbr 1 0 (Stfs 100 10 0 0); Stbr 3 2 (Stfs 100 90 0 0)].
Definition request : aufs_mvdown := Mvdown 0 (Stbr 1 0 (Stfs 100 20 0 0))
  (Stbr 3 2 (Stfs 100 80 0 0)) 0.
Definition d1 : fhsmd :=
  Fhsmd (Some (Aufhsm [] 0 1 [Wmark 1 (0x3f000000, 0x3f400000) (F32_1, F32_1)]))
    (CPtr (Comm 0 2 stbr1)) 0 [] [] [] None 5 6 (Z.of_nat (length list1)) request
    (Fname (lit "2 16 a b") (lit "16 a b") (lit "a b") 9) [] [] [4; 0; 0; 0; 0].
Definition w1 : world unit fhsmd :=
  World 0 [] tt d1 ∅ (<[lit "/l" := list1]> (<[lit "/f" := []]> ∅))
    (<[5 := lit "/l"]> (<[6 := lit "/f"]> ∅)) 7 ∅ [] [] [].

Definition busy_kernel : AufsKernel unit :=
  {| k_is_aufs _ := true; k_dev _ := (0, 42); k_ino _ := 2; k_br_count k := ((0, 0), k);
     k_br_fill _ k := ((0, []), k); k_wbr_fd _ k := ((0, lit "/rw"), k);
     k_openat _ k := (0, k); k_nlink _ _ := 1; k_mvdown _ m k := ((EBUSY, m), k);
     k_fhsm_fd k := ((3, 0), k); k_fhsm_read _ k := ((0, []), k);
     k_list_cmd _ k := ((0, []), k) |}.
End MvDemo.
Import Demo.

Lemma do_mvdown_moves_witness :
  exists w', do_mvdown 0 MvDemo.w1 = (Ret (0, Some 1%nat), w') /\
    w_files w' = <[lit "/l" := records_bytes [MvDemo.rec1]]> (w_files MvDemo.w1) /\
    list_size w' = 6 /\
    d_comm (w_glob w') = CPtr (Comm 0 2 [Stbr 1 0 (Stfs 100 20 0 0); Stbr 3 2 (Stfs 100 80 0 0)]).
Proof.
  destruct (do_mvdown_moves 0 MvDemo.w1 (Comm 0 2 MvDemo.stbr1)
           (Stbr 1 0 (Stfs 100 10 0 0)) [MvDemo.rec1] (lit "2") (lit "16") (lit "a b")
           (mvdown_request 1 MvDemo.request) tt tt (lit "/l")) as (w' & H1 & H2 & H3 & H4 & _);
    try (vm_compute; reflexivity); try (apply (bool_decide_unpack _); vm_compute; exact Logic.I).
  exists w'. split_and!; [exact H1|exact H2|exact H3|exact H4].
Defined.

Lemma do_mvdown1_correct_witness :
  exists w', @do_mvdown1 unit MvDemo.busy_kernel MvDemo.w1 = (Ret (0, false), w') /\
    w_glob w' = dset_mvdown MvDemo.request MvDemo.d1 /\
    w_files w' = <[lit "/f" := lit "2 16 a b" ++ [NUL]]> (w_files MvDemo.w1).
Proof.
  destruct (@do_mvdown1_correct unit MvDemo.busy_kernel MvDemo.w1 EBUSY MvDemo.request tt tt
    (lit "/f") []) as (w' & H1 & H2 & H3 & _); try (vm_compute; reflexivity).
  exists w'. split_and!; [exact H1|exact H2|exact H3].
Defined.

Lemma mvdown_loop_terminates_witness :
  (mvdown_loop 15 0 0 None MvDemo.w1).1 <> NoFuel.
Proof.
  apply (mvdown_loop_terminates 15 0 0 None MvDemo.w1).
  - split; vm_compute; reflexivity.
  - apply (bool_decide_unpack _); vm_compute; exact Logic.I.
Defined.

(** ** What a move-down does to the operations in progress *)

Section mvdown_pres.
Context {K : Type} `{!AufsKernel K}.
Context (P : list in_ope -> list (option siginfo) -> list Z -> Prop).
Hypothesis P_sig : forall ops x sg f, P ops (x :: sg) f -> P ops sg f.
Hypothesis P_fork : forall ops sg p f, P ops sg (p :: f) -> P ops sg f.
Notation inv := (@ops_inv K P).

Lemma pres_do_mvdown1 : preserves inv do_mvdown1.
Proof. unfold do_mvdown1. pres. Qed.
Lemma pres_test_usage s : preserves inv (test_usage s).
Proof. unfold test_usage. pres. Qed.
#[local] Hint Resolve pres_do_mvdown1 pres_test_usage : pres.
Lemma pres_do_mvdown cur : preserves inv (do_mvdown cur).
Proof. unfold do_mvdown, do_mvdown_cut. pres. Qed.
#[local] Hint Resolve pres_do_mvdown : pres.
Lemma pres_mvdown_loop fuel cur err next : preserves inv (mvdown_loop fuel cur err next).
Proof.
  revert err next; induction fuel as [|fuel IH]; intros err next; cbn [mvdown_loop]; [pres|].
  apply preserves_bind; [pres|]. intros msg. apply preserves_if; [pres|].
  apply preserves_bind; [by apply pres_read_signal|]. intros ssi. pres.
Qed.
#[local] Hint Resolve pres_mvdown_loop : pres.
Lemma pres_mvdown_child prog cur : preserves inv (mvdown_child prog cur).
Proof.
  unfold mvdown_child. pres. apply (pres_au_list _); eauto.
Qed.
#[local] Hint Resolve pres_mvdown_child : pres.

(** A new operation is added for a branch that has none. *)
Hypothesis P_add : forall brid pid ops sg f,
  brid ∉ map io_brid ops -> P ops sg f -> P (InOpe brid pid :: ops) sg f.

Lemma fork_run (w : world K fhsmd) :
  exists pid w', fork_ w = (Ret pid, w') /\ w_glob w' = w_glob w /\
    forall ops sg, P ops sg (w_forks w) -> P ops sg (w_forks w').
Proof.
  unfold fork_. destruct (w_forks w) as [|p fs] eqn:E; eexists _, _; (split; [done|]);
    (split; [done|]); simpl; rewrite ?E; eauto.
Qed.

(** The part after the branch was found idle. *)
Lemma pres_start prog cur brid (w : world K fhsmd) :
  brid ∉ map io_brid (d_in_ope (w_glob w)) -> inv w ->
  inv ((md (fun d => dset_in_ope (InOpe brid 0 :: d_in_ope d) d) ;;
        pid ← fork_;
        if pid =? 0 then
          '(err, _) ← mvdown_child prog cur; exit_ (u8 err)
        else if 0 <? pid then
          md (fun d => dset_in_ope (match d_in_ope d with
                                    | io :: r => InOpe (io_brid io) pid :: r
                                    | [] => []
                                    end) d) ;;
          mret (0, None)
        else mret (pid, None) : M (world K fhsmd) (Z * option nat)) w).2.
Proof.
  intros Hn Hw. rewrite bind_md. set (w2 := set_glob _ w).
  destruct (fork_run w2) as (pid & w3 & E3 & Eg & HP).
  rewrite (bind_run _ _ _ _ _ E3).
  assert (forall p, P (InOpe brid p :: d_in_ope (w_glob w)) (d_sigs (w_glob w)) (w_forks w3))
    as Hadd by (intros p; by apply HP, P_add).
  assert (inv w3) as H3 by (unfold ops_inv, glob_inv; rewrite Eg; apply Hadd).
  destruct (pid =? 0).
  { apply preserves_bind; [apply pres_mvdown_child| |done]. intros []. pres. }
  destruct (0 <? pid); [|done].
  rewrite bind_md. unfold ops_inv, glob_inv. simpl. rewrite Eg. simpl. apply Hadd.
Qed.

Lemma pres_au_mvdown_run prog cur : preserves inv (au_mvdown_run prog cur).
Proof.
  unfold au_mvdown_run.
  apply preserves_bind; [pres|]. intros s. apply preserves_bind; [pres|]. intros u.
  apply preserves_if; [pres|]. apply preserves_bind; [pres|]. intros opt.
  apply preserves_if; [|pres].
  intros w Hw. rewrite bind_gd. destruct (existsb _ _) eqn:Eb; [done|].
  assert (st_brid s ∉ map io_brid (d_in_ope (w_glob w))) as Hn.
  { intros (io & Hio & Hin)%list_elem_of_In%in_map_iff.
    rewrite <- Bool.not_true_iff_false, existsb_exists in Eb. apply Eb.
    exists io. split; [done|]. by apply Z.eqb_eq. }
  pose proof (pres_sys P fallible ltac:(intros; apply pres_fallible) w Hw) as Hf.
  pose proof (mute_fallible false w) as Hm. unfold wp in Hm.
  destruct (fallible w) as [[m| | |] w1] eqn:Ef;
    [rewrite (bind_run _ _ _ _ _ Ef)|by unfold mbind, M_bind; rewrite Ef..].
  destruct Hm as [[Eg _] _]. simpl in Hf. destruct (truth m); [done|].
  apply pres_start; [by rewrite Eg|done].
Qed.
End mvdown_pres.
