(* ===== verification/Event.v ===== *)
(** * fhsm/event.c: the daemon's event loop

    What epoll_wait(2) returns is an input of the loop, a list of its successive
    results; the loop runs dry ([NoFuel]) when it asks for more than that. *)
From S2P Require Import Prelude CString LibcSort AufsType FhsmData Sys Shm Fhsm.
From S2P Require Import FhsmList Daemon Msg Mvdown.

Definition stbr_zero : aufs_stbr := Stbr 0 0 (Stfs 0 0 0 0).

(** The elements of [comm->stbr] that a mapping of [len] bytes has room for. *)
Definition stbr_room (len : Z) : nat :=
  Z.to_nat ((page_round len - sizeof_comm) / sizeof_stbr).

(** One return of epoll_wait(2): an errno, or the descriptors that are ready. *)
Inductive ep_result := EpErr (e : Z) | EpReady (fds : list Z).

(** list_for_each_entry and list_del: the entry with this pid goes. *)
Fixpoint del_pid (pid : Z) (l : list in_ope) : list in_ope * bool :=
  match l with
  | [] => ([], false)
  | io :: r => if io_pid io =? pid then (r, true)
               else let '(r', found) := del_pid pid r in (io :: r', found)
  end.

Definition WEXITSTATUS (status : Z) : Z := Z.land (Z.shiftr status 8) 255.

Section event.
Context {K : Type} `{!AufsKernel K} (prog : bytes).
Notation world := (world K fhsmd).

(** fhsmd_comm().  When au_shm_create() fails, [p] is returned as it is: never
    assigned, or MAP_FAILED. *)
Definition fhsmd_comm : M world comm_ptr :=
  l ← gd d_lcopy;
  match l with
  | None => ub "null dereference of fhsmd.lcopy"
  | Some l =>
      let len := au_fhsmd_comm_len (nwmark l) in
      name ← gd d_name_fhsmd;
      '(err, fd, _) ← au_shm_create name len;
      if truth err then mret CGarbage
      else
        let out_unmap : M world comm_ptr := _ ← fallible; mret CNull in
        err ← close_ fd;
        if truth err then out_unmap
        else
          err ← shm_unlink name;
          if truth err then out_unmap
          else mret (CPtr (Comm AuFhsm_MSG_NONE (nwmark l)
                             (replicate (stbr_room len) stbr_zero)))
  end.

Definition au_fhsmd_load : M world Z :=
  old ← gd d_lcopy;
  let n := match old with Some l => nwmark l | None => 0 end in
  name ← gd d_name_lcopy;
  new ← au_fhsm_load name;
  md (dset_lcopy new) ;;
  match new with
  | None => mret (-1)
  | Some l =>
      put_errno 0 ;;
      if nwmark l <? n then mret (-1)
      else
        c ← gd d_comm;
        '(err, msg) ← (match c with
                       | CNull => mret (0, AuFhsm_MSG_NONE)
                       | _ => c ← comm_get; err ← fallible; (* munmap *)
                              mret (err, c_msg c)
                       end);
        if truth err then mret err
        else
          p ← fhsmd_comm;
          md (dset_comm p) ;;
          match p with
          | CNull => mret (-1)
          | _ => c ← comm_get; comm_put (Comm msg (c_nstbr c) (c_stbr c)) ;; mret err
          end
  end.

(** The inner while-loop of handle_fhsm(): [err] and [me_again]. *)
Fixpoint follow_next (fuel : nat) (cur : nat) (me_again : bool) : M world (Z * bool) :=
  match fuel with
  | O => nofuel
  | S k =>
      '(err, next) ← au_mvdown_run prog cur;
      if truth err then mret (err, me_again)
      else match next with
           | None => mret (err, me_again)
           | Some i => if (i =? cur)%nat then ub "assertion failed" else follow_next k i true
           end
  end.

(** [for (i = 0; !err && i < n; i++, stbr++)] *)
Fixpoint each_stbr (fuel : nat) (i n : nat) (err : Z) : M world Z :=
  if negb (truth err) && (i <? n)%nat then
    match fuel with
    | O => nofuel
    | S k =>
        '(err, me_again) ← follow_next fuel i false;
        if negb (truth err) && me_again then each_stbr k i n err
        else each_stbr k (S i) n err
    end
  else mret err.

(** The kernel fills the front of [comm->stbr], at most [nstbr] elements. *)
Definition read_fhsm : M world (Z * nat) :=
  c ← comm_get;
  '(e, l) ← kernel (k_fhsm_read (c_nstbr c));
  if truth e then put_errno e ;; mret (-1, O)
  else
    let l := take (Z.to_nat (c_nstbr c)) l in
    comm_put (Comm (c_msg c) (c_nstbr c) (l ++ drop (length l) (c_stbr c))) ;;
    mret (0, length l).

Fixpoint handle_fhsm (fuel : nat) : M world Z :=
  match fuel with
  | O => nofuel
  | S k =>
      '(err, n) ← read_fhsm;
      if negb (truth err) then
        if (n =? 0)%nat then mret 0
        else put_errno 0 ;; each_stbr fuel 0 n 0
      else
        e ← gets w_errno;
        if e =? EMSGSIZE then
          err ← au_fhsmd_load;
          if truth err then mret err else handle_fhsm k
        else mret (-1)
  end.

(** read(2) on the message fifo: [None] is -1, with errno. *)
Definition read_msg : M world (option Z) :=
  e ← fallible;
  if truth e then mret None
  else
    fd ← fd_get AuFd_MSG;
    path ← fd_what fd;
    q ← gets (fun w => default [] (w_fifos w !! path));
    match q with
    | [] => put_errno EAGAIN ;; mret None
    | m :: r => modify (fun w => set_fifos (<[path := r]> (w_fifos w)) w) ;; mret (Some m)
    end.

(** handle_msg(): the status and [*msg_exit]. *)
Definition handle_msg : M world (Z * bool) :=
  m ← read_msg;
  match m with
  | None => e ← gets w_errno; mret (if e =? EAGAIN then 0 else -1, false)
  | Some msg =>
      if msg =? AuFhsm_MSG_READ then err ← au_fhsmd_load; mret (err, false)
      else if msg =? AuFhsm_MSG_EXIT then
        c ← comm_get;
        comm_put (Comm msg (c_nstbr c) (c_stbr c)) ;; mret (0, true)
      else mret (-1, false)
  end.

(** handle_sig(): the signal that should stop the daemon, and [*status]. *)
Definition handle_sig : M world (Z * option Z) :=
  ssi ← read_signal;
  match ssi with
  | None => e ← gets w_errno; mret (if e =? EAGAIN then 0 else -1, None)
  | Some ssi =>
      if ssi_signo ssi =? SIGCHLD then
        md (fun d => dset_in_ope (del_pid (ssi_pid ssi) (d_in_ope d)).1 d) ;;
        _ ← waitpid_ (ssi_pid ssi);
        mret (0, Some (ssi_status ssi)) (* also when waitpid fails: falls through *)
      else if ssi_signo ssi =? SIGHUP then mret (0, None)
      else mret (ssi_signo ssi, None)
  end.

Definition sigfd : M world Z :=
  err ← fallible; (* sigprocmask *)
  if truth err then mret err
  else open_ (lit "signalfd").

Definition au_ep_add (fd : Z) : M world Z := fallible.

Definition au_epsigfd : M world Z :=
  fd ← sigfd;
  fd_set AuFd_SIGNAL fd ;;
  if fd <? 0 then mret fd
  else
    ep ← open_ (lit "epoll");
    fd_set AuFd_EPOLL ep ;;
    if ep <? 0 then _ ← close_ fd; mret ep
    else
      err ← au_ep_add fd;
      if negb (truth err) then mret err
      else _ ← close_ ep; _ ← close_ fd; mret err.

(** The body of the loop over the ready descriptors: [err] and [done]. *)
Definition handle_event (fuel : nat) (fd : Z) (err : Z) (done : bool) : M world (Z * bool) :=
  fds ← gd d_fd;
  if fd =? default 0 (fds !! AuFd_SIGNAL) then
    '(sig, status) ← handle_sig;
    if sig =? SIGCHLD then mret (WEXITSTATUS (default 0 status), done)
    else mret (err, done || truth sig)
  else if fd =? default 0 (fds !! AuFd_MSG) then
    '(err, msg_exit) ← handle_msg;
    mret (err, done || (negb (truth err) && msg_exit))
  else if fd =? default 0 (fds !! AuFd_FHSM) then
    if done then mret (err, done)
    else err ← handle_fhsm fuel; mret (err, truth err)
  else put_errno ENOSYS ;; log_fin.

Fixpoint handle_events (fuel : nat) (fds : list Z) (err : Z) (done : bool)
  : M world (Z * bool) :=
  match fds with
  | [] => mret (err, done)
  | fd :: r =>
      '(err, done) ← handle_event fuel fd err done;
      handle_events fuel r err done
  end.

(** au_fhsmd_loop(), entered at the loop test with the current [err] and [done]. *)
Fixpoint fhsmd_loop (fuel : nat) (evs : list ep_result) (err : Z) (done : bool) : M world Z :=
  ops ← gd d_in_ope;
  if done && (match ops with [] => true | _ => false end) then mret err
  else
    match evs with
    | [] => nofuel
    | EpErr e :: r =>
        put_errno e ;;
        if e =? EINTR then fhsmd_loop fuel r err done else log_fin
    | EpReady fds :: r =>
        '(err, done) ← handle_events fuel (take 3 fds) err done;
        fhsmd_loop fuel r err done
    end.

Definition au_fhsmd_loop (fuel : nat) (evs : list ep_result) : M world Z :=
  fhsmd_loop fuel evs 0 false.
End event.

(** ** Invariants of the loop *)

Section event_pres.
Context {K : Type} `{!AufsKernel K} (prog : bytes).
Context (P : list in_ope -> list (option siginfo) -> list Z -> Prop).
Notation inv := (@ops_inv K P).

(** Reloading the watermarks and reading a message start and end no operation. *)
Lemma pres_fhsmd_comm : preserves inv fhsmd_comm.
Proof. unfold fhsmd_comm. pres. Qed.
#[local] Hint Resolve pres_fhsmd_comm : pres.
Lemma pres_au_fhsmd_load : preserves inv au_fhsmd_load.
Proof. unfold au_fhsmd_load. pres. Qed.
#[local] Hint Resolve pres_au_fhsmd_load : pres.
Lemma pres_read_msg : preserves inv read_msg.
Proof.
  unfold read_msg. pres; apply pres_sys; intros; pres.
Qed.
#[local] Hint Resolve pres_read_msg : pres.
Lemma pres_handle_msg : preserves inv handle_msg.
Proof. unfold handle_msg. pres; apply pres_sys; intros; pres. Qed.
#[local] Hint Resolve pres_handle_msg : pres.

Hypothesis P_sig : forall ops x sg f, P ops (x :: sg) f -> P ops sg f.
Hypothesis P_del : forall ops x sg f,
  ssi_signo x = SIGCHLD -> P ops (Some x :: sg) f -> P (del_pid (ssi_pid x) ops).1 sg f.

Lemma pres_handle_sig : preserves inv handle_sig.
Proof.
  intros w Hw. unfold handle_sig, read_signal. rewrite bind_assoc.
  pose proof (pres_sys P fallible ltac:(intros; apply pres_fallible) w Hw) as Hf.
  destruct (fallible w) as [[e| | |] w1] eqn:Ef;
    [rewrite (bind_run _ _ _ _ _ Ef)|by unfold mbind, M_bind; rewrite Ef..].
  simpl in Hf. destruct (truth e); [done|]. rewrite bind_assoc, bind_gd.
  unfold ops_inv, glob_inv in Hf.
  destruct (d_sigs (w_glob w1)) as [|[x|] r] eqn:Es.
  - unfold ops_inv, glob_inv. simpl. by rewrite Es.
  - rewrite bind_assoc, bind_md, bind_ret. set (w2 := set_glob _ w1).
    assert (inv w2) as H2 by (unfold ops_inv, glob_inv, w2; simpl; by eapply P_sig).
    destruct (Z.eqb_spec (ssi_signo x) SIGCHLD) as [Ec|_].
    + rewrite bind_md. set (w3 := set_glob _ w2).
      assert (inv w3) as H3 by (unfold ops_inv, glob_inv, w3; simpl; by apply P_del).
      apply preserves_bind; [|intros _; pres|exact H3].
      apply pres_sys; intros; pres.
    + by destruct (_ =? SIGHUP).
  - unfold ops_inv, glob_inv. simpl. by eapply P_sig.
Qed.
#[local] Hint Resolve pres_handle_sig : pres.

Hypothesis P_fork : forall ops sg p f, P ops sg (p :: f) -> P ops sg f.
Hypothesis P_add : forall brid pid ops sg f,
  brid ∉ map io_brid ops -> P ops sg f -> P (InOpe brid pid :: ops) sg f.

Lemma pres_follow_next fuel cur me : preserves inv (follow_next prog fuel cur me).
Proof.
  revert cur me; induction fuel as [|fuel IH]; intros cur me; cbn [follow_next]; [pres|].
  apply preserves_bind; [by apply pres_au_mvdown_run|]. intros []. pres.
Qed.
#[local] Hint Resolve pres_follow_next : pres.
Lemma pres_each_stbr fuel i n err : preserves inv (each_stbr prog fuel i n err).
Proof.
  revert i err; induction fuel as [|fuel IH]; intros i err; cbn [each_stbr].
  all: apply preserves_if; [|pres]. { pres. }
  apply preserves_bind; [pres|]. intros []. pres; apply IH.
Qed.
#[local] Hint Resolve pres_each_stbr : pres.
Lemma pres_read_fhsm : preserves inv read_fhsm.
Proof. unfold read_fhsm. pres. Qed.
#[local] Hint Resolve pres_read_fhsm : pres.
Lemma pres_handle_fhsm fuel : preserves inv (handle_fhsm prog fuel).
Proof.
  induction fuel as [|fuel IH]; [cbn [handle_fhsm]; pres|]. cbn [handle_fhsm].
  apply preserves_bind; [pres|]. intros [err n]. pres.
Qed.
#[local] Hint Resolve pres_handle_fhsm : pres.

Lemma pres_handle_event fuel fd err d : preserves inv (handle_event prog fuel fd err d).
Proof. unfold handle_event. pres. Qed.
#[local] Hint Resolve pres_handle_event : pres.
Lemma pres_handle_events fuel fds err d : preserves inv (handle_events prog fuel fds err d).
Proof.
  revert err d; induction fds as [|fd fds IH]; intros err d; cbn [handle_events]; [pres|].
  apply preserves_bind; [pres|]. intros []. apply IH.
Qed.
#[local] Hint Resolve pres_handle_events : pres.
Lemma pres_fhsmd_loop fuel evs err d : preserves inv (fhsmd_loop prog fuel evs err d).
Proof.
  revert err d; induction evs as [|ev evs IH]; intros err d; cbn [fhsmd_loop].
  - apply preserves_bind; [pres|]. intros ops. pres.
  - apply preserves_bind; [pres|]. intros ops. apply preserves_if; [pres|].
    destruct ev; (apply preserves_bind; [pres|]); [intros _|intros []; apply IH].
    apply preserves_if; [apply IH|pres].
Qed.
End event_pres.

(** ** Properties of the loop *)

Lemma del_pid_sublist pid l : sublist (del_pid pid l).1 l.
Proof.
  induction l as [|io l IH]; simpl; [done|].
  destruct (io_pid io =? pid); simpl; [by constructor|].
  destruct (del_pid pid l). simpl in *. by constructor.
Qed.

Lemma del_pid_keeps pid l io : io_pid io <> pid -> io ∈ l -> io ∈ (del_pid pid l).1.
Proof.
  intros Hne. induction l as [|x l IH]; simpl; [done|]. intros [->|H]%elem_of_cons.
  - rewrite (proj2 (Z.eqb_neq _ _)) by done. destruct (del_pid pid l). simpl. by left.
  - destruct (io_pid x =? pid); [done|]. destruct (del_pid pid l). simpl in *. right. auto.
Qed.

Definition one_per_branch (ops : list in_ope) : Prop := NoDup (map io_brid ops).

Section event_props.
Context {K : Type} `{!AufsKernel K} (prog : bytes).
Notation world := (world K fhsmd).
Implicit Types w : world.

(** C8. At most one move-down per branch: whatever the kernel answers, whichever calls
    fail and in whichever order events, messages and signals arrive, no two operations
    in progress are for the same branch, in the daemon and in the children it forks. *)
Theorem one_operation_per_branch fuel evs w :
  one_per_branch (d_in_ope (w_glob w)) ->
  one_per_branch (d_in_ope (w_glob (au_fhsmd_loop prog fuel evs w).2)).
Proof.
  intros H. unfold au_fhsmd_loop.
  apply (pres_fhsmd_loop prog (fun ops _ _ => one_per_branch ops)); try done.
  - intros ops x sg _ _. unfold one_per_branch. intros Hn.
    eapply sublist_NoDup; [done|]. apply fmap_sublist, del_pid_sublist.
  - intros brid pid ops _ _ Hb Hn. by constructor.
Qed.

Lemma fhsmd_loop_idle fuel evs e d w err w' :
  fhsmd_loop prog fuel evs e d w = (Ret err, w') -> d_in_ope (w_glob w') = [].
Proof.
  revert e d w. induction evs as [|ev evs IH]; intros e d w; cbn [fhsmd_loop];
    rewrite bind_gd; destruct (d && _) eqn:Ed; try discriminate.
  1,2: intros [= _ <-]; destruct (d_in_ope (w_glob w)); [done|by destruct d].
  destruct ev as [n|fds].
  - unfold put_errno. rewrite bind_modify. destruct (n =? EINTR); [apply IH|discriminate].
  - unfold mbind, M_bind. destruct (handle_events _ _ _ _ _ w) as [[[e1 d1]| | |] w1];
      try discriminate. apply IH.
Qed.

(** The daemon's loop ends only when no move-down is in progress. *)
Theorem loop_returns_idle fuel evs w err w' :
  au_fhsmd_loop prog fuel evs w = (Ret err, w') -> d_in_ope (w_glob w') = [].
Proof. apply fhsmd_loop_idle. Qed.

Lemma wp_true {A} (m : M world A) w : wp false m (fun _ _ => True) w.
Proof. unfold wp. by destruct (m w) as [[] ?]. Qed.

(** Once [done] is set it stays set. *)
Lemma handle_event_done fuel fd err w :
  wp false (handle_event prog fuel fd err true) (fun r _ => r.2 = true) w.
Proof.
  unfold handle_event. apply wp_bind, wp_gd.
  destruct (fd =? _).
  { apply wp_bind. eapply wp_mono; [apply wp_true|]. intros [sig st] w1 _. by destruct (sig =? _). }
  destruct (fd =? _).
  { apply wp_bind. eapply wp_mono; [apply wp_true|]. by intros [e ex] w1 _. }
  destruct (fd =? _); [done|]. apply wp_bind, wp_modify, wp_exit.
Qed.

(** Handling a signal or a message takes no new operation in. *)
Definition only_ends (ops0 : list in_ope) (f0 : list Z)
    (ops : list in_ope) (_ : list (option siginfo)) (f : list Z) : Prop :=
  f = f0 /\ sublist ops ops0.

Lemma handle_events_ends fuel fds err w ops0 f0 :
  ops_inv (only_ends ops0 f0) w ->
  let r := handle_events prog fuel fds err true w in
  ops_inv (only_ends ops0 f0) r.2 /\
  match r.1 with Ret (_, d) => d = true | _ => True end.
Proof.
  revert err w; induction fds as [|fd fds IH]; intros err w Hw; [done|].
  cbn [handle_events].
  assert (preserves (ops_inv (only_ends ops0 f0)) (handle_event prog fuel fd err true)) as Hp.
  { unfold handle_event. pres; try (intros []; pres).
    - apply pres_handle_sig; [done|]. intros ops x sg f _ [-> Hs]. split; [done|].
      etrans; [apply del_pid_sublist|done].
    - apply pres_handle_msg. }
  specialize (Hp w Hw). pose proof (handle_event_done fuel fd err w) as Hd.
  unfold wp in Hd. unfold mbind, M_bind.
  destruct (handle_event prog fuel fd err true w) as [[[e d]| | |] w1]; try done.
  simpl in *. subst d. by apply IH.
Qed.

Lemma fhsmd_loop_ends fuel evs err w ops0 f0 :
  ops_inv (only_ends ops0 f0) w -> ops_inv (only_ends ops0 f0) (fhsmd_loop prog fuel evs err true w).2.
Proof.
  revert err w; induction evs as [|ev evs IH]; intros err w Hw; cbn [fhsmd_loop];
    rewrite bind_gd; destruct (true && _); try done.
  destruct ev as [n|fds].
  - unfold put_errno. rewrite bind_modify. destruct (n =? EINTR); [by apply IH|done].
  - pose proof (handle_events_ends fuel (take 3 fds) err w ops0 f0 Hw) as [H1 H2].
    unfold mbind, M_bind.
    destruct (handle_events _ _ _ _ _ w) as [[[e1 d1]| | |] w1]; try done.
    simpl in *. subst d1. by apply IH.
Qed.

(** handle_sig() never returns SIGCHLD: the end of a child falls through to the ignored
    signals.  The loop's branch for SIGCHLD is dead, and the exit status of a move-down
    never reaches the daemon's own status. *)
Theorem child_status_lost w sig st w' :
  handle_sig w = (Ret (sig, st), w') -> sig <> SIGCHLD.
Proof.
  intros H. cut (wp false handle_sig (fun r _ => r.1 <> SIGCHLD) w).
  { intros Hw. by apply (wp_run _ _ _ _ _ _ Hw H). }
  clear H. unfold handle_sig. apply wp_bind, wp_read_signal. intros [x|] w1 _ _.
  - destruct (Z.eqb_spec (ssi_signo x) SIGCHLD) as [_|Hne].
    + apply wp_bind, wp_md, wp_bind. eapply wp_mono; [apply wp_true|]. by intros.
    + by destruct (_ =? SIGHUP); apply wp_ret.
  - apply wp_bind, wp_gets, wp_ret. by destruct (_ =? EAGAIN).
Qed.

(** What stops the daemon, with the world that its handler leaves: a signal other than
    SIGCHLD and SIGHUP (or an error of reading it), the message to exit, and an error of
    handle_fhsm().  An error of handle_msg() does not: see [failed_reload_crashes]. *)
Inductive stop_event (fuel : nat) (w : world) : Z -> world -> Prop :=
  | stop_signal fd sig st w1 :
      d_fd (w_glob w) !! AuFd_SIGNAL = Some fd -> handle_sig w = (Ret (sig, st), w1) -> sig <> 0 ->
      stop_event fuel w fd w1
  | stop_message fd fd_sig w1 :
      d_fd (w_glob w) !! AuFd_SIGNAL = Some fd_sig -> d_fd (w_glob w) !! AuFd_MSG = Some fd ->
      fd <> fd_sig -> handle_msg w = (Ret (0, true), w1) ->
      stop_event fuel w fd w1
  | stop_error fd fd_sig fd_msg e w1 :
      d_fd (w_glob w) !! AuFd_SIGNAL = Some fd_sig -> d_fd (w_glob w) !! AuFd_MSG = Some fd_msg ->
      d_fd (w_glob w) !! AuFd_FHSM = Some fd -> fd <> fd_sig -> fd <> fd_msg ->
      handle_fhsm prog fuel w = (Ret e, w1) -> e <> 0 ->
      stop_event fuel w fd w1.

Lemma handle_event_stops fuel fd w w1 err :
  stop_event fuel w fd w1 ->
  exists err1, handle_event prog fuel fd err false w = (Ret (err1, true), w1).
Proof.
  intros [fd' sig st w2 H1 E Hs|fd' fs w2 H1 H2 N1 E|fd' fs fm e w2 H1 H2 H3 N1 N2 E He];
    unfold handle_event; rewrite bind_gd, H1; cbn [default from_option id].
  - rewrite Z.eqb_refl, (bind_run _ _ _ _ _ E).
    rewrite (proj2 (Z.eqb_neq _ _)) by (by eapply child_status_lost). exists err.
    unfold truth. by rewrite (proj2 (Z.eqb_neq _ _)).
  - rewrite H2, (proj2 (Z.eqb_neq _ _)), Z.eqb_refl, (bind_run _ _ _ _ _ E) by done. by exists 0.
  - rewrite H2, H3, !(proj2 (Z.eqb_neq fd' _)), Z.eqb_refl, (bind_run _ _ _ _ _ E) by done.
    exists e. unfold truth. by rewrite (proj2 (Z.eqb_neq _ _)).
Qed.

(** C25. Once stopped, the daemon starts nothing new.  At any point of its loop, and
    wherever among the events of one epoll_wait(2), when a terminating signal arrives, the
    message to exit is read or handle_fhsm() fails, then whatever follows, notifications
    included and whichever calls fail, no further child is forked, and the operations in
    progress are at any later time some of those that were in progress then. *)
Theorem stopped_starts_nothing fuel fds1 fd fds2 evs err err0 w w0 w1 :
  (length fds1 < 3)%nat -> handle_events prog fuel fds1 err false w = (Ret (err0, false), w0) ->
  stop_event fuel w0 fd w1 ->
  let w' := (fhsmd_loop prog fuel (EpReady (fds1 ++ fd :: fds2) :: evs) err false w).2 in
  w_forks w' = w_forks w1 /\ sublist (d_in_ope (w_glob w')) (d_in_ope (w_glob w1)).
Proof.
  intros Hl E0 Hs w'. cut (ops_inv (only_ends (d_in_ope (w_glob w1)) (w_forks w1)) w'); [done|].
  subst w'. cbn [fhsmd_loop]. rewrite bind_gd. cbn [andb].
  destruct (handle_event_stops _ _ _ _ err0 Hs) as [err1 E1].
  assert (handle_events prog fuel (take 3 (fds1 ++ fd :: fds2)) err false w =
    handle_events prog fuel (take (2 - length fds1) fds2) err1 true w1) as Ev.
  { rewrite take_app_ge by lia. replace (3 - length fds1)%nat with (S (2 - length fds1)) by lia.
    cbn [take]. generalize (take (2 - length fds1) fds2). intros r. clear Hl. revert err w E0.
    induction fds1 as [|x fds1 IH]; intros err w; cbn [handle_events app].
    - intros [= -> ->]. by rewrite (bind_run _ _ _ _ _ E1).
    - unfold mbind, M_bind. destruct (handle_event _ _ _ _ _ w) as [[[e d]| | |] w2] eqn:Ex;
        try discriminate. destruct d; [|apply IH].
      intros E0. destruct (handle_events_ends fuel fds1 e w2 (d_in_ope (w_glob w2)) (w_forks w2))
        as [_ Hd]; [by split|]. by rewrite E0 in Hd. }
  pose proof (handle_events_ends fuel (take (2 - length fds1) fds2) err1 w1 _ _
    (conj eq_refl (reflexivity (d_in_ope (w_glob w1))))) as [H1 H2].
  unfold mbind, M_bind. rewrite Ev.
  destruct (handle_events _ _ _ _ _ w1) as [[[e d]| | |] w2]; try done.
  simpl in *. subst d. by apply fhsmd_loop_ends.
Qed.

(** An entry with pid 0 blocks the loop for ever. *)
Lemma stuck_entry fuel evs w brid :
  InOpe brid 0 ∈ d_in_ope (w_glob w) ->
  (forall si, Some si ∈ d_sigs (w_glob w) -> ssi_pid si <> 0) ->
  forall err d r, (fhsmd_loop prog fuel evs err d w).1 <> Ret r.
Proof.
  intros Hin Hs err d r Hr.
  pose (P := fun (ops : list in_ope) (sg : list (option siginfo)) (_ : list Z) =>
    InOpe brid 0 ∈ ops /\ forall si, Some si ∈ sg -> ssi_pid si <> 0).
  assert (ops_inv P (fhsmd_loop prog fuel evs err d w).2) as [H _].
  { apply pres_fhsmd_loop; unfold P.
    - intros ops x sg f [? Hx]. split; [done|]. intros si ?. apply Hx. by right.
    - intros ops x sg f _ [? Hx]. split.
      + apply del_pid_keeps; [|done]. simpl. intros E. by apply (Hx x); [left|].
      + intros si ?. apply Hx. by right.
    - done.
    - intros b pid ops sg f _ [? Hx]. split; [by right|done].
    - by split. }
  destruct (fhsmd_loop prog fuel evs err d w) as [r' w'] eqn:E. simpl in *. subst r'.
  rewrite (fhsmd_loop_idle _ _ _ _ _ _ _ E) in H. by apply not_elem_of_nil in H.
Qed.

(** C35. A failed fork(2) keeps the daemon alive for ever: au_mvdown_run() reports the error
    but leaves its entry, with pid 0, in the list; no SIGCHLD of a real child (whose pid is
    not 0) removes it, and the loop never returns, whatever follows, not even after the
    message to exit. *)
Theorem failed_fork_never_returns cur w s p r :
  w_faults w = [] -> stbr_get cur w = (Ret s, w) -> test_usage s w = (Ret true, w) ->
  au_opt_test (d_optflags (w_glob w)) OptFhsmd_NODAEMON = false ->
  existsb (fun io => io_brid io =? st_brid s) (d_in_ope (w_glob w)) = false ->
  w_forks w = p :: r -> p < 0 ->
  (forall si, Some si ∈ d_sigs (w_glob w) -> ssi_pid si <> 0) ->
  exists w', au_mvdown_run prog cur w = (Ret (p, None), w') /\
    forall fuel evs err d r, (fhsmd_loop prog fuel evs err d w').1 <> Ret r.
Proof.
  intros Hf Hs Hu Ho He Hfk Hp Hsig. unfold au_mvdown_run.
  rewrite (bind_run _ _ _ _ _ Hs), (bind_run _ _ _ _ _ Hu). cbn [negb].
  rewrite bind_gd, Ho. cbn [negb]. rewrite bind_gd, He.
  rewrite (bind_run _ _ _ _ _ (fallible_ok w Hf)). change (truth 0) with false. cbv iota.
  rewrite bind_md. set (w1 := set_glob _ w).
  rewrite (bind_run _ _ w1 p (set_forks r w1)) by (unfold fork_; unfold w1; simpl; by rewrite Hfk).
  rewrite (proj2 (Z.eqb_neq _ _)), (proj2 (Z.ltb_ge _ _)) by lia.
  eexists. split; [reflexivity|]. intros fuel evs err d r'.
  apply (stuck_entry fuel evs _ (st_brid s)); [left|exact Hsig].
Qed.

Lemma handle_event_msg fuel fd fd_sig w err d :
  d_fd (w_glob w) !! AuFd_SIGNAL = Some fd_sig -> d_fd (w_glob w) !! AuFd_MSG = Some fd ->
  fd <> fd_sig ->
  handle_event prog fuel fd err d w =
    ('(err, msg_exit) ← handle_msg; mret (err, d || (negb (truth err) && msg_exit))) w.
Proof.
  intros H1 H2 Hne. unfold handle_event. rewrite bind_gd, H1, H2. cbn [default from_option id].
  by rewrite (proj2 (Z.eqb_neq _ _)), Z.eqb_refl.
Qed.

Lemma handle_event_fhsm fuel fd fd_sig fd_msg w err :
  d_fd (w_glob w) !! AuFd_SIGNAL = Some fd_sig -> d_fd (w_glob w) !! AuFd_MSG = Some fd_msg ->
  d_fd (w_glob w) !! AuFd_FHSM = Some fd -> fd <> fd_sig -> fd <> fd_msg ->
  handle_event prog fuel fd err false w =
    (err ← handle_fhsm prog fuel; mret (err, truth err)) w.
Proof.
  intros H1 H2 H3 N1 N2. unfold handle_event. rewrite bind_gd, H1, H2, H3. cbn [default from_option id].
  by rewrite (proj2 (Z.eqb_neq fd fd_sig) N1), (proj2 (Z.eqb_neq fd fd_msg) N2), Z.eqb_refl.
Qed.

(** A message read from the fifo. *)
Lemma read_msg_run w fd path m q :
  w_faults w = [] -> d_fd (w_glob w) !! AuFd_MSG = Some fd -> w_fds w !! fd = Some path ->
  w_fifos w !! path = Some (m :: q) ->
  read_msg w = (Ret (Some m), set_fifos (<[path := q]> (w_fifos w)) w).
Proof.
  intros Hf Hm Hp Hq. unfold read_msg. rewrite (bind_run _ _ _ _ _ (fallible_ok w Hf)).
  change (truth 0) with false. cbv iota. unfold fd_get. rewrite bind_gd, Hm.
  unfold fd_what. rewrite bind_gets. cbn [default from_option id]. rewrite Hp, bind_gets.
  cbn [default from_option id]. by rewrite Hq.
Qed.

(** The message to exit *)
Lemma handle_msg_exit w fd path c :
  w_faults w = [] -> d_fd (w_glob w) !! AuFd_MSG = Some fd -> w_fds w !! fd = Some path ->
  w_fifos w !! path = Some [AuFhsm_MSG_EXIT] -> d_comm (w_glob w) = CPtr c ->
  handle_msg w = (Ret (0, true),
    set_glob (dset_comm (CPtr (Comm AuFhsm_MSG_EXIT (c_nstbr c) (c_stbr c))) (w_glob w))
      (set_fifos (<[path := []]> (w_fifos w)) w)).
Proof.
  intros Hf Hfd Hp Hq Hc. unfold handle_msg.
  rewrite (bind_run _ _ _ _ _ (read_msg_run w fd path _ [] Hf Hfd Hp Hq)). cbv beta iota.
  change (AuFhsm_MSG_EXIT =? AuFhsm_MSG_READ) with false.
  change (AuFhsm_MSG_EXIT =? AuFhsm_MSG_EXIT) with true. cbv iota.
  set (w1 := set_fifos _ w). by rewrite (bind_run _ _ _ _ _ (comm_get_ptr w1 c Hc)).
Qed.

(** Re-reading a table that is gone. *)
Lemma load_gone w :
  w_faults w = [] -> w_shm w !! d_name_lcopy (w_glob w) = None ->
  au_fhsmd_load w = (Ret (-1), set_glob (dset_lcopy None (w_glob w)) (set_errno ENOENT w)).
Proof.
  intros Hf Hs. unfold au_fhsmd_load. rewrite !bind_gd.
  assert (au_fhsm_load (d_name_lcopy (w_glob w)) w = (Ret None, set_errno ENOENT w)) as El.
  { unfold au_fhsm_load, fhsm_map, au_shm_map, au_shm_open, shm_open.
    unfold mbind, M_bind. rewrite (fallible_ok w Hf). simpl. by rewrite Hs. }
  by rewrite (bind_run _ _ _ _ _ El).
Qed.

(** An event for a branch, with the watermarks not loaded. *)
Lemma handle_fhsm_null fuel w c k x l :
  d_comm (w_glob w) = CPtr c -> d_lcopy (w_glob w) = None ->
  k_fhsm_read (c_nstbr c) (w_kern w) = ((0, x :: l), k) -> 0 < c_nstbr c ->
  exists w', handle_fhsm prog (S fuel) w = (Ub "null dereference of fhsmd.lcopy", w').
Proof.
  intros Hc Hl Hk Hn. cbn [handle_fhsm]. unfold read_fhsm. rewrite bind_assoc.
  rewrite (bind_run _ _ _ _ _ (comm_get_ptr w c Hc)), bind_assoc.
  rewrite (bind_run _ _ w (0, x :: l) (set_kern k w)) by (unfold kernel; by rewrite Hk).
  cbv beta iota zeta. change (truth 0) with false. cbv iota.
  destruct (Z.to_nat (c_nstbr c)) as [|n] eqn:En; [lia|].
  rewrite bind_assoc. unfold comm_put at 1. rewrite bind_md, bind_ret.
  cbv beta iota. set (w1 := set_glob _ _). cbn [take length Nat.eqb negb truth].
  change (negb (truth 0)) with true. cbv iota.
  unfold put_errno. rewrite bind_modify. set (w2 := set_errno 0 w1).
  cbn [each_stbr Nat.ltb Nat.leb andb negb truth]. change (negb (truth 0)) with true.
  cbn [andb follow_next]. rewrite bind_assoc. unfold au_mvdown_run. rewrite bind_assoc.
  rewrite (bind_run _ _ _ _ _ (stbr_get_ptr w2 _ 0 x eq_refl eq_refl)).
  rewrite bind_assoc. unfold test_usage at 1. rewrite bind_assoc, bind_gd.
  change (d_lcopy (w_glob w2)) with (d_lcopy (w_glob w)). rewrite Hl. by eexists.
Qed.

(** A failed reload is survived only until the next notification.  When the message to
    re-read the watermarks arrives and the table is gone, handle_msg() fails, the loop goes
    on with [fhsmd.lcopy] null, and the next FHSM event that names a branch dereferences
    the null pointer. *)
Theorem failed_reload_crashes fuel fd_sig fd_msg fd_fhsm w path c k l err :
  let d := w_glob w in
  w_faults w = [] -> d_fd d !! AuFd_SIGNAL = Some fd_sig -> d_fd d !! AuFd_MSG = Some fd_msg ->
  d_fd d !! AuFd_FHSM = Some fd_fhsm ->
  fd_msg <> fd_sig -> fd_fhsm <> fd_sig -> fd_fhsm <> fd_msg ->
  w_fds w !! fd_msg = Some path -> w_fifos w !! path = Some [AuFhsm_MSG_READ] ->
  w_shm w !! d_name_lcopy d = None -> d_comm d = CPtr c ->
  k_fhsm_read (c_nstbr c) (w_kern w) = ((0, l), k) -> l <> [] -> 0 < c_nstbr c ->
  exists w', handle_events prog (S fuel) [fd_msg; fd_fhsm] err false w
    = (Ub "null dereference of fhsmd.lcopy", w').
Proof.
  intros d Hf Hsg Hms Hfh N1 N2 N3 Hp Hq Hshm Hc Hk Hl Hn.
  set (w1 := set_fifos (<[path := []]> (w_fifos w)) w).
  set (w2 := set_glob (dset_lcopy None d) (set_errno ENOENT w1)).
  assert (handle_msg w = (Ret (-1, false), w2)) as Hmsg.
  { unfold handle_msg. rewrite (bind_run _ _ _ _ _ (read_msg_run w fd_msg path _ [] Hf Hms Hp Hq)).
    cbv beta iota. change (AuFhsm_MSG_READ =? AuFhsm_MSG_READ) with true. cbv iota.
    by rewrite (bind_run _ _ _ _ _ (load_gone w1 Hf Hshm)). }
  cbn [handle_events].
  rewrite (bind_run _ _ w (-1, false) w2).
  2:{ rewrite (handle_event_msg _ fd_msg fd_sig) by done.
      by rewrite (bind_run _ _ _ _ _ Hmsg). }
  destruct l as [|x l]; [done|].
  destruct (handle_fhsm_null fuel w2 c k x l) as [w' E]; [done..|].
  exists w'. unfold mbind at 1, M_bind at 1.
  rewrite (handle_event_fhsm _ fd_fhsm fd_sig fd_msg) by done.
  unfold mbind, M_bind. by rewrite E.
Qed.
End event_props.

(** ** Messages from the controller *)

Section event_msg.
Context {K : Type} `{!AufsKernel K}.
Context {G : Type} `{!ListDir G}.

(** C23. A message to exit that au_fhsm_msg() reports as sent, under the daemon's name and
    with an idle fifo, is what the daemon's handle_msg() reads: it returns success with
    [msg_exit] set, passes the message on to the running children through [comm->msg],
    leaves the branch statistics alone and the fifo empty. *)
Theorem exit_message_delivered ticks name rootfd dir
    (wc wc' : world K G) (wd : world K fhsmd) fd c :
  list_dir (w_glob wc) = Some dir -> default [] (w_fifos wc !! msg_path dir name) = [] ->
  au_fhsm_msg ticks name AuFhsm_MSG_EXIT rootfd wc = (Ret 0, wc') ->
  w_fifos wd = w_fifos wc' -> w_faults wd = [] ->
  d_fd (w_glob wd) !! AuFd_MSG = Some fd -> w_fds wd !! fd = Some (msg_path dir name) ->
  d_comm (w_glob wd) = CPtr c ->
  exists wd', handle_msg wd = (Ret (0, true), wd') /\
    d_comm (w_glob wd') = CPtr (Comm AuFhsm_MSG_EXIT (c_nstbr c) (c_stbr c)) /\
    w_fifos wd' !! msg_path dir name = Some [].
Proof.
  intros Hd Hq Hs Hw Hf Hfd Hp Hc.
  apply (au_fhsm_msg_put ticks name AuFhsm_MSG_EXIT rootfd wc wc' dir Hd eq_refl) in Hs.
  rewrite Hq in Hs. simpl in Hs. rewrite <- Hw in Hs.
  rewrite (handle_msg_exit wd fd _ c Hf Hfd Hp Hs Hc). eexists. split; [reflexivity|]. split; [done|]. simpl. by rewrite lookup_insert_eq.
Qed.
End event_msg.

(** ** A concrete daemon *)

Module EvDemo.
Definition fifo : bytes := lit "/run/aufhsmd-2a-2.msg".
Definition ops : list in_ope := [InOpe 1 70].
Definition daemon (sigs : list (option siginfo)) (ops : list in_ope) : fhsmd :=
  dset_fd [4; 5; 6; 7; 8] (dset_sigs sigs (dset_in_ope ops
    (dset_comm (CPtr (Comm 0 2 MvDemo.stbr1)) (dset_name_lcopy (lit "/aufhsm-2a-2") MvDemo.d1)))).
Definition world1 (sigs : list (option siginfo)) (ops : list in_ope) (msgs : list Z) (forks : list Z)
  : world unit fhsmd :=
  World 0 [] tt (daemon sigs ops) ∅ ∅ (<[8 := fifo]> ∅) 9 (<[fifo := msgs]> ∅) forks [] [].
(** A kernel that notifies branch 1. *)
Definition notify : AufsKernel unit :=
  {| k_is_aufs _ := true; k_dev _ := (0, 42); k_ino _ := 2; k_br_count k := ((0, 0), k);
     k_br_fill _ k := ((0, []), k); k_wbr_fd _ k := ((0, lit "/rw"), k);
     k_openat _ k := (0, k); k_nlink _ _ := 1; k_mvdown _ m k := ((0, m), k);
     k_fhsm_fd k := ((3, 0), k); k_fhsm_read _ k := ((0, [Stbr 1 0 (Stfs 100 10 0 0)]), k);
     k_list_cmd _ k := ((0, []), k) |}.
Definition controller : world unit (option bytes) :=
  World 0 [] tt (Some (lit "/run")) ∅ ∅ ∅ 3 ∅ [] [] [].
Definition prog : bytes := lit "aufhsmd".
End EvDemo.
Import Demo ListDemo.

Lemma one_operation_per_branch_witness :
  one_per_branch (d_in_ope (w_glob
    (@au_fhsmd_loop unit EvDemo.notify EvDemo.prog 4 [EpReady [5]; EpReady [5]]
       (EvDemo.world1 [] [] [] [70])).2)).
Proof.
  apply (@one_operation_per_branch unit EvDemo.notify EvDemo.prog 4 [EpReady [5]; EpReady [5]]).
  constructor.
Defined.

(** The exit message, then the end of the child: the loop returns. *)
Lemma loop_returns_idle_witness :
  d_in_ope (w_glob (au_fhsmd_loop EvDemo.prog 4 [EpReady [8]; EpReady [6]]
    (EvDemo.world1 [Some (Siginfo SIGCHLD 70 0)] EvDemo.ops [AuFhsm_MSG_EXIT] [])).2) = [].
Proof.
  set (r := au_fhsmd_loop _ _ _ _).
  apply (loop_returns_idle EvDemo.prog 4 [EpReady [8]; EpReady [6]]
    (EvDemo.world1 [Some (Siginfo SIGCHLD 70 0)] EvDemo.ops [AuFhsm_MSG_EXIT] []) 0 r.2).
  vm_compute. reflexivity.
Defined.

(** The message to exit and a notification for a branch that is due, at once; then another
    notification.  The pid for a child is left, and nothing was added to the operations. *)
Lemma stopped_starts_nothing_witness :
  let w' := (@fhsmd_loop unit EvDemo.notify EvDemo.prog 4 [EpReady [8; 5]; EpReady [5]] 0 false
    (EvDemo.world1 [] [InOpe 2 70] [AuFhsm_MSG_EXIT] [71])).2 in
  w_forks w' = [71] /\ sublist (d_in_ope (w_glob w')) [InOpe 2 70].
Proof.
  set (w := EvDemo.world1 [] [InOpe 2 70] [AuFhsm_MSG_EXIT] [71]).
  set (w1 := (handle_msg w).2).
  apply (@stopped_starts_nothing unit EvDemo.notify EvDemo.prog 4 [] 8 [5] [EpReady [5]] 0 0 w w w1).
  - apply Nat.ltb_lt. reflexivity.
  - reflexivity.
  - apply (@stop_message unit EvDemo.notify EvDemo.prog 4 w 8 6 w1);
      [reflexivity|reflexivity|discriminate|vm_compute; reflexivity].
Defined.

Lemma failed_fork_never_returns_witness :
  exists w', au_mvdown_run EvDemo.prog 0 (EvDemo.world1 [] [] [AuFhsm_MSG_EXIT] [-1])
               = (Ret (-1, None), w') /\
    forall fuel evs err d r, (fhsmd_loop EvDemo.prog fuel evs err d w').1 <> Ret r.
Proof.
  apply (failed_fork_never_returns EvDemo.prog 0 (EvDemo.world1 [] [] [AuFhsm_MSG_EXIT] [-1])
           (Stbr 1 0 (Stfs 100 10 0 0)) (-1) []); try (vm_compute; reflexivity).
  intros si H. by apply not_elem_of_nil in H.
Defined.

Lemma child_status_lost_witness :
  0 <> SIGCHLD.
Proof.
  apply (child_status_lost (EvDemo.world1 [Some (Siginfo SIGCHLD 70 256)] EvDemo.ops [] [])
    0 (Some 256) (EvDemo.world1 [] [] [] [])).
  vm_compute. reflexivity.
Defined.

Lemma failed_reload_crashes_witness :
  exists w', @handle_events unit EvDemo.notify EvDemo.prog 4 [8; 5] 0 false
      (EvDemo.world1 [] [] [AuFhsm_MSG_READ] [])
    = (Ub "null dereference of fhsmd.lcopy", w').
Proof.
  apply (@failed_reload_crashes unit EvDemo.notify EvDemo.prog 3 6 8 5
    (EvDemo.world1 [] [] [AuFhsm_MSG_READ] []) EvDemo.fifo (Comm 0 2 MvDemo.stbr1) tt
    [Stbr 1 0 (Stfs 100 10 0 0)] 0); try (vm_compute; reflexivity); discriminate.
Defined.

Lemma exit_message_delivered_witness :
  exists wd', handle_msg (EvDemo.world1 [] EvDemo.ops [AuFhsm_MSG_EXIT] []) = (Ret (0, true), wd') /\
    d_comm (w_glob wd') = CPtr (Comm AuFhsm_MSG_EXIT 2 MvDemo.stbr1) /\
    w_fifos wd' !! EvDemo.fifo = Some [].
Proof.
  set (wc' := (au_fhsm_msg 3 (lit "/aufhsmd-2a-2") AuFhsm_MSG_EXIT 4 EvDemo.controller).2).
  apply (exit_message_delivered 3 (lit "/aufhsmd-2a-2") 4 (lit "/run") EvDemo.controller wc'
           (EvDemo.world1 [] EvDemo.ops [AuFhsm_MSG_EXIT] []) 8 (Comm 0 2 MvDemo.stbr1));
    vm_compute; reflexivity.
Defined.
