(* ===== verification/FhsmDaemon.v ===== *)
(** * fhsm/aufhsmd.c: the daemon's start *)
From S2P Require Import Prelude CString LibcSort AufsType Float32 FhsmData Sys Br Shm.
From S2P Require Import AuUtil Fhsm FhsmList FhsmCtl Daemon Msg Mvdown Event.

Section aufhsmd.
Context {K : Type} `{!AufsKernel K}.
Context (realpath : bytes -> option bytes) (is_dir : bytes -> bool).
Context (shm_root : bytes) (st_size : nat) (env_dir : option bytes) (prog : bytes).
Notation world := (world K fhsmd).

Definition set_optflags (name : Z) : M world unit :=
  md (fun d => dset_optflags (au_opt_set (d_optflags d) name) d).

Definition fhsmd_usage : M world unit :=
  print (clit "Usage: " ++ prog ++ clit " [ options ] aufs_mount_point\n" ++
    clit "\t-d DIR | --dir DIR\t\tuse DIR to store the aufhsm file-list\n" ++
    clit "\t-v | --verbose\n" ++
    clit "\t-V | --version\n" ++
    clit "\t-h | --help\n" ++
    clit "Instead of '-d', you can use AUFHSM_LIST_DIR\n").

Fixpoint fhsmd_opt_loop (n : nat) (calls : list getopt) (dir : option bytes)
  : M world (option bytes) :=
  match n, calls with
  | S k, GetOpt c optarg :: r =>
      if decide (c = "d"%char) then fhsmd_opt_loop k r (Some optarg)
      else if decide (c = "v"%char) then set_optflags OptFhsmd_VERBOSE ;; fhsmd_opt_loop k r dir
      else if decide (c = "D"%char) then set_optflags OptFhsmd_NODAEMON ;; fhsmd_opt_loop k r dir
      else if decide (c = "V"%char) then print (version_text prog) ;; exit_ 0
      else if decide (c = "h"%char \/ c = "?"%char) then fhsmd_usage ;; exit_ 0
      else exit_ EINVAL
  | _, _ => mret dir
  end.

Definition fhsmd_opt (argc : nat) (calls : list getopt) : M world unit :=
  dir ← fhsmd_opt_loop (argc - 1) calls env_dir;
  opt_list_dir realpath is_dir shm_root st_size dir.

(** [strcpy] and [p = a + sizeof("aufhsm"); memmove(p, p + 1, strlen(p))]: the character
    behind "/aufhsm" goes, the "d" of "/aufhsmd". *)
Definition lcopy_name (fhsmd_name : bytes) : bytes :=
  take 7 fhsmd_name ++ drop 8 fhsmd_name.

Definition shm_names (path : option bytes) (nlen : Z) : M world unit :=
  (match path with
   | Some path => fd ← open_ path; if fd <? 0 then log_fin else fd_set AuFd_ROOT fd
   | None => mret tt
   end) ;;
  root ← fd_get AuFd_ROOT;
  '(err, name) ← au_shm_name prog root nlen;
  md (dset_name_fhsmd name) ;;
  if truth err then log_fin
  else if (length name <? 7)%nat then ub "beyond the name"
  else md (dset_name_lcopy (lcopy_name name)).

Definition comm_fd (name : bytes) : M world unit :=
  '(fhsmfd, e) ← kernel k_fhsm_fd;
  fd_set AuFd_FHSM fhsmfd ;;
  if fhsmfd <? 0 then put_errno e ;; log_fin
  else
    msgfd ← au_fhsm_msg 0 name AuFhsm_MSG_NONE (-1);
    fd_set AuFd_MSG msgfd ;;
    if msgfd <? 0 then log_fin else mret tt.

(** main(); [operands] is [argv] from [optind]. *)
Definition fhsmd_main (fuel : nat) (evs : list ep_result)
    (argc : nat) (calls : list getopt) (operands : list bytes) : M world Z :=
  fhsmd_opt argc calls ;;
  match operands with
  | [] => put_errno EINVAL ;; au_fin
  | arg :: _ =>
      match realpath arg with
      | None => au_fin
      | Some mntpnt =>
          err ← fallible; (* chdir *)
          if truth err then au_fin
          else
            flags ← gd d_optflags;
            err ← (if au_opt_test flags OptFhsmd_NODAEMON then mret 0 else fallible (* daemon *));
            if truth err then au_fin
            else
              shm_names (Some mntpnt) 32 ;;
              name ← gd d_name_lcopy;
              comm_fd name ;;
              md (dset_in_ope []) ;;
              err ← au_fhsmd_load;
              if truth err then log_fin
              else
                err ← au_epsigfd;
                if truth err then log_fin
                else
                  msgfd ← fd_get AuFd_MSG;
                  err ← au_ep_add msgfd;
                  if truth err then log_fin
                  else
                    fhsmfd ← fd_get AuFd_FHSM;
                    err ← au_ep_add fhsmfd;
                    if truth err then log_fin
                    else au_fhsmd_loop prog fuel evs
      end
  end.
End aufhsmd.

(** ** Properties *)

Lemma lcopy_name_aufhsmd dev ino :
  lcopy_name (shm_name_str (lit "aufhsmd") dev ino) = shm_name_str (lit "aufhsm") dev ino.
Proof. reflexivity. Qed.

Lemma shm_name_str_length dev ino :
  length (shm_name_str (lit "aufhsmd") dev ino)
    = S (length (shm_name_str (lit "aufhsm") dev ino)).
Proof. reflexivity. Qed.

(** A mount point whose name fits. *)
Lemma au_shm_name_ok {K G} `{!AufsKernel K} prog fd path sz (w : world K G) :
  w_faults w = [] -> w_fds w !! fd = Some path ->
  0 < Z.of_nat (length (shm_name_str prog (k_dev path) (k_ino path))) < sz ->
  au_shm_name prog fd sz w = (Ret (0, shm_name_str prog (k_dev path) (k_ino path)), w).
Proof.
  intros Hf Hp Hl. unfold au_shm_name. rewrite (bind_run _ _ _ _ _ (fallible_ok w Hf)).
  change (truth 0) with false. cbv iota. unfold fd_what. rewrite bind_gets, Hp.
  cbn [default from_option id]. cbv zeta.
  by rewrite (proj2 (Z.ltb_lt _ _)), (proj2 (Z.ltb_lt _ _)) by apply Hl.
Qed.

(** What au_shm_name() answers on success. *)
Lemma au_shm_name_val {K G} `{!AufsKernel K} prog fd path sz (w w' : world K G) n :
  w_fds w !! fd = Some path -> au_shm_name prog fd sz w = (Ret (0, n), w') ->
  n = shm_name_str prog (k_dev path) (k_ino path).
Proof.
  intros Hp. unfold au_shm_name, fallible, pop_fault.
  assert (forall w0 : world K G, w_fds w0 = w_fds w -> forall v,
    (what ← fd_what fd;
     let s := shm_name_str prog (k_dev what) (k_ino what) in
     let n := Z.of_nat (length s) in
     if (0 <? n) && (n <? sz) then mret (0, s)
     else put_errno E2BIG ;; mret (-1, take (Z.to_nat (sz - 1)) s)) w0 = (Ret (0, n), v) ->
    n = shm_name_str prog (k_dev path) (k_ino path)) as H.
  { intros w0 E v. unfold fd_what. rewrite bind_gets, E, Hp. cbn [default from_option id].
    cbv zeta. destruct (_ && _); [by intros [= <-]|discriminate]. }
  unfold mbind at 1, M_bind at 1. unfold mbind at 1, M_bind at 1.
  destruct (w_faults w) as [|[] r]; simpl.
  - by apply H.
  - by apply H.
  - discriminate.
  - by apply H.
Qed.

(** shm_names(), when nothing fails *)
Lemma shm_names_run {K} `{!AufsKernel K} path (wd : world K fhsmd) :
  let n := shm_name_str (lit "aufhsm") (k_dev path) (k_ino path) in
  w_faults wd = [] -> 0 <= w_nextfd wd -> d_fd (w_glob wd) <> [] -> Z.of_nat (length n) < 31 ->
  exists wd', shm_names (lit "aufhsmd") (Some path) 32 wd = (Ret tt, wd') /\
    d_name_lcopy (w_glob wd') = n /\ w_shm wd' = w_shm wd /\ w_faults wd' = [] /\
    w_nextfd wd' = w_nextfd wd + 1 /\ w_fds wd' = <[w_nextfd wd := path]> (w_fds wd).
Proof.
  intros n Hf Hnf Hne Hl. set (s := shm_name_str (lit "aufhsmd") (k_dev path) (k_ino path)).
  assert (length s = S (length n)) as Hs by (apply shm_name_str_length).
  unfold shm_names. rewrite bind_assoc, (bind_run _ _ _ _ _ (eq_trans (open_ok wd path Hf) eq_refl)).
  rewrite (proj2 (Z.ltb_ge _ _)) by done. unfold fd_set. rewrite bind_md.
  set (w1 := set_glob _ _). unfold fd_get. rewrite bind_gd.
  assert (default 0 (d_fd (w_glob w1) !! AuFd_ROOT) = w_nextfd wd) as Efd.
  { unfold w1. simpl. by destruct (d_fd (w_glob wd)). }
  rewrite Efd. unfold s in *.
  rewrite (bind_run _ _ _ _ _ (au_shm_name_ok (lit "aufhsmd") (w_nextfd wd) path 32 w1 Hf
             ltac:(unfold w1; simpl; by rewrite lookup_insert_eq) ltac:(lia))).
  cbv beta iota. rewrite bind_md. change (truth 0) with false. cbv iota.
  rewrite (proj2 (Nat.ltb_ge _ _)).
  2:{ rewrite Hs. unfold n, shm_name_str. rewrite !length_app. simpl. lia. }
  eexists. split; [reflexivity|]. split; [apply lcopy_name_aufhsmd|]. done.
Qed.

(** Controller and daemon agree on the name of the shared table: when aufhsm has computed
    the name [n] for a mount point, the daemon started on the same mount point derives
    exactly [n] from its own name, provided that own name (one character longer) still
    fits its buffer of 32 bytes. *)
Theorem names_agree {K G} `{!AufsKernel K} path fdc n (wc wc' : world K G) (wd : world K fhsmd) :
  w_fds wc !! fdc = Some path -> au_shm_name (lit "aufhsm") fdc 32 wc = (Ret (0, n), wc') ->
  w_faults wd = [] -> 0 <= w_nextfd wd -> d_fd (w_glob wd) <> [] -> Z.of_nat (length n) < 31 ->
  exists wd', shm_names (lit "aufhsmd") (Some path) 32 wd = (Ret tt, wd') /\
    d_name_lcopy (w_glob wd') = n.
Proof.
  intros Hp Hc Hf Hnf Hne Hl. apply (au_shm_name_val _ _ path) in Hc; [|done]. subst n.
  destruct (shm_names_run path wd Hf Hnf Hne Hl) as (wd' & E & Hn & _). by exists wd'.
Qed.

Import Demo ListDemo.
Lemma names_agree_witness :
  exists wd', shm_names (lit "aufhsmd") (Some (lit "/mnt")) 32 (world0 fhsmd0) = (Ret tt, wd') /\
    d_name_lcopy (w_glob wd') = lit "/aufhsm-0000002a-2".
Proof.
  set (wc := set_fds (<[3 := lit "/mnt"]> ∅) (world0 (@None bytes))).
  apply (names_agree (lit "/mnt") 3 (lit "/aufhsm-0000002a-2") wc wc (world0 fhsmd0));
    try (vm_compute; reflexivity); discriminate.
Defined.
