(* ===== verification/MvdownRun.v ===== *)
(** * One run of the move-down child

    mvdown_child() from the list file to its result: the records at the end of the list
    that the kernel refuses for now are skipped, the first one that it takes is moved. *)
From S2P Require Import Prelude CString AufsType FhsmData Sys Shm FhsmList Daemon Mvdown.
From S2P Require Import FhsmDaemon.

(** ** The list as records *)

Record entry := Entry { en_atime : bytes; en_sz : bytes; en_name : bytes }.

Definition entry_bytes (e : entry) : bytes := fmt_record (en_atime e) (en_sz e) (en_name e).
Definition entry_ok (e : entry) : Prop :=
  NUL ∉ entry_bytes e /\ " "%char ∉ en_atime e /\ " "%char ∉ en_sz e.
#[export] Instance entry_ok_dec e : Decision (entry_ok e).
Proof. unfold entry_ok. apply _. Defined.
Definition list_bytes (l : list entry) : bytes := records_bytes (map entry_bytes l).

Lemma list_bytes_snoc l e :
  list_bytes (l ++ [e]) = records_bytes (map entry_bytes l ++ [entry_bytes e]).
Proof. unfold list_bytes. by rewrite map_app. Qed.

Lemma list_bytes_pos l : l <> [] -> (0 < length (list_bytes l))%nat.
Proof.
  intros H. pose proof (records_bytes_count (map entry_bytes l)) as Hc.
  rewrite length_map in Hc. unfold list_bytes. destruct l; [done|]. simpl in *. lia.
Qed.

Lemma list_bytes_app l1 l2 : list_bytes (l1 ++ l2) = list_bytes l1 ++ list_bytes l2.
Proof. unfold list_bytes. by rewrite map_app, records_bytes_app. Qed.

Lemma list_bytes_length_snoc l e :
  length (list_bytes (l ++ [e])) = (length (list_bytes l) + S (length (entry_bytes e)))%nat.
Proof.
  rewrite list_bytes_snoc, records_bytes_snoc, !length_app. unfold list_bytes. simpl. lia.
Qed.

(** Two files of a directory, the rest as it was *)
Definition two_files (lp fp : bytes) (a b : bytes) (base : gmap bytes bytes) : gmap bytes bytes :=
  <[lp := a]> (<[fp := b]> base).

Section two_files.
Context (lp fp : bytes) (base : gmap bytes bytes) (Hne : lp <> fp).

Lemma two_first a b : two_files lp fp a b base !! lp = Some a.
Proof. apply lookup_insert_eq. Qed.
Lemma two_second a b : two_files lp fp a b base !! fp = Some b.
Proof. unfold two_files. by rewrite lookup_insert_ne, lookup_insert_eq. Qed.
Lemma two_set_first a a' b : <[lp := a']> (two_files lp fp a b base) = two_files lp fp a' b base.
Proof. unfold two_files. by rewrite insert_insert_eq. Qed.
Lemma two_set_second a b b' : <[fp := b']> (two_files lp fp a b base) = two_files lp fp a b' base.
Proof.
  unfold two_files. rewrite (insert_insert_ne _ fp lp) by congruence. by rewrite insert_insert_eq.
Qed.
End two_files.

(** ** What the kernel answers for a row of records that are not moved

    From a state of the kernel and of the program's [mvdown], the records in the order in
    which they are tried, those to be retried, and the state afterwards. *)
Section child.
Context {K : Type} `{!AufsKernel K}.
Notation world := (world K fhsmd).
Implicit Types w : world.

Definition retried (en : Z) (k : K) (e : entry) : list entry :=
  if (en =? EBUSY) && (k_nlink (en_name e) k =? 1) then [e] else [].

Inductive skips (brid : Z) : K * aufs_mvdown -> list entry -> list entry -> K * aufs_mvdown -> Prop :=
| skips_nil st : skips brid st [] [] st
| skips_cons k mv e k1 en mv' k2 sk fl st :
    k_openat (en_name e) k = (0, k1) ->
    k_mvdown (en_name e) (mvdown_request brid mv) k1 = ((en, mv'), k2) ->
    en = EBUSY \/ en = EINVAL ->
    skips brid (k2, mv') sk fl st ->
    skips brid (k, mv) (e :: sk) (retried en k2 e ++ fl) st.

(** A branch that is used beyond its watermark, by the table *)
Definition overfull (lc : aufhsm) (s : aufs_stbr) : bool :=
  match au_wm_search_brid (st_brid s) lc ≫= (fun i => wmark lc !! i) with
  | Some wm => usage_exceeded wm (st_stfs s)
  | None => false
  end.

Lemma test_usage_run w lc s :
  d_lcopy (w_glob w) = Some lc -> test_usage s w = (Ret (overfull lc s), w).
Proof.
  intros H. unfold test_usage, overfull. rewrite bind_gd, H. by destruct (_ ≫= _).
Qed.

(** ** The child at its list *)

Section loop.
Context (lp fp : bytes) (base : gmap bytes bytes) (Hne : lp <> fp).
Context (cur : nat) (s : aufs_stbr) (c : aufhsmd_comm) (lc : aufhsm).
Context (Hs : c_stbr c !! cur = Some s) (Hmsg : c_msg c <> AuFhsm_MSG_EXIT).

(** The two files are open, hold these records, and nobody interrupts. *)
Record in_list (l failed : list entry) w : Prop := {
  il_faults : w_faults w = [];
  il_list : w_fds w !! d_listfd (w_glob w) = Some lp;
  il_fail : w_fds w !! d_failfd (w_glob w) = Some fp;
  il_fresh : d_listfd (w_glob w) < w_nextfd w /\ d_failfd (w_glob w) < w_nextfd w;
  il_files : w_files w = two_files lp fp (list_bytes l) (list_bytes failed) base;
  il_size : d_listsz (w_glob w) = Z.of_nat (length (list_bytes l));
  il_comm : d_comm (w_glob w) = CPtr c;
  il_lcopy : d_lcopy (w_glob w) = Some lc;
  il_quiet : d_sigs (w_glob w) = [] /\ d_polls (w_glob w) = []
}.

(** The test of the loop and the look for a signal *)
Lemma loop_enters fuel err next l failed w :
  in_list l failed w ->
  mvdown_loop (S fuel) cur err next w =
    ('(err, next) ← do_mvdown cur;
     if err <=? 0 then mret (err, next)
     else match next with
          | Some _ => mret (err, next)
          | None =>
              s ← stbr_get cur;
              u ← test_usage s;
              if (u : bool) then mvdown_loop fuel cur err next else mret (err, next)
          end) (set_errno EAGAIN w) /\ in_list l failed (set_errno EAGAIN w).
Proof.
  intros [Hf Hl Hfl Hfr Hfi Hsz Hc Hlc [Hsg Hp]]. split; [|by split].
  cbn [mvdown_loop]. unfold poll_msg. rewrite bind_assoc, bind_gd, Hp, bind_assoc, bind_ret.
  rewrite bind_assoc, (bind_run _ _ _ _ _ (comm_get_ptr w c Hc)), bind_ret.
  rewrite (proj2 (Z.eqb_neq _ _)) by done. unfold read_signal.
  rewrite bind_assoc, (bind_run _ _ _ _ _ (fallible_ok w Hf)). change (truth 0) with false.
  cbv iota. by rewrite bind_assoc, bind_gd, Hsg.
Qed.

(** A record that the kernel refuses for now, and is not the last one *)
Lemma do_mvdown_skips l e failed w k1 en mv k2 :
  in_list (l ++ [e]) failed w -> entry_ok e -> l <> [] ->
  Z.of_nat (length (list_bytes (l ++ [e]))) < 2 ^ 31 - 1 ->
  k_openat (en_name e) (w_kern w) = (0, k1) ->
  k_mvdown (en_name e) (mvdown_request (st_brid s) (d_mvdown (w_glob w))) k1 = ((en, mv), k2) ->
  en = EBUSY \/ en = EINVAL ->
  exists w', do_mvdown cur w = (Ret (1, None), w') /\
    in_list l (failed ++ retried en k2 e) w' /\ w_kern w' = k2 /\ d_mvdown (w_glob w') = mv.
Proof.
  intros [Hf Hl Hfl [Hfr Hfr'] Hfi Hsz Hc Hlc Hq] (HN & Ha & Hb) Hlne Hlen Ho Hm Hen.
  rewrite list_bytes_snoc in *.
  assert (w_files w !! lp = Some (records_bytes (map entry_bytes l ++ [entry_bytes e]))) as Hlp
    by (rewrite Hfi; apply two_first).
  rewrite (do_mvdown_last cur w c s (map entry_bytes l) (en_atime e) (en_sz e) (en_name e) lp)
    by done.
  set (w2 := set_glob _ w). fold (entry_bytes e).
  destruct (do_mvdown1_correct w2 en mv k1 k2 fp (list_bytes failed) Hf Ho Hm Hfr' Hfl)
    as (w3 & E3 & Eg & Efi & Ek & Ef & En & Efd).
  { cbn. rewrite Hfi. by apply two_second. }
  assert (mvdown1_outcome en = (0, false)) as Eo by (destruct Hen as [->| ->]; done).
  rewrite Eo in E3. rewrite (bind_run _ _ _ _ _ E3).
  assert (w_files w3 = two_files lp fp (records_bytes (map entry_bytes l ++ [entry_bytes e]))
    (list_bytes (failed ++ retried en k2 e)) base) as Efi3.
  { rewrite Efi. cbn. rewrite Hfi. unfold retried. destruct (_ && _).
    - rewrite two_set_second by done. f_equal. rewrite list_bytes_snoc, records_bytes_snoc. done.
    - by rewrite app_nil_r. }
  assert (d_listfd (w_glob w3) = d_listfd (w_glob w)) as Elf by by rewrite Eg.
  rewrite <- Elf, (cut_skipped cur w3 lp (map entry_bytes l) (entry_bytes e)).
  2: done. 2: { rewrite Elf, Efd by done. exact Hl. } 2: { rewrite Efi3. apply two_first. }
  2: { pose proof (list_bytes_pos l Hlne). unfold list_bytes in *. lia. }
  eexists. split; [reflexivity|]. split; [|split; [done|by rewrite Eg]].
  constructor; cbn; rewrite ?Eg; cbn; try done.
  - by rewrite Efd.
  - by rewrite Efd.
  - rewrite En. cbn. lia.
  - by rewrite Efi3, two_set_first.
Qed.

(** The row of records that are skipped, from the end of the list *)
Lemma loop_skips l sk : forall failed w fl st fuel err next,
  in_list (l ++ rev sk) failed w -> Forall entry_ok sk -> l <> [] -> overfull lc s = true ->
  Z.of_nat (length (list_bytes (l ++ rev sk))) < 2 ^ 31 - 1 ->
  skips (st_brid s) (w_kern w, d_mvdown (w_glob w)) sk fl st ->
  exists err' next' w', mvdown_loop (length sk + fuel) cur err next w
      = mvdown_loop fuel cur err' next' w' /\
    in_list l (failed ++ fl) w' /\ (w_kern w', d_mvdown (w_glob w')) = st.
Proof.
  induction sk as [|e sk IH]; intros failed w fl st fuel err next Hin Hok Hl Hov Hlen Hsk.
  { inversion Hsk; subst. simpl in *. rewrite !app_nil_r in *. by eexists _, _, _. }
  inversion Hsk as [|? ? ? k1 en mv' k2 ? fl' ? Ho Hm Hen Hrest]; subst.
  apply Forall_cons in Hok as [Hoke Hok]. simpl (rev _) in *. rewrite app_assoc in *.
  destruct (loop_enters (length sk + fuel) err next _ _ w Hin) as [E Hin'].
  destruct (do_mvdown_skips (l ++ rev sk) e failed _ k1 en mv' k2 Hin' Hoke) as (w2 & E2 & Hin2 & <- & <-);
    try done.
  { by intros [-> _]%app_nil. }
  cbn [length Nat.add]. rewrite E, (bind_run _ _ _ _ _ E2). change (1 <=? 0) with false. cbv iota.
  rewrite (bind_run _ _ _ _ _ (stbr_get_ptr w2 c cur s (il_comm _ _ _ Hin2) Hs)).
  rewrite (bind_run _ _ _ _ _ (test_usage_run w2 lc s (il_lcopy _ _ _ Hin2))), Hov.
  destruct (IH (failed ++ retried en (w_kern w2) e) w2 fl' st fuel 1 None Hin2 Hok Hl Hov)
    as (err' & next' & w' & E' & Hin'' & Hst); [|done|].
  - rewrite list_bytes_length_snoc in Hlen. lia.
  - by exists err', next', w'.
Qed.

(** The loop of mvdown_child(): it ends with the first record that is moved. *)
Lemma loop_moves l e sk fl w k1 mv1 k2 mv k3 fuel err next :
  in_list (l ++ e :: rev sk) [] w -> Forall entry_ok (e :: sk) -> overfull lc s = true ->
  Z.of_nat (length (list_bytes (l ++ e :: rev sk))) < 2 ^ 31 - 1 ->
  skips (st_brid s) (w_kern w, d_mvdown (w_glob w)) sk fl (k1, mv1) ->
  k_openat (en_name e) k1 = (0, k2) ->
  k_mvdown (en_name e) (mvdown_request (st_brid s) mv1) k2 = ((0, mv), k3) ->
  st_brid (mv_upper mv) = st_brid s ->
  truth (Z.land (mv_flags mv) AUFS_MVDOWN_STFS_FAILED) = false ->
  (length sk < fuel)%nat ->
  exists w', mvdown_loop fuel cur err next w = (Ret (0, moved_next cur s c mv), w') /\
    w_files w' = two_files lp fp (list_bytes l) (list_bytes fl) base /\
    d_comm (w_glob w') = CPtr (moved_comm cur s c mv) /\ w_kern w' = k3.
Proof.
  change (e :: rev sk) with ([e] ++ rev sk). rewrite app_assoc.
  intros Hin [Hoke Hok]%Forall_cons Hov Hlen Hsk Ho Hm Hup Hst Hfuel.
  replace fuel with (length sk + S (fuel - length sk - 1))%nat by lia.
  destruct (loop_skips (l ++ [e]) sk [] w fl (k1, mv1) (S (fuel - length sk - 1)) err next
    Hin Hok) as (err' & next' & w1 & E1 & Hin1 & [= Ek Emv]); try done.
  { by intros [_ [=]]%app_nil. }
  rewrite E1. destruct (loop_enters (fuel - length sk - 1) err' next' _ _ w1 Hin1)
    as [E2 [Hf Hl Hfl [Hfr _] Hfi Hsz Hc _ _]].
  rewrite E2, list_bytes_snoc in *. destruct Hoke as (HN & Ha & Hb).
  destruct (do_mvdown_moves cur (set_errno EAGAIN w1) c s (map entry_bytes l) (en_atime e)
    (en_sz e) (en_name e) mv k2 k3 lp) as (w' & E' & Efi & _ & Ec & Ek' & _); try done.
  - fold (entry_bytes e). rewrite <- list_bytes_snoc. rewrite list_bytes_app, length_app in Hlen. lia.
  - rewrite Hfi. apply two_first.
  - cbn. by rewrite Ek.
  - cbn. by rewrite Emv.
  - exists w'. rewrite (bind_run _ _ _ _ _ E'). split; [done|]. split; [|done].
    by rewrite Efi, Hfi, two_set_first.
Qed.
End loop.
End child.

(** ** From mvdown_child() *)

Section child_run.
Context {K : Type} `{!AufsKernel K} (prog : bytes).
Notation world := (world K fhsmd).
Implicit Types w : world.

(** The two files of a branch, in the directory of the lists *)
Definition list_path (dir path : bytes) : bytes :=
  dir ++ lit "/" ++ drop 1 (shm_name_str prog (k_dev path) (k_ino path)).
Definition fail_path (dir path : bytes) : bytes := list_path dir path ++ lit "-failed".

Lemma list_path_ne dir path : list_path dir path <> fail_path dir path.
Proof.
  intros E. apply (f_equal length) in E. unfold fail_path in E. rewrite length_app in E.
  simpl in E. lia.
Qed.

(** open(2) with O_CREAT of a path whose content is known, empty when it is new *)
Lemma open_creat_run w p :
  w_faults w = [] ->
  open_creat p w = (Ret (w_nextfd w),
    set_fds (<[w_nextfd w := p]> (w_fds w)) (set_nextfd (w_nextfd w + 1)
      (set_files (<[p := default [] (w_files w !! p)]> (w_files w)) w))).
Proof.
  intros Hf. unfold open_creat. rewrite (bind_run _ _ _ _ _ (fallible_ok w Hf)).
  change (truth 0) with false. cbv iota. rewrite bind_modify. unfold new_fd.
  destruct (w_files w !! p) as [o|] eqn:E; [|done]. cbn [default from_option id].
  rewrite (insert_id (w_files w) p o E). by destruct w.
Qed.

(** au_list() of a branch whose list exists and has nothing to retry *)
Lemma au_list_existing w brfd path dir o :
  let name := shm_name_str prog (k_dev path) (k_ino path) in
  let lp := list_path dir path in
  let fp := fail_path dir path in
  w_faults w = [] -> 0 <= w_nextfd w -> w_fds w !! brfd = Some path ->
  d_list_dir (w_glob w) = Some dir -> (0 < length name)%nat -> Z.of_nat (length name) + 8 <= 64 ->
  w_files w !! lp = Some o -> o <> [] -> default [] (w_files w !! fp) = [] ->
  exists w', au_list prog brfd w = (Ret (0, Some (w_nextfd w + 1), Some (w_nextfd w + 2)), w') /\
    w_faults w' = [] /\ w_glob w' = w_glob w /\ w_kern w' = w_kern w /\
    w_files w' = <[fp := []]> (w_files w) /\ w_nextfd w' = w_nextfd w + 3 /\
    w_fds w' !! (w_nextfd w + 1) = Some lp /\ w_fds w' !! (w_nextfd w + 2) = Some fp.
Proof.
  intros name lp fp Hf Hn Hb Hd Hl0 Hl Hlp Ho Hfp. unfold au_list.
  assert (0 < Z.of_nat (length name) < 64) as Hnm by (split; [by apply (inj_lt 0)|lia]).
  rewrite (bind_run _ _ _ _ _ (au_shm_name_ok prog brfd path 64 w Hf Hb Hnm)).
  fold name. change (truth 0) with false. cbv iota. unfold au_list_dir. rewrite bind_gets.
  change (list_dir (w_glob w)) with (d_list_dir (w_glob w)). rewrite Hd.
  rewrite (bind_run _ _ _ _ _ (eq_trans (open_ok w dir Hf) eq_refl)).
  rewrite (proj2 (Z.ltb_ge _ _)) by done. cbv zeta. set (w1 := set_fds _ _).
  change (dir ++ lit "/" ++ drop 1 name) with lp.
  rewrite (bind_run _ _ _ _ _ (open_creat_run w1 lp Hf)). change (w_files w1) with (w_files w).
  rewrite Hlp. cbn [default from_option id]. rewrite (insert_id (w_files w) lp o Hlp). set (w2 := set_fds _ _).
  change (w_nextfd w1) with (w_nextfd w + 1). rewrite (proj2 (Z.ltb_ge _ _)) by lia.
  rewrite (proj2 (Z.ltb_ge _ _)) by lia.
  replace (dir ++ lit "/" ++ drop 1 name ++ lit "-failed") with fp
    by (unfold fp, fail_path, list_path; by rewrite <- !app_assoc).
  rewrite (bind_run _ _ _ _ _ (open_creat_run w2 fp Hf)). change (w_files w2) with (w_files w).
  rewrite Hfp. set (w3 := set_fds _ _). change (w_nextfd w2) with (w_nextfd w + 1 + 1).
  rewrite (proj2 (Z.ltb_ge _ _)) by lia. rewrite fallible_run by done.
  change (truth 0) with false. cbv iota.
  assert (w_fds w3 !! (w_nextfd w + 1) = Some lp) as Hlfd
    by (cbn; rewrite lookup_insert_ne by lia; apply lookup_insert_eq).
  assert (w_fds w3 !! (w_nextfd w + 1 + 1) = Some fp) as Hffd by (cbn; apply lookup_insert_eq).
  assert (w_files w3 !! lp = Some o) as Hlf
    by (cbn; rewrite lookup_insert_ne; [done|]; intros E; by apply (list_path_ne dir path)).
  rewrite (bind_run _ _ _ _ _ (file_of_run w3 _ lp o Hlfd Hlf)).
  rewrite (proj2 (Nat.ltb_lt _ _)) by (destruct o; [done|simpl; lia]).
  unfold move_failed. rewrite bind_assoc, fallible_run by done. change (truth 0) with false. cbv iota.
  rewrite bind_assoc, (bind_run _ _ _ _ _ (file_of_run w3 _ fp [] Hffd (lookup_insert_eq _ _ _))).
  cbv zeta. cbn [length Nat.eqb]. rewrite bind_ret. change (truth 0) with false. cbv iota.
  exists w3. rewrite <- Z.add_assoc in *. split_and!; try done. cbn. lia.
Qed.

(** The list as the child finds it, and what the kernel will answer *)
Record movable (cur : nat) (s : aufs_stbr) (path dir : bytes) (l : list entry) (e : entry)
    (sk fl : list entry) (mv : aufs_mvdown) (k' : K) w : Prop := {
  mo_path : exists k0 k1 mv1 k2,
    k_wbr_fd (st_brid s) (w_kern w) = ((0, path), k0) /\
    skips (st_brid s) (k0, d_mvdown (w_glob w)) sk fl (k1, mv1) /\
    k_openat (en_name e) k1 = (0, k2) /\
    k_mvdown (en_name e) (mvdown_request (st_brid s) mv1) k2 = ((0, mv), k');
  mo_brid : st_brid (mv_upper mv) = st_brid s;
  mo_stfs : truth (Z.land (mv_flags mv) AUFS_MVDOWN_STFS_FAILED) = false;
  mo_dir : d_list_dir (w_glob w) = Some dir;
  mo_name : (0 < length (shm_name_str prog (k_dev path) (k_ino path)))%nat /\
    Z.of_nat (length (shm_name_str prog (k_dev path) (k_ino path))) + 8 <= 64;
  mo_list : w_files w !! list_path dir path = Some (list_bytes (l ++ e :: rev sk));
  mo_fail : default [] (w_files w !! fail_path dir path) = [];
  mo_entries : Forall entry_ok (e :: sk);
  mo_length : Z.of_nat (length (list_bytes (l ++ e :: rev sk))) < 2 ^ 31 - 1
}.

(** A world in which nothing fails and nobody interrupts the child *)
Definition undisturbed (c : aufhsmd_comm) w : Prop :=
  w_faults w = [] /\ 0 <= w_nextfd w /\ d_comm (w_glob w) = CPtr c /\
  c_msg c <> AuFhsm_MSG_EXIT /\ d_sigs (w_glob w) = [] /\ d_polls (w_glob w) = [].

(** The child of a branch beyond its watermark, from its list file to its result.  The
    records at the end of the list that the kernel refuses as busy or invalid are skipped,
    those of busy files with a single link being kept in the fail-file in that order; the
    first file that the kernel takes is moved; the list file is left with exactly the
    records before it, the statistics are the kernel's, and the child succeeds.  (It moves
    one file: what do_mvdown() returns after a move ends the loop.) *)
Theorem child_moves_one cur s c lc path dir l e sk fl mv k' w :
  undisturbed c w -> c_stbr c !! cur = Some s ->
  d_lcopy (w_glob w) = Some lc -> overfull lc s = true ->
  movable cur s path dir l e sk fl mv k' w ->
  exists w', mvdown_child prog cur w = (Ret (0, moved_next cur s c mv), w') /\
    w_files w' = <[list_path dir path := list_bytes l]>
                   (<[fail_path dir path := list_bytes fl]> (w_files w)) /\
    d_comm (w_glob w') = CPtr (moved_comm cur s c mv) /\ w_kern w' = k'.
Proof.
  intros (Hf & Hn & Hc & Hmsg & Hsg & Hp) Hs Hlc Hov
    [(k0 & k1 & mv1 & k2 & Hwbr & Hsk & Ho & Hm) Hup Hst Hd [Hl0 Hl1] Hlp Hfp Hok Hlen].
  set (o := list_bytes (l ++ e :: rev sk)) in *. set (lp := list_path dir path) in *.
  set (fp := fail_path dir path) in *.
  assert (0 < length o)%nat as Hpos by (apply list_bytes_pos; by intros [_ [=]]%app_nil).
  assert (o <> []) as Hone by (intros E; rewrite E in Hpos; simpl in Hpos; lia).
  unfold mvdown_child. rewrite (bind_run _ _ _ _ _ (stbr_get_ptr w c cur s Hc Hs)).
  rewrite (bind_run _ _ w (0, path) (set_kern k0 w)) by (unfold kernel; by rewrite Hwbr).
  cbv beta iota. change (truth 0) with false. cbv iota.
  set (w1 := set_fds (<[w_nextfd w := path]> (w_fds w)) (set_nextfd (w_nextfd w + 1) (set_kern k0 w))).
  rewrite (bind_run _ _ _ (w_nextfd w) w1) by done.
  destruct (au_list_existing w1 (w_nextfd w) path dir o Hf ltac:(cbn; lia) (lookup_insert_eq _ _ _)
    Hd Hl0 Hl1 Hlp Hone Hfp)
    as (w2 & E2 & Hf2 & Hg2 & Hk2 & Hfi2 & Hn2 & Hlf & Hff).
  rewrite (bind_run _ _ _ _ _ E2). cbv beta iota. rewrite bind_md. cbn [default from_option id].
  change (truth 0) with false. cbv iota. set (w3 := set_glob _ w2).
  rewrite fallible_run by done. rewrite (proj2 (Z.ltb_ge _ _)) by done. rewrite bind_gd.
  change (d_listfd (w_glob w3)) with (w_nextfd w1 + 1).
  assert (lp <> fp) as Hne by apply list_path_ne.
  assert (w_files w3 !! lp = Some o) as Hlp3 by (cbn; by rewrite Hfi2, lookup_insert_ne).
  rewrite (bind_run _ _ _ _ _ (file_of_run w3 _ lp o Hlf Hlp3)).
  rewrite (proj2 (Nat.eqb_neq _ _)) by lia. rewrite fallible_run by done.
  change (truth 0) with false. cbv iota. rewrite bind_md. set (w4 := set_glob _ w3).
  assert (in_list lp fp (w_files w) c lc (l ++ e :: rev sk) [] w4) as Hin.
  { constructor; try done; cbn; rewrite ?Hg2; try done; [rewrite Hn2; cbn; lia|].
    rewrite Hfi2. unfold two_files. rewrite (insert_id _ lp); [done|]. by rewrite lookup_insert_ne. }
  apply (loop_moves lp fp (w_files w) Hne cur s c lc Hs Hmsg l e sk fl w4 k1 mv1 k2 mv k'
    (S (length o)) 0 None); try done.
  - cbn. rewrite Hk2, Hg2. exact Hsk.
  - pose proof (records_bytes_count (map entry_bytes (l ++ e :: rev sk))) as Hcount.
    rewrite length_map, length_app in Hcount. simpl in Hcount. rewrite length_rev in Hcount.
    fold (list_bytes (l ++ e :: rev sk)) in Hcount. fold o in Hcount. lia.
Qed.
End child_run.
