(* ===== verification/FhsmCycle.v ===== *)
(** * From a notification to the end of its children

    The event loop and the move-down children together: which branches handle_fhsm() forks
    a child for, what such a child does, and how the loop comes to its end. *)
From S2P Require Import Prelude CString Float32 AufsType FhsmData Sys Shm FhsmList Daemon Mvdown Msg.
From S2P Require Import Event FhsmDaemon MvdownRun.

(** The branches of a notification for which a child is due, with [ops] in progress *)
Definition busy_with (ops : list in_ope) (s : aufs_stbr) : bool :=
  existsb (fun io => io_brid io =? st_brid s) ops.
Definition is_due (lc : aufhsm) (ops : list in_ope) (s : aufs_stbr) : bool :=
  overfull lc s && negb (busy_with ops s).
Definition due (lc : aufhsm) (ops : list in_ope) (l : list aufs_stbr) : list Z :=
  map st_brid (List.filter (is_due lc ops) l).

Lemma due_app lc ops l1 l2 : due lc ops (l1 ++ l2) = due lc ops l1 ++ due lc ops l2.
Proof. unfold due. by rewrite List.filter_app, map_app. Qed.

(** A branch that was just taken care of does not come again. *)
Lemma due_other lc ops l b p :
  b ∉ map st_brid l -> due lc (InOpe b p :: ops) l = due lc ops l.
Proof.
  unfold due. induction l as [|s l IH]; simpl; [done|]. intros [Hs Hl]%not_elem_of_cons.
  assert (is_due lc (InOpe b p :: ops) s = is_due lc ops s) as ->.
  { unfold is_due, busy_with. simpl. by rewrite (proj2 (Z.eqb_neq b (st_brid s))). }
  destruct (is_due lc ops s); simpl; by rewrite IH.
Qed.

(** The new operations, the last one first as list_add() leaves them *)
Definition new_ops (brids pids : list Z) : list in_ope := rev (zip_with InOpe brids pids).


Lemma elem_of_due lc ops l b : b ∈ due lc ops l -> exists s, st_brid s = b /\ s ∈ l.
Proof.
  unfold due. rewrite list_elem_of_In, in_map_iff. intros (s & E & Hs).
  apply filter_In in Hs as [Hs _]. exists s. by rewrite list_elem_of_In.
Qed.

Lemma new_ops_other brids pids b :
  b ∉ brids -> existsb (fun io => io_brid io =? b) (new_ops brids pids) = false.
Proof.
  intros Hb. apply Bool.not_true_iff_false. rewrite existsb_exists. intros (io & Hin & E).
  apply Z.eqb_eq in E. apply Hb. unfold new_ops in Hin. rewrite <- in_rev in Hin.
  apply list_elem_of_In, elem_of_lookup_zip_with in Hin as (i & x & y & -> & Hx & _).
  simpl in E. subst b. by eapply list_elem_of_lookup_2.
Qed.

Lemma new_ops_pids brids pids :
  length pids = length brids -> Permutation (map io_pid (new_ops brids pids)) pids.
Proof.
  intros H. unfold new_ops. rewrite <- (Permutation_rev (zip_with InOpe brids pids)).
  revert brids H. induction pids as [|p pids IH]; intros [|b brids] H; try done.
  simpl. constructor. apply IH. by injection H.
Qed.

(** A branch that is due is still due when the ones before it have been taken care of. *)
Lemma still_due lc ops l1 pids s :
  st_brid s ∉ map st_brid l1 -> is_due lc ops s = true ->
  is_due lc (new_ops (due lc ops l1) pids ++ ops) s = true.
Proof.
  intros Hx [Ho Hb]%andb_true_iff. unfold is_due, busy_with in *. rewrite Ho. cbn [andb].
  rewrite existsb_app, negb_orb, Hb, andb_true_r. apply negb_true_iff, new_ops_other.
  intros (x & Ex & Hin)%elem_of_due. apply Hx. rewrite <- Ex. by apply list_elem_of_fmap_2.
Qed.

Section cycle.
Context {K : Type} `{!AufsKernel K} (prog : bytes).
Notation world := (world K fhsmd).
Implicit Types w : world.

Definition with_ops (ops : list in_ope) (forks : list Z) w : world :=
  set_glob (dset_in_ope ops (w_glob w)) (set_forks forks w).

Lemma with_ops_id w : with_ops (d_in_ope (w_glob w)) (w_forks w) w = w.
Proof. by destruct w as [? ? ? [] ? ? ? ? ? ? ? ?]. Qed.

(** A daemon (not --nodaemon) with its table and the statistics, nothing failing *)
Record daemon_at (lc : aufhsm) (c : aufhsmd_comm) w : Prop := {
  da_faults : w_faults w = [];
  da_lcopy : d_lcopy (w_glob w) = Some lc;
  da_comm : d_comm (w_glob w) = CPtr c;
  da_fork : au_opt_test (d_optflags (w_glob w)) OptFhsmd_NODAEMON = false
}.

Lemma daemon_at_with lc c ops forks w : daemon_at lc c w -> daemon_at lc c (with_ops ops forks w).
Proof. by intros []. Qed.

(** ** au_mvdown_run() in a daemon *)

Lemma run_not_due lc c i s w :
  daemon_at lc c w -> c_stbr c !! i = Some s -> is_due lc (d_in_ope (w_glob w)) s = false ->
  au_mvdown_run prog i w = (Ret (0, None), w).
Proof.
  intros [Hf Hl Hc Ho] Hs Hd. unfold au_mvdown_run.
  rewrite (bind_run _ _ _ _ _ (stbr_get_ptr w c i s Hc Hs)).
  rewrite (bind_run _ _ _ _ _ (test_usage_run w lc s Hl)).
  unfold is_due in Hd. destruct (overfull lc s); [|done]. cbn [negb].
  rewrite bind_gd, Ho. cbn [negb]. rewrite bind_gd. fold (busy_with (d_in_ope (w_glob w)) s).
  by destruct (busy_with _ s).
Qed.

(** The parent and the child of a branch that is due *)
Lemma run_due lc c i s p forks w :
  daemon_at lc c w -> c_stbr c !! i = Some s -> is_due lc (d_in_ope (w_glob w)) s = true ->
  w_forks w = p :: forks -> 0 <= p ->
  au_mvdown_run prog i w =
    (if p =? 0 then '(err, _) ← mvdown_child prog i; exit_ (u8 err) else mret (0, None))
      (with_ops (InOpe (st_brid s) p :: d_in_ope (w_glob w)) forks w).
Proof.
  intros [Hf Hl Hc Ho] Hs Hd Hfk Hp. unfold au_mvdown_run.
  rewrite (bind_run _ _ _ _ _ (stbr_get_ptr w c i s Hc Hs)).
  rewrite (bind_run _ _ _ _ _ (test_usage_run w lc s Hl)).
  apply andb_true_iff in Hd as [-> Hb]. cbn [negb].
  rewrite bind_gd, Ho. cbn [negb]. rewrite bind_gd. fold (busy_with (d_in_ope (w_glob w)) s).
  destruct (busy_with _ s); [done|]. rewrite fallible_run by done. change (truth 0) with false.
  cbv iota. rewrite bind_md. set (w1 := set_glob _ w).
  rewrite (bind_run _ _ w1 p (set_forks forks w1)) by (unfold fork_; cbn; by rewrite Hfk).
  destruct (Z.eqb_spec p 0) as [->|Hne]; [done|].
  rewrite (proj2 (Z.ltb_lt _ _)) by lia. by rewrite bind_md.
Qed.

(** ** The loop over the branches of a notification *)

Lemma follow_stays fuel i w w' :
  au_mvdown_run prog i w = (Ret (0, None), w') ->
  follow_next prog (S fuel) i false w = (Ret (0, false), w').
Proof. intros E. cbn [follow_next]. by rewrite (bind_run _ _ _ _ _ E). Qed.

Lemma each_stbr_next fuel i n w w' :
  (i < n)%nat -> au_mvdown_run prog i w = (Ret (0, None), w') ->
  each_stbr prog (S fuel) i n 0 w = each_stbr prog fuel (S i) n 0 w'.
Proof.
  intros Hi E. cbn [each_stbr]. rewrite (proj2 (Nat.ltb_lt _ _)) by done.
  change (negb (truth 0) && true) with true. cbv iota.
  by rewrite (bind_run _ _ _ _ _ (follow_stays fuel i w w' E)).
Qed.

(** The first branches of a notification: those that are due get a child each. *)
Lemma each_stbr_starts lc c n : forall l pre post pids forks fuel w,
  c_stbr c = pre ++ l ++ post -> daemon_at lc c w -> NoDup (map st_brid l) ->
  w_forks w = pids ++ forks -> length pids = length (due lc (d_in_ope (w_glob w)) l) ->
  Forall (fun p => 0 < p) pids -> (length pre + length l <= n)%nat ->
  each_stbr prog (length l + fuel) (length pre) n 0 w =
    each_stbr prog fuel (length pre + length l) n 0
      (with_ops (new_ops (due lc (d_in_ope (w_glob w)) l) pids ++ d_in_ope (w_glob w)) forks w).
Proof.
  induction l as [|s l IH]; intros pre post pids forks fuel w Hc Hda Hnd Hfk Hlen Hpos Hn.
  { simpl in *. destruct pids; [|done]. simpl in *. rewrite Nat.add_0_r, <- Hfk.
    by rewrite with_ops_id. }
  simpl in Hnd, Hn. apply NoDup_cons in Hnd as [Hs Hnd].
  assert (c_stbr c !! length pre = Some s) as Hi by (rewrite Hc; by apply list_lookup_middle).
  assert (c_stbr c = (pre ++ [s]) ++ l ++ post) as Hc' by (by rewrite <- app_assoc).
  assert (length (pre ++ [s]) = S (length pre)) as Hpre by (rewrite length_app; simpl; lia).
  cbn [length Nat.add]. replace (length pre + S (length l))%nat with (S (length pre) + length l)%nat
    by lia. rewrite <- Hpre.
  destruct (is_due lc (d_in_ope (w_glob w)) s) eqn:Ed.
  - assert (due lc (d_in_ope (w_glob w)) (s :: l) = st_brid s :: due lc (d_in_ope (w_glob w)) l)
      as Edue by (unfold due; simpl; by rewrite Ed).
    rewrite Edue in *. destruct pids as [|p pids]; [done|]. apply Forall_cons in Hpos as [Hp Hpos].
    pose proof (run_due lc c _ s p (pids ++ forks) w Hda Hi Ed Hfk ltac:(lia)) as E.
    rewrite (proj2 (Z.eqb_neq p 0)) in E by lia. set (w1 := with_ops _ _ w) in E.
    rewrite (each_stbr_next _ _ n w w1) by (lia || exact E). rewrite <- Hpre.
    pose proof (due_other lc (d_in_ope (w_glob w)) l (st_brid s) p Hs) as Eo.
    assert (d_in_ope (w_glob w1) = InOpe (st_brid s) p :: d_in_ope (w_glob w)) as Eops by done.
    rewrite (IH (pre ++ [s]) post pids forks fuel w1 Hc'); try done.
    + rewrite Eops, Eo. unfold new_ops. cbn [zip_with rev]. by rewrite <- app_assoc.
    + by apply daemon_at_with.
    + rewrite Eops, Eo. by injection Hlen.
    + lia.
  - assert (due lc (d_in_ope (w_glob w)) (s :: l) = due lc (d_in_ope (w_glob w)) l)
      as Edue by (unfold due; simpl; by rewrite Ed).
    rewrite Edue in *. pose proof (run_not_due lc c _ s w Hda Hi Ed) as E.
    rewrite (each_stbr_next _ _ n w w) by (lia || exact E). rewrite <- Hpre.
    apply (IH (pre ++ [s]) post); try done. lia.
Qed.

(** ** handle_fhsm() *)

(** What the daemon knows after read(2) has returned the statistics [l]. *)
Definition notified (c : aufhsmd_comm) (l : list aufs_stbr) : aufhsmd_comm :=
  Comm (c_msg c) (c_nstbr c) (l ++ drop (length l) (c_stbr c)).
Definition notified_world (c : aufhsmd_comm) (l : list aufs_stbr) (k : K) w : world :=
  set_errno 0 (set_glob (dset_comm (CPtr (notified c l)) (w_glob w)) (set_kern k w)).

Lemma handle_fhsm_reads lc c l k fuel w :
  daemon_at lc c w -> k_fhsm_read (c_nstbr c) (w_kern w) = ((0, l), k) ->
  l <> [] -> Z.of_nat (length l) <= c_nstbr c ->
  handle_fhsm prog (S fuel) w =
    each_stbr prog (S fuel) 0 (length l) 0 (notified_world c l k w).
Proof.
  intros [Hf _ Hc _] Hk Hl Hn. cbn [handle_fhsm]. unfold read_fhsm.
  rewrite bind_assoc, (bind_run _ _ _ _ _ (comm_get_ptr w c Hc)), bind_assoc.
  rewrite (bind_run _ _ w (0, l) (set_kern k w)) by (unfold kernel; by rewrite Hk).
  cbv beta iota. change (truth 0) with false. cbv iota zeta. rewrite take_ge by lia.
  rewrite bind_assoc. unfold comm_put. rewrite bind_md, bind_ret.
  change (negb (truth 0)) with true. cbv iota beta.
  rewrite (proj2 (Nat.eqb_neq _ _)) by (destruct l; simpl; lia || done).
  unfold put_errno. by rewrite bind_modify.
Qed.

Lemma each_stbr_end fuel n w : each_stbr prog fuel n n 0 w = (Ret 0, w).
Proof. destruct fuel; cbn [each_stbr]; by rewrite Nat.ltb_irrefl. Qed.

(** The whole of handle_fhsm() in the daemon *)
Definition served_world lc (c : aufhsmd_comm) l k pids forks w : world :=
  with_ops (new_ops (due lc (d_in_ope (w_glob w)) l) pids ++ d_in_ope (w_glob w)) forks
    (notified_world c l k w).

Lemma handle_fhsm_starts lc c l k pids forks fuel w :
  daemon_at lc c w -> k_fhsm_read (c_nstbr c) (w_kern w) = ((0, l), k) ->
  l <> [] -> Z.of_nat (length l) <= c_nstbr c -> NoDup (map st_brid l) ->
  w_forks w = pids ++ forks -> length pids = length (due lc (d_in_ope (w_glob w)) l) ->
  Forall (fun p => 0 < p) pids -> (length l <= fuel)%nat ->
  handle_fhsm prog (S fuel) w = (Ret 0, served_world lc c l k pids forks w).
Proof.
  intros Hda Hk Hl Hn Hnd Hfk Hlen Hpos Hfuel.
  rewrite (handle_fhsm_reads lc c l k fuel w Hda Hk Hl Hn). set (w1 := notified_world c l k w).
  replace (S fuel) with (length l + (S fuel - length l))%nat by lia.
  assert (daemon_at lc (notified c l) w1) as Hda1 by (by destruct Hda).
  change 0%nat with (length (@nil aufs_stbr)).
  rewrite (each_stbr_starts lc (notified c l) (length l) l [] (drop (length l) (c_stbr c)) pids
    forks _ w1 eq_refl Hda1 Hnd Hfk Hlen Hpos (le_n _)).
  apply each_stbr_end.
Qed.

(** C6. A notification of the kernel starts what is due.  When the kernel reports the
    statistics [l] of some branches and nothing fails, handle_fhsm() stores them, and forks
    one child for each of these branches that is used beyond its watermark and that no
    operation is in progress for, in the order of the branches: afterwards the operations
    in progress are the earlier ones and these, each with the pid of its child. *)
Theorem notification_starts lc c l k pids forks fuel w :
  daemon_at lc c w -> k_fhsm_read (c_nstbr c) (w_kern w) = ((0, l), k) ->
  l <> [] -> Z.of_nat (length l) <= c_nstbr c -> NoDup (map st_brid l) ->
  w_forks w = pids ++ forks -> length pids = length (due lc (d_in_ope (w_glob w)) l) ->
  Forall (fun p => 0 < p) pids -> (length l <= fuel)%nat ->
  exists w', handle_fhsm prog (S fuel) w = (Ret 0, w') /\
    d_in_ope (w_glob w')
      = new_ops (due lc (d_in_ope (w_glob w)) l) pids ++ d_in_ope (w_glob w) /\
    d_comm (w_glob w') = CPtr (notified c l) /\ w_forks w' = forks /\
    w_files w' = w_files w /\ w_kern w' = k.
Proof.
  intros Hda Hk Hl Hn Hnd Hfk Hlen Hpos Hfuel. eexists.
  split; [by apply (handle_fhsm_starts lc c l k pids forks)|]. done.
Qed.

(** The child of the branch behind [l1], as fork(2) leaves it *)
Definition child_world lc c l l1 (s : aufs_stbr) k pids forks w : world :=
  let ops := d_in_ope (w_glob w) in
  with_ops (InOpe (st_brid s) 0 :: new_ops (due lc ops l1) pids ++ ops) forks
    (notified_world c l k w).

Lemma handle_fhsm_child lc c l l1 s l2 k pids forks fuel w :
  l = l1 ++ s :: l2 ->
  daemon_at lc c w -> k_fhsm_read (c_nstbr c) (w_kern w) = ((0, l), k) ->
  Z.of_nat (length l) <= c_nstbr c -> NoDup (map st_brid l) ->
  is_due lc (d_in_ope (w_glob w)) s = true ->
  w_forks w = pids ++ 0 :: forks -> length pids = length (due lc (d_in_ope (w_glob w)) l1) ->
  Forall (fun p => 0 < p) pids -> (length l <= fuel)%nat ->
  forall err next w', mvdown_child prog (length l1) (child_world lc c l l1 s k pids forks w)
      = (Ret (err, next), w') ->
  handle_fhsm prog (S fuel) w = (Exit (u8 err), w').
Proof.
  intros El Hda Hk Hn Hnd Hd Hfk Hlen Hpos Hfuel err next w' Hch.
  rewrite (handle_fhsm_reads lc c l k fuel w Hda Hk ltac:(by rewrite El; destruct l1) Hn).
  set (w1 := notified_world c l k w).
  assert (daemon_at lc (notified c l) w1) as Hda1 by (by destruct Hda).
  assert (c_stbr (notified c l) = [] ++ l1 ++ (s :: l2 ++ drop (length l) (c_stbr c))) as Hc
    by (cbn; rewrite El at 1; by rewrite <- app_assoc).
  pose proof Hnd as Hnd1. rewrite El, map_app in Hnd1. apply NoDup_app in Hnd1 as (Hnd1 & Hx & _).
  assert (length l = length l1 + S (length l2))%nat as Ell by (rewrite El, length_app; simpl; lia).
  replace (S fuel) with (length l1 + S (fuel - length l1))%nat by lia.
  change 0%nat with (length (@nil aufs_stbr)).
  rewrite (each_stbr_starts lc (notified c l) (length l) l1 [] _ pids (0 :: forks) _ w1 Hc Hda1
    Hnd1 Hfk Hlen Hpos) by (simpl; lia).
  cbn [length Nat.add]. set (w2 := with_ops _ _ w1).
  assert (c_stbr (notified c l) !! length l1 = Some s) as Hs
    by (rewrite Hc; by apply list_lookup_middle).
  assert (is_due lc (d_in_ope (w_glob w2)) s = true) as Hd2.
  { apply still_due; [|done]. intros Hin. by apply (Hx _ Hin); left. }
  pose proof (run_due lc (notified c l) _ s 0 forks w2 (daemon_at_with _ _ _ _ _ Hda1) Hs Hd2 eq_refl
    (Z.le_refl 0)) as E.
  cbn [each_stbr]. rewrite (proj2 (Nat.ltb_lt _ _)) by lia.
  change (negb (truth 0) && true) with true. cbv iota. cbn [follow_next].
  unfold mbind, M_bind. rewrite E. change (0 =? 0) with true. cbv iota.
  unfold mbind, M_bind. change (with_ops _ _ w2) with (child_world lc c l l1 s k pids forks w).
  by rewrite Hch.
Qed.

Lemma movable_ext cur s path dir l e sk fl mv k' w w' :
  w_kern w' = w_kern w -> w_files w' = w_files w ->
  d_mvdown (w_glob w') = d_mvdown (w_glob w) -> d_list_dir (w_glob w') = d_list_dir (w_glob w) ->
  movable prog cur s path dir l e sk fl mv k' w -> movable prog cur s path dir l e sk fl mv k' w'.
Proof. intros Ek Ef Em Ed []. constructor; rewrite ?Ek, ?Ef, ?Em, ?Ed; done. Qed.

(** C5. What one of those children does, when no call of the C library fails, no signal
    and no message to exit arrives, the branch's list file exists and its fail-file is
    absent or empty. If the last records of the list, from the end on, are ones that the
    kernel refuses with EBUSY or EINVAL ([skips]), and the one before them is a file
    that it takes, then in the process that fork(2) starts for a branch [s] that is due
    handle_fhsm() does not return: the process exits with status 0, having skipped those
    records and moved that one file, though the branch may still be beyond its
    watermark; the list file has exactly the records before it, the fail-file those to
    be retried (busy files with one link), and no other file has changed. *)
Theorem notification_child_moves lc c l l1 s l2 k pids forks fuel path dir recs e sk fl mv k' w :
  l = l1 ++ s :: l2 ->
  daemon_at lc c w -> undisturbed c w -> k_fhsm_read (c_nstbr c) (w_kern w) = ((0, l), k) ->
  Z.of_nat (length l) <= c_nstbr c -> NoDup (map st_brid l) ->
  is_due lc (d_in_ope (w_glob w)) s = true ->
  w_forks w = pids ++ 0 :: forks -> length pids = length (due lc (d_in_ope (w_glob w)) l1) ->
  Forall (fun p => 0 < p) pids -> (length l <= fuel)%nat ->
  movable prog (length l1) s path dir recs e sk fl mv k' (set_kern k w) ->
  exists w', handle_fhsm prog (S fuel) w = (Exit 0, w') /\
    w_files w' = <[list_path prog dir path := list_bytes recs]>
                   (<[fail_path prog dir path := list_bytes fl]> (w_files w)) /\
    w_kern w' = k'.
Proof.
  intros El Hda (Hf & Hnf & Hc & Hmsg & Hsg & Hp) Hk Hn Hnd Hd Hfk Hlen Hpos Hfuel Hmv.
  set (wc := child_world lc c l l1 s k pids forks w).
  destruct (child_moves_one prog (length l1) s (notified c l) lc path dir recs e sk fl mv k' wc)
    as (w' & E & Hfi & _ & Hk'); try done.
  - cbn. rewrite El at 1. rewrite <- app_assoc. by apply list_lookup_middle.
  - by destruct Hda.
  - by apply andb_true_iff in Hd as [].
  - by apply (movable_ext _ _ _ _ _ _ _ _ _ _ (set_kern k w)).
  - exists w'. split; [|done].
    by apply (handle_fhsm_child lc c l l1 s l2 k pids forks fuel w El Hda Hk Hn Hnd Hd Hfk Hlen
      Hpos Hfuel 0 _ w' E).
Qed.

(** ** The end of the children and of the loop *)

Lemma del_pid_perm pid ops :
  pid ∈ map io_pid ops -> Permutation (map io_pid ops) (pid :: map io_pid (del_pid pid ops).1).
Proof.
  induction ops as [|io ops IH]; simpl; [by intros ?%not_elem_of_nil|].
  destruct (Z.eqb_spec (io_pid io) pid) as [->|Hne]; [done|].
  intros [->|Hin]%elem_of_cons; [done|]. destruct (del_pid pid ops) as [r found]. simpl in *.
  rewrite (IH Hin). constructor.
Qed.

(** The signal that a child has ended *)
Definition child_ended (si : siginfo) : Prop := ssi_signo si = SIGCHLD.

Lemma handle_event_child fuel fd si sigs err done_ w :
  w_faults w = [] -> d_fd (w_glob w) !! AuFd_SIGNAL = Some fd ->
  d_sigs (w_glob w) = Some si :: sigs -> child_ended si ->
  exists w', handle_event prog fuel fd err done_ w = (Ret (err, done_), w') /\
    w_faults w' = [] /\ d_fd (w_glob w') = d_fd (w_glob w) /\ d_sigs (w_glob w') = sigs /\
    d_in_ope (w_glob w') = (del_pid (ssi_pid si) (d_in_ope (w_glob w))).1.
Proof.
  intros Hf Hfd Hs Hc. unfold handle_event. rewrite bind_gd, Hfd. cbn [default from_option id].
  rewrite Z.eqb_refl. unfold handle_sig, read_signal. rewrite !bind_assoc.
  rewrite fallible_run by done. change (truth 0) with false. cbv iota.
  rewrite bind_assoc, bind_gd, Hs, bind_assoc, bind_md, bind_ret, Hc, Z.eqb_refl.
  rewrite bind_assoc, bind_md. set (w1 := set_glob _ _).
  destruct (w_waits w1) as [|x r] eqn:Ew.
  - rewrite bind_assoc, (bind_run _ _ w1 (ssi_pid si) w1) by (unfold waitpid_; by rewrite Ew).
    rewrite bind_ret. change (0 =? SIGCHLD) with false. cbv iota. change (truth 0) with false.
    rewrite orb_false_r. by exists w1.
  - rewrite bind_assoc, (bind_run _ _ w1 x (set_waits r w1)) by (unfold waitpid_; by rewrite Ew).
    rewrite bind_ret. change (0 =? SIGCHLD) with false. cbv iota. change (truth 0) with false.
    rewrite orb_false_r. by exists (set_waits r w1).
Qed.

(** When the daemon is to stop and the children end, in any order, so does the loop. *)
Lemma fhsmd_loop_drains fuel fd : forall sis w err,
  w_faults w = [] -> d_fd (w_glob w) !! AuFd_SIGNAL = Some fd ->
  d_sigs (w_glob w) = map Some sis -> Forall child_ended sis ->
  Permutation (map ssi_pid sis) (map io_pid (d_in_ope (w_glob w))) ->
  exists w', fhsmd_loop prog fuel (replicate (length sis) (EpReady [fd])) err true w
    = (Ret err, w').
Proof.
  induction sis as [|si sis IH]; intros w err Hf Hfd Hs Hc Hp; simpl in *.
  { apply Permutation_nil_l in Hp. symmetry in Hp. apply map_eq_nil in Hp. rewrite bind_gd, Hp. by eexists. }
  apply Forall_cons in Hc as [Hc Hcs].
  assert (ssi_pid si ∈ map io_pid (d_in_ope (w_glob w))) as Hin by (rewrite <- Hp; left).
  rewrite bind_gd.
  replace (match d_in_ope (w_glob w) with [] => true | _ => false end) with false
    by (destruct (d_in_ope (w_glob w)); [by apply not_elem_of_nil in Hin|done]).
  destruct (handle_event_child fuel fd si (map Some sis) err true w Hf Hfd Hs Hc)
    as (w1 & E & Hf1 & Hfd1 & Hs1 & Hops1).
  cbn [andb take handle_events]. rewrite bind_assoc, (bind_run _ _ _ _ _ E), bind_ret.
  apply IH; try done; [by rewrite Hfd1|].
  rewrite Hops1. apply (Permutation_cons_inv (a := ssi_pid si)).
  by rewrite Hp, <- (del_pid_perm _ _ Hin).
Qed.

(** C7. A daemon's shift.  From the idle daemon: a notification of the kernel with the
    statistics [l], the controller's message to exit, and then the signals that the
    children, forked for the branches that were due, have ended, in whatever order: the
    event loop handles them all and returns 0, with no operation in progress. *)
Theorem shift_ends lc c l k pids forks fuel sis fd_sig fd_msg fd_fhsm path w :
  let d := w_glob w in
  daemon_at lc c w -> d_in_ope d = [] ->
  k_fhsm_read (c_nstbr c) (w_kern w) = ((0, l), k) ->
  l <> [] -> Z.of_nat (length l) <= c_nstbr c -> NoDup (map st_brid l) ->
  w_forks w = pids ++ forks -> length pids = length (due lc [] l) ->
  Forall (fun p => 0 < p) pids -> (length l <= fuel)%nat ->
  d_fd d !! AuFd_SIGNAL = Some fd_sig -> d_fd d !! AuFd_MSG = Some fd_msg ->
  d_fd d !! AuFd_FHSM = Some fd_fhsm ->
  fd_msg <> fd_sig -> fd_fhsm <> fd_sig -> fd_fhsm <> fd_msg ->
  w_fds w !! fd_msg = Some path -> w_fifos w !! path = Some [AuFhsm_MSG_EXIT] ->
  d_sigs d = map Some sis -> Forall child_ended sis -> Permutation (map ssi_pid sis) pids ->
  exists w', au_fhsmd_loop prog (S fuel)
      (EpReady [fd_fhsm] :: EpReady [fd_msg] :: replicate (length sis) (EpReady [fd_sig])) w
    = (Ret 0, w') /\ d_in_ope (w_glob w') = [].
Proof.
  intros d Hda Hi Hk Hl Hn Hnd Hfk Hlen Hpos Hfuel F1 F2 F3 N1 N2 N3 Hp Hq Hs Hc Hperm.
  rewrite <- Hi in Hlen. pose proof (da_faults _ _ _ Hda) as Hf.
  pose proof (handle_fhsm_starts lc c l k pids forks fuel w Hda Hk Hl Hn Hnd Hfk Hlen Hpos Hfuel)
    as E1. set (w1 := served_world lc c l k pids forks w) in E1.
  pose proof (handle_msg_exit w1 fd_msg path (notified c l) Hf F2 Hp Hq eq_refl) as E2.
  set (w2 := set_glob _ _) in E2.
  destruct (fhsmd_loop_drains (S fuel) fd_sig sis w2 0) as (w' & E); try done.
  { cbn. fold d. rewrite Hi, app_nil_r, Hperm. by rewrite new_ops_pids by (fold d in Hlen; by rewrite <- Hi). }
  assert (handle_event prog (S fuel) fd_fhsm 0 false w = (Ret (0, false), w1)) as H1.
  { rewrite (handle_event_fhsm prog (S fuel) fd_fhsm fd_sig fd_msg) by done.
    by rewrite (bind_run _ _ _ _ _ E1). }
  assert (handle_event prog (S fuel) fd_msg 0 false w1 = (Ret (0, true), w2)) as H2.
  { rewrite (handle_event_msg prog (S fuel) fd_msg fd_sig) by done.
    by rewrite (bind_run _ _ _ _ _ E2). }
  assert (au_fhsmd_loop prog (S fuel) (EpReady [fd_fhsm] :: EpReady [fd_msg]
    :: replicate (length sis) (EpReady [fd_sig])) w = (Ret 0, w')) as Hrun.
  { unfold au_fhsmd_loop. cbn [fhsmd_loop]. rewrite bind_gd. cbn [andb take handle_events].
    rewrite bind_assoc, (bind_run _ _ _ _ _ H1), bind_ret, bind_gd. cbn [andb].
    by rewrite bind_assoc, (bind_run _ _ _ _ _ H2), bind_ret. }
  exists w'. split; [exact Hrun|].
  unfold au_fhsmd_loop in Hrun. exact (fhsmd_loop_idle _ _ _ _ _ _ _ _ Hrun).
Qed.
End cycle.

(** ** A concrete daemon

    Branch 1 is used beyond its watermark, branch 3 is not.  Of the three files on the list
    of branch 1, the last one is busy. *)
Module CycleDemo.
#[export] Instance kernel : AufsKernel unit :=
  {| k_is_aufs _ := true; k_dev _ := (0, 42); k_ino _ := 2; k_br_count k := ((0, 0), k);
     k_br_fill _ k := ((0, []), k); k_wbr_fd _ k := ((0, lit "/rw"), k);
     k_openat _ k := (0, k); k_nlink _ _ := 1;
     k_mvdown name m k := ((if decide (name = lit "busy") then EBUSY else 0, m), k);
     k_fhsm_fd k := ((3, 0), k);
     k_fhsm_read _ k := ((0, [Stbr 1 0 (Stfs 100 10 0 0); Stbr 3 2 (Stfs 100 90 0 0)]), k);
     k_list_cmd _ k := ((0, []), k) |}.
Definition prog : bytes := lit "aufhsmd".
Definition lc : aufhsm :=
  Aufhsm [] 0 2 [Wmark 1 (0x3f000000, 0x3f400000) (F32_1, F32_1);
                 Wmark 3 (0x3f000000, 0x3f400000) (F32_1, F32_1)].
Definition s1 : aufs_stbr := Stbr 1 0 (Stfs 100 10 0 0).
Definition s3 : aufs_stbr := Stbr 3 2 (Stfs 100 90 0 0).
Definition c : aufhsmd_comm := Comm 0 2 [Stbr 0 0 (Stfs 0 0 0 0); Stbr 0 0 (Stfs 0 0 0 0)].
Definition e0 : entry := Entry (lit "1") (lit "8") (lit "old").
Definition e1 : entry := Entry (lit "2") (lit "16") (lit "a b").
Definition e2 : entry := Entry (lit "3") (lit "8") (lit "busy").
Definition lp : bytes := list_path prog (lit "/run") (lit "/rw").
Definition d : fhsmd :=
  dset_fd [4; 5; 6; 7; 8] (dset_list_dir (Some (lit "/run"))
    (dset_comm (CPtr c) (dset_lcopy (Some lc) fhsmd0))).
Definition w (forks : list Z) : world unit fhsmd :=
  World 0 [] tt d ∅ (<[lp := list_bytes [e0; e1; e2]]> ∅) ∅ 9 ∅ forks [] [].

(** The answers of the kernel to the child *)
Definition answer : aufs_mvdown := mvdown_request 1 (mvdown_request 1 (d_mvdown d)).
Lemma e2_skipped : skips 1 (tt, d_mvdown d) [e2] [e2] (tt, mvdown_request 1 (d_mvdown d)).
Proof.
  change [e2] with (retried EBUSY tt e2 ++ []) at 2.
  eapply (skips_cons 1 tt _ e2 tt EBUSY _ tt []); [reflexivity|reflexivity|by left|constructor].
Qed.
Lemma ready (v : world unit fhsmd) :
  w_files v = w_files (w []) -> w_glob v = d ->
  movable prog 0 s1 (lit "/rw") (lit "/run") [e0] e1 [e2] [e2] answer tt v.
Proof.
  intros Ef Eg. constructor; rewrite ?Ef, ?Eg; try (vm_compute; reflexivity).
  - destruct v as [? ? [] ? ? ? ? ? ? ? ? ?]. simpl in Eg. subst.
    exists tt, tt, (mvdown_request 1 (d_mvdown d)), tt. by split_and!; [|apply e2_skipped|..].
  - split; apply (bool_decide_unpack _); vm_compute; exact Logic.I.
  - apply (bool_decide_unpack _). vm_compute. exact Logic.I.
Qed.
End CycleDemo.
Import CycleDemo.

Lemma child_moves_one_witness :
  exists w', mvdown_child prog 0
      (set_glob (dset_comm (CPtr (notified c [s1; s3])) d) (w [])) = (Ret (0, None), w') /\
    w_files w' !! lp = Some (list_bytes [e0]) /\
    w_files w' !! fail_path prog (lit "/run") (lit "/rw") = Some (list_bytes [e2]).
Proof.
  set (v := set_glob _ _).
  assert (movable prog 0 s1 (lit "/rw") (lit "/run") [e0] e1 [e2] [e2] answer tt v) as Hm
    by (apply (movable_ext prog 0 s1 _ _ _ _ _ _ _ _ (w [])); try reflexivity; by apply ready).
  destruct (child_moves_one prog 0 s1 (notified c [s1; s3]) lc (lit "/rw") (lit "/run") [e0] e1 [e2]
    [e2] answer tt v ltac:(split_and!; try reflexivity; discriminate) eq_refl eq_refl
    ltac:(vm_compute; reflexivity) Hm) as (w' & E & Hf & _).
  exists w'. rewrite Hf. split; [exact E|]. split; vm_compute; reflexivity.
Defined.

Lemma w_ready forks : daemon_at lc c (w forks) /\ undisturbed c (w forks).
Proof. split; [by constructor|]. split_and!; try reflexivity; discriminate. Qed.

Lemma notification_starts_witness :
  exists w', handle_fhsm prog 3 (w [70]) = (Ret 0, w') /\
    d_in_ope (w_glob w') = [InOpe 1 70] /\ d_comm (w_glob w') = CPtr (notified c [s1; s3]).
Proof.
  destruct (@notification_starts unit kernel prog lc c [s1; s3] tt [70] [] 2 (w [70]) (proj1 (w_ready _))
    ltac:(reflexivity) ltac:(discriminate) ltac:(vm_compute; discriminate)
    ltac:(apply (bool_decide_unpack _); vm_compute; exact Logic.I) eq_refl
    ltac:(vm_compute; reflexivity) ltac:(by constructor) (le_n _)) as (w' & E & Ho & Hc & _).
  exists w'. split; [exact E|]. split; [|exact Hc]. rewrite Ho. vm_compute. reflexivity.
Defined.

Lemma notification_child_moves_witness :
  exists w', handle_fhsm prog 3 (w [0]) = (Exit 0, w') /\
    w_files w' !! lp = Some (list_bytes [e0]).
Proof.
  destruct (@notification_child_moves unit kernel prog lc c [s1; s3] [] s1 [s3] tt [] [] 2 (lit "/rw") (lit "/run")
    [e0] e1 [e2] [e2] answer tt (w [0]) eq_refl (proj1 (w_ready _)) (proj2 (w_ready _)) ltac:(reflexivity)
    ltac:(vm_compute; discriminate) ltac:(apply (bool_decide_unpack _); vm_compute; exact Logic.I)
    ltac:(vm_compute; reflexivity) eq_refl eq_refl ltac:(by constructor) (le_n _)
    ltac:(by apply ready)) as (w' & E & Hf & _).
  exists w'. rewrite Hf. split; [exact E|]. vm_compute. reflexivity.
Defined.

Lemma shift_ends_witness :
  exists w', au_fhsmd_loop prog 3 [EpReady [5]; EpReady [8]; EpReady [6]]
      (set_glob (dset_sigs [Some (Siginfo SIGCHLD 70 0)] d)
        (set_fifos (<[lit "/f" := [AuFhsm_MSG_EXIT]]> ∅) (set_fds (<[8 := lit "/f"]> ∅) (w [70]))))
    = (Ret 0, w') /\ d_in_ope (w_glob w') = [].
Proof.
  apply (@shift_ends unit kernel prog lc c [s1; s3] tt [70] [] 2 [Siginfo SIGCHLD 70 0] 6 8 5 (lit "/f"));
    try (vm_compute; reflexivity); try discriminate; try apply le_n.
  - by constructor.
  - apply (bool_decide_unpack _). vm_compute. exact Logic.I.
  - by constructor.
  - by constructor.
Defined.
