(* ===== verification/FhsmArgs.v ===== *)
(** * The watermark arguments of aufhsm

    What do_wmark() and its caller make of "UPPER-LOWER" and "BRANCH=UPPER-LOWER", for
    whole percentages: each argument changes the elements that it names, and the last one
    that names a branch decides. *)
From S2P Require Import Prelude CString Float32 Scan AufsType FhsmData Sys Br Shm Fhsm FhsmDump.
From S2P Require Import FhsmCtl.

Definition apply_wmark (inode : bool) (a : Z * Z) : aufhsm_wmark -> aufhsm_wmark :=
  if inode then set_inode a else set_block a.

Lemma apply_wmark_brid inode a wm : wm_brid (apply_wmark inode a wm) = wm_brid wm.
Proof. by destruct inode. Qed.
Lemma apply_wmark_twice inode a a' wm :
  apply_wmark inode a (apply_wmark inode a' wm) = apply_wmark inode a wm.
Proof. by destruct inode. Qed.

(** ** The arguments *)

Inductive warg := ForAll (u l : Z) | ForBranch (path : bytes) (u l : Z).

Definition warg_u (a : warg) : Z := match a with ForAll u _ | ForBranch _ u _ => u end.
Definition warg_l (a : warg) : Z := match a with ForAll _ l | ForBranch _ _ l => l end.
Definition warg_text (a : warg) : bytes :=
  match a with
  | ForAll u l => wmark_text u l
  | ForBranch path u l => path ++ "="%char :: wmark_text u l
  end.

(** The free ratios that are stored *)
Definition free_ratio (u : Z) : Z := f32_div (f32_sub F32_100 (typed_percent u)) F32_100.
Definition warg_values (a : warg) : Z * Z := (free_ratio (warg_u a), free_ratio (warg_l a)).

(** Which branch an argument names; which elements of the table it changes, the branches of
    the mount point being [brs] *)
Definition names (a : warg) (b : aufs_brinfo) : bool :=
  match a with ForAll _ _ => true | ForBranch path _ _ => bool_decide (bi_path b = path) end.
Definition touches (brs : list aufs_brinfo) (a : warg) (brid : Z) : bool :=
  match a with
  | ForAll _ _ => true
  | ForBranch _ _ _ => existsb (fun b => names a b && (bi_id b =? brid)) brs
  end.
Definition apply_warg (inode : bool) (brs : list aufs_brinfo) (wm : aufhsm_wmark) (a : warg)
  : aufhsm_wmark :=
  if touches brs a (wm_brid wm) then apply_wmark inode (warg_values a) wm else wm.
Definition apply_wargs (inode : bool) (brs : list aufs_brinfo) (args : list warg) (wm : aufhsm_wmark) :=
  fold_left (apply_warg inode brs) args wm.

Record warg_ok (brs : list aufs_brinfo) (a : warg) : Prop := {
  wa_order : 0 <= warg_l a <= warg_u a;
  wa_top : warg_u a <= 100;
  wa_branch : match a with ForAll _ _ => True | ForBranch path _ _ => path ∈ map bi_path brs end
}.

(** The meaning of a row of arguments for one branch: the last that names it decides. *)
Definition last_for (args : list warg) (b : aufs_brinfo) : option warg :=
  List.find (fun a => names a b) (rev args).
Definition typed_wm (inode : bool) (args : list warg) (b : aufs_brinfo) : aufhsm_wmark :=
  match last_for args b with
  | Some a => apply_wmark inode (warg_values a) (wm_init b)
  | None => wm_init b
  end.

Lemma nodup_map_inj {A B} (f : A -> B) l x y :
  NoDup (map f l) -> x ∈ l -> y ∈ l -> f x = f y -> x = y.
Proof.
  induction l as [|z l IH]; simpl; [by intros _ ?%not_elem_of_nil|].
  intros [Hz Hd]%NoDup_cons Hx Hy E.
  apply elem_of_cons in Hx as [->|Hx], Hy as [->|Hy]; [done| | |by apply IH].
  - destruct Hz. rewrite E. by apply list_elem_of_fmap_2.
  - destruct Hz. rewrite <- E. by apply list_elem_of_fmap_2.
Qed.

Lemma apply_warg_brid inode brs wm a : wm_brid (apply_warg inode brs wm a) = wm_brid wm.
Proof. unfold apply_warg. destruct (touches _ _ _); [apply apply_wmark_brid|done]. Qed.
Lemma apply_wargs_brid inode brs args wm : wm_brid (apply_wargs inode brs args wm) = wm_brid wm.
Proof.
  unfold apply_wargs. revert wm. induction args as [|a args IH]; intros wm; [done|].
  simpl. by rewrite IH, apply_warg_brid.
Qed.

Lemma touches_names brs a b :
  NoDup (map bi_id brs) -> b ∈ brs -> touches brs a (bi_id b) = names a b.
Proof.
  intros Hd Hb. destruct a as [|path u l]; [done|]. unfold touches.
  apply Bool.eq_iff_eq_true. rewrite existsb_exists. split.
  - intros (x & Hx & [Hn E%Z.eqb_eq]%andb_true_iff). apply list_elem_of_In in Hx.
    by rewrite <- (nodup_map_inj bi_id brs x b Hd Hx Hb E).
  - intros Hn. exists b. rewrite <- list_elem_of_In, Hn, Z.eqb_refl. done.
Qed.

(** The row of arguments on the default element of a branch *)
Lemma apply_wargs_typed inode brs args b :
  NoDup (map bi_id brs) -> b ∈ brs ->
  apply_wargs inode brs args (wm_init b) = typed_wm inode args b.
Proof.
  intros Hd Hb. unfold typed_wm, last_for, apply_wargs.
  induction args as [|a args IH] using rev_ind; [done|].
  rewrite fold_left_app, rev_app_distr. cbn [fold_left rev app List.find].
  pose proof (apply_wargs_brid inode brs args (wm_init b)) as Hid. unfold apply_wargs in Hid.
  unfold apply_warg at 1. rewrite Hid. change (wm_brid (wm_init b)) with (bi_id b).
  rewrite (touches_names brs a b Hd Hb). destruct (names a b); [|exact IH].
  rewrite IH. destruct (List.find _ _); [apply apply_wmark_twice|done].
Qed.

(** ** What the text means *)

Lemma digits_no_eq z : 0 <= z -> "="%char ∉ digits 10 z.
Proof.
  intros Hz H. pose proof (digits_all_digits z Hz) as Hd. rewrite Forall_forall in Hd.
  destruct (Hd _ H) as (d & Hr & E).
  assert (d = 0 \/ d = 1 \/ d = 2 \/ d = 3 \/ d = 4 \/ d = 5 \/ d = 6 \/ d = 7 \/ d = 8 \/ d = 9)
    as Hc by lia.
  repeat destruct Hc as [->|Hc]; [discriminate E..|]. subst d. discriminate E.
Qed.

Lemma wmark_text_no_eq u l : 0 <= u -> 0 <= l -> "="%char ∉ wmark_text u l.
Proof.
  intros Hu Hl. unfold wmark_text, fmt_u. rewrite !not_elem_of_app.
  split; [by apply digits_no_eq|]. split; [|by apply digits_no_eq]. set_solver.
Qed.

(** The last "=" of an argument is the one before the percentages, whatever the path. *)
Lemma warg_split brs a :
  warg_ok brs a ->
  strrchr (warg_text a) "="%char
  = match a with ForAll _ _ => None | ForBranch path _ _ => Some (length path) end.
Proof.
  intros [Ho _ _]. unfold strrchr. destruct a as [u l|path u l]; simpl in Ho |- *.
  - apply last_idx_None, wmark_text_no_eq; lia.
  - apply last_idx_app, wmark_text_no_eq; lia.
Qed.

Lemma warg_values_text brs a :
  warg_ok brs a -> wmark_values (wmark_text (warg_u a) (warg_l a)) = Some (warg_values a).
Proof. intros [Ho Ht _]. by apply wmark_values_text. Qed.

(** au_fhsm_dump() shows the percentages that were typed. *)
Lemma warg_shown brs a :
  warg_ok brs a -> fmt_wmark (warg_values a) = wmark_shown (warg_u a) (warg_l a).
Proof.
  intros [Ho Ht _]. destruct (percent_spec (warg_u a)) as (_ & _ & _ & _ & Eu); [lia|].
  destruct (percent_spec (warg_l a)) as (_ & _ & _ & _ & El); [lia|].
  unfold fmt_wmark, wmark_shown, warg_values, free_ratio. cbn [fst snd].
  by rewrite Eu, El, <- app_assoc.
Qed.

(** ** One argument, and all *)

(** Changing the one element of a branch *)
Lemma insert_as_map (f : aufhsm_wmark -> aufhsm_wmark) brid l k wm :
  NoDup (map wm_brid l) -> l !! k = Some wm -> wm_brid wm = brid ->
  <[k := f wm]> l = map (fun x => if wm_brid x =? brid then f x else x) l.
Proof.
  intros Hd Hk Hb. apply list_eq. intros i. change (map ?g l) with (g <$> l). rewrite list_lookup_fmap.
  destruct (decide (i = k)) as [->|Hne].
  - rewrite list_lookup_insert_eq by (by apply lookup_lt_Some in Hk). rewrite Hk. simpl.
    by rewrite Hb, Z.eqb_refl.
  - rewrite list_lookup_insert_ne by done. destruct (l !! i) as [x|] eqn:Ei; [|done]. simpl.
    destruct (Z.eqb_spec (wm_brid x) brid) as [E|]; [|done]. destruct Hne.
    apply (NoDup_lookup (map wm_brid l) i k brid); [done|..];
      change (map wm_brid l) with (wm_brid <$> l); rewrite list_lookup_fmap.
    + rewrite Ei. simpl. by rewrite E.
    + rewrite Hk. simpl. by rewrite Hb.
Qed.

(** An element of no branch of the table *)
Lemma lfind_None_map (f : aufhsm_wmark -> aufhsm_wmark) brid l :
  au_wm_lfind brid l (length l) = None ->
  map (fun x => if wm_brid x =? brid then f x else x) l = l.
Proof.
  intros H%lfind_None. rewrite take_ge in H by done. induction H as [|x l Hx H IH]; [done|].
  simpl. by rewrite IH, (proj2 (Z.eqb_neq _ _)).
Qed.

Section args.
Context {K : Type} `{!AufsKernel K}.
Notation world := (world K controller).
Context (nbr : Z) (br : list aufs_brinfo) (Hnbr : 0 <= nbr <= Z.of_nat (length br)).
Notation brs := (take (Z.to_nat nbr) br).
Context (Hpaths : NoDup (map bi_path brs)).

(** A table of an element per branch *)
Record table_ok (p : fhsm_ptr) (o : aufhsm) : Prop := {
  to_some : wmark o <> [];
  to_length : nwmark o = Z.of_nat (length (wmark o));
  to_ids : NoDup (map wm_brid (wmark o));
  to_room : au_fhsm_size (nwmark o) <= ptr_len p
}.

Lemma table_ok_map p o f :
  (forall x, wm_brid (f x) = wm_brid x) -> table_ok p o -> table_ok p (set_wmark (map f (wmark o)) o).
Proof.
  intros Hf [Hs Hl Hi Hr]. constructor; cbn.
  - by destruct (wmark o).
  - by rewrite length_map.
  - rewrite map_map. by rewrite (map_ext _ wm_brid).
  - done.
Qed.

Lemma found_touches path u l b x :
  b ∈ brs -> bi_path b = path ->
  touches brs (ForBranch path u l) x = (x =? bi_id b).
Proof.
  intros Hb Hp. apply Bool.eq_iff_eq_true. unfold touches. rewrite existsb_exists, Z.eqb_eq. split.
  - intros (y & Hy & [Hn E%Z.eqb_eq]%andb_true_iff). apply list_elem_of_In in Hy.
    unfold names in Hn. apply bool_decide_eq_true in Hn.
    by rewrite <- E, (nodup_map_inj bi_path brs y b Hpaths Hy Hb) by congruence.
  - intros ->. exists b. rewrite <- list_elem_of_In. unfold names.
    by rewrite bool_decide_true, Z.eqb_refl.
Qed.

Lemma drop_behind {A} (l r : list A) x : drop (S (length l)) (l ++ x :: r) = r.
Proof.
  change (x :: r) with ([x] ++ r). rewrite app_assoc, drop_app_length'; [done|].
  rewrite length_app. simpl. lia.
Qed.

(** "BRANCH=UPPER-LOWER" *)
Lemma wmark_arg_branch path u l p (w : world) o :
  let a := ForBranch path u l in
  let inode := opt_test (ct_optflags (w_glob w)) OptFhsm_INODE in
  warg_ok brs a -> w_shm w !! ptr_name p = Some o -> table_ok p o ->
  wmark_arg (warg_text a) p nbr (au_br_sort_path nbr br) w =
    (Ret tt, set_shm (<[ptr_name p := set_wmark
       (map (fun wm => apply_warg inode brs wm a) (wmark o)) o]> (w_shm w)) w).
Proof.
  intros a inode Ha Ho [_ Hn Hd Hr]. unfold wmark_arg, optflags. rewrite bind_gets.
  rewrite (warg_split brs a Ha). cbn [a warg_text]. rewrite take_app_length.
  pose proof (search_path_correct path nbr br Hnbr) as Hsearch.
  destruct (au_br_search_path _ _ _) as [b|].
  2:{ exfalso. destruct Ha as [_ _ Hin]. apply list_elem_of_In, in_map_iff in Hin as (b & E & Hb).
      rewrite Forall_forall in Hsearch. apply (Hsearch b); [by apply list_elem_of_In|done]. }
  destruct Hsearch as [Hb Hp]. rewrite (bind_run _ _ _ _ _ (shm_table_run w p o Ho Hr)).
  rewrite Hn, Nat2Z.id.
  assert (map (fun wm => apply_warg inode brs wm a) (wmark o)
    = map (fun x => if wm_brid x =? bi_id b then apply_wmark inode (warg_values a) x else x) (wmark o))
    as Emap.
  { apply map_ext. intros x. unfold apply_warg, a. by rewrite (found_touches path u l b). }
  rewrite Emap. destruct (au_wm_lfind (bi_id b) (wmark o) (length (wmark o))) as [k|] eqn:Ek.
  - apply lfind_Some in Ek as (_ & wm & Hwm & Eb & _). rewrite Hwm.
    rewrite drop_behind. unfold do_wmark.
    pose proof (warg_values_text brs a Ha) as Ev. cbn [a warg_u warg_l] in Ev. rewrite Ev.
    cbn [mbind option_bind].
    rewrite <- (insert_as_map (apply_wmark inode (warg_values a)) (bi_id b) (wmark o) k wm Hd Hwm Eb).
    fold inode. unfold apply_wmark. by destruct inode.
  - rewrite lfind_None_map by done. rewrite set_wmark_id, insert_id by done. by destruct w.
Qed.

(** Any argument *)
Lemma wmark_arg_run a p (w : world) o :
  let inode := opt_test (ct_optflags (w_glob w)) OptFhsm_INODE in
  warg_ok brs a -> w_shm w !! ptr_name p = Some o -> table_ok p o ->
  wmark_arg (warg_text a) p nbr (au_br_sort_path nbr br) w =
    (Ret tt, set_shm (<[ptr_name p := set_wmark
       (map (fun wm => apply_warg inode brs wm a) (wmark o)) o]> (w_shm w)) w).
Proof.
  intros inode Ha Ho Ht. destruct a as [u l|path u l]; [|by apply wmark_arg_branch].
  pose proof (warg_split brs _ Ha) as Hs. pose proof (warg_values_text brs _ Ha) as Hv.
  destruct Ht as [Hne Hn Hd Hr]. by apply wmark_arg_all.
Qed.

(** All arguments, one after the other *)
Lemma wmark_args_run p args : forall (w : world) o,
  let inode := opt_test (ct_optflags (w_glob w)) OptFhsm_INODE in
  Forall (warg_ok brs) args -> w_shm w !! ptr_name p = Some o -> table_ok p o ->
  wmark_args (map warg_text args) p nbr (au_br_sort_path nbr br) w =
    (Ret tt, set_shm (<[ptr_name p := set_wmark
       (map (apply_wargs inode brs args) (wmark o)) o]> (w_shm w)) w).
Proof.
  induction args as [|a args IH]; intros w o inode Ha Ho Ht; cbn [wmark_args map].
  - unfold apply_wargs. cbn [fold_left]. rewrite map_id, set_wmark_id, insert_id by done.
    by destruct w.
  - apply Forall_cons in Ha as [Ha Has].
    rewrite (bind_run _ _ _ _ _ (wmark_arg_run a p w o Ha Ho Ht)). fold inode.
    set (o1 := set_wmark _ o). set (w1 := set_shm _ w).
    rewrite (IH w1 o1); [|done|apply lookup_insert_eq|].
    2:{ apply table_ok_map; [|done]. intros x. apply apply_warg_brid. }
    unfold w1, o1. cbn. rewrite insert_insert_eq, map_map. done.
Qed.
End args.
