(* ===== verification/FhsmRun.v ===== *)
(** * The controller and the daemon together

    One run of aufhsm, from main() to the shared table, and what the daemon that is started
    on the same mount point loads of it: options, branches, shared memory, watermarks,
    signature and names put together. *)
From S2P Require Import Prelude CString LibcSort Float32 Scan AufsType FhsmData Sys Br Shm Fhsm.
From S2P Require Import FhsmDump FhsmList Msg FhsmCtl FhsmArgs Daemon Mvdown Event FhsmDaemon.

(** ** What no call but those of shm_open(3)'s family touches *)

Section table_kept.
Context {K G : Type} `{!AufsKernel K}.
Context (name : bytes) (o : aufhsm).
Notation world := (world K G).

Definition table_is (w : world) : Prop := w_shm w !! name = Some o.
Notation kept m := (preserves table_is m).

Lemma table_modify f : (forall w : world, w_shm (f w) = w_shm w) -> kept (modify f).
Proof. intros H w Hw. unfold table_is. simpl. by rewrite H. Qed.
Lemma table_pop_fault : kept (@pop_fault K G).
Proof. intros w Hw. unfold pop_fault. by destruct (w_faults w). Qed.
Lemma table_put_errno e : kept (@put_errno K G e).
Proof. by apply table_modify. Qed.
Lemma table_fallible : kept (@fallible K G).
Proof. apply preserves_bind; [apply table_pop_fault|]. intros []; try by intros w Hw. Qed.
Lemma table_kernel {A} (f : K -> A * K) : kept (@kernel K G A f).
Proof. intros w Hw. unfold kernel. by destruct (f _). Qed.
Lemma table_fork : kept (@fork_ K G).
Proof. intros w Hw. unfold fork_. by destruct (w_forks w). Qed.
Lemma table_waitpid p : kept (@waitpid_ K G p).
Proof. intros w Hw. unfold waitpid_. by destruct (w_waits w). Qed.
Lemma table_au_fin {A} : kept (@au_fin K G A).
Proof. intros w Hw. unfold au_fin. by destruct (_ =? 0). Qed.
Lemma table_new_fd p : kept (@new_fd K G p).
Proof. by intros w Hw. Qed.
End table_kept.
#[export] Hint Resolve table_pop_fault table_put_errno table_fallible table_kernel table_fork
  table_waitpid table_au_fin table_new_fd : pres.
#[export] Hint Extern 2 (preserves (table_is _ _) (modify _)) =>
  (apply table_modify; intros; reflexivity) : pres.

Section table_kept2.
Context {K : Type} `{!AufsKernel K}.
Context (name : bytes) (o : aufhsm) (spawn : list bytes -> Z).
Notation kept m := (preserves (@table_is K controller name o) m).

Lemma table_open p : kept (open_ p).
Proof. unfold open_. pres. Qed.
Lemma table_close fd : kept (close_ fd).
Proof. unfold close_. pres. Qed.
#[local] Hint Resolve table_open table_close : pres.

Lemma table_wait_for_terminate ticks : kept (wait_for_terminate ticks).
Proof. induction ticks; cbn [wait_for_terminate]; pres. Qed.
#[local] Hint Resolve table_wait_for_terminate : pres.
Lemma table_au_fhsm_msg ticks n msg rootfd : kept (au_fhsm_msg ticks n msg rootfd).
Proof. unfold au_fhsm_msg, au_list_dir, mknod_fifo, send_fifo, fifo_put. pres. Qed.
Lemma table_run_program av m : kept m -> kept (run_program spawn av m).
Proof. intros Hm. unfold run_program. pres. Qed.
Lemma table_au_run_fhsmd mntpnt v : kept (au_run_fhsmd spawn mntpnt v).
Proof.
  unfold au_run_fhsmd, au_list_dir. pres; apply table_run_program; pres.
Qed.
End table_kept2.
#[export] Hint Resolve table_open table_close table_au_fhsm_msg table_au_run_fhsmd : pres.

(** ** The steps of main() *)

(** The world after some calls that change neither tables nor variables, without a fault. *)
Definition settled {K G} (w w' : world K G) : Prop :=
  w_shm w' = w_shm w /\ w_glob w' = w_glob w /\ w_faults w' = [] /\ 0 <= w_nextfd w'.

Section steps.
Context {K G : Type} `{!AufsKernel K}.
Notation world := (world K G).

Lemma settled_trans (w1 w2 w3 : world) : settled w1 w2 -> settled w2 w3 -> settled w1 w3.
Proof. intros (? & ? & ? & ?) (? & ? & ? & ?). split_and!; congruence. Qed.

Lemma au_br_run root nbr br k1 k2 (w : world) :
  w_faults w = [] -> 0 <= w_nextfd w -> k_is_aufs root = true -> 0 < nbr ->
  k_br_count (w_kern w) = ((nbr, 0), k1) -> k_br_fill nbr k1 = ((0, br), k2) ->
  exists w', au_br root w = (Ret (0, nbr, br), w') /\ settled w w'.
Proof.
  intros Hf Hfd Ha Hn Hc Hb. unfold au_br.
  rewrite (bind_run _ _ _ _ _ (eq_trans (open_ok w root Hf) eq_refl)).
  rewrite (proj2 (Z.ltb_ge _ _)) by done. set (w1 := set_fds _ _).
  rewrite fallible_run by done. change (truth 0) with false. cbv iota. rewrite Ha. cbn [negb].
  rewrite (bind_run (kernel k_br_count) _ w1 (nbr, 0) (set_kern k1 w1))
    by (unfold kernel, w1; cbn; by rewrite Hc).
  rewrite (proj2 (Z.leb_gt _ _)) by done. rewrite bind_ret.
  set (w2 := set_kern k1 w1). rewrite (bind_run _ _ _ _ _ (pop_fault_ok w2 Hf)). cbv zeta.
  unfold put_errno. rewrite bind_modify. cbn [truth negb Z.eqb].
  set (w3 := set_errno 0 w2).
  rewrite (bind_run (kernel (k_br_fill nbr)) _ w3 (0, br) (set_kern k2 w3))
    by (unfold kernel, w3, w2; cbn; by rewrite Hb).
  cbn [truth negb Z.eqb]. rewrite (bind_run _ _ _ _ _ (close_ok (set_kern k2 w3) _ Hf)).
  eexists. split; [reflexivity|]. split_and!; try done. unfold w3, w2, w1. cbn. lia.
Qed.

(** shm_unlink() of a table that need not exist *)
Lemma shm_unlink_run name (w : world) :
  w_faults w = [] ->
  exists r w', shm_unlink name w = (Ret r, w') /\ w_shm w' = delete name (w_shm w) /\
    w_glob w' = w_glob w /\ w_faults w' = [] /\ w_nextfd w' = w_nextfd w /\ w_kern w' = w_kern w.
Proof.
  intros Hf. unfold shm_unlink. rewrite fallible_run by done. change (truth 0) with false. cbv iota.
  rewrite bind_gets. destruct (w_shm w !! name) eqn:E.
  - rewrite bind_modify. by eexists _, _.
  - unfold put_errno. rewrite bind_modify. eexists _, _. split; [reflexivity|]. split_and!; try done.
    cbn. by rewrite delete_id.
Qed.

(** The name that --recreate frees, and that is free without it by assumption *)
Lemma recreate_run (recreate : bool) name (w : world) :
  w_faults w = [] -> w_shm w !! name = None \/ recreate = true ->
  exists r w', (if recreate then shm_unlink name else mret 0) w = (Ret r, w') /\
    w_shm w' !! name = None /\ w_glob w' = w_glob w /\ w_faults w' = [] /\
    w_nextfd w' = w_nextfd w /\ w_kern w' = w_kern w.
Proof.
  intros Hf Hfree. destruct recreate.
  - destruct (shm_unlink_run name w Hf) as (r & w' & E & H1 & H2).
    exists r, w'. split; [exact E|]. split; [rewrite H1; apply lookup_delete_eq|done].
  - exists 0, w. by destruct Hfree as [Hfree|].
Qed.

Lemma sign_at_run p o (w : world) :
  w_shm w !! ptr_name p = Some o -> au_fhsm_size (nwmark o) <= ptr_len p -> fhsm_inside o = true ->
  exists o', sign_at p w = (Ret tt, set_shm (<[ptr_name p := o']> (w_shm w)) w) /\
    au_fhsm_sign_verify o' = Some true /\ nwmark o' = nwmark o /\ wmark o' = wmark o.
Proof.
  intros Ho Hl Hi. unfold sign_at. rewrite (bind_run _ _ _ _ _ (shm_table_run w p o Ho Hl)).
  destruct (au_fhsm_sign o) as [o'|] eqn:E.
  - exists o'. split; [done|]. by apply (sign_then_verify o).
  - unfold au_fhsm_sign, au_fhsm_csum in E. by rewrite Hi in E.
Qed.
End steps.

(** ** What the daemon loads *)

Lemma sorted_map_brid (f : aufhsm_wmark -> aufhsm_wmark) l :
  (forall x, wm_brid (f x) = wm_brid x) ->
  StronglySorted (fun a b => wm_brid a <= wm_brid b) l ->
  StronglySorted (fun a b => wm_brid a <= wm_brid b) (map f l).
Proof.
  intros Hf H. induction H as [|x l H IH Hx]; simpl; [constructor|]. constructor; [done|].
  apply Forall_map. eapply Forall_impl; [exact Hx|]. intros y Hy. simpl. by rewrite !Hf.
Qed.

(** The table that the watermark arguments make of the first one. *)
Section first_table.
Context (nbr : Z) (br : list aufs_brinfo) (inode : bool) (args : list warg).
Notation brs := (take (Z.to_nat nbr) br).
Definition first_table : aufhsm :=
  Aufhsm (replicate 8 NUL) 0 (au_nfhsm nbr br) (map wm_init (List.filter is_fhsm brs)).
Definition typed_table : aufhsm :=
  set_wmark (map (apply_wargs inode brs args) (wmark (published first_table))) (published first_table).

Lemma first_table_length : nwmark first_table = Z.of_nat (length (wmark first_table)).
Proof. cbn. by rewrite length_map, au_nfhsm_count. Qed.
Lemma published_wmark : wmark (published first_table) = qsort au_wm_qsort_brid (wmark first_table).
Proof.
  pose proof first_table_length as Hn. simpl in *. unfold sort_wmarks.
  rewrite take_ge, drop_ge by (simpl; lia). apply app_nil_r.
Qed.
Lemma typed_length : nwmark typed_table = Z.of_nat (length (wmark typed_table)).
Proof.
  change (nwmark typed_table) with (nwmark first_table). rewrite first_table_length.
  unfold typed_table.
  cbn [wmark set_wmark]. by rewrite length_map, published_wmark, qsort_length.
Qed.
Lemma typed_inside : fhsm_inside typed_table = true.
Proof. unfold fhsm_inside. pose proof typed_length. bool_lia. Qed.
Lemma fhsm_branches b : b ∈ List.filter is_fhsm brs -> b ∈ brs.
Proof. rewrite !list_elem_of_In, filter_In. tauto. Qed.
Lemma first_nodup : NoDup (map bi_id brs) -> NoDup (map wm_brid (wmark (published first_table))).
Proof.
  intros Hd. rewrite published_wmark, qsort_permutation. cbn [wmark first_table]. rewrite map_map.
  change (fun x => wm_brid (wm_init x)) with bi_id.
  induction brs as [|b r IH]; simpl in *; [done|].
  apply NoDup_cons in Hd as [Hb Hd]. destruct (is_fhsm b); simpl; [|by apply IH].
  apply NoDup_cons. split; [|by apply IH]. intros Hin. apply Hb.
  rewrite list_elem_of_In, in_map_iff in *. destruct Hin as (x & E & Hx).
  apply filter_In in Hx as [Hx _]. eauto.
Qed.
Lemma first_ok p :
  wmark first_table <> [] -> NoDup (map bi_id brs) ->
  au_fhsm_size (nwmark first_table) <= ptr_len p -> table_ok p (published first_table).
Proof.
  intros Hne Hd Hp. constructor; [| |by apply first_nodup|exact Hp].
  - rewrite published_wmark. intros E. apply Hne, Permutation_nil_r.
    by rewrite <- E, qsort_permutation.
  - rewrite published_wmark, qsort_length. apply first_table_length.
Qed.
Lemma typed_perm :
  NoDup (map bi_id brs) ->
  Permutation (wmark typed_table) (map (typed_wm inode args) (List.filter is_fhsm brs)).
Proof.
  intros Hd. unfold typed_table. cbn [wmark set_wmark]. rewrite published_wmark, qsort_permutation.
  unfold first_table. cbn [wmark]. rewrite map_map.
  rewrite (map_ext_in _ (typed_wm inode args)); [done|]. intros b Hb.
  apply apply_wargs_typed; [done|]. apply fhsm_branches. by apply list_elem_of_In.
Qed.
Lemma typed_sorted : StronglySorted (fun x y => wm_brid x <= wm_brid y) (wmark typed_table).
Proof.
  unfold typed_table. cbn [wmark set_wmark].
  apply sorted_map_brid; [intros; apply apply_wargs_brid|].
  rewrite published_wmark. apply qsort_brid_sorted.
Qed.
Lemma typed_nodup : NoDup (map bi_id brs) -> NoDup (map wm_brid (wmark typed_table)).
Proof.
  intros Hd. unfold typed_table. cbn [wmark set_wmark]. rewrite map_map.
  rewrite (map_ext _ wm_brid) by (intros x; apply apply_wargs_brid). by apply first_nodup.
Qed.
End first_table.

Section run.
Context {K : Type} `{!AufsKernel K}.
Context (realpath : bytes -> option bytes) (is_dir : bytes -> bool).
Context (shm_root : bytes) (st_size : nat) (env_dir : option bytes).
Context (spawn : list bytes -> Z) (ticks : nat).
Notation world := (world K controller).
Notation main := (FhsmCtl.main realpath is_dir shm_root st_size env_dir (lit "aufhsm") spawn ticks).

(** From the table that au_fhsm() has made to the signed one: the arguments are applied, the
    table shown unless --quiet is given, and signed.  What follows keeps it. *)
Lemma apply_and_sign (w : world) p nbr br args (quiet : bool) mntpnt (k : unit -> M world Z) :
  let inode := opt_test (ct_optflags (w_glob w)) OptFhsm_INODE in
  let brs := take (Z.to_nat nbr) br in
  let o := published (first_table nbr br) in
  wmark (first_table nbr br) <> [] -> 0 <= nbr <= Z.of_nat (length br) ->
  NoDup (map bi_id brs) -> NoDup (map bi_path brs) ->
  w_shm w !! ptr_name p = Some o -> au_fhsm_size (nwmark o) <= ptr_len p ->
  Forall (warg_ok brs) args ->
  exists o' w', (wmark_args (map warg_text args) p nbr (au_br_sort_path nbr br) ;;
      when (negb quiet) (au_fhsm_dump mntpnt p br nbr) ;; sign_at p ;; k tt) w = k tt w' /\
    w_shm w' !! ptr_name p = Some o' /\ au_fhsm_sign_verify o' = Some true /\
    nwmark o' = Z.of_nat (length (wmark o')) /\ wmark o' = wmark (typed_table nbr br inode args).
Proof.
  intros inode brs o Hne Hnbr Hd Hdp Ho Hl Hargs. set (o2 := typed_table nbr br inode args).
  set (w2 := set_shm (<[ptr_name p := o2]> (w_shm w)) w).
  rewrite (bind_run _ _ _ _ _ (wmark_args_run nbr br Hnbr Hdp p args w o Hargs Ho
    (first_ok nbr br p Hne Hd Hl))).
  change (set_shm _ w) with w2.
  assert (exists w3, when (negb quiet) (au_fhsm_dump mntpnt p br nbr) w2 = (Ret tt, w3) /\
    w_shm w3 = w_shm w2) as (w3 & E3 & H3).
  { destruct quiet; cbn [negb when]; [by exists w2|]. unfold au_fhsm_dump, shm_read.
    rewrite bind_assoc, bind_gets. unfold w2 at 1. cbn [w_shm set_shm]. rewrite lookup_insert_eq.
    rewrite bind_ret. unfold print. rewrite bind_modify. eexists. split.
    - apply (dump_loop_run p o2).
      + pose proof (typed_length nbr br inode args) as Hlen. fold o2 in Hlen.
        rewrite Hlen, Nat2Z.id, take_ge by done. by apply typed_sorted.
      + pose proof (typed_length nbr br inode args) as Hlen. fold o2 in Hlen.
        rewrite Hlen, Nat2Z.id, take_ge by done. by apply typed_nodup.
      + cbn. apply lookup_insert_eq.
      + exact Hl.
    - done. }
  rewrite (bind_run _ _ _ _ _ E3).
  destruct (sign_at_run p o2 w3) as (o' & E & Hv & Hnw & Hw);
    [by rewrite H3; apply lookup_insert_eq|exact Hl|by apply typed_inside|].
  rewrite (bind_run _ _ _ _ _ E). exists o'. eexists. split; [reflexivity|].
  split; [apply lookup_insert_eq|]. split; [done|]. rewrite Hnw, Hw. split; [|done].
  by apply typed_length.
Qed.
(** Flags that let main() come to the table *)
Definition makes_table (flags : Z) : bool :=
  opt_test flags OptFhsm_RECREATE || negb (opt_test flags OptFhsm_KILL).

(** A run of aufhsm with these arguments that comes to the table without a fault, on a
    mount point that has no table yet or with --recreate; [w1] is the world after opt(). *)
Record controller_run argc calls arg mntpnt (args : list warg) nbr br (w w1 : world) : Prop := {
  cr_opt : opt realpath is_dir shm_root st_size env_dir (lit "aufhsm") argc calls w = (Ret tt, w1);
  cr_flags : makes_table (ct_optflags (w_glob w1)) = true;
  cr_free : w_shm w1 !! shm_name_str (lit "aufhsm") (k_dev mntpnt) (k_ino mntpnt) = None \/
            opt_test (ct_optflags (w_glob w1)) OptFhsm_RECREATE = true;
  cr_faults : w_faults w1 = [] /\ 0 <= w_nextfd w1;
  cr_mntpnt : realpath arg = Some mntpnt /\ k_is_aufs mntpnt = true;
  cr_name : Z.of_nat (length (shm_name_str (lit "aufhsm") (k_dev mntpnt) (k_ino mntpnt))) < 31;
  cr_branches : exists k1 k2,
    k_br_count (w_kern w1) = ((nbr, 0), k1) /\ k_br_fill nbr k1 = ((0, br), k2);
  cr_nbr : 0 < nbr <= Z.of_nat (length br) /\ 2 <= au_nfhsm nbr br;
  cr_ids : NoDup (map bi_id (take (Z.to_nat nbr) br));
  cr_paths : NoDup (map bi_path (take (Z.to_nat nbr) br));
  cr_args : Forall (warg_ok (take (Z.to_nat nbr) br)) args
}.

(** A run of the controller up to the shared table, which is the typed one whatever the
    rest of main() (the message to a running daemon, starting one) comes to. *)
Lemma main_makes_table argc calls arg mntpnt args nbr br (w w1 : world) :
  let flags := ct_optflags (w_glob w1) in
  let name := shm_name_str (lit "aufhsm") (k_dev mntpnt) (k_ino mntpnt) in
  controller_run argc calls arg mntpnt args nbr br w w1 ->
  exists o, w_shm (main 0 argc calls (arg :: map warg_text args) w).2 !! name = Some o /\
    au_fhsm_sign_verify o = Some true /\ nwmark o = Z.of_nat (length (wmark o)) /\
    wmark o = wmark (typed_table nbr br (opt_test flags OptFhsm_INODE) args).
Proof.
  intros flags name [Hopt Hfl Hfree [Hf Hfd] [Hreal Haufs] Hlen (k1 & k2 & Hcount & Hfill)
    [Hnbr Hnf] Hd Hdp Hargs].
  fold name in Hfree, Hlen. fold flags in Hfl, Hfree.
  assert (0 < length name)%nat as Hlen0 by (unfold name, shm_name_str; cbn; lia).
  unfold main. cbn [truth negb Z.eqb]. rewrite (bind_run _ _ _ _ _ Hopt), Hreal.
  rewrite (bind_run _ _ _ _ _ (eq_trans (open_ok w1 mntpnt Hf) eq_refl)).
  rewrite (proj2 (Z.ltb_ge _ _)) by done. set (w2 := set_fds _ _).
  rewrite fallible_run by done. change (truth 0) with false. cbv iota. rewrite Haufs. cbn [negb].
  rewrite (bind_run _ _ _ _ _ (au_shm_name_ok (lit "aufhsm") (w_nextfd w1) mntpnt 32 w2 Hf
    ltac:(unfold w2; simpl; by rewrite lookup_insert_eq) ltac:(fold name; lia))).
  fold name. change (truth 0) with false. cbv iota beta. unfold optflags. rewrite bind_gets.
  change (ct_optflags (w_glob w2)) with flags.
  replace (negb (opt_test flags OptFhsm_RECREATE) && opt_test flags OptFhsm_KILL) with false
    by (unfold makes_table in Hfl; by destruct (opt_test flags OptFhsm_RECREATE),
          (opt_test flags OptFhsm_KILL)).
  destruct (recreate_run (opt_test flags OptFhsm_RECREATE) name w2 Hf Hfree)
    as (r & w3 & E3 & Hfree3 & Hg3 & Hf3 & Hn3 & Hk3).
  assert (0 <= w_nextfd w3) as Hfd3 by (rewrite Hn3; cbn; lia).
  change (w_glob w2) with (w_glob w1) in Hg3.
  rewrite (bind_run _ _ _ _ _ E3).
  destruct (au_br_run mntpnt nbr br k1 k2 w3) as (w4 & E4 & Hs4 & Hg4 & Hf4 & Hfd4);
    try done; [lia|by rewrite Hk3|].
  rewrite (bind_run _ _ _ _ _ E4). cbn [truth negb Z.eqb]. cbv zeta.
  rewrite (proj2 (Z.ltb_ge _ _)) by done.
  destruct (au_fhsm_fresh w4 name nbr br Hf4 ltac:(by rewrite Hs4) Hfd4) as (Hi & Hn & E5).
  rewrite (bind_run _ _ _ _ _ E5). cbn [truth negb Z.eqb]. set (w5 := set_shm _ _).
  rewrite fallible_run by done. cbn [truth negb Z.eqb].
  assert (w_glob w5 = w_glob w1) as Hg5 by (cbn; congruence).
  match goal with |- context [when _ _ ;; sign_at _ ;; ?rest] =>
    destruct (apply_and_sign w5 (Ptr name (page_round (au_fhsm_size (au_nfhsm nbr br)))) nbr br
      args (opt_test flags OptFhsm_QUIET) mntpnt (fun _ => rest))
      as (o' & w6 & E6 & Ho6 & Hv & Hn6 & Hw6) end; try done.
  { intros E. pose proof (first_table_length nbr br) as Hl. rewrite E in Hl. cbn in Hl. lia. }
  { lia. }
  { cbn. apply lookup_insert_eq. }
  { cbn. apply page_round_ge, au_fhsm_size_nonneg. lia. }
  exists o'. split; [|split_and!; [done|done|by rewrite Hw6, Hg5]].
  cbv beta in E6. etrans; [apply (f_equal (fun x => w_shm x.2 !! name) E6)|].
  match goal with |- w_shm (?m w6).2 !! _ = _ =>
    assert (preserves (table_is name o') m) as Hp end; [|by apply Hp].
  apply preserves_bind; [auto with pres|]. intros err. destruct (truth err); [auto with pres|].
  cbv zeta. apply preserves_bind; [destruct (_ || _); auto with pres|]. intros _. auto with pres.
Qed.

(** C11. What is typed is what the daemon loads. A run of aufhsm in which no call of the
    C library fails, on a mount point that has no table yet or with --recreate, and with
    any row of arguments "u-l" and "BRANCH=u-l" (0 <= l <= u <= 100), leaves in shared
    memory a signed table [o] with one element for every FHSM branch: the watermarks of
    the last argument that names the branch, which au_fhsm_dump() shows as "u.00-l.00",
    or else the default ones; and a daemon that finds that shared memory derives the
    name of the table from its own and loads exactly [o]. What fork(2), waitpid(2) and
    the fifo of the messages answer in the rest of main(), where a running daemon gets a
    message or a new one is started, is left open, and changes nothing of the table. *)
Theorem typed_watermarks_loaded argc calls arg mntpnt args nbr br (w w1 : world) :
  let inode := opt_test (ct_optflags (w_glob w1)) OptFhsm_INODE in
  let brs := take (Z.to_nat nbr) br in
  controller_run argc calls arg mntpnt args nbr br w w1 ->
  exists o,
    Permutation (wmark o) (map (typed_wm inode args) (List.filter is_fhsm brs)) /\
    Forall (fun a => fmt_wmark (warg_values a) = wmark_shown (warg_u a) (warg_l a)) args /\
    forall wd : Sys.world K fhsmd,
      w_shm wd = w_shm (main 0 argc calls (arg :: map warg_text args) w).2 ->
      w_faults wd = [] -> 0 <= w_nextfd wd -> d_fd (w_glob wd) <> [] ->
      (forall fd, w_nextfd wd <= fd -> w_fds wd !! fd = None) ->
      exists wd1 wd2, shm_names (lit "aufhsmd") (Some mntpnt) 32 wd = (Ret tt, wd1) /\
        au_fhsm_load (d_name_lcopy (w_glob wd1)) wd1 = (Ret (Some o), wd2).
Proof.
  intros inode brs Hrun.
  destruct (main_makes_table argc calls arg mntpnt args nbr br w w1 Hrun) as (o & Ho & Hv & Hn & Hw).
  exists o. split; [|split].
  - rewrite Hw. apply typed_perm. apply Hrun.
  - eapply Forall_impl; [apply Hrun|]. intros a Ha. by eapply warg_shown.
  - intros wd Hshm Hfw Hnw Hne Hfresh. pose proof (cr_name _ _ _ _ _ _ _ _ _ Hrun) as Hlen.
    destruct (shm_names_run mntpnt wd Hfw Hnw Hne Hlen) as (wd1 & E1 & En & Es & Ef1 & Enx & Efd).
    rewrite <- Hshm, <- Es in Ho.
    set (name := shm_name_str _ _ _) in Ho.
    destruct (au_fhsm_load_run wd1 name o) as (wd2 & E2 & _); try done; try lia.
    { rewrite Efd, Enx, lookup_insert_ne by lia. apply Hfresh. lia. }
    exists wd1, wd2. split; [exact E1|]. by rewrite En.
Qed.
End run.

(** ** The daemon that is told to read again *)

Section reread.
Context {K : Type} `{!AufsKernel K}.
Notation world := (world K fhsmd).
Implicit Types w : world.

(** fhsmd_comm(), when nothing fails: memory for the statistics of every element, behind a
    name that is gone again *)
Lemma fhsmd_comm_run w l :
  w_faults w = [] -> 0 <= w_nextfd w -> d_lcopy (w_glob w) = Some l -> 0 < nwmark l ->
  w_shm w !! d_name_fhsmd (w_glob w) = None ->
  exists w', fhsmd_comm w = (Ret (CPtr (Comm AuFhsm_MSG_NONE (nwmark l)
      (replicate (stbr_room (au_fhsmd_comm_len (nwmark l))) stbr_zero))), w') /\
    w_shm w' = w_shm w /\ w_glob w' = w_glob w /\ w_fifos w' = w_fifos w.
Proof.
  intros Hf Hfd Hl Hn Hs. unfold fhsmd_comm. rewrite bind_gd, Hl. cbv zeta. rewrite bind_gd.
  set (name := d_name_fhsmd (w_glob w)) in *. set (len := au_fhsmd_comm_len (nwmark l)).
  assert (0 < len) as Hlen
    by (unfold len, au_fhsmd_comm_len, sizeof_comm, sizeof_stbr; lia).
  rewrite (bind_run _ _ _ _ _ (au_shm_create_fresh w name len Hf Hs Hfd Hlen)).
  cbv beta iota. change (truth 0) with false. cbv iota. set (w1 := set_shm _ _).
  rewrite (bind_run _ _ _ _ _ (close_ok w1 (w_nextfd w) Hf)). change (truth 0) with false.
  cbv iota. set (w2 := set_fds _ w1).
  unfold shm_unlink. rewrite bind_assoc, fallible_run by done. change (truth 0) with false.
  cbv iota. rewrite bind_assoc, bind_gets. cbn [w2 w1 w_shm set_fds set_shm].
  rewrite lookup_insert_eq, bind_assoc, bind_modify, bind_ret. change (truth 0) with false.
  cbv iota. eexists. split; [reflexivity|]. split; [|done].
  cbn. by apply delete_insert_id.
Qed.

(** There is room for the statistics of all branches. *)
Lemma room_enough n : 0 < n -> (Z.to_nat n <= stbr_room (au_fhsmd_comm_len n))%nat.
Proof.
  intros Hn. unfold stbr_room. set (len := au_fhsmd_comm_len n).
  pose proof (comm_len_fits n ltac:(lia)) as Hfit. fold len in Hfit.
  assert (len <= page_round len) as Hp
    by (apply page_round_ge; unfold sizeof_comm, sizeof_stbr in Hfit; lia).
  assert (n <= (page_round len - sizeof_comm) / sizeof_stbr) as H.
  { apply Z.div_le_lower_bound; unfold sizeof_comm, sizeof_stbr in *; lia. }
  apply Z2Nat.inj_le; lia.
Qed.

(** au_fhsmd_load(), when nothing fails *)
Lemma au_fhsmd_load_run w o c :
  w_faults w = [] -> 0 <= w_nextfd w -> w_fds w !! w_nextfd w = None ->
  w_shm w !! d_name_lcopy (w_glob w) = Some o -> au_fhsm_sign_verify o = Some true ->
  nwmark o = Z.of_nat (length (wmark o)) -> 0 < nwmark o ->
  match d_lcopy (w_glob w) with Some l => nwmark l <= nwmark o | None => True end ->
  d_comm (w_glob w) = CPtr c -> w_shm w !! d_name_fhsmd (w_glob w) = None ->
  exists w', au_fhsmd_load w = (Ret 0, w') /\
    d_lcopy (w_glob w') = Some o /\
    d_comm (w_glob w') = CPtr (Comm (c_msg c) (nwmark o)
      (replicate (stbr_room (au_fhsmd_comm_len (nwmark o))) stbr_zero)) /\
    w_shm w' = w_shm w /\ w_fifos w' = w_fifos w.
Proof.
  intros Hf Hfd Hfree Ho Hv Hn Hpos Hold Hc Hs. unfold au_fhsmd_load. rewrite !bind_gd. cbv zeta.
  destruct (au_fhsm_load_run w _ o Hf Hfd Hfree Hv Hn Ho) as (w1 & E1 & Hs1 & _ & Hg1 & Hf1 & Hn1 & Hq1).
  rewrite (bind_run _ _ _ _ _ E1), bind_md. set (w2 := set_glob _ w1).
  unfold put_errno. rewrite bind_modify. set (w3 := set_errno 0 w2).
  rewrite (proj2 (Z.ltb_ge (nwmark o) _)) by (destruct (d_lcopy (w_glob w)); lia || exact Hold).
  rewrite bind_gd.
  assert (d_comm (w_glob w3) = CPtr c) as Hc3 by (cbn; by rewrite Hg1). rewrite Hc3.
  rewrite bind_assoc, (bind_run _ _ _ _ _ (comm_get_ptr w3 c Hc3)), bind_assoc.
  rewrite fallible_run by done. rewrite bind_ret. cbv beta iota. change (truth 0) with false. cbv iota.
  destruct (fhsmd_comm_run w3 o) as (w4 & E4 & Hs4 & Hg4 & Hq4); try done.
  { cbn. rewrite Hn1. lia. }
  { cbn. by rewrite Hs1, Hg1. }
  rewrite (bind_run _ _ _ _ _ E4), bind_md. set (w5 := set_glob _ w4).
  set (c5 := Comm AuFhsm_MSG_NONE _ _) in *.
  rewrite (bind_run _ _ _ _ _ (comm_get_ptr w5 c5 eq_refl)). unfold comm_put. rewrite bind_md.
  eexists. split; [reflexivity|]. cbn. rewrite Hg4, Hs4, Hq4. cbn. split_and!; try done.
Qed.

(** C12. The daemon follows a new run of the controller that has not fewer watermarks.
    When aufhsm has left the signed table [o] in shared memory, its message to read
    again is reported as sent, through an idle fifo, the daemon has no table with more
    watermarks loaded (else au_fhsmd_load() fails), no call of its own fails and the
    name for its statistics is free, then its handle_msg() succeeds: its watermarks are
    exactly [o], and it has new statistics, one zeroed element for each of them, in
    which a pending message to the children is kept; shared memory is as it was, and the
    fifo is empty. *)
Theorem reread_message_loads {G} `{!ListDir G} ticks name rootfd dir o
    (wc wc' : Sys.world K G) (wd : world) fd c :
  list_dir (w_glob wc) = Some dir -> default [] (w_fifos wc !! msg_path dir name) = [] ->
  au_fhsm_msg ticks name AuFhsm_MSG_READ rootfd wc = (Ret 0, wc') ->
  w_shm wc !! d_name_lcopy (w_glob wd) = Some o ->
  au_fhsm_sign_verify o = Some true -> nwmark o = Z.of_nat (length (wmark o)) -> 0 < nwmark o ->
  w_fifos wd = w_fifos wc' -> w_shm wd = w_shm wc -> w_faults wd = [] -> 0 <= w_nextfd wd ->
  w_fds wd !! w_nextfd wd = None ->
  d_fd (w_glob wd) !! AuFd_MSG = Some fd -> w_fds wd !! fd = Some (msg_path dir name) ->
  match d_lcopy (w_glob wd) with Some l => nwmark l <= nwmark o | None => True end ->
  d_comm (w_glob wd) = CPtr c -> w_shm wd !! d_name_fhsmd (w_glob wd) = None ->
  exists wd', handle_msg wd = (Ret (0, false), wd') /\
    d_lcopy (w_glob wd') = Some o /\
    d_comm (w_glob wd') = CPtr (Comm (c_msg c) (nwmark o)
      (replicate (stbr_room (au_fhsmd_comm_len (nwmark o))) stbr_zero)) /\
    (Z.to_nat (nwmark o) <= stbr_room (au_fhsmd_comm_len (nwmark o)))%nat /\
    w_shm wd' = w_shm wd /\ w_fifos wd' !! msg_path dir name = Some [].
Proof.
  intros Hd Hq Hm Ho Hv Hn Hpos Hfifo Hshm Hf Hnf Hfree Hfd Hp Hold Hc Hs.
  apply (au_fhsm_msg_put ticks name AuFhsm_MSG_READ rootfd wc wc' dir Hd eq_refl) in Hm.
  rewrite Hq in Hm. simpl in Hm. rewrite <- Hfifo in Hm. rewrite <- Hshm in Ho.
  unfold handle_msg. rewrite (bind_run _ _ _ _ _ (read_msg_run wd fd _ _ [] Hf Hfd Hp Hm)).
  cbv beta iota. change (AuFhsm_MSG_READ =? AuFhsm_MSG_READ) with true. cbv iota.
  set (w1 := set_fifos _ wd).
  destruct (au_fhsmd_load_run w1 o c) as (wd' & E & Hl & Hc' & Hs' & Hq'); try done.
  rewrite (bind_run _ _ _ _ _ E). exists wd'. split; [done|]. split; [done|]. split; [done|].
  split; [by apply room_enough|]. split; [done|]. rewrite Hq'. apply lookup_insert_eq.
Qed.
End reread.

(** aufhsm --quiet /mnt 80-70 /big=75-50 on two FHSM branches, and the daemon started next *)
Import Sys.Demo.
Module RunDemo.
Definition realpath (p : bytes) : option bytes := Some p.
Definition w : Sys.world unit controller := Demo.world0 (Ctl None 0).
Definition calls : list getopt := [GetOpt "q" []].
Definition args : list warg := [ForAll 80 70; ForBranch (lit "/big") 75 50].
Definition opt_run :=
  opt realpath (fun _ => true) (lit "/dev/shm") 4096%nat None (lit "aufhsm") 5 calls w.
Definition main_run :=
  FhsmCtl.main realpath (fun _ => true) (lit "/dev/shm") 4096%nat None (lit "aufhsm") (fun _ => 0) 3
    0 5 calls (lit "/mnt" :: map warg_text args) w.
Definition wd : Sys.world unit fhsmd := set_shm (w_shm main_run.2) (Demo.world0 fhsmd0).
Lemma shm_set {G} s (v : Sys.world unit G) : w_shm (set_shm s v) = s.
Proof. done. Qed.
End RunDemo.
Import RunDemo.

Lemma typed_watermarks_loaded_witness :
  exists o, Permutation (wmark o)
      [apply_wmark false (warg_values (ForAll 80 70)) (Wmark 1 (F32_0_25, F32_0_5) (F32_1, F32_1));
       apply_wmark false (warg_values (ForBranch (lit "/big") 75 50))
         (Wmark 3 (F32_0_25, F32_0_5) (F32_1, F32_1))] /\
    exists wd1 wd2, shm_names (lit "aufhsmd") (Some (lit "/mnt")) 32 RunDemo.wd = (Ret tt, wd1) /\
      au_fhsm_load (d_name_lcopy (w_glob wd1)) wd1 = (Ret (Some o), wd2).
Proof.
  destruct (typed_watermarks_loaded realpath (fun _ => true) (lit "/dev/shm") 4096%nat None
    (fun _ => 0) 3 5 calls (lit "/mnt") (lit "/mnt") RunDemo.args 3 branches w opt_run.2)
    as (o & Hp & _ & Hd).
  { constructor; [vm_compute; reflexivity|reflexivity|by left|split; [done|discriminate]|done|done| | | | |].
    - exists tt, tt. split; reflexivity.
    - split; [done|vm_compute; discriminate].
    - apply (bool_decide_unpack _). vm_compute. exact Logic.I.
    - apply (bool_decide_unpack _). vm_compute. exact Logic.I.
    - repeat constructor; simpl; try lia; set_solver. }
  exists o. split; [exact Hp|].
  apply Hd; [|reflexivity|discriminate|discriminate|intros fd _; reflexivity].
  unfold wd, main_run. exact (shm_set _ _).
Defined.

(** A daemon without a table, and the controller's message about two branches *)
Import ListDemo.
Module RereadDemo.
Definition name : bytes := lit "/aufhsm-0000002a-2".
Definition o : aufhsm :=
  published (Aufhsm [] 0 2
    [Wmark 1 (F32_0_25, F32_0_5) (F32_1, F32_1); Wmark 3 (F32_0_25, F32_0_5) (F32_1, F32_1)]).
Definition wc : Sys.world unit (option bytes) :=
  World 0 [] tt (Some (lit "/run")) (<[name := o]> ∅) ∅ ∅ 3 ∅ [] [] [].
Definition sent := au_fhsm_msg 3 name AuFhsm_MSG_READ (-1) wc.
Definition wd : Sys.world unit fhsmd :=
  World 0 [] tt (dset_fd [4; 5; 6; 7; 8] (dset_name_lcopy name (dset_name_fhsmd (lit "/aufhsmd")
    (dset_comm (CPtr (Comm AuFhsm_MSG_EXIT 0 [])) fhsmd0))))
    (w_shm wc) ∅ (<[8 := msg_path (lit "/run") name]> ∅) 9 (w_fifos sent.2) [] [] [].
End RereadDemo.

Lemma reread_message_loads_witness :
  exists wd', handle_msg RereadDemo.wd = (Ret (0, false), wd') /\
    d_lcopy (w_glob wd') = Some RereadDemo.o /\
    d_comm (w_glob wd') = CPtr (Comm AuFhsm_MSG_EXIT 2 (replicate 102 stbr_zero)).
Proof.
  destruct (@reread_message_loads unit kernel (option bytes) dir_only 3 RereadDemo.name (-1)
    (lit "/run") RereadDemo.o RereadDemo.wc RereadDemo.sent.2 RereadDemo.wd 8
    (Comm AuFhsm_MSG_EXIT 0 []) eq_refl eq_refl ltac:(vm_compute; reflexivity) eq_refl
    ltac:(vm_compute; reflexivity) eq_refl eq_refl eq_refl eq_refl eq_refl ltac:(discriminate)
    eq_refl eq_refl eq_refl Logic.I eq_refl eq_refl) as (wd' & E & Hl & Hc & _).
  exists wd'. split; [exact E|]. split; [exact Hl|exact Hc].
Defined.
