(* ===== verification/Rdu.v ===== *)
(** * libau/rdu_lib.c: readdir(3) in userspace

    The kernel returns the raw entries of every branch, upper branches first, packed
    in one buffer; the library merges them: it drops duplicates and the names that a
    whiteout of an upper branch hides, and compacts the buffer.  Entries live in the
    buffer as bytes; a pointer to an entry is its offset from the buffer's start. *)
From S2P Require Import Prelude CString AufsType Sys.

(** [struct au_rdu_ent]: ino at 0, bindex at 8, type at 10, nlen at 11, wh at 12 and the
    name from 13 on. *)
Definition ent_ino (m : bytes) (off : nat) : Z := le_val (take 8 (drop off m)).
Definition ent_type (m : bytes) (off : nat) : Z := byte_val (nth (off + 10) m NUL).
Definition ent_nlen (m : bytes) (off : nat) : Z := byte_val (nth (off + 11) m NUL).
Definition ent_name (m : bytes) (off : nat) : bytes := cstr (drop (off + 13) m).
Definition set_wh (m : bytes) (off : nat) (b : Z) : bytes := <[(off + 12)%nat := byte_of b]> m.
Definition ent_len (m : bytes) (off : nat) : nat := Z.to_nat (au_rdu_len (ent_nlen m off)).

(** The entry is inside the buffer, terminator included. *)
Definition ent_ok (m : bytes) (off : nat) : bool :=
  (off + ent_len m off <=? length m)%nat
  && (off + 13 + length (ent_name m off) <? length m)%nat.

Definition ent_is_wh (m : bytes) (off : nat) : bool :=
  negb ((ent_nlen m off <=? AUFS_WH_PFX_LEN)
        || negb (bool_decide (take 4 (drop (off + 13) m) = AUFS_WH_PFX))).

(** ** tsearch(3): binary search trees of pointers *)

Inductive tree := Leaf | Node (l : tree) (x : nat) (r : tree).

(** [compar x] is the comparison of the key with [x]. *)
Fixpoint tfind (compar : nat -> Z) (t : tree) : option nat :=
  match t with
  | Leaf => None
  | Node l x r =>
      if compar x =? 0 then Some x
      else if compar x <? 0 then tfind compar l else tfind compar r
  end.

(** The tree with [key] in it, and the result of the last comparison. *)
Fixpoint tsearch (compar : nat -> Z) (key : nat) (t : tree) : tree * option Z :=
  match t with
  | Leaf => (Node Leaf key Leaf, None)
  | Node l x r =>
      let c := compar x in
      if c =? 0 then (t, Some c)
      else if c <? 0 then
        let '(l', last) := tsearch compar key l in
        (Node l' x r, Some (default c last))
      else
        let '(r', last) := tsearch compar key r in
        (Node l x r', Some (default c last))
  end.

(** ** The comparisons; [a] is the key *)

Definition rdu_ent_compar (m : bytes) (a b : nat) : Z := strcmp (ent_name m a) (ent_name m b).

Definition rdu_ent_compar_wh1 (m : bytes) (a b : nat) : Z :=
  if (ent_nlen m a <=? AUFS_WH_PFX_LEN)
     || negb (bool_decide (take 4 (drop (a + 13) m) = AUFS_WH_PFX))
  then strcmp (ent_name m a) (drop 4 (ent_name m b))
  else strcmp (drop 4 (ent_name m a)) (ent_name m b).

Definition rdu_ent_compar_wh2 (m : bytes) (a b : nat) : Z :=
  strcmp (drop 4 (ent_name m a)) (drop 4 (ent_name m b)).

(** [do_store], which the comparisons of tsearch() leave behind: 1 unless the last one
    found an equal entry. *)
Definition stored (last : option Z) : bool := truth (default 1 last).

(** The part of [struct rdu] that rdu_merge() works on.  [ms_pos] are the first [idx]
    elements of [p->pos]. *)
Record mstate := MS {
  ms_mem : bytes;
  ms_real : tree;
  ms_wh : tree;
  ms_pos : list nat
}.

(** [p->pos]: null, an array, or a block that realloc(p->pos, 0) has freed. *)
Inductive pos_ptr := PosNull | PosArr (l : list nat) | PosDangling.

#[export] Instance pos_ptr_eq_dec : EqDecision pos_ptr.
Proof. solve_decision. Defined.

(** memmove(3) *)
Definition memmove (m : bytes) (dst src n : nat) : bytes :=
  take dst m ++ take n (drop src m) ++ drop (dst + n) m.

(** The two loops of the compaction: skip the entries in place, move the others. *)
Fixpoint rdu_skip (m : bytes) (pos : list nat) (off : nat) : list nat * list nat * nat :=
  match pos with
  | [] => ([], [], off)
  | x :: r =>
      if (x =? off)%nat then
        let '(pre, post, off') := rdu_skip m r (off + ent_len m off) in
        (x :: pre, post, off')
      else ([], pos, off)
  end.

Fixpoint rdu_move (m : bytes) (pos : list nat) (off : nat) : bytes * list nat :=
  match pos with
  | [] => (m, [])
  | x :: r =>
      let m := memmove m off x (ent_len m x) in
      let '(m', r') := rdu_move m r (off + ent_len m off) in
      (m', off :: r')
  end.

Definition rdu_compact (m : bytes) (pos : list nat) : bytes * list nat :=
  let '(pre, post, off) := rdu_skip m pos 0 in
  let '(m', post') := rdu_move m post off in
  (m', pre ++ post').

Section merge.
Context {K G : Type}.
Notation world := (world K G).

(** tsearch() allocates a node for a new entry; without memory it returns null. *)
Definition tsearch_ (compar : nat -> Z) (key : nat) (t : tree) : M world (option (tree * option Z)) :=
  match tfind compar t with
  | Some _ => mret (Some (tsearch compar key t))
  | None => m ← fallible; mret (if truth m then None else Some (tsearch compar key t))
  end.

Definition rdu_ent_append (st : mstate) (ent : nat) : M world (Z * mstate) :=
  match tfind (rdu_ent_compar_wh1 (ms_mem st) ent) (ms_wh st) with
  | Some _ => mret (0, st)
  | None =>
      r ← tsearch_ (rdu_ent_compar (ms_mem st) ent) ent (ms_real st);
      mret (match r with
            | Some (t, last) =>
                (0, MS (ms_mem st) t (ms_wh st)
                      (if stored last then ms_pos st ++ [ent] else ms_pos st))
            | None => (-1, st)
            end)
  end.

Definition rdu_ent_append_wh (shwh : bool) (st : mstate) (ent : nat) : M world (Z * mstate) :=
  let m := set_wh (ms_mem st) ent 1 in
  r ← tsearch_ (rdu_ent_compar_wh2 m ent) ent (ms_wh st);
  mret (match r with
        | Some (t, last) =>
            (0, MS m (ms_real st) t
                  (if shwh && stored last then ms_pos st ++ [ent] else ms_pos st))
        | None => (-1, MS m (ms_real st) (ms_wh st) (ms_pos st))
        end).

Fixpoint merge_loop (n : nat) (off : nat) (shwh : bool) (st : mstate) : M world (Z * mstate) :=
  match n with
  | O => mret (0, st)
  | S k =>
      if negb (ent_ok (ms_mem st) off) then ub "entry outside the buffer"
      else
        let st := MS (set_wh (ms_mem st) off 0) (ms_real st) (ms_wh st) (ms_pos st) in
        '(err, st) ← (if ent_is_wh (ms_mem st) off then rdu_ent_append_wh shwh st off
                      else rdu_ent_append st off);
        if truth err then mret (err, st)
        else merge_loop k (off + ent_len (ms_mem st) off) shwh st
  end.

(** realloc(3) of [p->pos] to [n] pointers: a live block of zero elements is freed and the
    result is null. *)
Definition realloc_pos (old : pos_ptr) (n : nat) : M world bool :=
  match old with
  | PosDangling => ub "realloc of a freed block"
  | _ => a ← fallible;
         mret (negb (truth a) && (negb (n =? 0)%nat || bool_decide (old = PosNull)))
  end.

(** rdu_merge() on the buffer [m] with [npos] entries: the status, the buffer, [p->pos]
    and [p->npos]. *)
Definition rdu_merge (m : bytes) (old : pos_ptr) (npos : nat) (shwh : bool)
  : M world (Z * bytes * pos_ptr * nat) :=
  a ← realloc_pos old npos;
  if negb a then mret (-1, m, PosNull, npos)
  else
    '(err, st) ← merge_loop npos 0 shwh (MS m Leaf Leaf []);
    if truth err then mret (err, ms_mem st, PosNull, npos)
    else if (length (ms_pos st) =? npos)%nat then
      mret (0, ms_mem st, PosArr (ms_pos st), npos)
    else if (length (ms_pos st) =? 0)%nat then mret (0, ms_mem st, PosDangling, O)
    else
      _ ← fallible; (* realloc: a failure is not an error *)
      let '(m', pos) := rdu_compact (ms_mem st) (ms_pos st) in
      mret (0, m', PosArr pos, length pos).
End merge.

(** ** The trees *)

Fixpoint elems (t : tree) : list nat :=
  match t with
  | Leaf => []
  | Node l x r => elems l ++ x :: elems r
  end.

(** Ordered by the name [key]. *)
Fixpoint bst (key : nat -> bytes) (t : tree) : Prop :=
  match t with
  | Leaf => True
  | Node l x r =>
      bst key l /\ bst key r /\
      Forall (fun y => strcmp (key y) (key x) < 0) (elems l) /\
      Forall (fun y => strcmp (key x) (key y) < 0) (elems r)
  end.

Section tree.
Context (key : nat -> bytes) (compar : nat -> Z) (k : bytes).

Lemma tfind_spec t :
  bst key t -> (forall x, x ∈ elems t -> compar x = strcmp k (key x)) ->
  match tfind compar t with
  | Some x => x ∈ elems t /\ key x = k
  | None => forall x, x ∈ elems t -> key x <> k
  end.
Proof.
  induction t as [|l IHl x r IHr]; simpl; [intros _ _ y H; by apply not_elem_of_nil in H|].
  intros (Hl & Hr & Fl & Fr) Hc.
  assert (compar x = strcmp k (key x)) as -> by (apply Hc; set_solver).
  specialize (IHl Hl ltac:(intros; apply Hc; set_solver)).
  specialize (IHr Hr ltac:(intros; apply Hc; set_solver)).
  rewrite Forall_forall in Fl, Fr.
  destruct (Z.eqb_spec (strcmp k (key x)) 0) as [E|E].
  { apply strcmp_0 in E. split; [set_solver|done]. }
  destruct (Z.ltb_spec (strcmp k (key x)) 0).
  - destruct (tfind compar l) as [y|]; [split; [set_solver|by apply IHl]|].
    intros y [Hy|[->|Hy]%elem_of_cons]%elem_of_app; [by apply IHl| |].
    + intros <-. by rewrite strcmp_refl in E.
    + intros <-. specialize (Fr _ Hy). rewrite strcmp_antisym in Fr. lia.
  - destruct (tfind compar r) as [y|]; [split; [set_solver|by apply IHr]|].
    intros y [Hy|[->|Hy]%elem_of_cons]%elem_of_app; [| |by apply IHr].
    + intros <-. specialize (Fl _ Hy). lia.
    + intros <-. by rewrite strcmp_refl in E.
Qed.

(** A key that is found leaves the tree, and [do_store], at zero. *)
Lemma tsearch_found key0 t y :
  tfind compar t = Some y -> tsearch compar key0 t = (t, Some 0).
Proof.
  induction t as [|l IHl x r IHr]; simpl; [done|].
  destruct (Z.eqb_spec (compar x) 0) as [E|E].
  { by rewrite E. }
  by destruct (compar x <? 0); intros H; [rewrite (IHl H)|rewrite (IHr H)].
Qed.

(** A new key goes in, and the last comparison, if any, was not zero. *)
Lemma tsearch_new key0 t :
  key key0 = k -> bst key t -> (forall x, x ∈ elems t -> compar x = strcmp k (key x)) ->
  tfind compar t = None ->
  exists t' last, tsearch compar key0 t = (t', last) /\ stored last = true /\
    bst key t' /\ forall x, x ∈ elems t' <-> x = key0 \/ x ∈ elems t.
Proof.
  intros Hk. induction t as [|l IHl x r IHr]; simpl.
  { intros _ _ _. eexists _, _. split; [done|]. split; [done|]. split; [done|].
    simpl. set_solver. }
  intros (Hl & Hr & Fl & Fr) Hc.
  assert (compar x = strcmp k (key x)) as Ex by (apply Hc; set_solver).
  rewrite Ex. destruct (Z.eqb_spec (strcmp k (key x)) 0) as [E|E]; [done|].
  assert (forall last, stored last = true -> stored (Some (default (strcmp k (key x)) last)) = true)
    as Hst by (intros [c|]; unfold stored, truth; simpl; [done|intros _; by destruct (Z.eqb_spec (strcmp k (key x)) 0)]).
  destruct (Z.ltb_spec (strcmp k (key x)) 0) as [Hlt|Hge]; intros Hf.
  - destruct (IHl Hl ltac:(intros; apply Hc; set_solver) Hf) as (l' & last & -> & Hs & Hb & He).
    eexists _, _. split; [done|]. split; [by apply Hst|]. split.
    + split; [done|]. split; [done|]. split; [|done]. apply Forall_forall. intros y Hy.
      apply He in Hy as [->|Hy]; [by rewrite Hk|]. rewrite Forall_forall in Fl. by apply Fl.
    + intros y. simpl. rewrite !elem_of_app, !elem_of_cons, He. tauto.
  - destruct (IHr Hr ltac:(intros; apply Hc; set_solver) Hf) as (r' & last & -> & Hs & Hb & He).
    eexists _, _. split; [done|]. split; [by apply Hst|]. split.
    + split; [done|]. split; [done|]. split; [done|]. apply Forall_forall. intros y Hy.
      apply He in Hy as [->|Hy]; [rewrite Hk, strcmp_antisym; lia|].
      rewrite Forall_forall in Fr. by apply Fr.
    + intros y. simpl. rewrite !elem_of_app, !elem_of_cons, He. tauto.
Qed.
End tree.

(** ** Entries as byte strings

    A slot is the bytes of one entry, padding included. *)
Definition slot_nlen (s : bytes) : Z := byte_val (nth 11 s NUL).
Definition slot_name (s : bytes) : bytes := take (Z.to_nat (slot_nlen s)) (drop 13 s).
Definition slot_is_wh (s : bytes) : bool :=
  (AUFS_WH_PFX_LEN <? slot_nlen s) && bool_decide (take 4 (slot_name s) = AUFS_WH_PFX).
Definition slot_set_wh (b : Z) (s : bytes) : bytes := <[12%nat := byte_of b]> s.

(** What the kernel writes: the length of au_rdu_len(), the name terminated. *)
Definition wf_slot (s : bytes) : Prop :=
  length s = Z.to_nat (au_rdu_len (slot_nlen s)) /\ NUL ∉ slot_name s /\
  s !! (13 + Z.to_nat (slot_nlen s))%nat = Some NUL.

Lemma slot_nlen_range s : 0 <= slot_nlen s < 256.
Proof. apply byte_val_range. Qed.

Lemma wf_slot_length s : wf_slot s -> (14 + Z.to_nat (slot_nlen s) <= length s)%nat.
Proof.
  intros (H & _ & _). pose proof (slot_nlen_range s).
  destruct (au_rdu_len_spec (slot_nlen s)) as [_ ?]; [lia|]. unfold sizeof_au_rdu_ent in *. lia.
Qed.

Lemma slot_name_length s : wf_slot s -> length (slot_name s) = Z.to_nat (slot_nlen s).
Proof.
  intros H. pose proof (wf_slot_length s H). unfold slot_name.
  rewrite length_take, length_drop. lia.
Qed.

(** A slot is its 13 header bytes, the name, its terminator and padding. *)
Lemma wf_slot_split s :
  wf_slot s -> exists pad, s = take 13 s ++ slot_name s ++ NUL :: pad.
Proof.
  intros H. pose proof (wf_slot_length s H). destruct H as (_ & _ & H).
  exists (drop (14 + Z.to_nat (slot_nlen s)) s).
  rewrite <- (take_drop 13 s) at 1. f_equal. unfold slot_name.
  rewrite <- (take_drop (Z.to_nat (slot_nlen s)) (drop 13 s)) at 1. f_equal.
  rewrite drop_drop. by rewrite (drop_S s NUL).
Qed.

Section slot_in_mem.
Context (pre s post : bytes).
Let m := pre ++ s ++ post.
Let off := length pre.

Lemma ent_nlen_slot : wf_slot s -> ent_nlen m off = slot_nlen s.
Proof.
  intros H. pose proof (wf_slot_length s H). unfold ent_nlen, slot_nlen, m, off.
  rewrite app_nth2 by lia. rewrite app_nth1 by lia. do 2 f_equal. lia.
Qed.

Lemma ent_len_slot : wf_slot s -> ent_len m off = length s.
Proof. intros H. unfold ent_len. rewrite ent_nlen_slot by done. by destruct H. Qed.

Lemma drop_slot n : (n <= length s)%nat -> drop (off + n) m = drop n s ++ post.
Proof.
  intros H. unfold m, off. rewrite drop_app_ge by lia.
  replace (_ - _)%nat with n by lia. by apply drop_app_le.
Qed.

Lemma ent_name_slot : wf_slot s -> ent_name m off = slot_name s.
Proof.
  intros H. pose proof (wf_slot_length s H). unfold ent_name.
  rewrite drop_slot by lia. destruct (wf_slot_split s H) as [pad E].
  assert (drop 13 s = slot_name s ++ NUL :: pad) as ->.
  { rewrite E at 1. apply drop_app_length'. rewrite length_take. lia. }
  rewrite <- app_assoc. simpl. apply cstr_app. by destruct H as (_ & ? & _).
Qed.

Lemma ent_ok_slot : wf_slot s -> ent_ok m off = true.
Proof.
  intros H. pose proof (wf_slot_length s H). unfold ent_ok.
  rewrite ent_len_slot, ent_name_slot, slot_name_length by done.
  unfold m, off. rewrite !length_app. apply andb_true_iff. split.
  - apply Nat.leb_le. lia.
  - apply Nat.ltb_lt. lia.
Qed.

Lemma ent_is_wh_slot : wf_slot s -> ent_is_wh m off = slot_is_wh s.
Proof.
  intros H. pose proof (wf_slot_length s H). unfold ent_is_wh, slot_is_wh.
  rewrite ent_nlen_slot by done. rewrite Bool.negb_orb, Bool.negb_involutive, <- Z.ltb_antisym.
  destruct (Z.ltb_spec AUFS_WH_PFX_LEN (slot_nlen s)) as [Hl|]; [|done]. cbn [andb].
  rewrite drop_slot by lia. unfold slot_name.
  change AUFS_WH_PFX_LEN with 4 in Hl.
  rewrite take_app_le by (rewrite length_drop; lia). rewrite take_take.
  by replace (4 `min` Z.to_nat (slot_nlen s))%nat with 4%nat by lia.
Qed.

Lemma set_wh_slot b : wf_slot s -> set_wh m off b = pre ++ slot_set_wh b s ++ post.
Proof.
  intros H. pose proof (wf_slot_length s H). unfold set_wh, slot_set_wh, m, off.
  rewrite insert_app_r, insert_app_l by lia. done.
Qed.
End slot_in_mem.

(** The wh byte is no part of what identifies an entry. *)
Lemma slot_set_wh_same b s :
  wf_slot s ->
  wf_slot (slot_set_wh b s) /\ slot_nlen (slot_set_wh b s) = slot_nlen s /\
  slot_name (slot_set_wh b s) = slot_name s /\ length (slot_set_wh b s) = length s /\
  slot_is_wh (slot_set_wh b s) = slot_is_wh s.
Proof.
  intros H. pose proof (wf_slot_length s H).
  assert (slot_nlen (slot_set_wh b s) = slot_nlen s) as E1.
  { unfold slot_nlen, slot_set_wh. rewrite !nth_lookup. by rewrite list_lookup_insert_ne. }
  assert (slot_name (slot_set_wh b s) = slot_name s) as E2.
  { unfold slot_name. rewrite E1. unfold slot_set_wh. by rewrite drop_insert_lt by lia. }
  assert (length (slot_set_wh b s) = length s) as E3 by apply length_insert.
  unfold slot_is_wh. rewrite E1, E2. split; [|done]. destruct H as (? & ? & ?).
  unfold wf_slot. rewrite E1, E2, E3. split; [done|]. split; [done|].
  unfold slot_set_wh. rewrite list_lookup_insert_ne by lia. done.
Qed.

(** ** What the merge means

    Going through the entries in the kernel's order: a whiteout ".wh.NAME" hides every
    later NAME, is reported once, and only when whiteouts are shown; a real entry is kept
    unless its name is hidden or was kept before.  [reals] and [whs] are the names seen. *)
Fixpoint kept (shwh : bool) (reals whs : list bytes) (slots : list bytes) : list bool :=
  match slots with
  | [] => []
  | s :: r =>
      if slot_is_wh s then
        let n := drop 4 (slot_name s) in
        (shwh && negb (bool_decide (n ∈ whs))) :: kept shwh reals (n :: whs) r
      else
        let n := slot_name s in
        if bool_decide (n ∈ whs) then false :: kept shwh reals whs r
        else negb (bool_decide (n ∈ reals)) :: kept shwh (n :: reals) whs r
  end.

Fixpoint select {A} (mask : list bool) (l : list A) : list A :=
  match mask, l with
  | b :: mask, x :: l => if b then x :: select mask l else select mask l
  | _, _ => []
  end.

(** The wh byte that the merge leaves in an entry. *)
Definition flag (s : bytes) : bytes := slot_set_wh (if slot_is_wh s then 1 else 0) s.

Fixpoint offs (o : nat) (slots : list bytes) : list nat :=
  match slots with
  | [] => []
  | s :: r => o :: offs (o + length s) r
  end.

(** The merged directory. *)
Definition merged (shwh : bool) (slots : list bytes) : list bytes :=
  select (kept shwh [] [] slots) (map flag slots).

Definition sim (s s' : bytes) : Prop :=
  length s' = length s /\ slot_name s' = slot_name s /\ wf_slot s'.

Lemma sim_refl s : wf_slot s -> sim s s.
Proof. intros H. split; [done|]. by split. Qed.

Lemma sim_set_wh b s : wf_slot s -> sim s (slot_set_wh b s).
Proof. intros H. destruct (slot_set_wh_same b s H) as (? & _ & ? & ? & _). by split. Qed.

Lemma sim_concat_length l l' : Forall2 sim l l' -> length (concat l') = length (concat l).
Proof. induction 1 as [|s s' l l' (H & _) _ IH]; simpl; [done|]. rewrite !length_app. lia. Qed.

(** [x] is the offset of the slot [s]. *)
Definition is_off (slots : list bytes) (x : nat) (s : bytes) : Prop :=
  exists a b, slots = a ++ s :: b /\ x = length (concat a).

Lemma is_off_snoc slots x s s' : is_off slots x s -> is_off (slots ++ [s']) x s.
Proof. intros (a & b & -> & ->). exists a, (b ++ [s']). by rewrite <- app_assoc. Qed.

Lemma is_off_last slots s : is_off (slots ++ [s]) (length (concat slots)) s.
Proof. by exists slots, []. Qed.

(** Reading the name of a slot, whatever the wh bytes are by now. *)
Lemma ent_name_off slots slots' rest x s :
  Forall2 sim slots slots' -> is_off slots x s ->
  ent_name (concat slots' ++ rest) x = slot_name s.
Proof.
  intros H (a & b & -> & ->).
  apply Forall2_app_inv_l in H as (a' & t & Ha & Ht & ->).
  inversion Ht as [|? s' ? b' (Hl & Hn & Hw) Hb]; subst.
  rewrite <- Hn, <- (sim_concat_length _ _ Ha).
  rewrite concat_app, <- app_assoc. simpl. rewrite <- app_assoc.
  by apply ent_name_slot.
Qed.

(** The trees of the entries processed so far: [name] is the key of an offset, and the
    keys in the tree are [names]. *)
Section tree_inv.
Context (name : nat -> bytes).

Definition tree_inv (done_ : list bytes) (names : list bytes) (t : tree) : Prop :=
  bst name t /\ (forall x, x ∈ elems t -> exists s, is_off done_ x s) /\
  (forall n, n ∈ names <-> exists x, x ∈ elems t /\ name x = n).

Lemma tree_inv_leaf : tree_inv [] [] Leaf.
Proof.
  split; [done|]. split; intros x; [by intros ?%not_elem_of_nil|].
  split; [by intros ?%not_elem_of_nil|]. by intros (y & ?%not_elem_of_nil & _).
Qed.

Lemma tree_inv_snoc done_ names t s : tree_inv done_ names t -> tree_inv (done_ ++ [s]) names t.
Proof.
  intros (Hb & Hx & Hn). split; [done|]. split; [|done].
  intros x Hin. destruct (Hx x Hin) as (s' & ?). exists s'. by apply is_off_snoc.
Qed.

(** Looking up and inserting, in terms of the names. *)
Lemma tree_inv_tfind done_ names t (compar : nat -> Z) k :
  tree_inv done_ names t ->
  (forall x s, is_off done_ x s -> compar x = strcmp k (name x)) ->
  tfind compar t = None <-> k ∉ names.
Proof.
  intros (Hb & Hx & Hn) Hc.
  assert (forall x, x ∈ elems t -> compar x = strcmp k (name x)) as Hc'.
  { intros x Hin. destruct (Hx x Hin) as (s & Hs). by eapply Hc. }
  pose proof (tfind_spec name compar k t Hb Hc') as H.
  destruct (tfind compar t) as [x|].
  - split; [done|]. intros Hk. destruct Hk. apply Hn. by exists x.
  - split; [|done]. intros _ Hk. apply Hn in Hk as (x & ? & ?). by apply (H x).
Qed.

Lemma tree_inv_insert done_ names t (compar : nat -> Z) s :
  let o := length (concat done_) in
  tree_inv done_ names t -> name o ∉ names ->
  (forall x s', is_off done_ x s' -> compar x = strcmp (name o) (name x)) ->
  exists t' last, tsearch compar o t = (t', last) /\
    stored last = true /\ tree_inv (done_ ++ [s]) (name o :: names) t'.
Proof.
  intros o Hi Hk Hc. pose proof (proj2 (tree_inv_tfind _ _ _ _ _ Hi Hc) Hk) as Hf.
  destruct Hi as (Hb & Hx & Hn).
  destruct (tsearch_new name compar (name o) o t eq_refl Hb) as (t' & last & Et & Hl & Hb' & He);
    [|done|].
  { intros x Hin. destruct (Hx x Hin) as (s' & Hs). by eapply Hc. }
  exists t', last. split; [done|]. split; [done|]. split; [done|]. split.
  - intros x [->|Hin]%He; [exists s; apply is_off_last|].
    destruct (Hx x Hin) as (s' & ?). exists s'. by apply is_off_snoc.
  - intros n. rewrite elem_of_cons, Hn. split.
    + intros [->|(x & ? & ?)]; [exists o|exists x]; (split; [apply He; auto|done]).
    + intros (x & [->|Hin]%He & <-); [by left|right; by exists x].
Qed.
End tree_inv.

(** ** The merging loop *)

Lemma flag_sim s : wf_slot s -> sim s (flag s).
Proof. apply sim_set_wh. Qed.

Lemma flags_sim l : Forall wf_slot l -> Forall2 sim l (map flag l).
Proof. induction 1; simpl; constructor; auto using flag_sim. Qed.

Lemma sims_refl l : Forall wf_slot l -> Forall2 sim l l.
Proof. induction 1; constructor; auto using sim_refl. Qed.

Section merge_spec.
Context (slots : list bytes) (rest : bytes) (Hwf : Forall wf_slot slots).

Definition name_at (x : nat) : bytes := ent_name (concat slots ++ rest) x.
Definition whname_at (x : nat) : bytes := drop 4 (name_at x).

Lemma name_at_off x s : is_off slots x s -> name_at x = slot_name s.
Proof. apply ent_name_off, sims_refl, Hwf. Qed.

(** The memory while the slot [s] is being processed. *)
Section step.
Context (done_ todo : list bytes) (s : bytes) (b : Z).
Hypothesis Hs : slots = done_ ++ s :: todo.
Let m := concat (map flag done_) ++ slot_set_wh b s ++ concat todo ++ rest.
Let o := length (concat done_).

Lemma step_wf : Forall wf_slot done_ /\ wf_slot s /\ Forall wf_slot todo.
Proof. rewrite Hs in Hwf. by apply Forall_app in Hwf as [? [? ?]%Forall_cons]. Qed.

Lemma step_off : o = length (concat (map flag done_)).
Proof. symmetry. apply sim_concat_length, flags_sim, step_wf. Qed.

Lemma step_name x s0 : is_off slots x s0 -> ent_name m x = name_at x.
Proof.
  intros H. rewrite (name_at_off x s0 H).
  destruct step_wf as (H1 & H2 & H3).
  assert (m = concat (map flag done_ ++ slot_set_wh b s :: todo) ++ rest) as ->
    by (unfold m; rewrite concat_app; simpl; by rewrite <- !app_assoc).
  apply (ent_name_off slots); [|done]. rewrite Hs. apply Forall2_app; [by apply flags_sim|].
  constructor; [by apply sim_set_wh|by apply sims_refl].
Qed.

Lemma step_is_off : is_off slots o s.
Proof. by exists done_, todo. Qed.

Lemma step_done x s0 : is_off done_ x s0 -> is_off slots x s0.
Proof.
  rewrite Hs. intros (a & c & -> & ->). exists a, (c ++ s :: todo).
  by rewrite <- app_assoc.
Qed.

Lemma step_here : ent_name m o = slot_name s /\ ent_is_wh m o = slot_is_wh s /\
  ent_len m o = length s.
Proof.
  destruct step_wf as (_ & H2 & _).
  destruct (slot_set_wh_same b s H2) as (Hw & _ & Hn & Hl & Hi).
  rewrite <- Hn, <- Hi, <- Hl. unfold m. rewrite step_off.
  split; [by apply ent_name_slot|]. split; [by apply ent_is_wh_slot|by apply ent_len_slot].
Qed.

Lemma step_compar x s0 :
  is_off done_ x s0 -> rdu_ent_compar m o x = strcmp (name_at o) (name_at x).
Proof.
  intros H. unfold rdu_ent_compar.
  by rewrite (step_name o s step_is_off), (step_name x s0 (step_done _ _ H)).
Qed.

Lemma step_compar_wh2 x s0 :
  is_off done_ x s0 -> rdu_ent_compar_wh2 m o x = strcmp (whname_at o) (whname_at x).
Proof.
  intros H. unfold rdu_ent_compar_wh2, whname_at.
  by rewrite (step_name o s step_is_off), (step_name x s0 (step_done _ _ H)).
Qed.

Lemma step_compar_wh1 x s0 :
  slot_is_wh s = false -> is_off done_ x s0 ->
  rdu_ent_compar_wh1 m o x = strcmp (name_at o) (whname_at x).
Proof.
  intros Hn H. destruct step_here as (_ & Hi & _). rewrite Hn in Hi.
  unfold ent_is_wh in Hi. apply Bool.negb_false_iff in Hi.
  unfold rdu_ent_compar_wh1. rewrite Hi. unfold whname_at.
  by rewrite (step_name o s step_is_off), (step_name x s0 (step_done _ _ H)).
Qed.
End step.

Context {K G : Type}.
Notation world := (world K G).

Lemma tsearch_found_run (compar : nat -> Z) o t (w : world) :
  tfind compar t <> None -> tsearch_ compar o t w = (Ret (Some (t, Some 0)), w).
Proof.
  unfold tsearch_. destruct (tfind compar t) eqn:E; [|done]. intros _.
  by rewrite (tsearch_found compar o t _ E).
Qed.

Lemma tsearch_new_run (compar : nat -> Z) o t (w : world) :
  w_faults w = [] -> tfind compar t = None ->
  tsearch_ compar o t w = (Ret (Some (tsearch compar o t)), w).
Proof.
  intros Hf E. unfold tsearch_. rewrite E. by rewrite (bind_run _ _ _ _ _ (fallible_ok w Hf)).
Qed.

Lemma tree_inv_dup name done_ names t n :
  n ∈ names -> tree_inv name done_ names t -> tree_inv name done_ (n :: names) t.
Proof.
  intros Hin (? & ? & Hn). split; [done|]. split; [done|]. intros n'. rewrite <- Hn, elem_of_cons.
  split; [intros [->|]; done|auto].
Qed.

(** The state when the entries [done_] have been processed. *)
Definition loop_inv (done_ todo reals whs : list bytes) (st : mstate) : Prop :=
  ms_mem st = concat (map flag done_) ++ concat todo ++ rest /\
  tree_inv name_at done_ reals (ms_real st) /\ tree_inv whname_at done_ whs (ms_wh st).

Lemma concat_flag_snoc done_ s todo :
  concat (map flag done_) ++ flag s ++ concat todo ++ rest
    = concat (map flag (done_ ++ [s])) ++ concat todo ++ rest.
Proof. rewrite map_app, concat_app. simpl. by rewrite app_nil_r, <- !app_assoc. Qed.

Section one.
Context (done_ todo reals whs : list bytes) (s : bytes) (st : mstate) (w : world) (shwh : bool).
Hypothesis Hs : slots = done_ ++ s :: todo.
Hypothesis Hf : w_faults w = [].
Hypothesis Hm : ms_mem st = concat (map flag done_) ++ slot_set_wh 0 s ++ concat todo ++ rest.
Hypothesis Hr : tree_inv name_at done_ reals (ms_real st).
Hypothesis Hw : tree_inv whname_at done_ whs (ms_wh st).
Let o := length (concat done_).

Lemma whname_here : whname_at o = drop 4 (slot_name s).
Proof. unfold whname_at. by rewrite (name_at_off o s (step_is_off done_ todo s Hs)). Qed.

Lemma append_wh_step :
  slot_is_wh s = true ->
  let n := drop 4 (slot_name s) in
  exists st', rdu_ent_append_wh shwh st o w = (Ret (0, st'), w) /\
    loop_inv (done_ ++ [s]) todo reals (n :: whs) st' /\
    ms_pos st' = if shwh && negb (bool_decide (n ∈ whs)) then ms_pos st ++ [o] else ms_pos st.
Proof.
  intros Hi n. unfold rdu_ent_append_wh.
  destruct (step_wf done_ todo s Hs) as (_ & Hws & _).
  destruct (slot_set_wh_same 0 s Hws) as (Hws0 & _).
  set (m := set_wh (ms_mem st) o 1).
  assert (m = concat (map flag done_) ++ slot_set_wh 1 s ++ concat todo ++ rest) as Em.
  { unfold m, o. rewrite Hm, (step_off done_ todo s Hs), set_wh_slot by done.
    unfold slot_set_wh. by rewrite list_insert_insert_eq. }
  assert (m = concat (map flag (done_ ++ [s])) ++ concat todo ++ rest) as Em'
    by (rewrite Em, <- concat_flag_snoc; unfold flag; by rewrite Hi).
  assert (forall x s', is_off done_ x s' ->
            rdu_ent_compar_wh2 m o x = strcmp (whname_at o) (whname_at x)) as Hc
    by (intros x s'; rewrite Em; apply step_compar_wh2; done).
  pose proof whname_here as En. fold n in En. rewrite <- En.
  pose proof (tree_inv_tfind _ _ _ _ _ _ Hw Hc) as Hfind.
  destruct (decide (whname_at o ∈ whs)) as [Hin|Hnin].
  - rewrite (bind_run _ _ _ _ _ (tsearch_found_run _ o _ w (fun H => proj1 Hfind H Hin))).
    eexists. split; [reflexivity|]. rewrite bool_decide_true by done. cbn.
    rewrite !Bool.andb_false_r. split; [|done]. split; [done|].
    split; [by apply tree_inv_snoc|]. by apply tree_inv_dup, tree_inv_snoc.
  - rewrite (bind_run _ _ _ _ _ (tsearch_new_run _ o _ w Hf (proj2 Hfind Hnin))).
    destruct (tree_inv_insert _ _ _ _ _ s Hw Hnin Hc) as (t' & last & Et & Hl & Ht).
    fold o in Et. rewrite Et. eexists. split; [reflexivity|].
    rewrite bool_decide_false by done. cbn. rewrite Hl, !Bool.andb_true_r.
    split; [|done]. split; [done|]. split; [by apply tree_inv_snoc|done].
Qed.

Lemma append_step :
  slot_is_wh s = false ->
  let n := slot_name s in
  let hidden := bool_decide (n ∈ whs) in
  exists st', rdu_ent_append st o w = (Ret (0, st'), w) /\
    loop_inv (done_ ++ [s]) todo (if hidden then reals else n :: reals) whs st' /\
    ms_pos st' = if hidden || bool_decide (n ∈ reals) then ms_pos st else ms_pos st ++ [o].
Proof.
  intros Hi n hidden. unfold rdu_ent_append.
  assert (ms_mem st = concat (map flag (done_ ++ [s])) ++ concat todo ++ rest) as Em'
    by (rewrite Hm, <- concat_flag_snoc; unfold flag; by rewrite Hi).
  pose proof (name_at_off o s (step_is_off done_ todo s Hs)) as En. fold n in En.
  assert (forall x s', is_off done_ x s' ->
            rdu_ent_compar_wh1 (ms_mem st) o x = strcmp n (whname_at x)) as Hc1
    by (intros x s'; rewrite Hm, <- En; apply step_compar_wh1; done).
  pose proof (tree_inv_tfind _ _ _ _ _ _ Hw Hc1) as Hf1.
  unfold hidden. destruct (decide (n ∈ whs)) as [Hin|Hnin].
  { rewrite bool_decide_true by done. cbn [orb].
    destruct (tfind _ (ms_wh st)) as [x|]; [|by destruct (proj1 Hf1 eq_refl)].
    eexists. split; [reflexivity|]. split; [|done].
    split; [done|]. split; by apply tree_inv_snoc. }
  rewrite (proj2 Hf1 Hnin), bool_decide_false by done. cbn [orb].
  assert (forall x s', is_off done_ x s' ->
            rdu_ent_compar (ms_mem st) o x = strcmp (name_at o) (name_at x)) as Hc
    by (intros x s'; rewrite Hm; apply step_compar; done).
  pose proof (tree_inv_tfind _ _ _ _ _ _ Hr Hc) as Hfind.
  rewrite <- En.
  destruct (decide (name_at o ∈ reals)) as [Hin|Hnin'].
  - rewrite (bind_run _ _ _ _ _ (tsearch_found_run _ o _ w (fun H => proj1 Hfind H Hin))).
    eexists. split; [reflexivity|]. rewrite bool_decide_true by done. cbn.
    split; [|done]. split; [done|]. split; [|by apply tree_inv_snoc].
    by apply tree_inv_dup, tree_inv_snoc.
  - rewrite (bind_run _ _ _ _ _ (tsearch_new_run _ o _ w Hf (proj2 Hfind Hnin'))).
    destruct (tree_inv_insert _ _ _ _ _ s Hr Hnin' Hc) as (t' & last & Et & Hl & Ht).
    fold o in Et. rewrite Et. eexists. split; [reflexivity|].
    rewrite bool_decide_false by done. cbn. rewrite Hl. split; [|done].
    split; [done|]. split; [done|by apply tree_inv_snoc].
Qed.
End one.

Lemma merge_loop_spec todo done_ reals whs st shwh (w : world) :
  slots = done_ ++ todo -> w_faults w = [] -> loop_inv done_ todo reals whs st ->
  exists st', merge_loop (length todo) (length (concat done_)) shwh st w = (Ret (0, st'), w) /\
    ms_mem st' = concat (map flag slots) ++ rest /\
    ms_pos st' = ms_pos st
      ++ select (kept shwh reals whs todo) (offs (length (concat done_)) todo).
Proof.
  intros Hs Hf. revert done_ reals whs st Hs.
  induction todo as [|s todo IH]; intros done_ reals whs st Hs (Hm & Hr & Hw).
  { exists st. cbn. rewrite app_nil_r in *. subst. by rewrite Hm. }
  destruct (step_wf done_ todo s Hs) as (_ & Hws & _).
  cbn [length merge_loop]. set (o := length (concat done_)).
  simpl in Hm. rewrite <- app_assoc in Hm.
  assert (ent_ok (ms_mem st) o = true) as ->
    by (unfold o; rewrite Hm, (step_off done_ todo s Hs); by apply ent_ok_slot).
  cbn [negb].
  set (m0 := set_wh (ms_mem st) o 0).
  assert (m0 = concat (map flag done_) ++ slot_set_wh 0 s ++ concat todo ++ rest) as Em.
  { unfold m0, o. by rewrite Hm, (step_off done_ todo s Hs), set_wh_slot. }
  destruct (step_here done_ todo s 0 Hs) as (_ & Hi & _). rewrite <- Em in Hi. fold o in Hi.
  cbn [ms_mem ms_real ms_wh ms_pos]. rewrite Hi.
  assert (slots = (done_ ++ [s]) ++ todo) as Hs' by (by rewrite <- app_assoc).
  assert (length (concat (done_ ++ [s])) = o + length s)%nat as Eo
    by (rewrite concat_app, length_app; simpl; by rewrite app_nil_r).
  assert (forall st', ms_mem st' = concat (map flag (done_ ++ [s])) ++ concat todo ++ rest ->
            (o + ent_len (ms_mem st') o = o + length s)%nat) as Hlen.
  { intros st' ->. rewrite <- concat_flag_snoc. unfold flag at 2.
    destruct (step_here done_ todo s (if slot_is_wh s then 1 else 0) Hs) as (_ & _ & H). fold o in H.
    by rewrite H. }
  cbn [kept offs]. destruct (slot_is_wh s) eqn:Ei.
  - destruct (append_wh_step done_ todo reals whs s (MS m0 (ms_real st) (ms_wh st) (ms_pos st))
                w shwh Hs Hf Em Hr Hw Ei) as (st1 & E1 & Hinv & Hp).
    fold o in E1. rewrite (bind_run _ _ _ _ _ E1). cbv beta iota. change (truth 0) with false.
    cbv iota. rewrite (Hlen st1 (proj1 Hinv)), <- Eo.
    destruct (IH _ _ _ st1 Hs' Hinv) as (st2 & E2 & Hm2 & Hp2). exists st2.
    split; [exact E2|]. split; [done|]. rewrite Hp2, Hp, Eo. cbn [ms_pos select].
    fold o. by destruct (shwh && _); [rewrite <- app_assoc|].
  - destruct (append_step done_ todo reals whs s (MS m0 (ms_real st) (ms_wh st) (ms_pos st))
                w Hs Hf Em Hr Hw Ei) as (st1 & E1 & Hinv & Hp).
    fold o in E1, Hp. rewrite (bind_run _ _ _ _ _ E1). cbv beta iota. change (truth 0) with false.
    cbv iota. rewrite (Hlen st1 (proj1 Hinv)), <- Eo.
    destruct (IH _ _ _ st1 Hs' Hinv) as (st2 & E2 & Hm2 & Hp2). exists st2.
    split; [exact E2|]. split; [done|]. rewrite Hp2, Hp, Eo. cbn [ms_pos].
    destruct (bool_decide (slot_name s ∈ whs)); cbn [orb select]; [done|].
    by destruct (bool_decide (slot_name s ∈ reals)); cbn [negb]; [|rewrite <- app_assoc].
Qed.
End merge_spec.

(** ** The compaction *)

Lemma select_length_le {A} mask (l : list A) : (length (select mask l) <= length l)%nat.
Proof.
  revert l; induction mask as [|b mask IH]; intros [|x l]; simpl; try lia.
  specialize (IH l). destruct b; simpl; lia.
Qed.

(** Moving an entry onto itself changes nothing. *)
Lemma memmove_same m x n : (x + n <= length m)%nat -> memmove m x x n = m.
Proof.
  intros H. unfold memmove. rewrite <- (take_drop x m) at 4. f_equal.
  rewrite <- (take_drop n (drop x m)) at 2. by rewrite drop_drop.
Qed.

(** The first loop of the compaction is an optimisation. *)
Lemma rdu_compact_move m pos :
  Forall (fun x => (x + ent_len m x <= length m)%nat) pos ->
  rdu_compact m pos = rdu_move m pos 0.
Proof.
  unfold rdu_compact. generalize 0%nat as off. induction pos as [|x pos IH]; intros off H; [done|].
  apply Forall_cons in H as [Hx H]. cbn [rdu_skip].
  destruct (Nat.eqb_spec x off) as [->|Hne]; [|cbn [app]; by destruct (rdu_move m (x :: pos) off)].
  specialize (IH (off + ent_len m off)%nat H).
  destruct (rdu_skip m pos (off + ent_len m off)) as [[pre post] off'].
  destruct (rdu_move m post off') as [m' post'] eqn:E'. cbn [rdu_move].
  rewrite memmove_same by done. by rewrite <- IH.
Qed.

(** The slots before [gap] are in place; [fl] and what follows are still untouched. *)
Lemma rdu_move_spec fl mask out gap rest :
  Forall wf_slot fl -> length mask = length fl ->
  exists tail,
    rdu_move (concat out ++ gap ++ concat fl ++ rest)
      (select mask (offs (length (concat out) + length gap) fl)) (length (concat out))
    = (concat out ++ concat (select mask fl) ++ tail,
       offs (length (concat out)) (select mask fl)) /\
    length (concat (select mask fl) ++ tail) = length (gap ++ concat fl ++ rest).
Proof.
  revert mask out gap; induction fl as [|s fl IH]; intros mask out gap Hwf Hl.
  { destruct mask; [|done]. exists (gap ++ rest). by cbn. }
  destruct mask as [|b mask]; [done|]. apply Forall_cons in Hwf as [Hs Hwf].
  injection Hl as Hl. cbn [offs select concat]. destruct b.
  - cbn [rdu_move offs].
    set (m := concat out ++ gap ++ (s ++ concat fl) ++ rest).
    assert (m = (concat out ++ gap) ++ s ++ concat fl ++ rest) as Em
      by (unfold m; by rewrite <- !app_assoc).
    assert (ent_len m (length (concat out) + length gap) = length s) as Ex
      by (rewrite Em, <- length_app; by apply ent_len_slot).
    rewrite Ex. set (gap' := drop (length s) (gap ++ s)).
    assert (length gap' = length gap) as Eg
      by (unfold gap'; rewrite length_drop, length_app; lia).
    assert (memmove m (length (concat out)) (length (concat out) + length gap) (length s)
            = concat (out ++ [s]) ++ gap' ++ concat fl ++ rest) as Emm.
    { unfold memmove. rewrite Em at 2. rewrite <- length_app, drop_app_length, take_app_length.
      unfold m at 1 2. rewrite take_app_length, drop_app_ge by lia.
      replace (_ - _)%nat with (length s) by lia.
      rewrite concat_app. simpl. rewrite app_nil_r, <- !app_assoc. do 2 f_equal.
      unfold gap'. rewrite (app_assoc gap s). by rewrite drop_app_le by (rewrite length_app; lia). }
    rewrite Emm.
    assert (length (concat (out ++ [s])) = length (concat out) + length s)%nat as Eo
      by (rewrite concat_app, length_app; simpl; by rewrite app_nil_r).
    assert (ent_len (concat (out ++ [s]) ++ gap' ++ concat fl ++ rest) (length (concat out))
            = length s) as ->.
    { rewrite concat_app. simpl. rewrite app_nil_r, <- app_assoc. by apply ent_len_slot. }
    destruct (IH mask (out ++ [s]) gap' Hwf Hl) as (tail & E & Hlen).
    rewrite Eo, Eg in E.
    replace (length (concat out) + length gap + length s)%nat
      with (length (concat out) + length s + length gap)%nat by lia.
    rewrite E. exists tail. cbn [concat]. split.
    + rewrite concat_app. simpl. by rewrite app_nil_r, <- !app_assoc.
    + rewrite <- app_assoc, length_app, Hlen, !length_app. lia.
  - destruct (IH mask out (gap ++ s) Hwf Hl) as (tail & E & Hlen).
    exists tail. rewrite <- app_assoc in E. rewrite length_app, Nat.add_assoc in E.
    cbn [concat]. rewrite <- app_assoc, E. split; [done|].
    rewrite Hlen. by rewrite <- !app_assoc.
Qed.

Lemma kept_length shwh reals whs l : length (kept shwh reals whs l) = length l.
Proof.
  revert reals whs; induction l as [|s l IH]; intros reals whs; [done|]. cbn [kept].
  destruct (slot_is_wh s); [cbn; by rewrite IH|].
  case_bool_decide; cbn; by rewrite IH.
Qed.

Lemma select_full {A} mask (l : list A) :
  length mask = length l -> length (select mask l) = length l -> select mask l = l.
Proof.
  revert l; induction mask as [|b mask IH]; intros [|x l] Hm Hs; simpl in *; try done.
  injection Hm as Hm. destruct b; simpl in *.
  - f_equal. apply IH; lia.
  - pose proof (select_length_le mask l). lia.
Qed.

Lemma select_map {A B} (f : A -> B) mask l : select mask (map f l) = map f (select mask l).
Proof.
  revert l; induction mask as [|b mask IH]; intros [|x l]; simpl; try done.
  destruct b; simpl; by rewrite IH.
Qed.

Lemma offs_length o l : length (offs o l) = length l.
Proof. revert o; induction l; intros o; simpl; auto. Qed.

Lemma select_offs_length mask o l :
  length mask = length l -> length (select mask (offs o l)) = length (select mask l).
Proof.
  revert o l; induction mask as [|b mask IH]; intros o [|s l]; simpl; try done.
  intros [= H]. destruct b; simpl; by rewrite IH.
Qed.

Lemma offs_sim o l l' : Forall2 sim l l' -> offs o l' = offs o l.
Proof.
  intros H; revert o; induction H as [|s s' l l' (Hl & _) _ IH]; intros o; [done|].
  simpl. by rewrite Hl, IH.
Qed.

Lemma sims_wf l l' : Forall2 sim l l' -> Forall wf_slot l'.
Proof. induction 1 as [|s s' l l' (_ & _ & H) _ IH]; constructor; auto. Qed.

(** Every offset of a packed buffer is in bounds. *)
Lemma offs_ok (pre : bytes) fl rest :
  Forall wf_slot fl ->
  Forall (fun x => (x + ent_len (pre ++ concat fl ++ rest) x
                    <= length (pre ++ concat fl ++ rest))%nat) (offs (length pre) fl).
Proof.
  revert pre; induction fl as [|s fl IH]; intros pre Hwf; [constructor|].
  apply Forall_cons in Hwf as [Hs Hwf]. simpl.
  assert (pre ++ (s ++ concat fl) ++ rest = (pre ++ s) ++ concat fl ++ rest) as E
    by (by rewrite <- !app_assoc).
  constructor.
  - rewrite <- app_assoc, ent_len_slot by done. rewrite !length_app. lia.
  - rewrite E, <- length_app. by apply IH.
Qed.

Lemma select_Forall {A} (P : A -> Prop) mask l : Forall P l -> Forall P (select mask l).
Proof.
  revert mask; induction l as [|x l IH]; intros [|b mask] H; simpl; try constructor.
  apply Forall_cons in H as [? ?]. destruct b; [constructor|]; auto.
Qed.

Lemma rdu_merge_run {K G} slots rest old shwh (w : world K G) :
  w_faults w = [] -> Forall wf_slot slots -> old <> PosDangling ->
  merged shwh slots <> [] ->
  let m := concat slots ++ rest in
  exists tail,
    rdu_merge m old (length slots) shwh w =
      (Ret (0, concat (merged shwh slots) ++ tail, PosArr (offs 0 (merged shwh slots)),
            length (merged shwh slots)), w) /\
    length (concat (merged shwh slots) ++ tail) = length m.
Proof.
  intros Hf Hwf Hold Hne m. set (mask := kept shwh [] [] slots).
  assert (length mask = length slots) as Hmask by apply kept_length.
  assert (length slots <> 0)%nat as Hn0
    by (destruct slots; [by destruct Hne|done]).
  assert (realloc_pos old (length slots) w = (Ret true, w)) as Er.
  { unfold realloc_pos. destruct old; [| |done]; rewrite (bind_run _ _ _ _ _ (fallible_ok w Hf));
      by rewrite (proj2 (Nat.eqb_neq _ _)). }
  unfold rdu_merge. rewrite (bind_run _ _ _ _ _ Er). cbn [negb].
  destruct (merge_loop_spec slots rest Hwf slots [] [] [] (MS m Leaf Leaf []) shwh w eq_refl Hf)
    as (st & E & Hm & Hp).
  { split; [done|]. split; apply tree_inv_leaf. }
  cbn [concat length] in E. rewrite (bind_run _ _ _ _ _ E). cbv beta iota.
  change (truth 0) with false. cbv iota. cbn [ms_pos app concat length] in Hp. fold mask in Hp.
  pose proof (flags_sim slots Hwf) as Hsim.
  assert (merged shwh slots = select mask (map flag slots)) as Emg by done.
  assert (ms_pos st = select mask (offs 0 (map flag slots))) as Ep
    by (by rewrite Hp, (offs_sim _ _ _ Hsim)).
  assert (length (ms_pos st) = length (merged shwh slots)) as Elen.
  { rewrite Ep, Emg. apply select_offs_length. by rewrite length_map. }
  destruct (Nat.eqb_spec (length (ms_pos st)) (length slots)) as [Efull|Hnf].
  - assert (merged shwh slots = map flag slots) as Efm.
    { rewrite Emg. apply select_full; [by rewrite length_map|].
      by rewrite <- Emg, <- Elen, length_map. }
    exists rest. rewrite Efm. split.
    + assert (ms_pos st = offs 0 (map flag slots)) as ->.
      { rewrite Ep. apply select_full; rewrite offs_length, length_map; [done|].
        by rewrite <- Ep. }
      by rewrite Hm, length_map.
    + unfold m. by rewrite !length_app, (sim_concat_length _ _ Hsim).
  - rewrite (proj2 (Nat.eqb_neq _ 0%nat)) by (rewrite Elen; by destruct (merged shwh slots)).
    rewrite (bind_run _ _ _ _ _ (fallible_ok w Hf)).
    assert (rdu_compact (ms_mem st) (ms_pos st) = rdu_move (ms_mem st) (ms_pos st) 0) as ->.
    { apply rdu_compact_move. rewrite Hm, Ep. apply select_Forall.
      apply (offs_ok []). by apply (sims_wf _ _ Hsim). }
    destruct (rdu_move_spec (map flag slots) mask [] [] rest (sims_wf _ _ Hsim)) as (tail & Et & Hl).
    { by rewrite length_map. }
    cbn [concat app length Nat.add] in Et. rewrite Hm, Ep, Et. exists tail.
    rewrite <- Emg in *. rewrite offs_length. split; [done|].
    rewrite Hl. unfold m. simpl. by rewrite !length_app, (sim_concat_length _ _ Hsim).
Qed.

(** C2. rdu_merge() computes the merged directory, for any buffer of well-formed entries the
    kernel may return, in any order and with any number of duplicates and whiteouts: on
    success [p->npos] is the number of kept entries, the front of the buffer holds exactly
    these entries one after the other, each with its wh byte set, [p->pos] points to each of
    them, and the buffer keeps its size. *)
Theorem rdu_merge_correct {K G} slots rest old shwh (w : world K G) :
  w_faults w = [] -> Forall wf_slot slots -> old <> PosDangling ->
  merged shwh slots <> [] ->
  let m := concat slots ++ rest in
  exists tail,
    rdu_merge m old (length slots) shwh w =
      (Ret (0, concat (merged shwh slots) ++ tail, PosArr (offs 0 (merged shwh slots)),
            length (merged shwh slots)), w) /\
    length (concat (merged shwh slots) ++ tail) = length m.
Proof. apply rdu_merge_run. Qed.

(** ** The merged directory, declaratively *)

Definition real_names (slots : list bytes) : list bytes :=
  map slot_name (List.filter (fun s => negb (slot_is_wh s)) slots).

(** Some entry for [n] comes before every whiteout of [n]. *)
Definition visible (n : bytes) (slots : list bytes) : Prop :=
  exists a s b, slots = a ++ s :: b /\ slot_is_wh s = false /\ slot_name s = n /\
    Forall (fun t => slot_is_wh t = true -> drop 4 (slot_name t) <> n) a.

Lemma visible_cons n s r :
  visible n (s :: r) <->
  (slot_is_wh s = false /\ slot_name s = n) \/
  ((slot_is_wh s = true -> drop 4 (slot_name s) <> n) /\ visible n r).
Proof.
  split.
  - intros ([|t a] & s' & b & E & Hw & Hn & Ha); injection E as -> ->; [by left|].
    apply Forall_cons in Ha as [Ht Ha]. right. split; [done|]. by exists a, s', b.
  - intros [[Hw Hn]|[Hs (a & s' & b & -> & Hw & Hn & Ha)]].
    + by exists [], s, r.
    + exists (s :: a), s', b. repeat split; try done. by constructor.
Qed.

Lemma visible_nil n : ~ visible n [].
Proof. by intros ([] & ? & ? & ? & _). Qed.

Lemma kept_names shwh slots reals whs :
  Forall wf_slot slots ->
  let l := real_names (select (kept shwh reals whs slots) (map flag slots)) in
  NoDup l /\ forall n, n ∈ l <-> n ∉ reals /\ n ∉ whs /\ visible n slots.
Proof.
  revert reals whs; induction slots as [|s r IH]; intros reals whs Hwf; cbn zeta.
  { split; [constructor|]. intros n. split; [by intros ?%not_elem_of_nil|].
    intros (_ & _ & H). by apply visible_nil in H. }
  apply Forall_cons in Hwf as [Hs Hwf].
  destruct (slot_set_wh_same (if slot_is_wh s then 1 else 0) s Hs) as (_ & _ & En & _ & Ew).
  fold (flag s) in En, Ew.
  assert (forall (b : bool) l, real_names (if b then flag s :: l else l)
          = if b && negb (slot_is_wh s) then slot_name s :: real_names l else real_names l) as Hcons.
  { intros b l. unfold real_names. destruct b; [|done]. cbn [List.filter]. rewrite Ew.
    by destruct (slot_is_wh s); [|cbn; rewrite En]. }
  cbn [kept map]. destruct (slot_is_wh s) eqn:Ei.
  - cbn [select]. rewrite Hcons, Bool.andb_false_r.
    destruct (IH reals (drop 4 (slot_name s) :: whs) Hwf) as [H1 H2]. split; [done|].
    intros n. rewrite H2, visible_cons, Ei. set_solver.
  - case_bool_decide as Hh; cbn [select]; [|rewrite Hcons; cbn [negb andb]].
    + destruct (IH reals whs Hwf) as [H1 H2]. split; [done|].
      intros n. rewrite H2, visible_cons, Ei. set_solver.
    + destruct (IH (slot_name s :: reals) whs Hwf) as [H1 H2]. rewrite Bool.andb_true_r.
      case_bool_decide as Hr; cbn [negb].
      * split; [done|]. intros n. rewrite H2, visible_cons, Ei. set_solver.
      * split.
        { constructor; [|done]. rewrite H2. set_solver. }
        intros n. rewrite elem_of_cons, H2, visible_cons, Ei.
        destruct (decide (n = slot_name s)) as [->|Hne]; set_solver.
Qed.

(** The names of the real entries that [pos] points to, as rdu_pos() reads them. *)
Definition listed_names (m : bytes) (pos : list nat) : list bytes :=
  map (ent_name m) (List.filter (fun o => negb (ent_is_wh m o)) pos).

Lemma listed_names_packed pre l rest :
  Forall wf_slot l ->
  listed_names (pre ++ concat l ++ rest) (offs (length pre) l) = real_names l.
Proof.
  revert pre; induction l as [|s l IH]; intros pre Hwf; [done|].
  apply Forall_cons in Hwf as [Hs Hwf]. specialize (IH (pre ++ s) Hwf).
  unfold listed_names, real_names in *. cbn [offs List.filter concat].
  rewrite <- app_assoc, ent_is_wh_slot by done.
  rewrite length_app, <- app_assoc in IH.
  destruct (slot_is_wh s); cbn [negb map]; [done|]. by rewrite ent_name_slot, IH.
Qed.

Lemma merged_wf shwh slots : Forall wf_slot slots -> Forall wf_slot (merged shwh slots).
Proof. intros H. by apply select_Forall, (sims_wf slots), flags_sim. Qed.

(** C22. What a program sees of the merged directory: as soon as one name is visible,
    rdu_merge() succeeds, and [p->pos] lists no name twice and exactly those names for
    which the kernel returned an entry before any whiteout of that name (upper branches
    come first), whether or not the whiteouts themselves are shown. *)
Theorem merged_visible {K G} slots rest old shwh n0 (w : world K G) :
  w_faults w = [] -> Forall wf_slot slots -> old <> PosDangling -> visible n0 slots ->
  exists (m : bytes) (pos : list nat),
    rdu_merge (concat slots ++ rest) old (length slots) shwh w =
      (Ret (0, m, PosArr pos, length pos), w) /\
    NoDup (listed_names m pos) /\
    forall n, n ∈ listed_names m pos <-> visible n slots.
Proof.
  intros Hf Hwf Hold Hv. destruct (kept_names shwh slots [] [] Hwf) as [H1 H2].
  assert (forall n, n ∈ real_names (merged shwh slots) <-> visible n slots) as H3
    by (intros n; unfold merged; rewrite H2; set_solver).
  assert (merged shwh slots <> []) as Hne.
  { intros E. apply H3 in Hv. rewrite E in Hv. by apply not_elem_of_nil in Hv. }
  destruct (rdu_merge_run slots rest old shwh w Hf Hwf Hold Hne) as (tail & E & _).
  eexists _, (offs 0 (merged shwh slots)). rewrite offs_length. split; [exact E|].
  pose proof (listed_names_packed [] _ tail (merged_wf shwh slots Hwf)) as En.
  cbn [app length] in En. rewrite En. by split.
Qed.

(** ** A concrete directory: "f" in two branches, "g" whited out, "." first *)

Module RduDemo.
Definition slot (ino : Z) (name : bytes) : bytes :=
  let n := Z.of_nat (length name) in
  let s := le_bytes 8 ino ++ le_bytes 2 0 ++ [byte_of 8; byte_of n; byte_of 7] ++ name in
  s ++ replicate (Z.to_nat (au_rdu_len n) - length s) NUL.
Definition slots : list bytes :=
  [slot 2 (lit "."); slot 10 (lit "f"); slot 11 (lit ".wh.g"); slot 12 (lit "f");
   slot 13 (lit "g"); slot 14 (lit "long name")].
End RduDemo.


Lemma rdu_merge_correct_witness :
  exists tail,
    rdu_merge (concat RduDemo.slots ++ replicate 8 NUL) PosNull 6 false
        (Demo.world0 tt) =
      (Ret (0, concat (map (slot_set_wh 0) [RduDemo.slot 2 (lit "."); RduDemo.slot 10 (lit "f");
                                            RduDemo.slot 14 (lit "long name")]) ++ tail,
            PosArr [0; 24; 48]%nat, 3%nat), Demo.world0 tt) /\
    length (concat (map (slot_set_wh 0) [RduDemo.slot 2 (lit "."); RduDemo.slot 10 (lit "f");
                                            RduDemo.slot 14 (lit "long name")]) ++ tail) = 160%nat.
Proof.
  apply (rdu_merge_correct RduDemo.slots (replicate 8 NUL) PosNull false (Demo.world0 tt));
    [reflexivity| |discriminate|discriminate].
  repeat constructor; try (vm_compute; reflexivity);
    apply (bool_decide_unpack _); vm_compute; exact Logic.I.
Defined.

Lemma merged_visible_witness :
  exists (m : bytes) (pos : list nat),
    rdu_merge (concat RduDemo.slots ++ replicate 8 NUL) PosNull 6 true (Demo.world0 tt) =
      (Ret (0, m, PosArr pos, length pos), Demo.world0 tt) /\
    NoDup (listed_names m pos) /\
    forall n, n ∈ listed_names m pos <-> visible n RduDemo.slots.
Proof.
  apply (merged_visible RduDemo.slots (replicate 8 NUL) PosNull true (lit ".")
           (Demo.world0 tt)); [reflexivity| |discriminate|].
  - repeat constructor; try (vm_compute; reflexivity);
      apply (bool_decide_unpack _); vm_compute; exact Logic.I.
  - exists [], (RduDemo.slot 2 (lit ".")), (drop 1 RduDemo.slots).
    repeat split; vm_compute; constructor.
Defined.
