(* ===== verification/RduLib.v ===== *)
(** * libau/rdu_lib.c and rdu.c: the registry of directories, reading, readdir(3)

    Each open directory of an aufs has a [struct rdu] in the array [rdu]; a pointer to
    it is its index, since it is entered once and never moves.  The locks are left out
    (one thread; [RduLock] has them); the kernel's side is the interface [RduKernel]. *)
From S2P Require Import Prelude CString AufsType Float32 Scan Sys Rdu.

(** One answer of AUFS_CTL_RDU: the bytes written from [param.ent] on, up to
    [param.tail], and the output fields. *)
Record rdu_answer := RduAnswer {
  a_data : bytes;
  a_rent : nat;
  a_full : bool;
  a_shwh : bool;
  a_blk : Z
}.

Class RduKernel (K : Type) := {
  k_rdu : Z -> Z -> Z -> K -> (Z * rdu_answer) * K;   (* fd, sz, blk *)
  k_rdu_ino : Z -> bytes -> nat -> K -> (Z * bytes) * K  (* fd, buffer, nent *)
}.

(** [r_npos] is [None] while no call has set it; [r_ent] is the buffer. *)
Record rdu := Rdu {
  r_fd : Z;
  r_shwh : bool;
  r_de : bool;
  r_npos : option nat;
  r_pos : pos_ptr;
  r_sz : Z;
  r_ent : option bytes
}.

(** [rdu], [rdu_cur] and [rdu_lim] *)
Record rdu_lib := RduLib_ {
  l_rdu : option (list (option rdu));
  l_cur : nat;
  l_lim : nat
}.

Definition RDU_STEP : nat := 8.
Definition BUFSIZ : Z := 8192.
Definition rdu_lib0 : rdu_lib := RduLib_ None 0 RDU_STEP.

Record dirent := Dirent {
  d_ino : Z; d_off : Z; d_reclen : Z; d_type : Z; d_name : bytes
}.

(** strtoul(s, NULL, 0) *)
Definition strtoul0 (s : bytes) : Z := (strtoull0 s).1.

(** [t + sizeof("AUFS_RDU_BLK")] is 13 characters behind the value's start. *)
Definition rdu_blk_env (t : option bytes) : option Z :=
  match t with
  | None => Some 0
  | Some v => if (length v <? 13)%nat then None else Some (u32 (strtoul0 (drop 13 v)))
  end.

Section rdulib.
Context {K : Type} `{!RduKernel K}.
(** getenv("AUFS_RDU_BLK"), and whether the file system of a path is aufs *)
Context (env_blk : option bytes) (is_aufs : bytes -> bool).
Notation world := (world K rdu_lib).

Definition gl {A} (f : rdu_lib -> A) : M world A := gets (fun w => f (w_glob w)).
Definition ml (f : rdu_lib -> rdu_lib) : M world unit :=
  modify (fun w => set_glob (f (w_glob w)) w).

Definition rdu_lib_init : M world Z :=
  l ← gl (fun x => x);
  match l_rdu l with
  | Some _ => mret 0
  | None =>
      m ← fallible; (* calloc *)
      if truth m then mret 1
      else ml (fun l => RduLib_ (Some (replicate (l_lim l) None)) (l_cur l) (l_lim l)) ;; mret 0
  end.

(** rdu_append(): the status; the entry goes to index [rdu_cur]. *)
Definition rdu_append (p : rdu) : M world Z :=
  l ← gl (fun x => x);
  match l_rdu l with
  | None => ub "null dereference of rdu"
  | Some a =>
      if (l_cur l <=? l_lim l - 1)%nat then
        ml (fun _ => RduLib_ (Some (<[l_cur l := Some p]> a)) (S (l_cur l)) (l_lim l)) ;; mret 0
      else
        m ← fallible; (* realloc *)
        if truth m then mret (-1)
        else
          ml (fun _ => RduLib_ (Some (<[l_cur l := Some p]> (a ++ replicate RDU_STEP None)))
                         (S (l_cur l)) (l_lim l + RDU_STEP)) ;; mret 0
  end.

Definition rdu_new (fd : Z) : M world (option nat) :=
  m ← fallible; (* malloc *)
  if truth m then mret None
  else
    cur ← gl l_cur;
    err ← rdu_append (Rdu fd false false None PosNull BUFSIZ None);
    mret (if truth err then None else Some cur).

Fixpoint find_fd (fd : Z) (a : list (option rdu)) : option nat :=
  match a with
  | [] => None
  | Some p :: r => if r_fd p =? fd then Some O else i ← find_fd fd r; Some (S i)
  | None :: r => i ← find_fd fd r; Some (S i)
  end.

Definition rdu_get (i : nat) : M world rdu :=
  l ← gl l_rdu;
  match l ≫= (fun a => mjoin (a !! i)) with
  | Some p => mret p
  | None => ub "no such rdu"
  end.

Definition rdu_put (i : nat) (p : rdu) : M world unit :=
  ml (fun l => RduLib_ (option_map (fun a => <[i := Some p]> a) (l_rdu l)) (l_cur l) (l_lim l)).

(** rdu_buf_lock(), up to the lock of the entry *)
Definition rdu_find (fd : Z) : M world (option nat) :=
  l ← gl (fun x => x);
  match l_rdu l with
  | None => mret None
  | Some a =>
      let a := take (l_cur l) a in
      match find_fd fd a with
      | Some i => mret (Some i)
      | None =>
          match find_fd (-1) a with
          | Some i =>
              p ← rdu_get i;
              rdu_put i (Rdu fd (r_shwh p) (r_de p) (r_npos p) (r_pos p) (r_sz p) (r_ent p)) ;;
              mret (Some i)
          | None => rdu_new fd
          end
      end
  end.

(** The assertions of the library are compiled out (-DNDEBUG).  [p->fd] is [fd] here, as
    there is one thread. *)
Definition rdu_buf_lock (fd : Z) : M world (option nat) :=
  i ← rdu_find fd;
  mret (if fd <? 0 then None else i).

Definition rdu_free (i : nat) : M world unit :=
  p ← rdu_get i;
  match r_pos p with
  | PosDangling => ub "double free"
  | _ => rdu_put i (Rdu (-1) (r_shwh p) false (r_npos p) PosNull (r_sz p) None)
  end.

(** The ioctl, with errno *)
Definition rdu_getent (fd sz blk : Z) : M world (Z * rdu_answer) :=
  '(e, a) ← kernel (k_rdu fd sz blk);
  if truth e then put_errno e ;; mret (-1, a) else mret (0, a).

(** The loop of rdu_init(): [off] and [sz] are [param.ent] (from the buffer's start) and
    [param.sz].  Returns the status, [p->sz], the buffer, [p->npos] and [param.shwh]. *)
Fixpoint rdu_fill (fuel : nat) (fd : Z) (p_sz : Z) (buf : bytes) (off : nat) (sz blk : Z)
    (npos : nat) (shwh : bool) : M world (Z * Z * bytes * nat * bool) :=
  match fuel with
  | O => nofuel
  | S k =>
      '(err, a) ← rdu_getent fd sz blk;
      if truth err then mret (err, p_sz, buf, npos, shwh)
      else if sz <? Z.of_nat (length (a_data a)) then ub "the kernel wrote beyond the buffer"
      else
        let buf := take off buf ++ a_data a ++ drop (off + length (a_data a)) buf in
        let shwh := a_shwh a in
        let blk := a_blk a in
        if (a_rent a =? 0)%nat then mret (0, p_sz, buf, npos, shwh)
        else
          let npos := (npos + a_rent a)%nat in
          if negb (a_full a) then rdu_fill k fd p_sz buf off sz blk npos shwh
          else
            m ← fallible; (* realloc *)
            if truth m then mret (-1, p_sz, buf, npos, shwh)
            else
              let used := length (a_data a) in
              rdu_fill k fd (p_sz + blk) (buf ++ replicate (Z.to_nat blk) NUL)
                (off + used) (sz + (blk - Z.of_nat used)) blk npos shwh
  end.

Definition rdu_init (fuel : nat) (p : rdu) (want_de : bool) : M world (Z * rdu) :=
  buf ← (match r_ent p with
         | Some b => mret (Some b)
         | None =>
             m ← fallible; (* malloc *)
             mret (if truth m then None else Some (replicate (Z.to_nat (r_sz p)) NUL))
         end);
  match buf with
  | None => mret (-1, p)
  | Some buf =>
      match rdu_blk_env env_blk with
      | None => ub "strtoul beyond the string"
      | Some blk =>
          '(err, p_sz, buf, npos, shwh) ← rdu_fill fuel (r_fd p) (r_sz p) buf 0 (r_sz p) blk 0 false;
          '(err, buf, pos, npos) ← (if truth err then mret (err, buf, r_pos p, npos)
                                    else rdu_merge buf (r_pos p) npos shwh);
          '(err, buf) ← (if truth err then mret (err, buf)
                         else
                           '(e, buf') ← kernel (k_rdu_ino (r_fd p) buf npos);
                           if truth e then put_errno e ;; mret (-1, buf') else mret (0, buf'));
          '(err, de) ← (if negb (truth err) && want_de && negb (r_de p) then
                          m ← fallible; (* malloc *)
                          mret (if truth m then (-1, false) else (0, true))
                        else mret (err, r_de p));
          mret (err, Rdu (r_fd p) shwh de (Some npos) pos p_sz
                       (if truth err then None else Some buf))
      end
  end.

(** rdu_pos(): [None] is -1, the end of the directory.  [pos] is compared unsigned. *)
Definition rdu_pos (p : rdu) (pos : Z) : M world (option dirent) :=
  match r_npos p with
  | None => ub "uninitialised npos"
  | Some npos =>
      if u64 pos <? Z.of_nat npos then
        match r_pos p, r_ent p with
        | PosArr l, Some m =>
            match l !! Z.to_nat (u64 pos) with
            | Some x =>
                if ent_ok m x then
                  mret (Some (Dirent (ent_ino m x) pos (au_rdu_len (ent_nlen m x))
                                (ent_type m x) (ent_name m x)))
                else ub "entry outside the buffer"
            | None => ub "position outside the array"
            end
        | _, _ => ub "null dereference of p->pos"
        end
      else mret None
  end.

(** rdu_readdir() on an aufs: [want_de] is [!de], [pos] is telldir(3).  Returns the status,
    the entry, and the position that seekdir(3) leaves. *)
Definition rdu_readdir (fuel : nat) (fd : Z) (want_de : bool) (pos : Z)
  : M world (Z * option dirent * Z) :=
  put_errno 9 ;; (* EBADF *)
  if fd <? 0 then mret (fd, None, pos)
  else
    err ← fallible; (* fstatfs *)
    if truth err then
      e ← gets w_errno; (if e =? ENOENT then put_errno 0 else mret tt) ;; mret (err, None, pos)
    else
      put_errno 0 ;;
      err ← rdu_lib_init;
      if truth err then mret (err, None, pos)
      else
        i ← rdu_buf_lock fd;
        match i with
        | None => mret (0, None, pos)
        | Some i =>
            p ← rdu_get i;
            need ← (if pos =? 0 then mret true
                    else match r_npos p with
                         | None => ub "uninitialised npos"
                         | Some n => mret (n =? 0)%nat
                         end);
            '(err, p) ← (if need : bool then rdu_init fuel p want_de else mret (0, p));
            rdu_put i p ;;
            if truth err then
              e ← gets w_errno; rdu_free i ;;
              put_errno (if e =? ENOENT then 0 else e) ;; mret (err, None, pos)
            else if want_de && negb (r_de p) then put_errno EINVAL ;; mret (-1, None, pos)
            else
              de ← rdu_pos p pos;
              put_errno 0 ;; mret (0, de, pos + 1)
        end.

(** closedir(3): the buffers of the directory go, then the real function runs. *)
Definition rdu_closedir (wrapped : bool) (fd : Z) : M world Z :=
  let real : M world Z := fallible in
  if wrapped then
    put_errno 9 ;;
    if fd <? 0 then mret (-1)
    else
      err ← fallible; (* fstatfs *)
      if truth err then mret err
      else
        path ← fd_what fd;
        (if is_aufs path then
           i ← rdu_buf_lock fd;
           match i with Some i => rdu_free i | None => mret tt end
         else mret tt) ;;
        real
  else real.
End rdulib.

(** ** Reading a whole directory *)

Section rdulib_props.
Context {K : Type} `{!RduKernel K}.
Notation world := (world K rdu_lib).

(** The kernel's documented protocol, for one directory: each call packs some more entries
    into the space offered; when the space did not suffice it says [full]; when everything
    was given, the next call gives nothing. *)
Inductive delivery (fd : Z) : Z -> Z -> K -> list bytes -> bool -> K -> Prop :=
  | delivery_end sz blk k a k' :
      k_rdu fd sz blk k = ((0, a), k') -> a_rent a = O -> a_data a = [] -> 0 <= sz ->
      delivery fd sz blk k [] (a_shwh a) k'
  | delivery_last sz blk k a k1 l a' k' :
      k_rdu fd sz blk k = ((0, a), k1) -> a_data a = concat l -> a_rent a = length l ->
      l <> [] -> a_full a = false -> Z.of_nat (length (concat l)) <= sz ->
      k_rdu fd sz (a_blk a) k1 = ((0, a'), k') -> a_rent a' = O -> a_data a' = [] ->
      delivery fd sz blk k l (a_shwh a') k'
  | delivery_more sz blk k a k1 l l' sh k' :
      k_rdu fd sz blk k = ((0, a), k1) -> a_data a = concat l -> a_rent a = length l ->
      l <> [] -> a_full a = true -> Z.of_nat (length (concat l)) <= sz -> 0 < a_blk a ->
      delivery fd (sz + (a_blk a - Z.of_nat (length (concat l)))) (a_blk a) k1 l' sh k' ->
      delivery fd sz blk k (l ++ l') sh k'.

Lemma kernel_run {A} (f : K -> A * K) (w : world) a k :
  f (w_kern w) = (a, k) -> kernel f w = (Ret a, set_kern k w).
Proof. intros H. unfold kernel. by rewrite H. Qed.

(** What the kernel writes goes between [pre] and the rest. *)
Lemma write_at (pre suf d : bytes) :
  take (length pre) (pre ++ suf) ++ d ++ drop (length pre + length d) (pre ++ suf)
    = pre ++ d ++ drop (length d) suf.
Proof.
  rewrite take_app_length, drop_app_ge by lia. do 3 f_equal. lia.
Qed.

Lemma rdu_getent_run fd sz blk (w : world) a k :
  k_rdu fd sz blk (w_kern w) = ((0, a), k) ->
  rdu_getent fd sz blk w = (Ret (0, a), set_kern k w).
Proof. intros Hk. unfold rdu_getent. by rewrite (bind_run _ _ _ _ _ (kernel_run _ w (0, a) k Hk)). Qed.

(** One call of the loop, once the kernel's answer is known. *)
Lemma rdu_fill_step fuel fd p_sz pre suf sz blk npos shwh (w : world) a k1 :
  k_rdu fd sz blk (w_kern w) = ((0, a), k1) -> Z.of_nat (length (a_data a)) <= sz ->
  let buf := pre ++ a_data a ++ drop (length (a_data a)) suf in
  rdu_fill (S fuel) fd p_sz (pre ++ suf) (length pre) sz blk npos shwh w =
    (if (a_rent a =? 0)%nat then mret (0, p_sz, buf, npos, a_shwh a)
     else
       let npos := (npos + a_rent a)%nat in
       if negb (a_full a) then
         rdu_fill fuel fd p_sz buf (length pre) sz (a_blk a) npos (a_shwh a)
       else
         m ← fallible;
         if truth m then mret (-1, p_sz, buf, npos, a_shwh a)
         else
           let used := length (a_data a) in
           rdu_fill fuel fd (p_sz + a_blk a) (buf ++ replicate (Z.to_nat (a_blk a)) NUL)
             (length pre + used) (sz + (a_blk a - Z.of_nat used)) (a_blk a) npos (a_shwh a))
      (set_kern k1 w).
Proof.
  intros Hk Hle buf. cbn [rdu_fill].
  rewrite (bind_run _ _ _ _ _ (rdu_getent_run _ _ _ w a k1 Hk)).
  cbv beta iota. change (truth 0) with false. cbv iota.
  rewrite (proj2 (Z.ltb_ge _ _)) by done. cbv zeta. by rewrite write_at.
Qed.

(** The buffer follows the deliveries: what was read is kept across every enlargement, and
    [param.ent] and [param.sz] always delimit the free rest of the buffer. *)
Lemma rdu_fill_collects fd sz blk k l sh k' :
  delivery fd sz blk k l sh k' ->
  exists n, forall fuel p_sz pre suf npos shwh (w : world),
    (n <= fuel)%nat -> w_faults w = [] -> w_kern w = k -> Z.of_nat (length suf) = sz ->
    exists p_sz' rest,
      rdu_fill fuel fd p_sz (pre ++ suf) (length pre) sz blk npos shwh w
        = (Ret (0, p_sz', pre ++ concat l ++ rest, (npos + length l)%nat, sh), set_kern k' w) /\
      p_sz' - p_sz = Z.of_nat (length (concat l ++ rest)) - sz.
Proof.
  induction 1 as [sz blk k a k' Hk Hr Hd Hsz|sz blk k a k1 l a' k' Hk Hd Hr Hl Hfu Hle Hk' Hr' Hd'
                 |sz blk k a k1 l l' sh k' Hk Hd Hr Hl Hfu Hle Hb _ [n IH]].
  - exists 1%nat. intros [|fuel] p_sz pre suf npos shwh w Hn Hf Hw Hs; [lia|].
    rewrite (rdu_fill_step _ _ _ _ _ _ _ _ _ _ a k') by (rewrite ?Hw, ?Hd; done).
    rewrite Hd, Hr. cbn [Nat.eqb]. exists p_sz, suf. split; [|simpl; lia].
    by rewrite Nat.add_0_r.
  - exists 2%nat. intros [|[|fuel]] p_sz pre suf npos shwh w Hn Hf Hw Hs; [lia..|].
    rewrite (rdu_fill_step _ _ _ _ _ _ _ _ _ _ a k1) by (rewrite ?Hw, ?Hd; done).
    assert (length l <> 0)%nat by (by destruct l).
    rewrite Hr, (proj2 (Nat.eqb_neq _ _)), Hfu by done. cbn [negb]. rewrite Hd. cbv zeta.
    rewrite (rdu_fill_step _ _ _ _ _ _ _ _ _ _ a' k') by (rewrite ?Hd'; simpl; try lia; done).
    rewrite Hr', Hd'. cbn [Nat.eqb length drop app].
    exists p_sz, (drop (length (concat l)) suf). split; [done|].
    rewrite length_app, length_drop. lia.
  - exists (S n). intros [|fuel] p_sz pre suf npos shwh w Hn Hf Hw Hs; [lia|].
    rewrite (rdu_fill_step _ _ _ _ _ _ _ _ _ _ a k1) by (rewrite ?Hw, ?Hd; done).
    assert (length l <> 0)%nat by (by destruct l).
    rewrite Hr, (proj2 (Nat.eqb_neq _ _)), Hfu by done. cbn [negb]. cbv zeta.
    rewrite (bind_run _ _ _ _ _ (fallible_ok (set_kern k1 w) Hf)).
    change (truth 0) with false. cbv iota. rewrite Hd.
    destruct (IH fuel (p_sz + a_blk a) (pre ++ concat l)
                (drop (length (concat l)) suf ++ replicate (Z.to_nat (a_blk a)) NUL)
                (npos + length l)%nat (a_shwh a) (set_kern k1 w))
      as (p_sz' & rest & E & Hp); [lia|done|done| |].
    { rewrite length_app, length_drop, length_replicate. lia. }
    rewrite length_app, <- !app_assoc in E. rewrite <- !app_assoc, E.
    exists p_sz', rest. split.
    + rewrite concat_app, length_app, <- app_assoc. do 3 f_equal. f_equal. lia.
    + rewrite concat_app, !length_app in *. lia.
Qed.

Lemma ent_ok_off slots slots' rest x s :
  Forall2 sim slots slots' -> is_off slots x s -> ent_ok (concat slots' ++ rest) x = true.
Proof.
  intros H (a & b & -> & ->).
  apply Forall2_app_inv_l in H as (a' & t & Ha & Ht & ->).
  inversion Ht as [|? s' ? b' (Hl & Hn & Hw) Hb]; subst.
  rewrite <- (sim_concat_length _ _ Ha), concat_app, <- app_assoc. simpl.
  rewrite <- app_assoc. by apply ent_ok_slot.
Qed.

Lemma offs_lookup o l i s :
  l !! i = Some s ->
  exists a b, l = a ++ s :: b /\ offs o l !! i = Some (o + length (concat a))%nat.
Proof.
  revert o i; induction l as [|t l IH]; intros o [|i] H; try done.
  - injection H as ->. exists [], l. split; [done|]. simpl. by rewrite Nat.add_0_r.
  - destruct (IH (o + length t)%nat i H) as (a & b & -> & E). exists (t :: a), b.
    split; [done|]. simpl in *. rewrite E, length_app. f_equal. lia.
Qed.

(** What rdu_pos() finds in a directory that holds the slots [l]. *)
Lemma rdu_pos_lists p l l' tail i (w : world) :
  r_npos p = Some (length l) -> r_pos p = PosArr (offs 0 l) ->
  r_ent p = Some (concat l' ++ tail) -> Forall2 sim l l' ->
  0 <= i < 2 ^ 64 ->
  match l !! Z.to_nat i with
  | Some s => exists de, rdu_pos p i w = (Ret (Some de), w) /\ d_name de = slot_name s /\ d_off de = i
  | None => rdu_pos p i w = (Ret None, w)
  end.
Proof.
  intros Hn Hp He Hsim Hi. unfold rdu_pos. rewrite Hn.
  assert (u64 i = i) as -> by (by apply wrap_u_small).
  destruct (l !! Z.to_nat i) as [s|] eqn:El.
  - pose proof (lookup_lt_Some _ _ _ El). rewrite (proj2 (Z.ltb_lt _ _)) by lia.
    rewrite Hp, He. destruct (offs_lookup 0 l _ s El) as (a & b & Eab & ->).
    assert (is_off l (0 + length (concat a)) s) as Hoff by (by exists a, b).
    rewrite (ent_ok_off l l' tail _ s Hsim Hoff). eexists. split; [reflexivity|].
    split; [|done]. by apply (ent_name_off l l' tail).
  - apply lookup_ge_None in El. by rewrite (proj2 (Z.ltb_ge _ _)) by lia.
Qed.

(** What AUFS_CTL_RDU_INO may do: it fills in inode numbers and leaves the names in place. *)
Definition fills_ino (fd : Z) (l : list bytes) (k : K) : Prop :=
  forall tail, exists l' tail' k2, Forall2 sim l l' /\
    k_rdu_ino fd (concat l ++ tail) (length l) k = ((0, concat l' ++ tail'), k2).

(** The buffer of an entry of the registry, between two calls *)
Definition buffer_ok (p : rdu) : Prop :=
  (forall b, r_ent p = Some b -> Z.of_nat (length b) = r_sz p) /\ 0 <= r_sz p /\
  r_pos p <> PosDangling.

(** The entry holds the directory [l], so that rdu_pos() gives its slots. *)
Definition holds (p : rdu) (l : list bytes) : Prop :=
  r_npos p = Some (length l) /\ r_pos p = PosArr (offs 0 l) /\
  exists l' tail, r_ent p = Some (concat l' ++ tail) /\ Forall2 sim l l'.

Lemma rdu_init_lists p want_de slots sh k1 (w : world) :
  let l := merged sh slots in
  w_faults w = [] -> buffer_ok p ->
  delivery (r_fd p) (r_sz p) 0 (w_kern w) slots sh k1 -> Forall wf_slot slots -> l <> [] ->
  fills_ino (r_fd p) l k1 ->
  exists n, forall fuel, (n <= fuel)%nat ->
  exists p' k2, rdu_init None fuel p want_de w = (Ret (0, p'), set_kern k2 w) /\
    holds p' l /\ r_fd p' = r_fd p /\ (want_de = true -> r_de p' = true).
Proof.
  intros l Hf (Hent & Hsz & Hpos) Hdel Hwf Hne Hino.
  destruct (rdu_fill_collects _ _ _ _ _ _ _ Hdel) as [n Hn]. exists n. intros fuel Hfuel.
  set (buf := match r_ent p with Some b => b | None => replicate (Z.to_nat (r_sz p)) NUL end).
  assert (Z.of_nat (length buf) = r_sz p) as Hbuf.
  { unfold buf. destruct (r_ent p); [by apply Hent|]. rewrite length_replicate. lia. }
  destruct (Hn fuel (r_sz p) [] buf 0%nat false w Hfuel Hf eq_refl Hbuf)
    as (p_sz' & rest & Efill & _).
  cbn [app length Nat.add] in Efill.
  set (w1 := set_kern k1 w).
  destruct (rdu_merge_run slots rest (r_pos p) sh w1 Hf Hwf Hpos Hne) as (tail & Emerge & _).
  fold l in Emerge. destruct (Hino tail) as (l' & tail' & k2 & Hsim & Eino).
  exists (Rdu (r_fd p) sh (r_de p || want_de) (Some (length l)) (PosArr (offs 0 l)) p_sz'
            (Some (concat l' ++ tail'))), k2.
  split; [|split; [split; [done|split; [done|by exists l', tail']]|split; [done|]]].
  2:{ intros ->. cbn. by destruct (r_de p). }
  unfold rdu_init. rewrite (bind_run _ _ w (Some buf) w).
  2:{ unfold buf. destruct (r_ent p); [done|].
      by rewrite (bind_run _ _ _ _ _ (fallible_ok w Hf)). }
  cbn [rdu_blk_env]. rewrite (bind_run _ _ _ _ _ Efill). cbv beta iota.
  change (truth 0) with false. cbv iota. fold w1. rewrite (bind_run _ _ _ _ _ Emerge).
  cbv beta iota. change (truth 0) with false. cbv iota. rewrite bind_assoc.
  rewrite (bind_run _ _ _ _ _ (kernel_run (k_rdu_ino _ _ _) w1 _ k2 Eino)). cbv beta iota.
  change (truth 0) with false. cbv iota. rewrite bind_ret. cbn [negb andb truth Z.eqb].
  set (w2 := set_kern k2 w1). assert (w_faults w2 = []) as Hf2 by done.
  destruct want_de, (r_de p); cbn [andb negb orb]; try done.
  by rewrite bind_assoc, (bind_run _ _ _ _ _ (fallible_ok w2 Hf2)).
Qed.
End rdulib_props.

(** ** A kernel that needs three calls *)

Module RduLibDemo.
Definition chunk1 : list bytes := take 4 RduDemo.slots.
Definition chunk2 : list bytes := drop 4 RduDemo.slots.
#[export] Instance kernel : RduKernel nat :=
  {| k_rdu _ _ _ n :=
       ((0, match n with
            | O => RduAnswer (concat chunk1) 4 true false 64
            | 1%nat => RduAnswer (concat chunk2) 2 false false 64
            | _ => RduAnswer [] 0 false false 64
            end), S n);
     k_rdu_ino _ b _ n := ((0, b), n) |}.
Definition w0 : world nat rdu_lib :=
  World 0 [] O rdu_lib0 ∅ ∅ ∅ 3 ∅ [] [] [].
Definition listing : list bytes :=
  map (slot_set_wh 0) [RduDemo.slot 2 (lit "."); RduDemo.slot 10 (lit "f");
                       RduDemo.slot 14 (lit "long name")].
End RduLibDemo.
Import RduLibDemo.

(** ** The registry *)

(** Every used slot holds an rdu, and no descriptor has two. *)
Definition registry_ok (g : rdu_lib) : Prop :=
  match l_rdu g with
  | None => l_cur g = O /\ (0 < l_lim g)%nat
  | Some a =>
      length a = l_lim g /\ (l_cur g <= l_lim g)%nat /\ (0 < l_lim g)%nat /\
      (forall i, (i < l_cur g)%nat -> exists p, a !! i = Some (Some p)) /\
      forall i j p q, (i < l_cur g)%nat -> (j < l_cur g)%nat ->
        a !! i = Some (Some p) -> a !! j = Some (Some q) ->
        r_fd p = r_fd q -> 0 <= r_fd p -> i = j
  end.

Lemma find_fd_Some fd a i :
  find_fd fd a = Some i -> exists p, a !! i = Some (Some p) /\ r_fd p = fd.
Proof.
  revert i; induction a as [|[p|] a IH]; intros i; cbn [find_fd]; [done| |].
  - destruct (Z.eqb_spec (r_fd p) fd); [intros [= <-]; by exists p|].
    destruct (find_fd fd a) as [j|]; [|done]. intros [= <-]. by apply IH.
  - destruct (find_fd fd a) as [j|]; [|done]. intros [= <-]. by apply IH.
Qed.

Lemma find_fd_None fd a i p :
  find_fd fd a = None -> a !! i = Some (Some p) -> r_fd p <> fd.
Proof.
  revert i; induction a as [|[q|] a IH]; intros i; cbn [find_fd]; [done| |].
  - destruct (Z.eqb_spec (r_fd q) fd); [done|].
    destruct (find_fd fd a) as [j|] eqn:E; [done|]. intros _.
    destruct i; [intros [= <-]; done|by apply IH].
  - destruct (find_fd fd a) as [j|] eqn:E; [done|]. intros _.
    destruct i; [done|by apply IH].
Qed.

(** Writing one entry, old or new, whose descriptor nobody else has. *)
Lemma registry_set a cur lim i p :
  registry_ok (RduLib_ (Some a) cur lim) -> (i <= cur)%nat -> (i < lim)%nat ->
  (forall j q, (j < cur)%nat -> j <> i -> a !! j = Some (Some q) -> r_fd q <> r_fd p) ->
  registry_ok (RduLib_ (Some (<[i := Some p]> a)) (Nat.max cur (S i)) lim).
Proof.
  intros (Hl & Hc & Hp & Hs & Hu) Hi Hil Hne. cbn in *.
  split; [by rewrite length_insert|]. split; [lia|]. split; [done|].
  assert (forall j, (j < Nat.max cur (S i))%nat -> j <> i -> (j < cur)%nat) as Hj by lia.
  split.
  - intros j Hlt. destruct (decide (j = i)) as [->|Hd].
    + exists p. apply list_lookup_insert_eq. lia.
    + destruct (Hs j ltac:(auto)) as [q Hq]. exists q. by rewrite list_lookup_insert_ne.
  - intros j k q r Hjl Hkl Hq Hr Heq Hpos.
    destruct (decide (j = i)) as [->|Hd1], (decide (k = i)) as [->|Hd2]; [done| | |].
    + rewrite list_lookup_insert_eq in Hq by lia. injection Hq as <-.
      rewrite list_lookup_insert_ne in Hr by done. by destruct (Hne k r ltac:(auto) Hd2 Hr).
    + rewrite list_lookup_insert_eq in Hr by lia. injection Hr as <-.
      rewrite list_lookup_insert_ne in Hq by done. by destruct (Hne j q ltac:(auto) Hd1 Hq).
    + rewrite list_lookup_insert_ne in Hq, Hr by done. apply (Hu j k q r); auto.
Qed.

Section registry.
Context {K : Type} `{!RduKernel K}.
Notation world := (world K rdu_lib).

(** A new entry, at the end of the used part. *)
Lemma rdu_append_ok p (w w' : world) e :
  registry_ok (w_glob w) -> l_rdu (w_glob w) <> None ->
  (forall a j q, l_rdu (w_glob w) = Some a -> (j < l_cur (w_glob w))%nat ->
     a !! j = Some (Some q) -> r_fd q <> r_fd p) ->
  rdu_append p w = (Ret e, w') ->
  registry_ok (w_glob w') /\
  (truth e = false -> exists a, l_rdu (w_glob w') = Some a /\
     l_cur (w_glob w') = S (l_cur (w_glob w)) /\ a !! l_cur (w_glob w) = Some (Some p)).
Proof.
  destruct (w_glob w) as [[a|] cur lim] eqn:Eg; cbn [l_rdu l_cur]; [intros Hok _ Hno|done].
  unfold rdu_append, gl, ml. rewrite bind_gets, Eg. cbn [l_rdu l_cur l_lim].
  pose proof Hok as (Hl & Hc & Hp & _ & _). cbn in Hl, Hc, Hp.
  destruct (Nat.leb_spec cur (lim - 1)) as [Hle|Hgt].
  - intros [= <- <-]. cbn [w_glob set_glob]. split.
    + replace (S cur) with (Nat.max cur (S cur)) by lia.
      apply (registry_set a cur lim cur p Hok); [lia|lia|]. intros j q Hj _ Hq. by apply (Hno a j).
    + intros _. eexists. split; [done|]. split; [done|]. apply list_lookup_insert_eq. lia.
  - set (a' := a ++ replicate RDU_STEP None).
    assert (registry_ok (RduLib_ (Some a') cur (lim + RDU_STEP))) as Hok'.
    { destruct Hok as (_ & _ & _ & Hs & Hu). cbn in Hs, Hu |- *. unfold a', RDU_STEP.
      split; [rewrite length_app; cbn; lia|]. split; [lia|]. split; [lia|].
      split.
      - intros i Hi. destruct (Hs i Hi) as [q Hq]. exists q.
        rewrite lookup_app_l by (apply lookup_lt_Some in Hq; lia). done.
      - intros i j q r Hi Hj. rewrite !lookup_app_l by lia. by apply Hu. }
    assert (registry_ok (RduLib_ (Some (<[cur := Some p]> a')) (S cur) (lim + RDU_STEP)) /\
      (truth 0 = false -> exists b, Some (<[cur := Some p]> a') = Some b /\
         S cur = S cur /\ b !! cur = Some (Some p))) as Hgood.
    { split.
      - replace (S cur) with (Nat.max cur (S cur)) by lia.
        apply (registry_set a' cur (lim + RDU_STEP) cur p Hok'); [lia|unfold RDU_STEP; lia|].
        intros j q Hj _. unfold a'. rewrite lookup_app_l by lia. by apply (Hno a j).
      - intros _. eexists. split; [done|]. split; [done|]. apply list_lookup_insert_eq.
        unfold a', RDU_STEP. rewrite length_app, length_replicate. lia. }
    pose proof (mute_fallible false w) as Hm. unfold wp in Hm.
    destruct (fallible w) as [[m| | |] w1] eqn:Ef;
      [rewrite (bind_run _ _ _ _ _ Ef)|by unfold mbind, M_bind; rewrite Ef..].
    destruct Hm as [[Em _] _]. destruct (truth m).
    + intros [= <- <-]. rewrite Em, Eg. by split.
    + intros [= <- <-]. exact Hgood.
Qed.

Lemma rdu_find_correct fd (w w' : world) r :
  registry_ok (w_glob w) -> rdu_find fd w = (Ret r, w') ->
  registry_ok (w_glob w') /\
  match r with
  | Some i => exists a p, l_rdu (w_glob w') = Some a /\ (i < l_cur (w_glob w'))%nat /\
                a !! i = Some (Some p) /\ r_fd p = fd
  | None => True
  end.
Proof.
  intros Hok. unfold rdu_find.
  unfold gl at 1. rewrite bind_gets. destruct (w_glob w) as [ra cur lim] eqn:Eg.
  destruct ra as [a|]; cbn [l_rdu l_cur]; [|by intros [= <- <-]; rewrite Eg].
  destruct (find_fd fd (take cur a)) as [i|] eqn:E1.
  { intros [= <- <-]. rewrite Eg. split; [done|].
    destruct (find_fd_Some _ _ _ E1) as (p & Hp & Hf).
    apply lookup_take_Some in Hp as [Hp Hi]. by exists a, p. }
  assert (forall j q, (j < cur)%nat -> a !! j = Some (Some q) -> r_fd q <> fd) as Hno.
  { intros j q Hj Hq. apply (find_fd_None fd (take cur a) j); [done|].
    by rewrite lookup_take_lt. }
  destruct (find_fd (-1) (take cur a)) as [i|] eqn:E2.
  - destruct (find_fd_Some _ _ _ E2) as (p & Hp & Hf).
    apply lookup_take_Some in Hp as [Hp Hi].
    unfold rdu_get, rdu_put, gl, ml. rewrite bind_assoc, bind_gets, Eg. cbn. rewrite Hp. cbn.
    intros [= <- <-]. cbn. rewrite Eg. cbn.
    set (p' := Rdu fd _ _ _ _ _ _). split.
    + replace cur with (Nat.max cur (S i)) by lia.
      apply (registry_set a cur lim i p' Hok); [lia| |].
      * destruct Hok as (_ & ? & _). cbn in *. lia.
      * intros j q Hj _ Hq. cbn. by apply (Hno j).
    + exists (<[i := Some p']> a), p'. split; [done|]. split; [done|]. split; [|done].
      apply list_lookup_insert_eq. by apply lookup_lt_Some in Hp.
  - unfold rdu_new. intros Hrun.
    refine (wp_run false _ (fun r w' => registry_ok (w_glob w') /\
      match r with
      | Some i => exists a p, l_rdu (w_glob w') = Some a /\ (i < l_cur (w_glob w'))%nat /\
                    a !! i = Some (Some p) /\ r_fd p = fd
      | None => True
      end) w r w' _ Hrun). clear Hrun.
    apply wp_bind. eapply wp_mute; [apply mute_fallible|]. intros e w1 (Eg1 & _) _.
    destruct (truth e); [apply wp_ret; rewrite Eg1, Eg; done|].
    apply wp_bind, wp_gets. rewrite Eg1, Eg. cbn [l_cur]. set (p := Rdu fd _ _ _ _ _ _).
    apply wp_bind. unfold wp at 1.
    destruct (rdu_append p w1) as [[e'| | |] w2] eqn:Ea; [|done..].
    apply (rdu_append_ok p) in Ea as [H1 H2]; rewrite ?Eg1, ?Eg in *; [|done|done|].
    2:{ intros a' j q [= <-] Hj Hq. by apply (Hno j). }
    apply wp_ret. destruct (truth e'); [done|]. split; [done|].
    destruct (H2 eq_refl) as (a' & Ha & Hc & Hl). cbn in Hc, Hl. exists a', p.
    split; [done|]. split; [lia|done].
Qed.
(** C27. The registry of open directories: looking up a descriptor, whichever allocation fails,
    keeps every used slot filled and each descriptor unique; and the rdu it returns is
    registered under exactly that descriptor, be it found, recycled from a closed
    directory, or new (the array growing by eight when it is full). *)
Theorem rdu_buf_lock_correct fd (w w' : world) r :
  registry_ok (w_glob w) -> rdu_buf_lock fd w = (Ret r, w') ->
  registry_ok (w_glob w') /\
  match r with
  | Some i => exists a p, l_rdu (w_glob w') = Some a /\ (i < l_cur (w_glob w'))%nat /\
                a !! i = Some (Some p) /\ r_fd p = fd
  | None => True
  end.
Proof.
  intros Hok. unfold rdu_buf_lock, mbind, M_bind.
  destruct (rdu_find fd w) as [[i| | |] w1] eqn:E; try discriminate.
  destruct (rdu_find_correct fd w w1 i Hok E) as [H1 H2]. intros [= <- <-]. split; [done|].
  by destruct (fd <? 0).
Qed.
End registry.

Lemma rdu_buf_lock_correct_witness :
  let w' := (rdu_buf_lock 5 (set_glob (RduLib_ (Some (replicate 8 None)) 0 8) RduLibDemo.w0)).2 in
  registry_ok (w_glob w') /\
  exists a p, l_rdu (w_glob w') = Some a /\ (0 < l_cur (w_glob w'))%nat /\
    a !! 0%nat = Some (Some p) /\ r_fd p = 5.
Proof.
  intros w'.
  apply (rdu_buf_lock_correct 5 (set_glob (RduLib_ (Some (replicate 8 None)) 0 8) RduLibDemo.w0)
           w' (Some 0%nat)); [|reflexivity].
  split; [reflexivity|]. split; [vm_compute; lia|]. split; [vm_compute; lia|].
  split; cbn; intros; lia.
Defined.

(** ** The calls of readdir(3) *)

(** The structure that a call for [fd] is going to use *)
Definition rdu_new_of (fd : Z) : rdu := Rdu fd false false None PosNull BUFSIZ None.
Definition rdu_with_fd (fd : Z) (p : rdu) : rdu :=
  Rdu fd (r_shwh p) (r_de p) (r_npos p) (r_pos p) (r_sz p) (r_ent p).
Definition used (g : rdu_lib) : list (option rdu) :=
  match l_rdu g with Some a => take (l_cur g) a | None => [] end.
Definition rdu_of (fd : Z) (g : rdu_lib) : rdu :=
  match find_fd fd (used g) ≫= (fun i => mjoin (used g !! i)) with
  | Some p => p
  | None => match find_fd (-1) (used g) ≫= (fun i => mjoin (used g !! i)) with
            | Some p => rdu_with_fd fd p
            | None => rdu_new_of fd
            end
  end.

Section readdir.
Context {K : Type} `{!RduKernel K}.
Notation world := (world K rdu_lib).

(** A program that calls readdir(3) or readdir_r(3) [m] times: what each call returns.
    The position of the stream is what the call before has left. *)
Fixpoint readdir_calls (fuel m : nat) (fd : Z) (want_de : bool) (pos : Z)
  : M world (list (Z * option dirent)) :=
  match m with
  | O => mret []
  | S m =>
      '(err, de, pos) ← rdu_readdir None fuel fd want_de pos;
      r ← readdir_calls fuel m fd want_de pos;
      mret ((err, de) :: r)
  end.

(** The entry of [fd] in the registry is the one at [i]. *)
Definition entry_at (fd : Z) (i : nat) (p : rdu) (g : rdu_lib) : Prop :=
  registry_ok g /\ r_fd p = fd /\
  exists a, l_rdu g = Some a /\ (i < l_cur g)%nat /\ a !! i = Some (Some p).

Lemma entry_at_found fd i p g a :
  0 <= fd -> entry_at fd i p g -> l_rdu g = Some a -> find_fd fd (take (l_cur g) a) = Some i.
Proof.
  intros Hfd (Hok & Hp & a' & Ha & Hi & Hl) Ea. rewrite Ha in Ea. injection Ea as ->.
  unfold registry_ok in Hok. rewrite Ha in Hok. destruct Hok as (_ & _ & _ & _ & Hu).
  destruct (find_fd fd (take (l_cur g) a)) as [j|] eqn:Ef.
  - destruct (find_fd_Some _ _ _ Ef) as (q & Hq & Hqf). apply lookup_take_Some in Hq as [Hq Hj].
    f_equal. apply (Hu j i q p); [done|done|done|done|congruence|lia].
  - destruct (find_fd_None _ _ i p Ef); [by rewrite lookup_take_lt|done].
Qed.

(** The lookup of a registered descriptor *)
Lemma rdu_buf_lock_found fd i p (w : world) :
  0 <= fd -> entry_at fd i p (w_glob w) -> rdu_buf_lock fd w = (Ret (Some i), w).
Proof.
  intros Hfd H. pose proof H as (_ & _ & a & Ha & _ & _). unfold rdu_buf_lock, rdu_find, gl.
  rewrite bind_assoc, bind_gets, Ha, (entry_at_found fd i p _ a Hfd H Ha), bind_ret.
  by rewrite (proj2 (Z.ltb_ge _ _)).
Qed.

Lemma rdu_get_entry fd i p (w : world) :
  entry_at fd i p (w_glob w) -> rdu_get i w = (Ret p, w).
Proof.
  intros (_ & _ & a & Ha & _ & Hl). unfold rdu_get, gl. rewrite bind_gets, Ha. simpl. by rewrite Hl.
Qed.

Lemma rdu_put_entry fd i p q (w : world) :
  0 <= fd -> r_fd q = fd -> entry_at fd i p (w_glob w) ->
  exists g, rdu_put i q w = (Ret tt, set_glob g w) /\ entry_at fd i q g.
Proof.
  intros Hfd Hq H. pose proof H as (Hok & Hp & a & Ha & Hi & Hl). unfold rdu_put, ml, modify.
  eexists. split; [reflexivity|]. destruct (w_glob w) as [ra cur lim]. cbn in *. subst ra. cbn.
  pose proof Hok as (_ & Hc & _). cbn in Hc.
  split; [|split; [done|]].
  - replace cur with (Nat.max cur (S i)) by lia. apply (registry_set a cur lim i q Hok); [lia|lia|].
    intros j x Hj Hne Hx E. apply Hne. destruct Hok as (_ & _ & _ & _ & Hu).
    apply (Hu j i x p); [done|done|done|done|congruence|rewrite E, Hq; lia].
  - eexists. split; [done|]. split; [done|]. apply list_lookup_insert_eq.
    by apply lookup_lt_Some in Hl.
Qed.

Lemma rdu_lib_init_run (w : world) :
  w_faults w = [] -> registry_ok (w_glob w) ->
  exists g, rdu_lib_init w = (Ret 0, set_glob g w) /\ registry_ok g /\
    (exists a, l_rdu g = Some a) /\ used g = used (w_glob w).
Proof.
  intros Hf Hok. unfold rdu_lib_init, gl, ml. rewrite bind_gets. unfold used.
  destruct (w_glob w) as [[a|] cur lim] eqn:Eg; cbn [l_rdu].
  - exists (w_glob w). rewrite Eg. split; [destruct w; cbn in *; by subst|]. eauto.
  - rewrite (bind_run _ _ _ _ _ (fallible_ok w Hf)). change (truth 0) with false. cbv iota.
    rewrite bind_modify, Eg. cbn. destruct Hok as [Hc Hl]. cbn in Hc, Hl. subst cur.
    eexists. split; [reflexivity|]. cbn. rewrite length_replicate. split; [|eauto].
    split; [done|]. split; [lia|]. split; [done|]. split; intros; lia.
Qed.

Lemma rdu_append_run p a cur lim (w : world) :
  w_faults w = [] -> w_glob w = RduLib_ (Some a) cur lim -> registry_ok (w_glob w) ->
  exists g a', rdu_append p w = (Ret 0, set_glob g w) /\ l_rdu g = Some a' /\ l_cur g = S cur /\
    a' !! cur = Some (Some p).
Proof.
  intros Hf Eg Hok. rewrite Eg in Hok. destruct Hok as (Hl & Hc & Hp & _). cbn in *.
  unfold rdu_append, gl, ml. rewrite bind_gets, Eg. cbn [l_rdu l_cur l_lim].
  destruct (Nat.leb_spec cur (lim - 1)).
  - rewrite bind_modify. eexists _, _. split; [reflexivity|]. split; [done|]. split; [done|].
    apply list_lookup_insert_eq. lia.
  - rewrite (bind_run _ _ _ _ _ (fallible_ok w Hf)). change (truth 0) with false. cbv iota.
    rewrite bind_modify. eexists _, _. split; [reflexivity|]. split; [done|]. split; [done|].
    apply list_lookup_insert_eq. rewrite length_app, length_replicate. unfold RDU_STEP. lia.
Qed.

(** The lookup of any descriptor, when nothing fails *)
Lemma rdu_buf_lock_run fd (w : world) :
  w_faults w = [] -> registry_ok (w_glob w) -> (exists a, l_rdu (w_glob w) = Some a) -> 0 <= fd ->
  exists i g, rdu_buf_lock fd w = (Ret (Some i), set_glob g w) /\ entry_at fd i (rdu_of fd (w_glob w)) g.
Proof.
  intros Hf Hok [a Ha] Hfd.
  cut (exists i g, rdu_find fd w = (Ret (Some i), set_glob g w) /\
    exists a', l_rdu g = Some a' /\ a' !! i = Some (Some (rdu_of fd (w_glob w)))).
  { intros (i & g & E & a' & Ha' & Hi). exists i, g. unfold rdu_buf_lock.
    rewrite (bind_run _ _ _ _ _ E), (proj2 (Z.ltb_ge _ _)) by done. split; [done|].
    destruct (rdu_find_correct fd w _ _ Hok E) as (Hok' & b & q & Hb & Hj & Hq & Hqf). cbn in *.
    rewrite Ha' in Hb. injection Hb as <-. rewrite Hi in Hq. injection Hq as <-. split; [done|]. split; [done|].
    by exists a'. }
  unfold rdu_find, gl. rewrite bind_gets. destruct (w_glob w) as [ra cur lim] eqn:Eg.
  cbn in Ha. subst ra. unfold rdu_of, used. cbn [l_rdu l_cur].
  destruct (find_fd fd (take cur a)) as [i|] eqn:E1; cbn [mbind option_bind].
  { destruct (find_fd_Some _ _ _ E1) as (p & Hp & _). rewrite Hp. cbn.
    exists i, (w_glob w). split; [by destruct w|]. rewrite Eg. exists a. split; [done|].
    by apply lookup_take_Some in Hp as [-> _]. }
  destruct (find_fd (-1) (take cur a)) as [i|] eqn:E2; cbn [mbind option_bind].
  - destruct (find_fd_Some _ _ _ E2) as (p & Hp & _). rewrite Hp. cbn.
    apply lookup_take_Some in Hp as [Hp Hi].
    unfold rdu_get, rdu_put, gl, ml. rewrite bind_assoc, bind_gets, Eg. cbn. rewrite Hp. cbn.
    exists i. eexists. split; [unfold mbind, M_bind, modify, mret, M_ret; reflexivity|].
    rewrite Eg. cbn. eexists. split; [done|]. apply list_lookup_insert_eq.
    by apply lookup_lt_Some in Hp.
  - unfold rdu_new. rewrite (bind_run _ _ _ _ _ (fallible_ok w Hf)). change (truth 0) with false.
    cbv iota. unfold gl. rewrite bind_gets, Eg. cbn [l_cur].
    destruct (rdu_append_run (rdu_new_of fd) a cur lim w Hf Eg ltac:(by rewrite Eg))
      as (g & a' & E & Ha' & _ & Hl).
    unfold rdu_new_of in E at 1. rewrite (bind_run _ _ _ _ _ E). change (truth 0) with false.
    exists cur, g. split; [done|]. by exists a'.
Qed.

(** What the call at position [i] should return of the directory [l] *)
Definition entry_of (l : list bytes) (i : Z) (d : option dirent) : Prop :=
  match l !! Z.to_nat i with
  | Some s => exists de, d = Some de /\ d_name de = slot_name s /\ d_off de = i
  | None => d = None
  end.

Lemma rdu_pos_holds p l i (w : world) :
  holds p l -> 0 <= i < 2 ^ 64 -> exists d, rdu_pos p i w = (Ret d, w) /\ entry_of l i d.
Proof.
  intros (Hn & Hp & l' & tail & He & Hs) Hi. unfold entry_of.
  pose proof (rdu_pos_lists p l l' tail i w Hn Hp He Hs Hi) as H.
  destruct (l !! Z.to_nat i); [|by exists None].
  destruct H as (de & E & H). exists (Some de). eauto.
Qed.

(** The stream between two calls: the entry of [fd] holds the directory. *)
Definition reading (fd : Z) (want_de : bool) (l : list bytes) (w : world) : Prop :=
  w_faults w = [] /\ exists i p, entry_at fd i p (w_glob w) /\ holds p l /\
    (want_de = true -> r_de p = true).

(** The end of rdu_readdir(), from where the entry holds the directory *)
Lemma readdir_rest fd want_de l pos i p p0 (w : world) :
  w_faults w = [] -> 0 <= fd -> 0 <= pos < 2 ^ 63 -> holds p l -> r_fd p = fd ->
  (want_de = true -> r_de p = true) -> entry_at fd i p0 (w_glob w) ->
  exists d w', (rdu_put i p ;;
      if want_de && negb (r_de p) then put_errno EINVAL ;; mret (-1, None, pos)
      else de ← rdu_pos p pos; put_errno 0 ;; mret (0, de, pos + 1)) w
    = (Ret (0, d, pos + 1), w') /\ entry_of l pos d /\ reading fd want_de l w'.
Proof.
  intros Hf Hfd Hpos Hh Hp Hde He.
  destruct (rdu_put_entry fd i p0 p w Hfd Hp He) as (g & E & Hg). rewrite (bind_run _ _ _ _ _ E).
  replace (want_de && negb (r_de p)) with false
    by (destruct want_de; [by rewrite Hde|done]).
  destruct (rdu_pos_holds p l pos (set_glob g w) Hh ltac:(lia)) as (d & E2 & Hd).
  rewrite (bind_run _ _ _ _ _ E2). unfold put_errno. rewrite bind_modify.
  exists d. eexists. split; [reflexivity|]. split; [done|]. split; [done|]. by exists i, p.
Qed.

(** The first call reads the directory. *)
Lemma readdir_first fd want_de slots sh k1 (w : world) :
  let p := rdu_of fd (w_glob w) in
  let l := merged sh slots in
  w_faults w = [] -> registry_ok (w_glob w) -> 0 <= fd -> buffer_ok p ->
  delivery fd (r_sz p) 0 (w_kern w) slots sh k1 -> Forall wf_slot slots -> l <> [] ->
  fills_ino fd l k1 ->
  exists n, forall fuel, (n <= fuel)%nat -> exists d w',
    rdu_readdir None fuel fd want_de 0 w = (Ret (0, d, 1), w') /\ entry_of l 0 d /\
    reading fd want_de l w'.
Proof.
  intros p l Hf Hok Hfd Hbuf Hdel Hwf Hne Hino.
  set (w1 := set_errno 0 (set_errno 9 w)).
  destruct (rdu_lib_init_run w1 Hf Hok) as (g & E1 & Hokg & Ha & Hu).
  set (w2 := set_glob g w1) in *. assert (w_faults w2 = []) as Hf2 by done.
  destruct (rdu_buf_lock_run fd w2 Hf2 Hokg Ha Hfd) as (i & g2 & E2 & He).
  assert (rdu_of fd (w_glob w2) = p) as Hp by (unfold p, rdu_of; cbn; by rewrite Hu).
  rewrite Hp in He. set (w3 := set_glob g2 w2) in *. assert (w_faults w3 = []) as Hf3 by done.
  assert (r_fd p = fd) as Hpf by apply He. rewrite <- Hpf in Hdel, Hino.
  destruct (rdu_init_lists p want_de slots sh k1 w3 Hf3 Hbuf Hdel Hwf Hne Hino) as [n Hn].
  exists n. intros fuel Hfuel. destruct (Hn fuel Hfuel) as (p' & k2 & E3 & Hh & Hp' & Hde).
  unfold rdu_readdir, put_errno. rewrite bind_modify, (proj2 (Z.ltb_ge _ _)) by done.
  rewrite (bind_run _ _ _ _ _ (fallible_ok (set_errno 9 w) Hf)). change (truth 0) with false. cbv iota.
  rewrite bind_modify. fold w1. rewrite (bind_run _ _ _ _ _ E1). change (truth 0) with false. cbv iota.
  rewrite (bind_run _ _ _ _ _ E2). cbv iota. rewrite (bind_run _ _ _ _ _ (rdu_get_entry fd i p w3 He)).
  cbn [Z.eqb]. rewrite bind_ret, (bind_run _ _ _ _ _ E3).
  apply (readdir_rest fd want_de l 0 i p' p (set_kern k2 w3)); try done. congruence.
Qed.

(** The calls behind it find it read. *)
Lemma readdir_next fuel fd want_de l pos (w : world) :
  l <> [] -> 0 <= fd -> 0 < pos < 2 ^ 63 -> reading fd want_de l w ->
  exists d w', rdu_readdir None fuel fd want_de pos w = (Ret (0, d, pos + 1), w') /\
    entry_of l pos d /\ reading fd want_de l w'.
Proof.
  intros Hne Hfd Hpos (Hf & i & p & He & Hh & Hde). set (w1 := set_errno 0 (set_errno 9 w)).
  unfold rdu_readdir, put_errno. rewrite bind_modify, (proj2 (Z.ltb_ge _ _)) by done.
  rewrite (bind_run _ _ _ _ _ (fallible_ok (set_errno 9 w) Hf)). change (truth 0) with false. cbv iota.
  rewrite bind_modify. fold w1. assert (rdu_lib_init w1 = (Ret 0, w1)) as E1.
  { destruct He as (_ & _ & a & Ha & _). unfold rdu_lib_init, gl.
    rewrite bind_gets. change (w_glob w1) with (w_glob w). by rewrite Ha. }
  rewrite (bind_run _ _ _ _ _ E1). change (truth 0) with false. cbv iota.
  rewrite (bind_run _ _ _ _ _ (rdu_buf_lock_found fd i p w1 Hfd He)). cbv iota.
  rewrite (bind_run _ _ _ _ _ (rdu_get_entry fd i p w1 He)).
  rewrite (proj2 (Z.eqb_neq _ _)) by lia.
  pose proof Hh as [Hn _]. rewrite Hn, bind_ret. destruct (length l =? 0)%nat eqn:El.
  { apply Nat.eqb_eq in El. by destruct l. }
  rewrite bind_ret. apply (readdir_rest fd want_de l pos i p p w1); try done; [lia|apply He].
Qed.

Lemma readdir_calls_next fuel m fd want_de l pos (w : world) :
  l <> [] -> 0 <= fd -> 0 < pos -> pos + Z.of_nat m < 2 ^ 63 -> reading fd want_de l w ->
  exists ds w', readdir_calls fuel m fd want_de pos w = (Ret ds, w') /\ length ds = m /\
    forall i r, ds !! i = Some r -> r.1 = 0 /\ entry_of l (pos + Z.of_nat i) r.2.
Proof.
  intros Hne Hfd. revert pos w. induction m as [|m IH]; intros pos w H0 Hm Hr.
  - exists [], w. split; [done|]. split; [done|]. by intros i r H.
  - destruct (readdir_next fuel fd want_de l pos w Hne Hfd ltac:(lia) Hr) as (d & w1 & E & Hd & Hr1).
    destruct (IH (pos + 1) w1 ltac:(lia) ltac:(lia) Hr1) as (ds & w2 & E2 & Hlen & Hds).
    exists ((0, d) :: ds), w2. cbn [readdir_calls]. rewrite (bind_run _ _ _ _ _ E).
    cbv beta iota. rewrite (bind_run _ _ _ _ _ E2). split; [done|]. split; [cbn; by rewrite Hlen|].
    intros [|i] r H; [injection H as <-; by rewrite Z.add_0_r|].
    apply (Hds i r) in H. replace (pos + Z.of_nat (S i)) with (pos + 1 + Z.of_nat i) by lia. done.
Qed.

(** C1. readdir(3) and readdir_r(3) on an aufs, end to end.  When nothing fails, for every
    way in which the kernel may deliver the entries over several calls of AUFS_CTL_RDU
    (enlarging the buffer in between), and whatever the registry has of other directories or
    of this one, a program that calls rdu_readdir() again and again from the start of the
    stream (position 0; each call leaves the position for the next one by seekdir(3)) gets,
    with a finite number of AUFS_CTL_RDU calls: from the i-th call the name of the i-th
    entry of the merged directory, with d_off i, and from every call behind the last entry
    the end of the directory (null and 0).  (The directory has an entry, as "." is one;
    AUFS_CTL_RDU_INO, which fills in inode numbers, leaves the names in place; AUFS_RDU_BLK
    is unset.) *)
Theorem readdir_lists_directory fd want_de slots sh k1 (w : world) :
  let p := rdu_of fd (w_glob w) in
  let l := merged sh slots in
  w_faults w = [] -> registry_ok (w_glob w) -> 0 <= fd -> buffer_ok p ->
  delivery fd (r_sz p) 0 (w_kern w) slots sh k1 -> Forall wf_slot slots -> l <> [] ->
  fills_ino fd l k1 ->
  exists n, forall fuel m, (n <= fuel)%nat -> Z.of_nat m < 2 ^ 63 ->
  exists ds w', readdir_calls fuel m fd want_de 0 w = (Ret ds, w') /\ length ds = m /\
    forall i r, ds !! i = Some r -> r.1 = 0 /\ entry_of l (Z.of_nat i) r.2.
Proof.
  intros p l Hf Hok Hfd Hbuf Hdel Hwf Hne Hino.
  destruct (readdir_first fd want_de slots sh k1 w Hf Hok Hfd Hbuf Hdel Hwf Hne Hino) as [n Hn].
  exists n. intros fuel [|m] Hfuel Hm.
  - exists [], w. split; [done|]. split; [done|]. by intros i r H.
  - destruct (Hn fuel Hfuel) as (d & w1 & E & Hd & Hr).
    destruct (readdir_calls_next fuel m fd want_de l 1 w1 Hne Hfd ltac:(lia) ltac:(lia) Hr)
      as (ds & w2 & E2 & Hlen & Hds).
    exists ((0, d) :: ds), w2. cbn [readdir_calls]. rewrite (bind_run _ _ _ _ _ E).
    cbv beta iota. rewrite (bind_run _ _ _ _ _ E2). split; [done|]. split; [cbn; by rewrite Hlen|].
    intros [|i] r H; [by injection H as <-|].
    apply (Hds i r) in H. replace (Z.of_nat (S i)) with (1 + Z.of_nat i) by lia. done.
Qed.
End readdir.

Lemma readdir_lists_directory_witness :
  exists n, forall fuel m, (n <= fuel)%nat -> Z.of_nat m < 2 ^ 63 ->
  exists ds w', readdir_calls fuel m 5 true 0 RduLibDemo.w0 = (Ret ds, w') /\ length ds = m /\
    forall i r, ds !! i = Some r -> r.1 = 0 /\ entry_of RduLibDemo.listing (Z.of_nat i) r.2.
Proof.
  apply (readdir_lists_directory 5 true RduDemo.slots false 3%nat RduLibDemo.w0);
    [reflexivity| |discriminate| | | |discriminate|].
  - split; [reflexivity|]. apply Nat.ltb_lt. reflexivity.
  - split; [discriminate|]. split; discriminate.
  - apply (delivery_more 5 8192 0 0%nat (RduAnswer (concat RduLibDemo.chunk1) 4 true false 64) 1%nat
             RduLibDemo.chunk1 RduLibDemo.chunk2);
      try reflexivity; try discriminate.
    apply (delivery_last 5 _ _ 1%nat (RduAnswer (concat RduLibDemo.chunk2) 2 false false 64) 2%nat
             RduLibDemo.chunk2 (RduAnswer [] 0 false false 64) 3%nat);
      try reflexivity; discriminate.
  - repeat constructor; try (vm_compute; reflexivity);
      apply (bool_decide_unpack _); vm_compute; exact Logic.I.
  - intros tail. exists RduLibDemo.listing, tail, 3%nat. split; [|reflexivity].
    repeat constructor; try (vm_compute; reflexivity);
      apply (bool_decide_unpack _); vm_compute; exact Logic.I.
Defined.

(** What a program sees: the names, then the end, twice. *)
Example readdir_run :
  match (readdir_calls 9 5 5 true 0 RduLibDemo.w0).1 with
  | Ret ds => map (fun r => option_map d_name r.2) ds
  | _ => []
  end = [Some (lit "."); Some (lit "f"); Some (lit "long name"); None; None].
Proof. vm_compute. reflexivity. Qed.
