(* ===== verification/RduLock.v ===== *)
(** * The locks of readdir in userspace: rdu.h, rdu_lib.c

    libau is compiled with _REENTRANT: the array [rdu] is searched and extended under
    the mutex rdu_lib_mtx, and each [struct rdu] has a lock of its own, which
    rdu_buf_lock() takes for writing after it has released the mutex.  [RduLib] leaves
    the locks out; here they are all there is.  A thread is a program counter, one
    step of it one access to the array, one field [fd] or one lock; [fd] is written by
    rdu_free() without the mutex, as in the code.  The buffers of a slot are only used
    between [PUse] and [PRelease]. *)
From S2P Require Import Prelude AufsType Sys Rdu RduLib.

(** The parts of [struct rdu] that the threads compete for *)
Record slot := Slot { s_fd : Z; s_own : option nat }.

Inductive pc :=
  | PIdle
  | PStart (fd : Z)                 (* rdu_lib_lock() *)
  | PFind (fd : Z) (i : nat)        (* the first loop of rdu_buf_lock() *)
  | PRecycle (fd : Z) (i : nat)     (* the second one *)
  | PNew (fd : Z)                   (* rdu_new() *)
  | PUnlock (fd : Z) (p : option nat)
  | PWait (fd : Z) (p : nat)        (* rdu_write_lock() *)
  | PCheck (fd : Z) (p : nat)       (* if (p->fd < 0) *)
  | PUse (fd : Z) (p : nat)         (* rdu_buf_lock() has returned p *)
  | PFreeing (fd : Z) (p : nat)     (* rdu_free() after p->fd = -1 *)
  | PRelease (fd : Z) (p : nat).    (* rdu_unlock() *)

Record lst := Lst {
  slots : list slot;
  lib_mtx : option nat;
  thr : list pc
}.

(** What a thread does next: [ACall fd] starts readdir(3) or closedir(3) on a
    descriptor, [AGo] goes on; [AFail]: malloc(3) in rdu_new() fails, or the slot in use
    is freed, by closedir(3) or because rdu_init() failed. *)
Inductive act := ACall (fd : Z) | AGo | AFail.

Definition set_thr (t : nat) (c : pc) (s : lst) : lst := Lst (slots s) (lib_mtx s) (<[t := c]> (thr s)).
Definition set_lib (m : option nat) (s : lst) : lst := Lst (slots s) m (thr s).
Definition put_fd (i : nat) (fd : Z) (s : lst) : lst :=
  Lst (alter (fun x => Slot fd (s_own x)) i (slots s)) (lib_mtx s) (thr s).
Definition put_own (i : nat) (o : option nat) (s : lst) : lst :=
  Lst (alter (fun x => Slot (s_fd x) o) i (slots s)) (lib_mtx s) (thr s).
Definition add_slot (fd : Z) (s : lst) : lst :=
  Lst (slots s ++ [Slot fd None]) (lib_mtx s) (thr s).

(** One step of thread [t]; [None]: it cannot take this step now. *)
Definition lstep (t : nat) (a : act) (s : lst) : option lst :=
  c ← thr s !! t;
  match c, a with
  | PIdle, ACall fd => if 0 <=? fd then Some (set_thr t (PStart fd) s) else None
  | PStart fd, AGo =>
      match lib_mtx s with
      | None => Some (set_thr t (PFind fd 0) (set_lib (Some t) s))
      | Some _ => None
      end
  | PFind fd i, AGo =>
      match slots s !! i with
      | None => Some (set_thr t (PRecycle fd 0) s)
      | Some x => Some (set_thr t (if s_fd x =? fd then PUnlock fd (Some i) else PFind fd (S i)) s)
      end
  | PRecycle fd i, AGo =>
      match slots s !! i with
      | None => Some (set_thr t (PNew fd) s)
      | Some x =>
          if s_fd x =? -1 then Some (set_thr t (PUnlock fd (Some i)) (put_fd i fd s))
          else Some (set_thr t (PRecycle fd (S i)) s)
      end
  | PNew fd, AGo => Some (set_thr t (PUnlock fd (Some (length (slots s)))) (add_slot fd s))
  | PNew fd, AFail => Some (set_thr t (PUnlock fd None) s)
  | PUnlock fd p, AGo =>
      Some (set_thr t (match p with Some i => PWait fd i | None => PIdle end) (set_lib None s))
  | PWait fd i, AGo =>
      x ← slots s !! i;
      match s_own x with
      | None => Some (set_thr t (PCheck fd i) (put_own i (Some t) s))
      | Some _ => None
      end
  | PCheck fd i, AGo =>
      x ← slots s !! i;
      Some (set_thr t (if s_fd x <? 0 then PRelease fd i else PUse fd i) s)
  | PUse fd i, AGo => Some (set_thr t (PRelease fd i) s)
  | PUse fd i, AFail => Some (set_thr t (PFreeing fd i) (put_fd i (-1) s))
  | PFreeing fd i, AGo => Some (set_thr t (PRelease fd i) s)
  | PRelease fd i, AGo => Some (set_thr t PIdle (put_own i None s))
  | _, _ => None
  end.

Definition lstart (n : nat) : lst := Lst [] None (replicate n PIdle).

Definition lrel (s s' : lst) : Prop := exists t a, lstep t a s = Some s'.

Fixpoint lrun (l : list (nat * act)) (s : lst) : option lst :=
  match l with
  | [] => Some s
  | (t, a) :: r => s' ← lstep t a s; lrun r s'
  end.

Lemma lrun_steps l s s' : lrun l s = Some s' -> rtc lrel s s'.
Proof.
  revert s. induction l as [|[t a] l IH]; intros s H; simpl in H; [by injection H as <-; constructor|].
  destruct (lstep t a s) as [s1|] eqn:E; [|done]. simpl in H.
  eapply rtc_l; [by exists t, a|]. by apply IH.
Qed.

(** ** Who holds what *)

(** The thread is inside the mutex, or holds the lock of a slot. *)
Definition in_lib (c : pc) : bool :=
  match c with PFind _ _ | PRecycle _ _ | PNew _ | PUnlock _ _ => true | _ => false end.
Definition holds (c : pc) : option nat :=
  match c with
  | PCheck _ i | PUse _ i | PFreeing _ i | PRelease _ i => Some i
  | _ => None
  end.
(** The slot it has chosen *)
Definition chosen (c : pc) : option (Z * nat) :=
  match c with
  | PUnlock fd (Some i) | PWait fd i | PCheck fd i | PUse fd i => Some (fd, i)
  | _ => None
  end.
Definition slot_ok (n : nat) (c : pc) : Prop :=
  match c with
  | PUnlock _ (Some i) | PWait _ i | PCheck _ i | PUse _ i | PFreeing _ i | PRelease _ i => (i < n)%nat
  | _ => True
  end.
Definition pc_fd (c : pc) : option Z :=
  match c with
  | PIdle => None
  | PStart fd | PFind fd _ | PRecycle fd _ | PNew fd | PUnlock fd _ | PWait fd _ | PCheck fd _
  | PUse fd _ | PFreeing fd _ | PRelease fd _ => Some fd
  end.

(** No slot below [i], or none at all, is for [fd]. *)
Definition searched (sl : list slot) (c : pc) : Prop :=
  match c with
  | PFind fd i => forall j x, (j < i)%nat -> sl !! j = Some x -> s_fd x <> fd
  | PRecycle fd _ | PNew fd => forall j x, sl !! j = Some x -> s_fd x <> fd
  | _ => True
  end.

Definition distinct_fds (sl : list slot) : Prop :=
  forall i j x y, sl !! i = Some x -> sl !! j = Some y -> s_fd x = s_fd y -> 0 <= s_fd x -> i = j.

Record linv (s : lst) : Prop := LInv {
  li_lib t c : thr s !! t = Some c -> in_lib c = true <-> lib_mtx s = Some t;
  li_lib_thr t : lib_mtx s = Some t -> is_Some (thr s !! t);
  li_own i x : slots s !! i = Some x ->
    forall t, s_own x = Some t <-> exists c, thr s !! t = Some c /\ holds c = Some i;
  li_slot t c : thr s !! t = Some c -> slot_ok (length (slots s)) c;
  li_fd t c fd : thr s !! t = Some c -> pc_fd c = Some fd -> 0 <= fd;
  li_searched t c : thr s !! t = Some c -> searched (slots s) c;
  li_distinct : distinct_fds (slots s)
}.

Lemma linv_start n : linv (lstart n).
Proof.
  assert (forall t c, (replicate n PIdle) !! t = Some c -> c = PIdle) as Hc.
  { intros t c H. by apply lookup_replicate in H as [-> _]. }
  split; simpl; try done.
  - intros t c ->%Hc. done.
  - intros t c ->%Hc. done.
  - intros t c fd ->%Hc. done.
  - intros t c ->%Hc. done.
Qed.

Lemma slot_ok_holds n c i : slot_ok n c -> holds c = Some i -> (i < n)%nat.
Proof. destruct c; simpl; intros H E; simplify_eq; done. Qed.

Lemma slot_ok_mono n n' c : (n <= n')%nat -> slot_ok n c -> slot_ok n' c.
Proof. intros Hn. destruct c; simpl; try done; try lia. destruct p; [lia|done]. Qed.

(** A step of [t] that takes and gives no lock, whatever it does to the fields [fd]. *)
Lemma linv_gen t c c' sl' s :
  linv s -> thr s !! t = Some c -> in_lib c' = in_lib c -> holds c' = holds c ->
  (forall fd, pc_fd c' = Some fd -> 0 <= fd) ->
  (length (slots s) <= length sl')%nat ->
  (forall i x', sl' !! i = Some x' ->
     match slots s !! i with Some x => s_own x' = s_own x | None => s_own x' = None end) ->
  slot_ok (length sl') c' ->
  (forall t0 c0, t0 <> t -> thr s !! t0 = Some c0 -> searched sl' c0) ->
  searched sl' c' -> distinct_fds sl' ->
  linv (Lst sl' (lib_mtx s) (<[t := c']> (thr s))).
Proof.
  intros [Hlib Hlt Hown Hslot Hfd Hse Hd] Ht Hil Hh Hfd' Hlen Hown' Hok Hse' Hsc Hd'.
  assert (forall t0 c0, <[t := c']> (thr s) !! t0 = Some c0 ->
    t0 = t /\ c0 = c' \/ t0 <> t /\ thr s !! t0 = Some c0) as Hin.
  { intros t0 c0 [(-> & -> & _)|[Hne H]]%list_lookup_insert_Some; [by left|by right]. }
  split; simpl; try done.
  - intros t0 c0 [[-> ->]|[_ H]]%Hin; [rewrite Hil|]; by eapply Hlib.
  - intros t0 H. rewrite lookup_lt_is_Some, length_insert, <- lookup_lt_is_Some. by apply Hlt.
  - intros i x' Hx' t0. specialize (Hown' i x' Hx').
    assert (forall t0, (exists c0, <[t:=c']> (thr s) !! t0 = Some c0 /\ holds c0 = Some i) <->
                       (exists c0, thr s !! t0 = Some c0 /\ holds c0 = Some i)) as Heq.
    { intros t1. split.
      - intros (c0 & [[-> ->]|[_ H]]%Hin & E); [exists c; by rewrite <- Hh|by exists c0].
      - intros (c0 & H & E). destruct (decide (t1 = t)) as [->|Hne].
        + exists c'. rewrite list_lookup_insert_eq by (by eapply lookup_lt_Some).
          split; [done|]. rewrite Hh. congruence.
        + exists c0. by rewrite list_lookup_insert_ne. }
    rewrite Heq. destruct (slots s !! i) as [x|] eqn:Ex.
    + rewrite Hown'. by apply Hown.
    + rewrite Hown'. split; [done|]. intros (c0 & H & E).
      pose proof (slot_ok_holds _ _ _ (Hslot _ _ H) E). apply lookup_ge_None in Ex. lia.
  - intros t0 c0 [[-> ->]|[_ H]]%Hin; [done|]. eapply slot_ok_mono; [done|by eapply Hslot].
  - intros t0 c0 fd [[-> ->]|[_ H]]%Hin; [apply Hfd'|by eapply Hfd].
  - intros t0 c0 [[-> ->]|[Hne H]]%Hin; [done|by eapply Hse'].
Qed.

(** The same where nothing but the program counter changes *)
Lemma linv_pc t c c' s :
  linv s -> thr s !! t = Some c -> in_lib c' = in_lib c -> holds c' = holds c ->
  (forall fd, pc_fd c' = Some fd -> 0 <= fd) -> slot_ok (length (slots s)) c' ->
  searched (slots s) c' -> linv (set_thr t c' s).
Proof.
  intros Hi. intros. unfold set_thr. eapply linv_gen; eauto.
  - intros i x' ->. done.
  - intros t0 c0 _ Hc0. by eapply li_searched.
  - apply Hi.
Qed.

Lemma lib_unique s t c t0 c0 :
  linv s -> thr s !! t = Some c -> in_lib c = true -> t0 <> t -> thr s !! t0 = Some c0 ->
  in_lib c0 = false.
Proof.
  intros Hi Ht Hc Hne H0. destruct (in_lib c0) eqn:E; [|done].
  apply (li_lib s Hi t0 c0 H0) in E. apply (li_lib s Hi t c Ht) in Hc. congruence.
Qed.

Lemma not_in_lib_searched sl c : in_lib c = false -> searched sl c.
Proof. by destruct c. Qed.

(** Taking and releasing the mutex *)
Lemma linv_lib t c c' m s :
  linv s -> thr s !! t = Some c -> holds c' = holds c ->
  (lib_mtx s = None /\ in_lib c' = true /\ m = Some t \/
   in_lib c = true /\ in_lib c' = false /\ m = None) ->
  (forall fd, pc_fd c' = Some fd -> 0 <= fd) -> slot_ok (length (slots s)) c' ->
  searched (slots s) c' -> linv (set_thr t c' (set_lib m s)).
Proof.
  intros Hi Ht Hh Hm Hfd' Hok Hsc. destruct Hi as [Hlib Hlt Hown Hslot Hfd Hse Hd].
  assert (forall t0 c0, <[t := c']> (thr s) !! t0 = Some c0 ->
    t0 = t /\ c0 = c' \/ t0 <> t /\ thr s !! t0 = Some c0) as Hin.
  { intros t0 c0 [(-> & -> & _)|[Hne H]]%list_lookup_insert_Some; [by left|by right]. }
  split; simpl; try done.
  - intros t0 c0 [[-> ->]|[Hne H]]%Hin.
    + destruct Hm as [(_ & -> & ->)|(_ & -> & ->)]; done.
    + destruct Hm as [(Hn & _ & ->)|(Hc & _ & ->)].
      * rewrite (Hlib t0 c0 H), Hn. split; [done|congruence].
      * split; [|done]. intros E. apply (Hlib t0 c0 H) in E. apply (Hlib t c Ht) in Hc. congruence.
  - intros t0 H. rewrite lookup_lt_is_Some, length_insert, <- lookup_lt_is_Some.
    destruct Hm as [(_ & _ & ->)|(_ & _ & ->)]; [|done]. injection H as <-. by eexists.
  - intros i x Hx t0. rewrite (Hown i x Hx). split; intros (c0 & H & E).
    + destruct (decide (t0 = t)) as [->|Hne].
      * exists c'. rewrite list_lookup_insert_eq by (by eapply lookup_lt_Some).
        split; [done|]. rewrite Hh. congruence.
      * exists c0. by rewrite list_lookup_insert_ne.
    + apply Hin in H as [[-> ->]|[_ H]]; [exists c; by rewrite <- Hh|by exists c0].
  - intros t0 c0 [[-> ->]|[_ H]]%Hin; [done|by eapply Hslot].
  - intros t0 c0 fd [[-> ->]|[_ H]]%Hin; [apply Hfd'|by eapply Hfd].
  - intros t0 c0 [[-> ->]|[_ H]]%Hin; [done|by eapply Hse].
Qed.

(** Taking ([o = Some t]) and releasing the lock of a slot *)
Lemma linv_own t c c' i x o s :
  linv s -> thr s !! t = Some c -> slots s !! i = Some x -> in_lib c = false -> in_lib c' = false ->
  (s_own x = None /\ holds c = None /\ holds c' = Some i /\ o = Some t \/
   holds c = Some i /\ holds c' = None /\ o = None) ->
  (forall fd, pc_fd c' = Some fd -> 0 <= fd) -> slot_ok (length (slots s)) c' ->
  linv (set_thr t c' (put_own i o s)).
Proof.
  intros Hi Ht Hx Hl Hl' Ho Hfd' Hok. destruct Hi as [Hlib Hlt Hown Hslot Hfd Hse Hd].
  assert (forall t0 c0, <[t := c']> (thr s) !! t0 = Some c0 ->
    t0 = t /\ c0 = c' \/ t0 <> t /\ thr s !! t0 = Some c0) as Hin.
  { intros t0 c0 [(-> & -> & _)|[Hne H]]%list_lookup_insert_Some; [by left|by right]. }
  assert (<[t:=c']> (thr s) !! t = Some c') as Hself
    by (apply list_lookup_insert_eq; by eapply lookup_lt_Some).
  assert (forall j y, alter (fun z => Slot (s_fd z) o) i (slots s) !! j = Some y ->
    exists y0, slots s !! j = Some y0 /\ s_fd y = s_fd y0) as Hal.
  { intros j y H. destruct (decide (j = i)) as [->|Hne].
    - rewrite list_lookup_alter_eq, Hx in H. simpl in H. injection H as <-. by exists x.
    - rewrite list_lookup_alter_ne in H by done. by exists y. }
  split; simpl.
  - intros t0 c0 [[-> ->]|[_ H]]%Hin; [|by eapply Hlib].
    rewrite Hl'. split; [done|]. intros H. apply (Hlib t c Ht) in H. congruence.
  - intros t0 H. rewrite lookup_lt_is_Some, length_insert, <- lookup_lt_is_Some. by apply Hlt.
  - intros j y Hy t0. destruct (decide (j = i)) as [->|Hne].
    + rewrite list_lookup_alter_eq, Hx in Hy. simpl in Hy. injection Hy as <-. simpl.
      pose proof (Hown i x Hx) as Hox. destruct Ho as [(Hn & Hc & Hc' & ->)|(Hc & Hc' & ->)].
      * split.
        -- intros [= <-]. exists c'. by split.
        -- intros (c0 & [[-> ->]|[Hne H]]%Hin & E); [done|].
           assert (s_own x = Some t0) by (apply Hox; by exists c0). congruence.
      * split; [done|]. intros (c0 & [[-> ->]|[Hne H]]%Hin & E); [congruence|].
        assert (s_own x = Some t0) by (apply Hox; by exists c0).
        assert (s_own x = Some t) by (apply Hox; by exists c). congruence.
    + rewrite list_lookup_alter_ne in Hy by done. rewrite (Hown j y Hy). split.
      * intros (c0 & H & E). destruct (decide (t0 = t)) as [->|Hnt].
        -- exfalso. assert (c0 = c) as -> by congruence.
           destruct Ho as [(_ & Hc & _)|(Hc & _)]; congruence.
        -- exists c0. by rewrite list_lookup_insert_ne.
      * intros (c0 & [[-> ->]|[_ H]]%Hin & E); [|by exists c0].
        exfalso. destruct Ho as [(_ & _ & Hc' & _)|(_ & Hc' & _)]; congruence.
  - intros t0 c0 H. rewrite length_alter. apply Hin in H as [[-> ->]|[_ H]]; [done|by eapply Hslot].
  - intros t0 c0 fd [[-> ->]|[_ H]]%Hin; [apply Hfd'|by eapply Hfd].
  - intros t0 c0 [[-> ->]|[_ H]]%Hin; [by apply not_in_lib_searched|].
    specialize (Hse t0 c0 H). destruct c0; simpl in *; try done.
    + intros j y Hj Hy. destruct (Hal j y Hy) as (y0 & H0 & ->). by eapply Hse.
    + intros j y Hy. destruct (Hal j y Hy) as (y0 & H0 & ->). by eapply Hse.
    + intros j y Hy. destruct (Hal j y Hy) as (y0 & H0 & ->). by eapply Hse.
  - intros j k y z Hy Hz He Hp. destruct (Hal j y Hy) as (y0 & Hy0 & E1), (Hal k z Hz) as (z0 & Hz0 & E2).
    eapply Hd; [exact Hy0|exact Hz0|congruence|congruence].
Qed.

(** A slot that a thread which holds the mutex gives a new descriptor *)
Lemma linv_claim t c c' i fd s :
  linv s -> thr s !! t = Some c -> in_lib c = true -> in_lib c' = true -> holds c = None ->
  holds c' = None -> (forall f, pc_fd c' = Some f -> 0 <= f) -> 0 <= fd ->
  (forall j x, slots s !! j = Some x -> s_fd x <> fd) ->
  slot_ok (length (slots s)) c' -> (forall sl, searched sl c') ->
  linv (set_thr t c' (put_fd i fd s)).
Proof.
  intros Hi Ht Hl Hl' Hh Hh' Hf Hfd Hno Hok Hsc. unfold set_thr, put_fd.
  assert (forall j y, alter (fun z => Slot fd (s_own z)) i (slots s) !! j = Some y ->
    exists y0, slots s !! j = Some y0 /\ s_own y = s_own y0 /\
      (j = i /\ s_fd y = fd \/ j <> i /\ y = y0)) as Hal.
  { intros j y H. destruct (decide (j = i)) as [->|Hne].
    - rewrite list_lookup_alter_eq in H. destruct (slots s !! i) as [x|]; [|done].
      injection H as <-. exists x. split_and!; try done. by left.
    - rewrite list_lookup_alter_ne in H by done. exists y. split_and!; try done. by right. }
  apply (linv_gen t c c' (alter (fun z => Slot fd (s_own z)) i (slots s)) s); try done; try congruence.
  - by rewrite length_alter.
  - intros j y Hy. by destruct (Hal j y Hy) as (y0 & -> & -> & _).
  - by rewrite length_alter.
  - intros t0 c0 Hne H0. apply not_in_lib_searched. by apply (lib_unique s t c t0 c0).
  - intros j k y z Hy Hz He Hp.
    destruct (Hal j y Hy) as (y0 & Hy0 & _ & [[-> E1]|[N1 ->]]),
             (Hal k z Hz) as (z0 & Hz0 & _ & [[-> E2]|[N2 ->]]); try done.
    + exfalso. apply (Hno k z0 Hz0). congruence.
    + exfalso. apply (Hno j y0 Hy0). congruence.
    + by eapply (li_distinct s Hi).
Qed.

Lemma linv_add t c c' fd s :
  linv s -> thr s !! t = Some c -> in_lib c = true -> in_lib c' = true -> holds c = None ->
  holds c' = None -> (forall f, pc_fd c' = Some f -> 0 <= f) ->
  (forall j x, slots s !! j = Some x -> s_fd x <> fd) ->
  slot_ok (S (length (slots s))) c' -> (forall sl, searched sl c') ->
  linv (set_thr t c' (add_slot fd s)).
Proof.
  intros Hi Ht Hl Hl' Hh Hh' Hf Hno Hok Hsc. unfold set_thr, add_slot.
  apply (linv_gen t c c' (slots s ++ [Slot fd None]) s); try done; try congruence.
  - rewrite length_app. lia.
  - intros j y [H|[Hj H]]%lookup_app_Some.
    + by rewrite H.
    + rewrite (lookup_ge_None_2 (slots s)) by done. apply list_lookup_singleton_Some in H as [_ <-].
      done.
  - rewrite length_app. simpl. by replace (length (slots s) + 1)%nat with (S (length (slots s))) by lia.
  - intros t0 c0 Hne H0. apply not_in_lib_searched. by apply (lib_unique s t c t0 c0).
  - intros j k y z [Hy|[Hj Hy]]%lookup_app_Some [Hz|[Hk Hz]]%lookup_app_Some He Hp.
    + by eapply (li_distinct s Hi).
    + apply list_lookup_singleton_Some in Hz as [_ <-]. simpl in *. exfalso. by eapply Hno.
    + apply list_lookup_singleton_Some in Hy as [_ <-]. simpl in *. exfalso. by eapply Hno.
    + apply list_lookup_singleton_Some in Hz as [Hz _], Hy as [Hy _]. lia.
Qed.

(** rdu_free() marks the slot that the thread uses. *)
Lemma linv_mark t fd i s :
  linv s -> thr s !! t = Some (PUse fd i) -> linv (set_thr t (PFreeing fd i) (put_fd i (-1) s)).
Proof.
  intros Hi Ht. pose proof (li_fd s Hi) as Hfd. unfold set_thr, put_fd.
  assert (forall j y, alter (fun z => Slot (-1) (s_own z)) i (slots s) !! j = Some y ->
    exists y0, slots s !! j = Some y0 /\ s_own y = s_own y0 /\ (s_fd y = -1 \/ y = y0)) as Hal.
  { intros j y H. destruct (decide (j = i)) as [->|Hne].
    - rewrite list_lookup_alter_eq in H. destruct (slots s !! i) as [x|]; [|done].
      injection H as <-. exists x. split_and!; try done. by left.
    - rewrite list_lookup_alter_ne in H by done. exists y. split_and!; try done. by right. }
  apply (linv_gen t (PUse fd i) _ (alter (fun z => Slot (-1) (s_own z)) i (slots s)) s); try done.
  - intros f [= <-]. by eapply Hfd.
  - by rewrite length_alter.
  - intros j y Hy. by destruct (Hal j y Hy) as (y0 & -> & -> & _).
  - rewrite length_alter. exact (li_slot s Hi t _ Ht).
  - intros t0 c0 Hne H0. pose proof (li_searched s Hi t0 c0 H0) as Hs.
    assert (forall f j y, alter (fun z => Slot (-1) (s_own z)) i (slots s) !! j = Some y ->
      0 <= f -> (forall y0, slots s !! j = Some y0 -> s_fd y0 <> f) -> s_fd y <> f) as Hk.
    { intros f j y Hy Hp Hn. destruct (Hal j y Hy) as (y0 & H1 & _ & [E1| ->]); [lia|by apply Hn]. }
    pose proof (Hfd t0 c0) as Hf0. destruct c0; cbn [searched] in *; try done.
    + intros j y Hj Hy. eapply Hk; [exact Hy|by eapply Hf0|]. intros y0. by apply Hs.
    + intros j y Hy. eapply Hk; [exact Hy|by eapply Hf0|]. intros y0. by apply Hs.
    + intros j y Hy. eapply Hk; [exact Hy|by eapply Hf0|]. intros y0. by apply Hs.
  - intros j k y z Hy Hz He Hp.
    destruct (Hal j y Hy) as (y0 & Hy0 & _ & [E1| ->]); [lia|].
    destruct (Hal k z Hz) as (z0 & Hz0 & _ & [E2| ->]); [lia|].
    by eapply (li_distinct s Hi).
Qed.

(** A rule for one kind of step, when the thread goes on with the descriptor it has *)
#[local] Ltac kept rule Hfd := eapply rule; try done; try (intros ? [= <-]; by apply Hfd).

Lemma linv_step t a s s' : linv s -> lstep t a s = Some s' -> linv s'.
Proof.
  intros Hi Hs. unfold lstep in Hs. destruct (thr s !! t) as [c|] eqn:Ht; [|done]. simpl in Hs.
  pose proof (li_fd s Hi t c) as Hfd. pose proof (li_slot s Hi t c Ht) as Hsl.
  pose proof (li_searched s Hi t c Ht) as Hse.
  destruct c as [|fd|fd i|fd i|fd|fd p|fd i|fd i|fd i|fd i|fd i]; destruct a; try done; simpl in *.
  - destruct (Z.leb_spec 0 fd); [|done]. injection Hs as <-. eapply linv_pc; try done.
    by intros f [= <-].
  - destruct (lib_mtx s) eqn:El; [done|]. injection Hs as <-. kept linv_lib Hfd.
    + by left.
    + intros j x Hj. lia.
  - destruct (slots s !! i) as [x|] eqn:Ex; injection Hs as <-; kept linv_pc Hfd.
    + by destruct (s_fd x =? fd).
    + by destruct (s_fd x =? fd).
    + intros f Hf. apply Hfd; [done|]. by destruct (s_fd x =? fd).
    + destruct (s_fd x =? fd); [by eapply lookup_lt_Some|done].
    + destruct (Z.eqb_spec (s_fd x) fd); [done|]. intros j y Hj Hy.
      destruct (decide (j = i)) as [->|]; [congruence|]. eapply Hse; [|done]. lia.
    + intros j y Hy. eapply Hse; [|done]. apply lookup_lt_Some in Hy.
      apply lookup_ge_None in Ex. lia.
  - destruct (slots s !! i) as [x|] eqn:Ex.
    2:{ injection Hs as <-. kept linv_pc Hfd. }
    destruct (Z.eqb_spec (s_fd x) (-1)); injection Hs as <-.
    + kept linv_claim Hfd.
      * by apply Hfd.
      * by eapply lookup_lt_Some.
    + kept linv_pc Hfd.
  - injection Hs as <-. kept linv_add Hfd. simpl. lia.
  - injection Hs as <-. kept linv_pc Hfd.
  - injection Hs as <-. eapply linv_lib; try done.
    + by destruct p.
    + right. by destruct p.
    + intros f Hf. apply Hfd; [done|]. by destruct p.
    + by destruct p.
    + by destruct p.
  - destruct (slots s !! i) as [x|] eqn:Ex; [|done]. simpl in Hs.
    destruct (s_own x) eqn:Eo; [done|]. injection Hs as <-. eapply linv_own; try done.
    + by left.
    + intros f [= <-]. by apply Hfd.
  - destruct (slots s !! i) as [x|] eqn:Ex; [|done]. simpl in Hs. injection Hs as <-.
    eapply linv_pc; try done; try (by destruct (s_fd x <? 0)).
    intros f Hf. apply Hfd; [done|]. by destruct (s_fd x <? 0).
  - injection Hs as <-. kept linv_pc Hfd.
  - injection Hs as <-. by apply linv_mark.
  - injection Hs as <-. kept linv_pc Hfd.
  - injection Hs as <-. destruct (lookup_lt_is_Some_2 (slots s) i Hsl) as [x Hx].
    eapply linv_own; try done. by right.
Qed.

Lemma linv_steps n s : rtc lrel (lstart n) s -> linv s.
Proof.
  intros Hr. apply (rtc_ind_r (R := lrel) (fun s => linv s) (lstart n)); [apply linv_start| |exact Hr].
  intros s1 s2 _ (t & a & E) H. by eapply linv_step.
Qed.

(** ** The directory that is locked is the one that was asked for *)

(** Nobody frees a directory that another thread is about to use. *)
Definition careful (t : nat) (a : act) (s : lst) : Prop :=
  match a with
  | AFail => forall fd i, thr s !! t = Some (PUse fd i) ->
      forall t' c', t' <> t -> thr s !! t' = Some c' -> pc_fd c' <> Some fd
  | _ => True
  end.
Definition careful_rel (s s' : lst) : Prop := exists t a, lstep t a s = Some s' /\ careful t a s.

Lemma lrun_careful l s s' :
  Forall (fun x => x.2 <> AFail) l -> lrun l s = Some s' -> rtc careful_rel s s'.
Proof.
  intros Hl. revert s. induction Hl as [|[t a] l Ha _ IH]; intros s H; simpl in H.
  { by injection H as <-; constructor. }
  destruct (lstep t a s) as [s1|] eqn:E; [|done]. simpl in H.
  eapply rtc_l; [exists t, a; split; [done|by destruct a]|]. by apply IH.
Qed.

Definition mine (s : lst) : Prop :=
  forall t c fd i, thr s !! t = Some c -> chosen c = Some (fd, i) ->
    exists x, slots s !! i = Some x /\ s_fd x = fd.

Lemma chosen_fd c fd i : chosen c = Some (fd, i) -> pc_fd c = Some fd.
Proof. destruct c; try done; simpl; [destruct p|..]; by intros [= <- <-]. Qed.

(** A step of [t] after which its choice, if it has one, is right, and which keeps the
    descriptors that other threads have chosen. *)
Lemma mine_step t c' sl' m s :
  mine s ->
  (forall fd i, chosen c' = Some (fd, i) -> exists x, sl' !! i = Some x /\ s_fd x = fd) ->
  (forall t0 c0 fd i x, t0 <> t -> thr s !! t0 = Some c0 -> chosen c0 = Some (fd, i) ->
     slots s !! i = Some x -> s_fd x = fd -> exists y, sl' !! i = Some y /\ s_fd y = fd) ->
  mine (Lst sl' m (<[t := c']> (thr s))).
Proof.
  intros Hm Hc Ho t0 c0 fd i H E. simpl in *.
  apply list_lookup_insert_Some in H as [(-> & -> & _)|[Hne H]]; [by apply Hc|].
  destruct (Hm t0 c0 fd i H E) as (x & Hx & Hf). by eapply Ho.
Qed.

Lemma mine_careful t a s s' :
  linv s -> mine s -> lstep t a s = Some s' -> careful t a s -> mine s'.
Proof.
  intros Hi Hm Hs Hc. unfold lstep, set_thr, set_lib, put_fd, put_own, add_slot in Hs.
  cbn [slots lib_mtx thr] in Hs.
  destruct (thr s !! t) as [c|] eqn:Ht; [|done]. simpl in Hs.
  assert (forall t0 c0 fd i x, t0 <> t -> thr s !! t0 = Some c0 -> chosen c0 = Some (fd, i) ->
     slots s !! i = Some x -> s_fd x = fd -> exists y, slots s !! i = Some y /\ s_fd y = fd) as Hkeep
    by (intros ????? _ _ _ H1 H2; by eexists).
  assert (forall i o t0 c0 fd j x, t0 <> t -> thr s !! t0 = Some c0 -> chosen c0 = Some (fd, j) ->
     slots s !! j = Some x -> s_fd x = fd ->
     exists y, alter (fun z => Slot (s_fd z) o) i (slots s) !! j = Some y /\ s_fd y = fd) as Hkeepo.
  { intros i o t0 c0 fd j x _ _ _ H1 H2. destruct (decide (j = i)) as [->|].
    - rewrite list_lookup_alter_eq, H1. simpl. by eexists.
    - rewrite list_lookup_alter_ne by done. by eexists. }
  pose proof (fun fd i => Hm t c fd i Ht) as Hmt.
  destruct c as [|fd|fd i|fd i|fd|fd p|fd i|fd i|fd i|fd i|fd i]; destruct a; try done; simpl in *.
  - destruct (0 <=? fd); [|done]. injection Hs as <-. by apply (mine_step t _ _ _ s).
  - destruct (lib_mtx s); [done|]. injection Hs as <-. by apply (mine_step t _ _ _ s).
  - destruct (slots s !! i) as [x|] eqn:Ex; injection Hs as <-; apply (mine_step t _ _ _ s); try done.
    destruct (Z.eqb_spec (s_fd x) fd); [|done]. intros fd' i' [= <- <-]. by eexists.
  - destruct (slots s !! i) as [x|] eqn:Ex; [|injection Hs as <-; by apply (mine_step t _ _ _ s)].
    destruct (Z.eqb_spec (s_fd x) (-1)) as [E1|]; injection Hs as <-; [|by apply (mine_step t _ _ _ s)].
    apply (mine_step t _ _ _ s); [done| |].
    + intros fd' i' [= <- <-]. rewrite list_lookup_alter_eq, Ex. simpl. by eexists.
    + intros t0 c0 fd' i' y Hne H0 Hch Hy Hfy. rewrite list_lookup_alter_ne; [by eexists|].
      intros ->. pose proof (li_fd s Hi t0 c0 fd' H0 (chosen_fd _ _ _ Hch)).
      assert (y = x) as -> by congruence. lia.
  - injection Hs as <-. apply (mine_step t _ _ _ s); [done| |].
    + intros fd' i' [= <- <-]. rewrite lookup_app_r, Nat.sub_diag by done. simpl. by eexists.
    + intros t0 c0 fd' i' y Hne H0 Hch Hy Hfy. exists y. split; [|done]. by apply lookup_app_l_Some.
  - injection Hs as <-. by apply (mine_step t _ _ _ s).
  - injection Hs as <-. apply (mine_step t _ _ _ s); [done| |done]. intros fd' i' Hch.
    destruct p as [i|]; [|done]. injection Hch as <- <-. by apply Hmt.
  - destruct (slots s !! i) as [x|] eqn:Ex; [|done]. simpl in Hs.
    destruct (s_own x); [done|]. injection Hs as <-. apply (mine_step t _ _ _ s); [done| |by apply Hkeepo].
    intros fd' i' [= <- <-]. rewrite list_lookup_alter_eq, Ex. simpl. eexists. split; [done|].
    destruct (Hmt fd i eq_refl) as (y & Hy & Hf). simpl. congruence.
  - destruct (slots s !! i) as [x|] eqn:Ex; [|done]. simpl in Hs. injection Hs as <-.
    apply (mine_step t _ _ _ s); [done| |done]. intros fd' i' Hch. destruct (s_fd x <? 0); [done|].
    injection Hch as <- <-. by apply Hmt.
  - injection Hs as <-. by apply (mine_step t _ _ _ s).
  - injection Hs as <-. apply (mine_step t _ _ _ s); [done|done|].
    intros t0 c0 fd' i' y Hne H0 Hch Hy Hfy. rewrite list_lookup_alter_ne; [by eexists|].
    intros ->. destruct (Hmt fd i' eq_refl) as (z & Hz & Hfz).
    apply (Hc fd i' Ht t0 c0 Hne H0). rewrite (chosen_fd _ _ _ Hch). congruence.
  - injection Hs as <-. by apply (mine_step t _ _ _ s).
  - injection Hs as <-. apply (mine_step t _ _ _ s); [done|done|by apply Hkeepo].
Qed.

(** C28. As long as nobody frees a directory that another thread is about to use, a
    thread that rdu_buf_lock(fd) hands a slot to has the slot of its own descriptor,
    and is the only one between rdu_write_lock() and rdu_unlock() on it, whatever the
    threads do and however their steps interleave. *)
Theorem locked_slot_is_mine n s t fd i :
  rtc careful_rel (lstart n) s -> thr s !! t = Some (PUse fd i) ->
  (exists x, slots s !! i = Some x /\ s_fd x = fd /\ s_own x = Some t) /\
  (forall t' c', t' <> t -> thr s !! t' = Some c' -> holds c' <> Some i).
Proof.
  intros Hr Ht.
  assert (linv s /\ mine s) as [Hi Hm].
  { apply (rtc_ind_r (R := careful_rel) (fun s => linv s /\ mine s) (lstart n)); [| |exact Hr].
    - split; [apply linv_start|]. intros t0 c0 fd0 i0 H E. by apply lookup_replicate in H as [-> _].
    - intros s1 s2 _ (t1 & a & E & Hc) [H1 H2].
      split; [by eapply linv_step|by eapply mine_careful]. }
  destruct (Hm t _ fd i Ht eq_refl) as (x & Hx & Hf).
  assert (s_own x = Some t) as Ho by (apply (li_own s Hi i x Hx); by exists (PUse fd i)).
  split; [by exists x|]. intros t' c' Hne H' E.
  assert (s_own x = Some t') by (apply (li_own s Hi i x Hx); by exists c'). congruence.
Qed.

(** ** No deadlock *)

(** What keeps thread [t] waiting: the mutex, or the lock of a slot. *)
Definition waits_for (s : lst) (c : pc) (t' : nat) : Prop :=
  match c with
  | PStart _ => lib_mtx s = Some t'
  | PWait _ i => exists x, slots s !! i = Some x /\ s_own x = Some t'
  | _ => False
  end.

Lemma can_go s t c :
  linv s -> thr s !! t = Some c -> c <> PIdle -> (forall fd, c <> PStart fd) ->
  (forall fd i, c <> PWait fd i) -> is_Some (lstep t AGo s).
Proof.
  intros Hi Ht H1 H2 H3. pose proof (li_slot s Hi t c Ht) as Hsl. unfold lstep. rewrite Ht. simpl.
  destruct c; try done; simpl in *.
  - by destruct (H2 fd).
  - by destruct (slots s !! i).
  - destruct (slots s !! i) as [x|]; [|done]. by destruct (s_fd x =? -1).
  - by destruct (H3 fd p).
  - destruct (lookup_lt_is_Some_2 (slots s) p Hsl) as [x ->]. done.
Qed.

(** C29. The threads never block one another for ever: in every reachable state a
    thread inside the library can take its next step, or it waits for the mutex or for
    the lock of a slot, and the thread that holds it can take its next step. *)
Theorem locks_never_deadlock n s t c :
  rtc lrel (lstart n) s -> thr s !! t = Some c -> c <> PIdle ->
  is_Some (lstep t AGo s) \/ exists t', waits_for s c t' /\ is_Some (lstep t' AGo s).
Proof.
  intros Hr Ht Hc. pose proof (linv_steps n s Hr) as Hi.
  destruct (decide (is_Some (lstep t AGo s))) as [|Hno]; [by left|]. right.
  destruct c as [|fd|fd i|fd i|fd|fd p|fd i|fd i|fd i|fd i|fd i]; try done;
    try (exfalso; apply Hno; by eapply can_go).
  - unfold lstep in Hno. rewrite Ht in Hno. simpl in Hno.
    destruct (lib_mtx s) as [t'|] eqn:El; [|exfalso; apply Hno; by eexists].
    exists t'. split; [done|]. destruct (li_lib_thr s Hi t' El) as [c' Hc'].
    pose proof (proj2 (li_lib s Hi t' c' Hc') El) as Hin.
    eapply can_go; try done; destruct c'; try done.
  - pose proof (li_slot s Hi t _ Ht) as Hsl. simpl in Hsl.
    destruct (lookup_lt_is_Some_2 (slots s) i Hsl) as [x Hx].
    unfold lstep in Hno. rewrite Ht in Hno. simpl in Hno. rewrite Hx in Hno. simpl in Hno.
    destruct (s_own x) as [t'|] eqn:Eo; [|exfalso; apply Hno; by eexists].
    exists t'. split; [by exists x|].
    apply (li_own s Hi i x Hx t') in Eo as (c' & Hc' & Hh).
    eapply can_go; try done; destruct c'; try done.
Qed.

(** ** The search, when no other thread interferes *)

Fixpoint steps (t n : nat) : list (nat * act) :=
  match n with O => [] | S n => (t, AGo) :: steps t n end.

Lemma lrun_S t k s s1 s' :
  lstep t AGo s = Some s1 -> lrun (steps t k) s1 = Some s' -> lrun (steps t (S k)) s = Some s'.
Proof. intros E H. simpl. by rewrite E. Qed.

(** The array of [RduLib] behind the slots *)
Definition same_fd (x : slot) (o : option rdu) : Prop := exists p, o = Some p /\ r_fd p = s_fd x.

Lemma lookup_set_thr t c s : is_Some (thr s !! t) -> thr (set_thr t c s) !! t = Some c.
Proof. intros H. simpl. apply list_lookup_insert_eq. by apply lookup_lt_is_Some. Qed.

Lemma find_alone t fd i a s :
  thr s !! t = Some (PFind fd i) -> Forall2 same_fd (drop i (slots s)) a ->
  exists k s', lrun (steps t k) s = Some s' /\ slots s' = slots s /\
    thr s' !! t = Some (match find_fd fd a with
                        | Some j => PUnlock fd (Some (i + j)%nat)
                        | None => PRecycle fd 0
                        end).
Proof.
  intros Ht Ha. remember (drop i (slots s)) as d eqn:Ed. revert i s Ht Ed.
  induction Ha as [|x o d a (p & -> & Hp) Ha IH]; intros i s Ht Ed.
  - exists 1%nat, (set_thr t (PRecycle fd 0) s). split; [|split; [done|]].
    + simpl. unfold lstep. rewrite Ht. simpl. rewrite (lookup_ge_None_2 (slots s)); [done|].
      apply (f_equal length) in Ed. rewrite length_drop in Ed. simpl in Ed. lia.
    + apply lookup_set_thr. by eexists.
  - assert (slots s !! i = Some x) as Hx.
    { rewrite <- (Nat.add_0_r i), <- lookup_drop, <- Ed. done. }
    simpl. rewrite Hp. destruct (Z.eqb_spec (s_fd x) fd) as [He|He].
    + exists 1%nat, (set_thr t (PUnlock fd (Some i)) s). split; [|split; [done|]].
      * simpl. unfold lstep. rewrite Ht. simpl. rewrite Hx, (proj2 (Z.eqb_eq _ _) He). done.
      * rewrite Nat.add_0_r. apply lookup_set_thr. by eexists.
    + destruct (IH (S i) (set_thr t (PFind fd (S i)) s)) as (k & s' & E & Hsl & Ht').
      * apply lookup_set_thr. by eexists.
      * cbn [slots set_thr]. by erewrite drop_S in Ed by exact Hx; injection Ed.
      * exists (S k), s'. split; [|split; [done|]].
        -- eapply lrun_S; [|exact E]. unfold lstep. rewrite Ht. simpl.
           by rewrite Hx, (proj2 (Z.eqb_neq _ _) He).
        -- rewrite Ht'. destruct (find_fd fd a); simpl; [by rewrite Nat.add_succ_r|done].
Qed.

Lemma recycle_alone t fd i a s :
  thr s !! t = Some (PRecycle fd i) -> Forall2 same_fd (drop i (slots s)) a ->
  (i <= length (slots s))%nat ->
  exists k s' j, lrun (steps t k) s = Some s' /\ thr s' !! t = Some (PUnlock fd (Some j)) /\
    j = match find_fd (-1) a with Some j => (i + j)%nat | None => length (slots s) end /\
    exists x, slots s' !! j = Some x /\ s_fd x = fd.
Proof.
  intros Ht Ha Hi. remember (drop i (slots s)) as d eqn:Ed. revert i s Ht Hi Ed.
  induction Ha as [|x o d a (p & -> & Hp) Ha IH]; intros i s Ht Hi Ed.
  - set (s1 := set_thr t (PNew fd) s). exists 2%nat.
    eexists _, (length (slots s)). split; [|split; [|split; [done|]]].
    + eapply (lrun_S t 1 s s1).
      * unfold lstep. rewrite Ht. simpl. rewrite (lookup_ge_None_2 (slots s)); [done|].
        apply (f_equal length) in Ed. rewrite length_drop in Ed. simpl in Ed. lia.
      * simpl. unfold lstep, s1. rewrite (lookup_set_thr t (PNew fd) s) by (by eexists). reflexivity.
    + apply lookup_set_thr. simpl. rewrite list_lookup_insert_eq; [by eexists|by eapply lookup_lt_Some].
    + simpl. rewrite lookup_app_r, Nat.sub_diag by done. by eexists.
  - assert (slots s !! i = Some x) as Hx.
    { rewrite <- (Nat.add_0_r i), <- lookup_drop, <- Ed. done. }
    simpl. rewrite Hp. destruct (Z.eqb_spec (s_fd x) (-1)) as [He|He].
    + exists 1%nat. eexists _, i. split; [|split; [|split; [lia|]]].
      * simpl. unfold lstep. rewrite Ht. simpl. rewrite Hx. simpl.
        rewrite (proj2 (Z.eqb_eq _ _) He). reflexivity.
      * apply lookup_set_thr. by eexists.
      * simpl. rewrite list_lookup_alter_eq, Hx. simpl. by eexists.
    + destruct (IH (S i) (set_thr t (PRecycle fd (S i)) s)) as (k & s' & j & E & Ht' & Hj & Hs).
      * apply lookup_set_thr. by eexists.
      * simpl. by apply lookup_lt_Some in Hx.
      * cbn [slots set_thr]. by erewrite drop_S in Ed by exact Hx; injection Ed.
      * exists (S k), s', j. split; [|split; [done|split; [|done]]].
        -- eapply lrun_S; [|exact E]. unfold lstep. rewrite Ht. simpl. rewrite Hx. simpl.
           by rewrite (proj2 (Z.eqb_neq _ _) He).
        -- rewrite Hj. destruct (find_fd (-1) a); simpl; [by rewrite Nat.add_succ_r|done].
Qed.

(** A thread that holds the mutex and is not interfered with ends its search, at the slot
    that [RduLib.rdu_find], the model without locks, returns on the same array when there is
    room in it and nothing fails; the slot then is for the descriptor. *)
Theorem search_is_sequential {K} `{!RduKernel K} t fd arr s (w : world K rdu_lib) :
  thr s !! t = Some (PFind fd 0) -> 0 <= fd -> w_faults w = [] ->
  l_rdu (w_glob w) = Some arr -> (l_cur (w_glob w) < l_lim (w_glob w))%nat ->
  (l_cur (w_glob w) <= length arr)%nat ->
  Forall2 same_fd (slots s) (take (l_cur (w_glob w)) arr) ->
  exists k s' j, lrun (steps t k) s = Some s' /\ thr s' !! t = Some (PUnlock fd (Some j)) /\
    (exists x, slots s' !! j = Some x /\ s_fd x = fd) /\
    (rdu_find fd w).1 = Ret (Some j).
Proof.
  intros Ht Hfd Hf Harr Hcur Hlen Ha.
  destruct (find_alone t fd 0 _ s Ht Ha) as (k1 & s1 & E1 & Hs1 & Ht1).
  unfold rdu_find, gl. rewrite bind_gets, Harr.
  set (a := take _ arr) in *.
  destruct (find_fd fd a) as [j|] eqn:Ef.
  - exists k1, s1, j. split_and!; try done. rewrite Hs1.
    destruct (find_fd_Some _ _ _ Ef) as (p & Hp & Hpf).
    destruct (Forall2_lookup_r _ _ _ _ _ Ha Hp) as (x & Hx & p' & [= <-] & Hpx).
    exists x. by rewrite <- Hpx.
  - destruct (recycle_alone t fd 0 a s1 Ht1) as (k2 & s2 & j & E2 & Ht2 & Hj & Hx);
      [by rewrite Hs1|lia|].
    exists (k1 + k2)%nat, s2, j. split; [|split; [done|split; [done|]]].
    { clear -E1 E2. revert s E1. induction k1 as [|k1 IH]; intros s E1; simpl in *; [by injection E1 as ->|].
      destruct (lstep t AGo s) as [s3|]; [|done]. by apply IH. }
    rewrite Hj. destruct (find_fd (-1) a) as [j'|] eqn:Er.
    + destruct (find_fd_Some _ _ _ Er) as (p & Hp & Hpf).
      unfold rdu_get, gl. rewrite bind_assoc, bind_gets, Harr. simpl.
      apply lookup_take_Some in Hp as [Hp _]. by rewrite Hp.
    + assert (length (slots s1) = l_cur (w_glob w)) as ->.
      { rewrite Hs1, (Forall2_length _ _ _ Ha). unfold a. rewrite length_take. lia. }
      unfold rdu_new, rdu_append, gl. rewrite (bind_run _ _ _ _ _ (fallible_ok w Hf)).
      cbn [truth negb Z.eqb]. rewrite bind_gets, bind_assoc, bind_gets, Harr.
      rewrite (proj2 (Nat.leb_le _ _)) by lia. done.
Qed.

(** ** What the check behind rdu_write_lock() misses *)

(** Threads 0 and 1 read the directory 3, thread 2 opens another one. *)
Definition mixup : list (nat * act) :=
  [(0%nat, ACall 3)] ++ steps 0 7 ++ [(1%nat, ACall 3)] ++ steps 1 3 ++
  [(0%nat, AFail); (2%nat, ACall 5)] ++ steps 2 5 ++ steps 0 2 ++ steps 1 2.

(** Without that care the check [p->fd < 0] is not enough: when rdu_init() fails
    in one of two threads that read the same directory, the slot is freed, and may be
    given to a third thread for another directory before the second thread gets its
    lock; the descriptor is then not negative but that of the other directory, and
    the second thread goes on with a slot that is not its own. *)
Theorem wrong_directory_locked :
  exists s x, rtc lrel (lstart 3) s /\ thr s !! 1%nat = Some (PUse 3 0) /\
    slots s !! 0%nat = Some x /\ s_fd x = 5.
Proof.
  destruct (lrun mixup (lstart 3)) as [s|] eqn:E; [|done].
  exists s. vm_compute in E. injection E as <-. eexists. split; [|done].
  apply (lrun_steps mixup). vm_compute. reflexivity.
Qed.

Definition alone : list (nat * act) := [(0%nat, ACall 3)] ++ steps 0 7.

Lemma locked_slot_is_mine_witness :
  exists s x, lrun alone (lstart 2) = Some s /\ slots s !! 0%nat = Some x /\
    s_fd x = 3 /\ s_own x = Some 0%nat.
Proof.
  destruct (lrun alone (lstart 2)) as [s|] eqn:E; [|discriminate E].
  assert (rtc careful_rel (lstart 2) s) as Hr.
  { eapply lrun_careful; [|exact E]. repeat constructor; discriminate. }
  exists s. assert (thr s !! 0%nat = Some (PUse 3 0)) as Ht by (revert E; vm_compute; by intros [= <-]).
  destruct (locked_slot_is_mine 2 s 0 3 0 Hr Ht) as [(x & H1 & H2 & H3) _].
  by exists x.
Defined.

Lemma locks_never_deadlock_witness :
  exists s, lrun [(0%nat, ACall 3); (0%nat, AGo); (1%nat, ACall 4)] (lstart 2) = Some s /\
    (is_Some (lstep 1 AGo s) \/ exists t', waits_for s (PStart 4) t' /\ is_Some (lstep t' AGo s)).
Proof.
  destruct (lrun _ (lstart 2)) as [s|] eqn:E; [|discriminate E]. exists s. split; [done|].
  pose proof (lrun_steps _ _ _ E) as Hr.
  assert (thr s !! 1%nat = Some (PStart 4)) as Ht by (revert E; vm_compute; by intros [= <-]).
  exact (locks_never_deadlock 2 s 1 (PStart 4) Hr Ht ltac:(discriminate)).
Defined.

(** Slot 1 was freed: a new directory gets it. *)
Lemma search_is_sequential_witness :
  exists k s' j, lrun (steps 0 k) (Lst [Slot 3 None; Slot (-1) None] (Some 0%nat) [PFind 7 0]) = Some s' /\
    thr s' !! 0%nat = Some (PUnlock 7 (Some j)) /\ j = 1%nat.
Proof.
  set (p := fun fd => Rdu fd false false None PosNull BUFSIZ None).
  set (w := World 0 [] tt (RduLib_ (Some [Some (p 3); Some (p (-1)); None]) 2 3) ∅ ∅ ∅ 3 ∅ [] [] []
            : world unit rdu_lib).
  set (KI := {| k_rdu _ _ _ k := ((0, RduAnswer [] 0 false false 0), k);
                k_rdu_ino _ b _ k := ((0, b), k) |} : RduKernel unit).
  assert (Forall2 same_fd [Slot 3 None; Slot (-1) None] (take 2 [Some (p 3); Some (p (-1)); None])) as Ha.
  { constructor; [by exists (p 3)|]. constructor; [by exists (p (-1))|]. constructor. }
  destruct (search_is_sequential 0 7 [Some (p 3); Some (p (-1)); None]
    (Lst [Slot 3 None; Slot (-1) None] (Some 0%nat) [PFind 7 0]) w eq_refl ltac:(lia) eq_refl
    eq_refl ltac:(simpl; lia) ltac:(simpl; lia) Ha) as (k & s' & j & E & Ht & _ & Hj).
  exists k, s', j. split; [exact E|]. split; [exact Ht|].
  vm_compute in Hj. by injection Hj.
Defined.
