(* ===== verification/Ftw.v ===== *)
(** * extlib/non-glibc/au_nftw.c: walking a directory tree

    The nftw(3) that is built where the C library has none with FTW_ACTIONRETVAL.  What
    lstat(2), stat(2), access(2), opendir(3) and readdir(3) answer is a tree, the file
    system at the time of the walk.  The path buffer is grown and cut in place by the
    source; the callee only writes behind the part its caller uses, so here every call
    has its own path. *)
From S2P Require Import Prelude CString AufsType Sys.

Definition ENAMETOOLONG : Z := 36.
Definition EACCES : Z := 13.
Definition PATH_MAX : Z := 4096.

(** ** <ftw.h> and au_nftw.h *)

Definition FTW_F : Z := 1.
Definition FTW_D : Z := 2.
Definition FTW_DNR : Z := 3.
Definition FTW_NS : Z := 4.
Definition FTW_SL : Z := 5.
Definition FTW_DP : Z := 6.
Definition FTW_SLN : Z := 7.

Definition FTW_PHYS : Z := 1.
Definition FTW_MOUNT : Z := 2.
Definition FTW_DEPTH : Z := 8.

Definition FTW_CONTINUE : Z := 0.
Definition FTW_SKIP_SUBTREE : Z := 2.
Definition FTW_ACTIONRETVAL : Z := 16.

(** ** The file system *)

Inductive fkind := KDir | KLnk | KOther.

#[export] Instance fkind_eq_dec : EqDecision fkind.
Proof. solve_decision. Defined.

Record stat := Stat { st_dev : Z; st_ino : Z; st_kind : fkind }.

(** The answers for one name: lstat(2) and stat(2) (or their errno), whether
    access(name, R_OK) succeeds, and the errno of opendir(3), 0 if it succeeds. *)
Record answers := Answers {
  an_lstat : Z + stat;
  an_stat : Z + stat;
  an_access : bool;
  an_opendir : Z
}.

(** With the entries that readdir(3) returns, in its order. *)
Inductive fsnode := FsNode (a : answers) (sub : list (bytes * fsnode)).

(** ** do_nftw() *)

Record history := History { h_dev : Z; h_ino : Z; h_base : nat }.

(** "." or ".." *)
Definition is_dots (name : bytes) : bool :=
  match name with
  | [c] => bool_decide (c = "."%char)
  | [c; d] => bool_decide (c = "."%char) && bool_decide (d = "."%char)
  | _ => false
  end.

Definition SLASH : ascii := "/"%char.

(** [j]: where the "/" before a child's name is written. *)
Definition slash_at (path : bytes) : nat :=
  match last path with
  | Some c => if decide (c = SLASH) then (length path - 1)%nat else length path
  | None => O
  end.

Definition child_path (path name : bytes) : bytes := take (slash_at path) path ++ SLASH :: name.

(** [lev.base] *)
Definition lev_base (path : bytes) (h : list history) : nat :=
  match h with
  | hd :: _ => h_base hd
  | [] => default O (strrchr path SLASH)
  end.

(** The first [if] of do_nftw(): [None] is the return of -1; the structure is [None] when
    no call has filled it.  The second component is the last errno, if a call failed. *)
Definition stat_type (flags : Z) (a : answers) : option (Z * option stat) * option Z :=
  let phys := truth (Z.land flags FTW_PHYS) in
  match (if phys then an_lstat a else an_stat a) with
  | inl e =>
      if negb phys && (e =? ENOENT) then
        match an_lstat a with
        | inr s => (Some (FTW_SLN, Some s), Some e)
        | inl e' => (if e' =? EACCES then Some (FTW_NS, None) else None, Some e')
        end
      else (if e =? EACCES then Some (FTW_NS, None) else None, Some e)
  | inr s =>
      match st_kind s with
      | KDir =>
          if negb (an_access a) then (Some (FTW_DNR, Some s), Some EACCES)
          else if truth (Z.land flags FTW_DEPTH) then (Some (FTW_DP, Some s), None)
          else (Some (FTW_D, Some s), None)
      | KLnk => (Some (if phys then FTW_SL else FTW_SLN, Some s), None)
      | KOther => (Some (FTW_F, Some s), None)
      end
  end.

Section ftw.
Context {K G : Type}.
Notation world := (world K G).

(** The callback's arguments: the path, the structure, the type, [ftw->base]. *)
Context (fn : bytes -> option stat -> Z -> nat -> M world Z).

(** A field of the structure that lstat(2) filled. *)
Definition filled (st : option stat) : M world stat :=
  match st with
  | Some s => mret s
  | None => ub "uninitialised struct stat"
  end.

Definition same_history (s : stat) (h : history) : bool :=
  (h_dev h =? st_dev s) && (h_ino h =? st_ino s).

(** The loop over the entries of the directory [path]; [walk] is the call of do_nftw(). *)
Definition each_entry (walk : fsnode -> bytes -> M world Z) (path : bytes) :=
  fix each (sub : list (bytes * fsnode)) : M world (option Z) :=
    match sub with
    | [] => mret None
    | (name, c) :: rest =>
        if is_dots name then each rest
        else if PATH_MAX - Z.of_nat (length path) <=? Z.of_nat (length name) then
          put_errno ENAMETOOLONG ;; mret (Some (-1))
        else
          r ← walk c (child_path path name);
          if truth r then mret (Some r) else each rest
    end.

Fixpoint do_nftw (t : fsnode) (path : bytes) (fd_limit flags : Z) (h : list history)
    {struct t} : M world Z :=
  let '(FsNode a sub) := t in
  let l := length path in
  let '(r, e) := stat_type flags a in
  match e with Some e => put_errno e | None => mret tt end ;;
  match r with
  | None => mret (-1)
  | Some (type, st) =>
      other ← (match h with
               | hd :: _ =>
                   if truth (Z.land flags FTW_MOUNT) then
                     s ← filled st; mret (negb (st_dev s =? h_dev hd))
                   else mret false
               | [] => mret false
               end);
      if (other : bool) then mret 0
      else
        let base := lev_base path h in
        let depth := truth (Z.land flags FTW_DEPTH) in
        r ← (if negb depth then fn path st type base else mret 0);
        if truth r then
          mret (if truth (Z.land flags FTW_ACTIONRETVAL) && (r =? FTW_SKIP_SUBTREE)
                   && (type =? FTW_D)
                then FTW_CONTINUE else r)
        else
          seen ← (match h with
                  | [] => mret false
                  | _ => s ← filled st; mret (existsb (same_history s) h)
                  end);
          if (seen : bool) then mret 0
          else
            r ← (if ((type =? FTW_D) || (type =? FTW_DP)) && truth fd_limit then
                   if truth (an_opendir a) then
                     put_errno (an_opendir a) ;;
                     mret (if an_opendir a =? EACCES then None else Some (-1))
                   else
                     s ← filled st;
                     let new := History (st_dev s) (st_ino s) (l + 1) in
                     each_entry (fun c p => do_nftw c p (fd_limit - 1) flags (new :: h)) path sub
                 else mret None);
            match r with
            | Some r => mret r
            | None =>
                if depth then fn path st type base else mret 0
            end
  end.

(** au_nftw(); pthread_setcancelstate() is left out. *)
Definition au_nftw (t : fsnode) (path : bytes) (fd_limit flags : Z) : M world Z :=
  if fd_limit <=? 0 then mret 0
  else if PATH_MAX <? Z.of_nat (length path) then put_errno ENAMETOOLONG ;; mret (-1)
  else do_nftw t path fd_limit flags [].
End ftw.

(** ** What the walk visits *)

Section fsnode_ind.
Context (P : fsnode -> Prop).
Context (H : forall a sub, Forall (fun e => P e.2) sub -> P (FsNode a sub)).

Fixpoint fsnode_ind' (t : fsnode) : P t :=
  let '(FsNode a sub) := t in
  H a sub ((fix go (l : list (bytes * fsnode)) : Forall (fun e => P e.2) l :=
              match l with
              | [] => Forall_nil_2 _
              | (n, c) :: r => Forall_cons_2 _ (n, c) r (fsnode_ind' c) (go r)
              end) sub).
End fsnode_ind.

Definition node_type (s : stat) : Z :=
  match st_kind s with KDir => FTW_D | KLnk => FTW_SL | KOther => FTW_F end.

(** The nodes in the order of the walk: those of the device [dev] that are not at or
    below a name that [skip]s. *)
Fixpoint entries (skip : bytes -> bool) (dev : Z) (t : fsnode) (path name : bytes)
  : list (bytes * stat * Z) :=
  let '(FsNode a sub) := t in
  match an_lstat a with
  | inl _ => []
  | inr s =>
      if negb (st_dev s =? dev) || skip name then []
      else (path, s, node_type s) ::
           match st_kind s with
           | KDir =>
               flat_map (fun '(n, c) => if is_dots n then []
                                        else entries skip dev c (child_path path n) n) sub
           | _ => []
           end
  end.

(** A tree that the walk gets through: on the device [dev] every call succeeds, the names
    are names, the paths fit, the tree is no deeper than [fd] and without loops.  [action]
    says whether FTW_SKIP_SUBTREE is understood. *)
Fixpoint walkable (skip : bytes -> bool) (action : bool) (dev : Z) (t : fsnode)
    (path name : bytes) (fd : Z) (h : list history) : Prop :=
  let '(FsNode a sub) := t in
  match an_lstat a with
  | inl _ => False
  | inr s =>
      (st_kind s = KDir -> an_access a = true) /\
      (st_dev s = dev ->
      if skip name then action = true /\ st_kind s = KDir
      else
        existsb (same_history s) h = false /\
        (st_kind s = KDir ->
         an_opendir a = 0 /\ 0 < fd /\
         foldr (fun '(n, c) P =>
           (is_dots n = false ->
              n <> [] /\ SLASH ∉ n /\ Z.of_nat (length path + length n) < PATH_MAX /\
              walkable skip action dev c (child_path path n) n (fd - 1)
                (History (st_dev s) (st_ino s) (length path + 1) :: h)) /\ P) True sub))
  end.

Lemma bind_ext {W A B} (m m' : M W A) (f f' : A -> M W B) w :
  m w = m' w -> (forall a w', f a w' = f' a w') -> (m ≫= f) w = (m' ≫= f') w.
Proof.
  intros Hm Hf. unfold mbind, M_bind. rewrite Hm. by destruct (m' w) as [[] ?].
Qed.

Section run_all.
Context {W A : Type} (act : A -> M W unit).

Fixpoint run_all (l : list A) : M W unit :=
  match l with
  | [] => mret tt
  | x :: r => act x ;; run_all r
  end.

Lemma run_all_app l1 l2 w : run_all (l1 ++ l2) w = (run_all l1 ;; run_all l2) w.
Proof.
  revert w; induction l1 as [|x l1 IH]; intros w; [done|]. simpl.
  rewrite bind_assoc. apply bind_ext; [done|]. intros _ w'. apply IH.
Qed.
End run_all.

Lemma child_path_slash path n :
  n <> [] -> SLASH ∉ n -> slash_at (child_path path n) = length (child_path path n).
Proof.
  intros Hn Hs. unfold slash_at, child_path at 1.
  destruct (exists_last Hn) as (n' & c & ->).
  rewrite app_comm_cons, app_assoc, last_snoc.
  destruct (decide (c = SLASH)) as [->|]; [set_solver|done].
Qed.

Lemma drop_child_path path n :
  slash_at path = length path -> drop (length path + 1) (child_path path n) = n.
Proof.
  intros H. unfold child_path. rewrite H, take_ge by done.
  rewrite drop_app_ge by lia. by replace (_ - _)%nat with 1%nat by lia.
Qed.

Lemma child_path_eq path n :
  slash_at path = length path -> child_path path n = path ++ SLASH :: n.
Proof. intros H. unfold child_path. by rewrite H, take_ge. Qed.

Section walk.
Context {K G : Type}.
Notation world := (world K G).
Context (fn : bytes -> option stat -> Z -> nat -> M world Z).
Context (act : bytes * stat * Z -> M world unit) (skip : bytes -> bool) (flags : Z).
(** The callback skips the subtree of some names and does [act] for the others. *)
Context (Hfn : forall path s ty base w,
  fn path (Some s) ty base w =
    (if skip (drop base path) then mret FTW_SKIP_SUBTREE
     else act (path, s, ty) ;; mret FTW_CONTINUE) w).
Context (Hphys : truth (Z.land flags FTW_PHYS) = true)
  (Hmount : truth (Z.land flags FTW_MOUNT) = true)
  (Hdepth : truth (Z.land flags FTW_DEPTH) = false).
Notation action := (truth (Z.land flags FTW_ACTIONRETVAL)).

Lemma stat_type_ok a s :
  an_lstat a = inr s -> (st_kind s = KDir -> an_access a = true) ->
  stat_type flags a = (Some (node_type s, Some s), None).
Proof.
  intros Hs Ha. unfold stat_type, node_type. rewrite Hphys, Hs.
  destruct (st_kind s); [|done..]. by rewrite Ha, Hdepth.
Qed.

(** Stat, device and callback of one node; what remains is [k]. *)
Lemma each_entry_spec dev path fd h sub :
  slash_at path = length path ->
  Forall (fun e => forall w, is_dots e.1 = false ->
     Z.of_nat (length path + length e.1) < PATH_MAX /\
     do_nftw fn e.2 (child_path path e.1) fd flags h w =
       (run_all act (entries skip dev e.2 (child_path path e.1) e.1) ;; mret 0) w) sub ->
  forall w,
  each_entry (fun c p => do_nftw fn c p fd flags h) path sub w =
    (run_all act (flat_map (fun '(n, c) => if is_dots n then []
                       else entries skip dev c (child_path path n) n) sub) ;; mret None) w.
Proof.
  intros Hp. induction sub as [|[n c] sub IH]; intros Hall w; [done|].
  apply Forall_cons in Hall as [Hc Hall]. specialize (IH Hall). simpl in Hc.
  cbn [each_entry flat_map]. destruct (is_dots n); [apply IH|].
  destruct (Hc w eq_refl) as [Hlen _]. rewrite (proj2 (Z.leb_gt _ _)) by lia.
  erewrite (bind_ext (run_all act (_ ++ _))); [|apply run_all_app|reflexivity].
  rewrite bind_assoc.
  erewrite (bind_ext (do_nftw _ _ _ _ _ _)); [|apply (Hc w eq_refl)|reflexivity].
  rewrite bind_assoc. apply bind_ext; [done|]. intros _ w'. rewrite bind_ret. apply IH.
Qed.

Lemma walkable_children dev path fd h (sub : list (bytes * fsnode)) :
  slash_at path = length path ->
  foldr (fun '(n, c) P =>
    (is_dots n = false ->
       n <> [] /\ SLASH ∉ n /\ Z.of_nat (length path + length n) < PATH_MAX /\
       walkable skip action dev c (child_path path n) n fd h) /\ P) True sub ->
  Forall (fun e => forall path name fd h,
    walkable skip action dev e.2 path name fd h ->
    drop (lev_base path h) path = name -> slash_at path = length path ->
    match h with
    | hd :: _ => h_dev hd = dev
    | [] => let '(FsNode a _) := e.2 in exists s, an_lstat a = inr s /\ st_dev s = dev
    end ->
    forall w, do_nftw fn e.2 path fd flags h w =
      (run_all act (entries skip dev e.2 path name) ;; mret 0) w) sub ->
  match h with hd :: _ => h_dev hd = dev /\ h_base hd = S (length path) | [] => False end ->
  Forall (fun e => forall w, is_dots e.1 = false ->
     Z.of_nat (length path + length e.1) < PATH_MAX /\
     do_nftw fn e.2 (child_path path e.1) fd flags h w =
       (run_all act (entries skip dev e.2 (child_path path e.1) e.1) ;; mret 0) w) sub.
Proof.
  intros Hp Hw IH Hh. induction IH as [|[n c] sub Hc _ IHs]; [constructor|].
  destruct Hw as [Hw Hws]. constructor; [|by apply IHs]. intros w Hd.
  destruct (Hw Hd) as (Hn & Hs & Hl & Hwc). split; [done|].
  destruct h as [|hd h]; [done|]. destruct Hh as [Hdev Hbase].
  apply Hc; [done| |by apply child_path_slash|done].
  unfold lev_base. rewrite Hbase, <- Nat.add_1_r. by apply drop_child_path.
Qed.

(** The walk is the visit of the entries, one after the other. *)
Lemma do_nftw_entries dev t path name fd h :
  walkable skip action dev t path name fd h ->
  drop (lev_base path h) path = name -> slash_at path = length path ->
  match h with
  | hd :: _ => h_dev hd = dev
  | [] => let '(FsNode a _) := t in exists s, an_lstat a = inr s /\ st_dev s = dev
  end ->
  forall w, do_nftw fn t path fd flags h w =
    (run_all act (entries skip dev t path name) ;; mret 0) w.
Proof.
  revert path name fd h. induction t as [a sub IH] using fsnode_ind'.
  intros path name fd h Hwalk Hname Hp Hh w.
  assert (exists s, an_lstat a = inr s) as [s Hs].
  { cbn [walkable] in Hwalk. destruct (an_lstat a) as [|s]; [done|by exists s]. }
  cbn [walkable entries do_nftw] in *. rewrite Hs in *.
  destruct Hwalk as [Hacc Hwalk]. rewrite (stat_type_ok a s Hs Hacc). cbv beta iota.
  rewrite bind_ret. destruct (decide (st_dev s = dev)) as [Hdev|Hdev].
  - specialize (Hwalk Hdev). rewrite (proj2 (Z.eqb_eq _ _) Hdev). cbn [negb orb].
    rewrite (bind_run _ _ w false w) by (destruct h as [|hd h]; [done|];
      unfold filled; by rewrite Hmount, bind_ret, Hh, Hdev, Z.eqb_refl).
    cbv beta iota. cbn zeta. rewrite Hdepth. cbn [negb].
    erewrite bind_ext; [|apply Hfn|reflexivity]. rewrite Hname.
    destruct (skip name).
    { destruct Hwalk as (Ha & Hk). rewrite bind_ret. unfold node_type. by rewrite Ha, Hk. }
    destruct Hwalk as [Hfresh Hsub]. cbn [run_all]. rewrite !bind_assoc.
    apply bind_ext; [done|]. intros _ w1. rewrite bind_ret.
    change (truth FTW_CONTINUE) with false. cbv iota.
    rewrite (bind_run _ _ w1 false w1) by (destruct h; [done|by rewrite <- Hfresh]).
    cbv iota. unfold node_type. destruct (st_kind s) eqn:Hk; [|reflexivity..].
    destruct (Hsub eq_refl) as (Hop & Hfd & Hfold).
    change (FTW_D =? FTW_D) with true. cbn [orb andb]. unfold truth at 1.
    rewrite (proj2 (Z.eqb_neq fd 0)) by lia. cbn [negb]. rewrite Hop.
    change (truth 0) with false. cbv iota. unfold filled. rewrite bind_assoc, bind_ret.
    set (h' := _ :: h) in *.
    erewrite (bind_ext (each_entry _ _ _));
      [|apply (each_entry_spec dev); [done|apply walkable_children; [done|exact Hfold|done|]]|
        reflexivity].
    + rewrite !bind_assoc. apply bind_ext; [done|]. intros _ w2. by rewrite bind_ret.
    + split; [done|]. simpl. lia.
  - rewrite (proj2 (Z.eqb_neq _ _) Hdev). cbn [negb orb].
    destruct h as [|hd h]; [by destruct Hh as (? & [= ->] & ?)|].
    rewrite (bind_run _ _ w true w); [done|].
    unfold filled. by rewrite Hmount, bind_ret, Hh, (proj2 (Z.eqb_neq _ _) Hdev).
Qed.

Lemma children_visited dev path fd h (sub : list (bytes * fsnode)) :
  slash_at path = length path ->
  foldr (fun '(n, c) P =>
    (is_dots n = false ->
       n <> [] /\ SLASH ∉ n /\ Z.of_nat (length path + length n) < PATH_MAX /\
       walkable skip action dev c (child_path path n) n fd h) /\ P) True sub ->
  match h with hd :: _ => h_dev hd = dev /\ h_base hd = S (length path) | [] => False end ->
  Forall (fun e => forall w, is_dots e.1 = false ->
     Z.of_nat (length path + length e.1) < PATH_MAX /\
     do_nftw fn e.2 (child_path path e.1) fd flags h w =
       (run_all act (entries skip dev e.2 (child_path path e.1) e.1) ;; mret 0) w) sub.
Proof.
  intros Hp Hw. apply walkable_children; [done..|]. apply Forall_true. intros [n c] p nm fd' h' ?.
  by apply do_nftw_entries.
Qed.

Lemma au_nftw_entries a sub s path name fd :
  let t := FsNode a sub in
  an_lstat a = inr s -> walkable skip action (st_dev s) t path name fd [] ->
  drop (lev_base path []) path = name -> slash_at path = length path ->
  0 < fd -> Z.of_nat (length path) <= PATH_MAX ->
  forall w, au_nftw fn t path fd flags w =
    (run_all act (entries skip (st_dev s) t path name) ;; mret 0) w.
Proof.
  intros t Hs Hw Hn Hp Hfd Hl w. unfold au_nftw.
  rewrite (proj2 (Z.leb_gt _ _)), (proj2 (Z.ltb_ge _ _)) by lia.
  apply do_nftw_entries; [done..|]. by exists s.
Qed.

(** A callback's FTW_SKIP_SUBTREE ends the whole walk when FTW_ACTIONRETVAL is not set. *)
Lemma do_nftw_skip a sub s path name fd h w :
  action = false -> an_lstat a = inr s -> (st_kind s = KDir -> an_access a = true) ->
  match h with hd :: _ => h_dev hd = st_dev s | [] => True end ->
  drop (lev_base path h) path = name -> skip name = true ->
  do_nftw fn (FsNode a sub) path fd flags h w = (Ret FTW_SKIP_SUBTREE, w).
Proof.
  intros Ha Hs Hacc Hh Hn Hskip. cbn [do_nftw]. rewrite (stat_type_ok a s Hs Hacc).
  cbv beta iota. rewrite bind_ret.
  rewrite (bind_run _ _ w false w) by (destruct h as [|hd h]; [done|];
    unfold filled; by rewrite Hmount, bind_ret, Hh, Z.eqb_refl).
  cbv beta iota. cbn zeta. rewrite Hdepth. cbn [negb].
  erewrite bind_ext; [|apply Hfn|reflexivity]. rewrite Hn, Hskip, bind_ret, Ha. done.
Qed.

Lemma each_entry_stops dev path fd h pre n c post :
  slash_at path = length path ->
  Forall (fun e => forall w, is_dots e.1 = false ->
     Z.of_nat (length path + length e.1) < PATH_MAX /\
     do_nftw fn e.2 (child_path path e.1) fd flags h w =
       (run_all act (entries skip dev e.2 (child_path path e.1) e.1) ;; mret 0) w) pre ->
  is_dots n = false -> Z.of_nat (length path + length n) < PATH_MAX ->
  (forall w, do_nftw fn c (child_path path n) fd flags h w = (Ret FTW_SKIP_SUBTREE, w)) ->
  forall w,
  each_entry (fun c p => do_nftw fn c p fd flags h) path (pre ++ (n, c) :: post) w =
    (run_all act (flat_map (fun '(n, c) => if is_dots n then []
                       else entries skip dev c (child_path path n) n) pre) ;;
     mret (Some FTW_SKIP_SUBTREE)) w.
Proof.
  intros Hp Hpre Hd Hl Hc. induction pre as [|[m d] pre IH]; intros w.
  - cbn [app each_entry flat_map run_all]. rewrite Hd, (proj2 (Z.leb_gt _ _)) by lia.
    by rewrite (bind_run _ _ _ _ _ (Hc w)), bind_ret.
  - apply Forall_cons in Hpre as [Hm Hpre]. specialize (IH Hpre). simpl in Hm.
    cbn [app each_entry flat_map]. destruct (is_dots m); [apply IH|].
    destruct (Hm w eq_refl) as [Hlen E]. rewrite (proj2 (Z.leb_gt _ _)) by lia.
    erewrite (bind_ext (run_all act (_ ++ _))); [|apply run_all_app|reflexivity].
    rewrite bind_assoc. erewrite (bind_ext (do_nftw _ _ _ _ _ _)); [|apply E|reflexivity].
    rewrite bind_assoc. apply bind_ext; [done|]. intros _ w'. rewrite bind_ret. apply IH.
Qed.
End walk.
