(* ===== verification/Mtab.v ===== *)
(** * proc_mnt.c, mtab.c and extlib/non-glibc/au_decode_mntpnt.c: the mount tables

    A table is the list of entries that getmntent(3) reads from it, and a FILE that is
    written the list of entries that addmntent(3) appended to it; which of them are still
    in its buffer matters where the file is renamed. *)
From S2P Require Import Prelude CString AufsType Sys.

Record mntent := Mntent {
  mnt_fsname : bytes;
  mnt_dir : bytes;
  mnt_type : bytes;
  mnt_opts : bytes;
  mnt_freq : Z;
  mnt_passno : Z
}.

#[export] Instance mntent_eq_dec : EqDecision mntent.
Proof. solve_decision. Defined.

(** /proc/self/mounts and /etc/mtab *)
Class MountKernel (K : Type) := {
  k_mounts : K -> list mntent;
  k_mtab : K -> list mntent;
  k_mtab_is_proc : K -> bool;              (* statfs(MTab): is it a link into /proc? *)
  k_link : K -> Z * K;                     (* link(pid_file, MTab "~"): errno *)
  (* of the entries added to a FILE, how many stdio has written to the file by then; a
     line that is written in part is not counted *)
  k_written : list mntent -> nat;
  k_rename : list mntent -> K -> Z * K;    (* rename(MTab "~", MTab), with this content *)
  k_flush : list mntent -> K -> Z * K;     (* exit(3) writes the rest of the open FILE *)
  k_tilde_ours : K -> bool                 (* does MTab "~" exist, with our inode? *)
}.

(** ** hasmntopt(3): the options from the one named [opt] on *)

Fixpoint drop_prefix (p s : bytes) : option bytes :=
  match p, s with
  | [], _ => Some s
  | c :: p, d :: s => if decide (c = d) then drop_prefix p s else None
  | _ :: _, [] => None
  end.

(** Does an option named [opt] start here? *)
Definition opt_here (opt s : bytes) : bool :=
  match drop_prefix opt s with
  | Some (c :: _) => bool_decide (c = "="%char) || bool_decide (c = ","%char)
  | Some [] => true
  | None => false
  end.

Fixpoint next_opt (s : bytes) : option bytes :=
  match s with
  | [] => None
  | c :: r => if decide (c = ","%char) then Some r else next_opt r
  end.

Fixpoint hasmntopt_fuel (fuel : nat) (s opt : bytes) : option bytes :=
  match fuel with
  | O => None
  | S k =>
      if opt_here opt s then Some s
      else r ← next_opt s; hasmntopt_fuel k r opt
  end.

Definition hasmntopt (ent : mntent) (opt : bytes) : option bytes :=
  hasmntopt_fuel (S (length (mnt_opts ent))) (mnt_opts ent) opt.

(** ** au_decode_mntpnt() *)

(** isgraph(3) on a [char]; negative values are no characters. *)
Definition isgraph (c : ascii) : bool := (33 <=? schar_val c) && (schar_val c <=? 126).

(** sprintf(p, "\\%03o", c) without the terminator: [%o] takes the promoted [int]. *)
Definition octal_escape (c : ascii) : bytes :=
  "\"%char :: pad_left 3 (digits 8 (u32 (schar_val c))).

(** Bytes stored at [p], inside the buffer. *)
Definition poke (buf : bytes) (p : nat) (data : bytes) : option bytes :=
  if (p + length data <=? length buf)%nat
  then Some (take p buf ++ data ++ drop (p + length data) buf)
  else None.

Section mtab.
Context {K G : Type} `{!MountKernel K}.
Notation world := (world K G).

Definition store (buf : bytes) (p : nat) (data : bytes) : M world bytes :=
  match poke buf p data with
  | Some b => mret b
  | None => ub "write beyond the buffer"
  end.

(** The loop, then the terminator. *)
Fixpoint decode_loop (src buf : bytes) (p : nat) (len : Z) : M world (option bytes) :=
  match src with
  | c :: r =>
      if 0 <? len then
        if isgraph c then
          buf ← store buf p [c]; decode_loop r buf (S p) (len - 1)
        else if 4 <? len then
          buf ← store buf p (octal_escape c ++ [NUL]);
          decode_loop r buf (p + 4) (len - 4)
        else mret None
      else mret None
  | [] =>
      if 0 <? len then buf ← store buf p [NUL]; mret (Some (cstr buf)) else mret None
  end.

(** [dst] is the buffer, as it is before the call. *)
Definition au_decode_mntpnt (dst src : bytes) : M world (option bytes) :=
  decode_loop src dst 0 (Z.of_nat (length dst)).

(** The one of au_util.h, for glibc, whose getmntent(3) decodes the entries. *)
Definition au_decode_mntpnt_glibc (src : bytes) : M world (option bytes) := mret (Some src).

(** ** au_proc_getmntent(); [decode] is one of the two au_decode_mntpnt() *)

Definition strdup (s : bytes) : M world bytes :=
  m ← fallible; if truth m then au_fin else mret s.

Definition copy_ent (src : mntent) : M world mntent :=
  fsname ← strdup (mnt_fsname src);
  dir ← strdup (mnt_dir src);
  type ← strdup (mnt_type src);
  opts ← strdup (mnt_opts src);
  mret (Mntent fsname dir type opts (mnt_freq src) (mnt_passno src)).

Fixpoint find_last (decoded : bytes) (l : list mntent) (rent : option mntent)
  : M world (option mntent) :=
  match l with
  | [] => mret rent
  | p :: r =>
      if strcmp (mnt_dir p) decoded =? 0 then e ← copy_ent p; find_last decoded r (Some e)
      else find_last decoded r rent
  end.

Context (decode : bytes -> M world (option bytes)).

Definition au_proc_getmntent (mntpnt : bytes) : M world mntent :=
  decoded ← decode mntpnt;
  match decoded with
  | None => au_fin
  | Some decoded =>
      fp ← fallible; (* setmntent *)
      if truth fp then au_fin
      else
        l ← gets (fun w => k_mounts (w_kern w));
        rent ← find_last decoded l None;
        match rent with
        | Some e => mret e
        | None => put_errno EINVAL ;; au_fin
        end
  end.

Definition au_print_ent (ent : mntent) : M world unit :=
  print (mnt_fsname ent ++ lit " on " ++ mnt_dir ent ++ lit " type " ++ mnt_type ent
         ++ lit " (" ++ mnt_opts ent ++ lit ")").

(** ** Rewriting /etc/mtab *)

Definition addmntent (fp : list mntent) (p : mntent) : M world (list mntent) :=
  err ← fallible; if truth err then au_fin else mret (fp ++ [p]).

Fixpoint add_all (fp ofp : list mntent) : M world (list mntent) :=
  match ofp with
  | [] => mret fp
  | p :: r => fp ← addmntent fp p; add_all fp r
  end.

Definition append_mtab (fp ofp : list mntent) (ent : mntent) : M world (list mntent) :=
  fp ← add_all fp ofp; addmntent fp ent.

(** [ftell(ofp)] after the n-th entry is a position that grows with n; it is n here. *)
Fixpoint last_pos (mntpnt : bytes) (ofp : list mntent) (n pos : Z) : Z :=
  match ofp with
  | [] => pos
  | p :: r => last_pos mntpnt r (n + 1) (if strcmp (mnt_dir p) mntpnt =? 0 then n + 1 else pos)
  end.

(** The replacing loop: the entries written and the final [pos]. *)
Fixpoint replace_loop (ent : mntent) (fp ofp : list mntent) (n pos : Z)
  : M world (list mntent * Z) :=
  match ofp with
  | [] => mret (fp, pos)
  | p :: r =>
      let '(p, pos) := if n + 1 =? pos then (ent, -1) else (p, pos) in
      fp ← addmntent fp p; replace_loop ent fp r (n + 1) pos
  end.

Definition update_mtab (fp : list mntent) (mntpnt : bytes) (do_remount do_verbose : bool)
  : M world (list mntent) :=
  ent ← au_proc_getmntent mntpnt;
  o ← fallible; (* setmntent *)
  if truth o then au_fin
  else
    ofp ← gets (fun w => k_mtab (w_kern w));
    fp ← (if do_remount then
            let pos := last_pos mntpnt ofp 0 (-1) in
            if 0 <? pos then
              '(fp, pos) ← replace_loop ent fp ofp 0 pos;
              if 0 <? pos then au_fin else mret fp
            else append_mtab fp ofp ent
          else append_mtab fp ofp ent);
    (if do_verbose then au_print_ent ent else mret tt) ;;
    mret fp.

(** [n] attempts are left; [err] is the result of the last. *)
Fixpoint lock_loop (n : nat) (err : Z) : M world Z :=
  match n with
  | O => mret err
  | S k =>
      e ← kernel k_link;
      if truth e then put_errno e ;; lock_loop k (-1) else mret 0
  end.

Definition lock_mtab : M world unit :=
  err ← lock_loop 5 0;
  if truth err then au_fin else mret tt.

(** The FILE is not closed before: the file that is renamed has what stdio has written. *)
Definition unlock_mtab (fp : list mntent) : M world unit :=
  e ← kernel (k_rename (take (k_written fp) fp));
  if truth e then put_errno e ;; au_fin else mret tt.

(** The child returns 0 to main(), which returns it: exit(3) then writes what is left in
    the buffer, and nobody looks at an error. *)
Definition exit_flush (fp : list mntent) : M world unit :=
  _ ← kernel (k_flush (drop (k_written fp) fp)); mret tt.

(** au_update_mtab(); [child_status] is what waitpid(2) stores. *)
Definition au_update_mtab (child_status : Z) (mntpnt : bytes) (do_remount do_verbose : bool)
  : M world Z :=
  e ← fallible; (* statfs; its failure is not looked at *)
  if truth e then ub "uninitialised struct statfs"
  else
    proc ← gets (fun w => k_mtab_is_proc (w_kern w));
    if (proc : bool) then
      (if do_verbose then ent ← au_proc_getmntent mntpnt; au_print_ent ent else mret tt) ;;
      mret 0
    else
      fd ← open_ (lit "/etc/mtab~.pid");
      if fd <? 0 then au_fin
      else
        err ← fallible; (* fcntl *)
        if truth err then au_fin
        else
          err ← fallible; (* fdopen *)
          if truth err then au_fin
          else
            pid ← fork_;
            if pid =? 0 then
              lock_mtab ;;
              fp ← update_mtab [] mntpnt do_remount do_verbose;
              unlock_mtab fp ;;
              exit_flush fp ;;
              mret 0
            else if pid <? 0 then au_fin
            else
              err ← fallible; (* fstat *)
              if truth err then ub "uninitialised struct stat"
              else
                waited ← waitpid_ pid;
                if waited <? 0 then mret waited
                else
                  let err := if Z.land child_status 127 =? 0 then Z.land (Z.shiftr child_status 8) 255
                             else 1 in
                  _ ← fallible; (* unlink(pid_file) *)
                  ours ← gets (fun w => k_tilde_ours (w_kern w));
                  (if (ours : bool) then _ ← fallible; mret tt else mret tt) ;;
                  _ ← close_ fd; (* fclose *)
                  mret err.
End mtab.

(** ** Lemmas *)

(** The escaped form of a path. *)
Definition escape (c : ascii) : bytes := if isgraph c then [c] else octal_escape c.
Definition escaped (s : bytes) : bytes := flat_map escape s.

(** What seq_path() of the kernel does to a mount point in /proc/self/mounts. *)
Definition mangle (c : ascii) : bytes :=
  if decide (c = " "%char) then lit "\040"
  else if decide (c = byte_of 9) then lit "\011"
  else if decide (c = byte_of 10) then lit "\012"
  else if decide (c = "\"%char) then lit "\134"
  else [c].

Lemma octal_escape_length c : 0 <= schar_val c -> length (octal_escape c) = 4%nat.
Proof.
  intros H. unfold octal_escape. cbn [length]. rewrite pad_left_length.
  pose proof (schar_val_range c). rewrite Nat.max_l; [done|].
  apply digits_length; [done| |lia]. unfold u32. rewrite wrap_u_small by lia. simpl. lia.
Qed.

Lemma poke_ok pre old post data :
  length old = length data -> poke (pre ++ old ++ post) (length pre) data = Some (pre ++ data ++ post).
Proof.
  intros H. unfold poke. rewrite !length_app, (proj2 (Nat.leb_le _ _)) by lia.
  rewrite take_app_length. f_equal. f_equal. f_equal.
  rewrite app_assoc. apply drop_app_length'. rewrite length_app. lia.
Qed.

Section mtab_lemmas.
Context {K G : Type} `{!MountKernel K}.
Notation world := (world K G).

Lemma store_ok pre old post data (w : world) :
  length old = length data ->
  store (pre ++ old ++ post) (length pre) data w = (Ret (pre ++ data ++ post), w).
Proof. intros H. unfold store. by rewrite poke_ok. Qed.

Lemma octal_escape_no_nul c : NUL ∉ octal_escape c.
Proof.
  unfold octal_escape. apply not_elem_of_cons. split; [done|].
  intros [H|H]%pad_left_elem; [done|]. revert H.
  apply digits_not_elem; [lia|change (byte_val NUL) with 0; lia..].
Qed.

Lemma escape_no_nul c : 0 < schar_val c -> NUL ∉ escape c.
Proof.
  intros H. unfold escape. destruct (isgraph c); [|apply octal_escape_no_nul].
  apply not_elem_of_cons. split; [|apply not_elem_of_nil]. by intros <-.
Qed.

Lemma decode_loop_run src pre post (w : world) :
  Forall (fun c => 0 < schar_val c) src -> NUL ∉ pre ->
  (length (escaped src) < length post)%nat ->
  decode_loop src (pre ++ post) (length pre) (Z.of_nat (length post)) w =
    (Ret (Some (pre ++ escaped src)), w).
Proof.
  intros Hs. revert pre post; induction Hs as [|c src Hc _ IH]; intros pre post Hn Hl;
    cbn [decode_loop]; rewrite (proj2 (Z.ltb_lt _ _)) by lia.
  - destruct post as [|x post]; [simpl in Hl; lia|].
    rewrite (bind_run _ _ _ _ _ (store_ok pre [x] post [NUL] w eq_refl)).
    cbn [escaped flat_map app]. by rewrite app_nil_r, cstr_app by done.
  - change (escaped (c :: src)) with (escape c ++ escaped src) in *.
    rewrite length_app in Hl. pose proof (escape_no_nul c Hc) as Hne.
    unfold escape in *. destruct (isgraph c).
    + destruct post as [|x post]; [simpl in Hl; lia|].
      rewrite (bind_run _ _ _ _ _ (store_ok pre [x] post [c] w eq_refl)).
      specialize (IH (pre ++ [c]) post). rewrite length_app, <- !app_assoc in IH. simpl in *.
      rewrite <- IH; [|set_solver|lia]. f_equal; lia.
    + rewrite octal_escape_length in Hl by lia.
      rewrite (proj2 (Z.ltb_lt 4 (Z.of_nat (length post)))) by lia.
      assert (post = take 5 post ++ drop 5 post) as Ep by (by rewrite take_drop).
      rewrite Ep at 1. erewrite bind_run; [|apply store_ok; rewrite length_take, length_app,
        octal_escape_length by lia; cbn [length]; lia].
      specialize (IH (pre ++ octal_escape c) (NUL :: drop 5 post)).
      rewrite length_app, octal_escape_length in IH by lia.
      rewrite <- !app_assoc in *. cbn [app length] in *. rewrite length_drop in IH.
      rewrite <- IH; [|set_solver|lia]. f_equal; lia.
Qed.

Lemma au_decode_mntpnt_run dst src (w : world) :
  Forall (fun c => 0 < schar_val c) src -> (length (escaped src) < length dst)%nat ->
  au_decode_mntpnt dst src w = (Ret (Some (escaped src)), w).
Proof. intros H Hl. by apply (decode_loop_run src [] dst w H); [apply not_elem_of_nil|]. Qed.
End mtab_lemmas.

Section mtab_props.
Context {K G : Type} `{!MountKernel K}.
Notation world := (world K G).
Implicit Types w : world.

Lemma strdup_ok s w : w_faults w = [] -> strdup s w = (Ret s, w).
Proof. intros H. unfold strdup. by rewrite (bind_run _ _ _ _ _ (fallible_ok w H)). Qed.

Lemma copy_ent_ok e w : w_faults w = [] -> copy_ent e w = (Ret e, w).
Proof.
  intros H. unfold copy_ent. do 4 rewrite (bind_run _ _ _ _ _ (strdup_ok _ w H)).
  by destruct e.
Qed.

Lemma find_last_run d l r w :
  w_faults w = [] ->
  find_last d l r w =
    (Ret (match last (List.filter (fun e => bool_decide (mnt_dir e = d)) l) with
          | Some e => Some e | None => r end), w).
Proof.
  intros H. revert r; induction l as [|e l IH]; intros r; [done|]. cbn [find_last List.filter].
  case_bool_decide as Hd.
  - rewrite (proj2 (Z.eqb_eq _ _)) by (by apply strcmp_0).
    rewrite (bind_run _ _ _ _ _ (copy_ent_ok e w H)), IH.
    rewrite last_cons. by destruct (last (List.filter _ l)).
  - rewrite (proj2 (Z.eqb_neq _ _)) by (by rewrite strcmp_0). apply IH.
Qed.

(** au_proc_getmntent() finds the last mount on the point, which hides the earlier ones;
    a path that is no mount point ends the program with EINVAL. *)
Lemma au_proc_getmntent_run decode mntpnt d w :
  w_faults w = [] -> (forall w, decode mntpnt w = (Ret (Some d), w)) ->
  (au_proc_getmntent decode mntpnt w).1 =
    match last (List.filter (fun e => bool_decide (mnt_dir e = d)) (k_mounts (w_kern w))) with
    | Some e => Ret e
    | None => Exit EINVAL
    end /\
  w_kern (au_proc_getmntent decode mntpnt w).2 = w_kern w.
Proof.
  intros Hf Hd. unfold au_proc_getmntent. rewrite (bind_run _ _ _ _ _ (Hd w)).
  cbv beta iota. rewrite (bind_run _ _ _ _ _ (fallible_ok w Hf)).
  change (truth 0) with false. cbv iota. rewrite bind_gets.
  rewrite (bind_run _ _ _ _ _ (find_last_run _ _ _ w Hf)). by destruct (last _).
Qed.

Lemma au_proc_getmntent_ok decode mntpnt d pre e post w :
  w_faults w = [] -> (forall w, decode mntpnt w = (Ret (Some d), w)) ->
  k_mounts (w_kern w) = pre ++ e :: post -> mnt_dir e = d ->
  Forall (fun e => mnt_dir e <> d) post ->
  au_proc_getmntent decode mntpnt w = (Ret e, w).
Proof.
  intros Hf Hd Hm He Hp. unfold au_proc_getmntent. rewrite (bind_run _ _ _ _ _ (Hd w)).
  cbv beta iota. rewrite (bind_run _ _ _ _ _ (fallible_ok w Hf)).
  change (truth 0) with false. cbv iota. rewrite bind_gets.
  rewrite (bind_run _ _ _ _ _ (find_last_run _ _ _ w Hf)), Hm.
  assert (List.filter (fun e => bool_decide (mnt_dir e = d)) post = []) as Ep.
  { clear Hm. induction Hp as [|x post Hx _ IH]; [done|]. simpl.
    by rewrite bool_decide_eq_false_2. }
  rewrite List.filter_app. cbn [List.filter]. rewrite bool_decide_eq_true_2, Ep by done.
  by rewrite last_snoc.
Qed.

(** ** Rewriting *)

Lemma addmntent_ok fp e w : w_faults w = [] -> addmntent fp e w = (Ret (fp ++ [e]), w).
Proof. intros H. unfold addmntent. by rewrite (bind_run _ _ _ _ _ (fallible_ok w H)). Qed.

Lemma append_mtab_ok fp ofp e w :
  w_faults w = [] -> append_mtab fp ofp e w = (Ret (fp ++ ofp ++ [e]), w).
Proof.
  intros H. unfold append_mtab.
  assert (forall fp, add_all fp ofp w = (Ret (fp ++ ofp), w)) as Ha.
  { induction ofp as [|p r IH]; intros fp'; cbn [add_all]; [by rewrite app_nil_r|].
    rewrite (bind_run _ _ _ _ _ (addmntent_ok fp' p w H)), IH. by rewrite <- app_assoc. }
  rewrite (bind_run _ _ _ _ _ (Ha fp)), addmntent_ok by done. by rewrite <- app_assoc.
Qed.

Lemma last_pos_none d l n pos :
  Forall (fun e => mnt_dir e <> d) l -> last_pos d l n pos = pos.
Proof.
  intros H; revert n; induction H as [|e l He _ IH]; intros n; [done|]. simpl.
  by rewrite (proj2 (Z.eqb_neq _ _)) by (by rewrite strcmp_0).
Qed.

Lemma last_pos_app d pre e post n pos :
  mnt_dir e = d -> Forall (fun e => mnt_dir e <> d) post ->
  last_pos d (pre ++ e :: post) n pos = n + Z.of_nat (length pre) + 1.
Proof.
  intros He Hp. revert n pos; induction pre as [|p pre IH]; intros n pos; simpl.
  - rewrite (proj2 (Z.eqb_eq _ _)) by (by apply strcmp_0).
    rewrite last_pos_none by done. lia.
  - rewrite IH. lia.
Qed.

Lemma replace_loop_copy ent fp l n pos w :
  w_faults w = [] -> pos <= n \/ n + Z.of_nat (length l) < pos ->
  replace_loop ent fp l n pos w = (Ret (fp ++ l, pos), w).
Proof.
  intros H. revert fp n; induction l as [|p l IH]; intros fp n Hn; cbn [replace_loop length] in *.
  { by rewrite app_nil_r. }
  rewrite (proj2 (Z.eqb_neq _ _)) by lia.
  rewrite (bind_run _ _ _ _ _ (addmntent_ok _ _ w H)), IH by lia. by rewrite <- app_assoc.
Qed.

Lemma replace_loop_app ent fp pre e post n w :
  w_faults w = [] -> 0 <= n ->
  replace_loop ent fp (pre ++ e :: post) n (n + Z.of_nat (length pre) + 1) w =
    (Ret (fp ++ pre ++ ent :: post, -1), w).
Proof.
  intros H. revert fp n; induction pre as [|p pre IH]; intros fp n Hn; cbn [app replace_loop length].
  - rewrite (proj2 (Z.eqb_eq _ _)) by lia.
    rewrite (bind_run _ _ _ _ _ (addmntent_ok _ _ w H)).
    rewrite replace_loop_copy by (done || lia). by rewrite <- app_assoc.
  - rewrite (proj2 (Z.eqb_neq _ _)) by lia.
    rewrite (bind_run _ _ _ _ _ (addmntent_ok _ _ w H)).
    replace (n + Z.of_nat (S (length pre)) + 1) with ((n + 1) + Z.of_nat (length pre) + 1) by lia.
    rewrite IH by lia. by rewrite <- app_assoc.
Qed.

(** The table after an update: on a remount, [ent] takes the place of the last line of the
    mount point; it is appended when there is none, and by other mounts. *)
Fixpoint replace_last (ent : mntent) (mntpnt : bytes) (l : list mntent) : option (list mntent) :=
  match l with
  | [] => None
  | e :: r =>
      match replace_last ent mntpnt r with
      | Some r' => Some (e :: r')
      | None => if bool_decide (mnt_dir e = mntpnt) then Some (ent :: r) else None
      end
  end.

Definition updated (remount : bool) (ent : mntent) (mntpnt : bytes) (l : list mntent) : list mntent :=
  default (l ++ [ent]) (if remount then replace_last ent mntpnt l else None).

Lemma replace_last_spec ent d l :
  match replace_last ent d l with
  | Some l' => exists pre e post, l = pre ++ e :: post /\ l' = pre ++ ent :: post /\
                 mnt_dir e = d /\ Forall (fun e => mnt_dir e <> d) post
  | None => Forall (fun e => mnt_dir e <> d) l
  end.
Proof.
  induction l as [|e l IH]; simpl; [constructor|]. destruct (replace_last ent d l) as [l'|].
  - destruct IH as (pre & x & post & -> & -> & H). by exists (e :: pre), x, post.
  - case_bool_decide; [|by constructor]. by exists [], e, l.
Qed.

Lemma update_mtab_run decode mntpnt d mpre ent mpost remount w :
  w_faults w = [] -> (forall w, decode mntpnt w = (Ret (Some d), w)) ->
  k_mounts (w_kern w) = mpre ++ ent :: mpost -> mnt_dir ent = d ->
  Forall (fun e => mnt_dir e <> d) mpost ->
  update_mtab decode [] mntpnt remount false w =
    (Ret (updated remount ent mntpnt (k_mtab (w_kern w))), w).
Proof.
  intros Hf Hd Hm He Hp. unfold update_mtab, updated.
  rewrite (bind_run _ _ _ _ _ (au_proc_getmntent_ok decode mntpnt d mpre ent mpost w Hf Hd Hm He Hp)).
  rewrite (bind_run _ _ _ _ _ (fallible_ok w Hf)). change (truth 0) with false. cbv iota.
  rewrite bind_gets.
  pose proof (append_mtab_ok [] (k_mtab (w_kern w)) ent w Hf) as Ea.
  destruct remount; [|by rewrite (bind_run _ _ _ _ _ Ea)]. cbv zeta.
  pose proof (replace_last_spec ent mntpnt (k_mtab (w_kern w))) as Hr.
  destruct (replace_last ent mntpnt _) as [l'|].
  - destruct Hr as (pre & e & post & Et & -> & Hdir & Hpost). rewrite Et.
    rewrite (last_pos_app _ _ _ _ 0 _ Hdir Hpost).
    rewrite (proj2 (Z.ltb_lt _ _)) by lia. rewrite bind_assoc.
    by rewrite (bind_run _ _ _ _ _ (replace_loop_app ent [] pre e post 0 w Hf ltac:(lia))).
  - rewrite (last_pos_none _ _ 0 _ Hr). change (0 <? -1) with false. cbv iota.
    by rewrite (bind_run _ _ _ _ _ Ea).
Qed.

(** C18. Updating /etc/mtab, when nothing fails and without -v: the new table has the
    last mount on the point in /proc/self/mounts in the place of the point's last line,
    every other line as and where it was; without such a line, and when the mount is no
    remount, it is appended. *)
Theorem update_mtab_correct decode mntpnt d mpre ent mpost remount w :
  w_faults w = [] -> (forall w, decode mntpnt w = (Ret (Some d), w)) ->
  k_mounts (w_kern w) = mpre ++ ent :: mpost -> mnt_dir ent = d ->
  Forall (fun e => mnt_dir e <> d) mpost ->
  update_mtab decode [] mntpnt remount false w =
    (Ret (updated remount ent mntpnt (k_mtab (w_kern w))), w).
Proof. apply update_mtab_run. Qed.

(** C38. Without glibc, au_decode_mntpnt() writes a mount point the way the kernel
    writes it in /proc/self/mounts (a blank as "\040", a tab as "\011", a newline as
    "\012", anything else of these as it is), for every path of printable ASCII
    characters other than the backslash, blanks, tabs and newlines that fits the buffer.
    *)
Theorem decode_matches_kernel dst path w :
  Forall (fun c => (isgraph c = true /\ c <> "\"%char) \/
                   c ∈ [" "%char; byte_of 9; byte_of 10]) path ->
  (length (flat_map mangle path) < length dst)%nat ->
  au_decode_mntpnt dst path w = (Ret (Some (flat_map mangle path)), w).
Proof.
  intros Hall Hl. assert (flat_map mangle path = escaped path) as E.
  { unfold escaped. clear Hl. induction Hall as [|c l Hc _ IH]; [done|]. simpl. rewrite IH.
    f_equal. destruct Hc as [[Hg Hb]|Hin].
    - unfold mangle, escape. rewrite Hg. do 3 (destruct (decide _) as [->|_]; [done|]).
      by destruct (decide _).
    - repeat (apply elem_of_cons in Hin as [->|Hin]; [done|]). by apply not_elem_of_nil in Hin. }
  rewrite E in *. apply au_decode_mntpnt_run; [|done].
  eapply Forall_impl; [exact Hall|]. intros c [[Hg _]|Hin].
  - unfold isgraph in Hg. bool_lia.
  - repeat (apply elem_of_cons in Hin as [->|Hin]; [done|]). by apply not_elem_of_nil in Hin.
Qed.

Lemma octal_escape_high c :
  (128 <=? byte_val c) = false \/
  (take 4 (octal_escape c) = lit "\377" /\ length (octal_escape c) = 12%nat /\ isgraph c = false).
Proof.
  destruct c as [[] [] [] [] [] [] [] []];
    first [left; reflexivity | right; vm_compute; repeat split].
Qed.

(** The same function turns every byte above 127 into "\377", whichever byte it is:
    [sprintf()] gets a negative [int] and prints eleven octal digits, of which the next
    character, here the terminator, leaves the first three. *)
Theorem decode_high_byte dst c w :
  128 <= byte_val c -> (13 <= length dst)%nat ->
  au_decode_mntpnt dst [c] w = (Ret (Some (lit "\377")), w).
Proof.
  intros Hc Hl. destruct (octal_escape_high c) as [H|(Ht & Hlen & Hg)]; [bool_lia|].
  unfold au_decode_mntpnt. cbn [decode_loop]. rewrite Hg.
  rewrite (proj2 (Z.ltb_lt 0 _)), (proj2 (Z.ltb_lt 4 _)) by lia.
  assert (length (take 13 dst) = length (octal_escape c ++ [NUL])) as El
    by (rewrite length_app, length_take, Hlen; cbn [length]; lia).
  pose proof (store_ok [] (take 13 dst) (drop 13 dst) (octal_escape c ++ [NUL]) w El) as E.
  cbn [app length] in E. rewrite take_drop in E. rewrite (bind_run _ _ _ _ _ E).
  rewrite (proj2 (Z.ltb_lt 0 _)) by lia.
  rewrite <- (take_drop 4 (octal_escape c)), Ht.
  destruct (drop 4 (octal_escape c)) as [|x r] eqn:Ed.
  { apply (f_equal length) in Ed. rewrite length_drop, Hlen in Ed. done. }
  pose proof (store_ok (lit "\377") [x] ((r ++ [NUL]) ++ drop 13 dst) [NUL] w eq_refl) as E2.
  rewrite <- !app_assoc in *. cbn [app] in *. change (0 + 4)%nat with (length (lit "\377")).
  rewrite (bind_run _ _ _ _ _ E2). do 3 f_equal.
Qed.





End mtab_props.

(** ** A small system: two mounts on the same point *)

Module MtabDemo.
Definition ent (src dir : string) (opts : string) : mntent :=
  Mntent (lit src) (lit dir) (lit "aufs") (lit opts) 0 0.
(** The kernel's state is /etc/mtab. *)
#[export] Instance kernel : MountKernel (list mntent) := {
  k_mounts _ := [ent "none" "/a" "si=1"; ent "none" "/b" "ro"; ent "none" "/a" "si=2"];
  k_mtab k := k;
  k_mtab_is_proc _ := false;
  k_link k := (0, k);
  k_written _ := 0%nat;
  k_rename l _ := (0, l);
  k_flush l k := (0, k ++ l);
  k_tilde_ours _ := false
}.
Definition full : MountKernel (list mntent) := {|
  k_mounts := k_mounts; k_mtab := k_mtab; k_mtab_is_proc := k_mtab_is_proc; k_link := k_link;
  k_written _ := 0%nat; k_rename l _ := (0, l); k_flush _ k := (28 (* ENOSPC *), k);
  k_tilde_ours := k_tilde_ours
|}.
Definition table : list mntent := [ent "none" "/a" "si=0"; ent "none" "/c" "rw"].
Definition world1 : world (list mntent) unit :=
  World 0 [] table tt ∅ ∅ ∅ 3 ∅ [0] [] [].
End MtabDemo.
Import MtabDemo.

Lemma update_mtab_correct_witness :
  update_mtab au_decode_mntpnt_glibc [] (lit "/a") true false MtabDemo.world1 =
    (Ret [ent "none" "/a" "si=2"; ent "none" "/c" "rw"], MtabDemo.world1).
Proof.
  etrans; [apply (update_mtab_correct au_decode_mntpnt_glibc (lit "/a") (lit "/a")
    [ent "none" "/a" "si=1"; ent "none" "/b" "ro"] (ent "none" "/a" "si=2") [] true MtabDemo.world1);
    try reflexivity; constructor|vm_compute; reflexivity].
Defined.

Lemma decode_matches_kernel_witness :
  au_decode_mntpnt (replicate 20 NUL) (lit "/my disk") MtabDemo.world1 =
    (Ret (Some (lit "/my\040disk")), MtabDemo.world1).
Proof.
  etrans; [apply (decode_matches_kernel (replicate 20 NUL) (lit "/my disk") MtabDemo.world1)|
    vm_compute; reflexivity].
  - repeat (constructor; [first [left; split; [reflexivity|discriminate]
      | right; apply (bool_decide_unpack _); vm_compute; exact Logic.I]|]). constructor.
  - apply Nat.ltb_lt. vm_compute. reflexivity.
Defined.

Lemma decode_high_byte_witness :
  au_decode_mntpnt (replicate 20 NUL) [byte_of 195] MtabDemo.world1 =
    (Ret (Some (lit "\377")), MtabDemo.world1).
Proof. apply (decode_high_byte (replicate 20 NUL) (byte_of 195) MtabDemo.world1); apply (bool_decide_unpack _); vm_compute; exact Logic.I. Defined.


(** With no space left on the device, the update empties /etc/mtab and reports success. *)
Example mtab_lost_unnoticed :
  let '(r, w') := @au_update_mtab _ unit MtabDemo.full au_decode_mntpnt_glibc 0 (lit "/a") false false
    MtabDemo.world1 in
  r = Ret 0 /\ w_kern w' = [].
Proof. vm_compute. by split. Qed.
