(* ===== verification/Plink.v ===== *)
(** * plink.c and auplink.c: copying up, listing and removing pseudo-links

    The names below the ".wh..wh.plnk" directories of the writable branches are kept one
    after the other in a block, the inode numbers that they start with in an array; then
    the aufs is walked, and each file with one of these inode numbers is printed or copied
    up.  nftw(3) is a parameter: it is the C library's with glibc, Ftw.v elsewhere. *)
From S2P Require Import AuUtil.
From S2P Require Import Prelude CString AufsType Scan Sys Br Ftw Mtab.

(** The file system and the aufs module, for these programs. *)
Class PlinkKernel (K : Type) := {
  p_access : bytes -> K -> Z;                    (* errno of access(2), or 0 *)
  p_readdir : bytes -> K -> Z + list bytes;      (* errno of opendir(3), or the names *)
  p_tree : bytes -> K -> fsnode;
  p_chown : bytes -> bool -> K -> Z * K;         (* chown(2) or, with [false], lchown(2) *)
  p_unlink : bytes -> K -> Z * K;
  p_nofile : K -> option Z;                      (* RLIMIT_NOFILE, [None] is infinity *)
  p_proc_write : bytes -> K -> (Z * Z) * K       (* errno and the result of write(2) *)
}.

(** [na.o] is null while the list is empty; [na.bytes] is its length.  [ia.o] holds the
    elements stored so far, in a block of [ia.bytes] bytes; [ia.cur] is an index. *)
Record plink := Plink {
  na_o : bytes;
  na_cur : nat;
  na_nname : nat;
  ia_o : list Z;
  ia_bytes : Z;
  ia_cur : nat;
  ia_nino : nat;
  pl_freed : bool;
  proc_fd : Z
}.

Definition plink0 : plink := Plink [] 0 0 [] 0 0 0 false (-1).

Definition sizeof_ino_t : Z := 8.
Definition AUFS_PLINK_MAINT_PATH : bytes := lit "fs/aufs/plink_maint".

Definition AuPlink_FLUSH : Z := 0.
Definition AuPlink_CPUP : Z := 1.
Definition AuPlink_LIST : Z := 2.

Definition AuPlinkFlag_OPEN : Z := 1.
Definition AuPlinkFlag_CLOEXEC : Z := Z.shiftl 1 1.
Definition AuPlinkFlag_CLOSE : Z := Z.shiftl 1 2.

Section plink.
Context {K : Type} `{!AufsKernel K} `{!MountKernel K} `{!PlinkKernel K}.
Notation world := (world K plink).

(** au_nftw(), FTW_ACTIONRETVAL as plink.c sees it, and au_decode_mntpnt(). *)
Context (nftw : (bytes -> option stat -> Z -> nat -> M world Z) -> bytes -> Z -> Z -> M world Z).
Context (actionretval : Z) (decode : bytes -> M world (option bytes)).

Definition gp {A} (f : plink -> A) : M world A := gets (fun w => f (w_glob w)).
Definition mp (f : plink -> plink) : M world unit := modify (fun w => set_glob (f (w_glob w)) w).

(** The size of a block, an [int]. *)
Definition int_size (sz : Z) : M world unit :=
  if sz <? 2 ^ 31 then mret tt else ub "signed overflow".

Definition na_append (plink_dir name : bytes) : M world Z :=
  p ← gp (fun p => p);
  let l := (length plink_dir + length name + 2)%nat in
  int_size (Z.of_nat (length (na_o p) + l)) ;;
  if pl_freed p then ub "realloc of a freed block"
  else
    m ← fallible; (* realloc *)
    if truth m then au_fin
    else
      let text := plink_dir ++ SLASH :: name in
      match poke (na_o p ++ replicate l NUL) (na_cur p) (text ++ [NUL]) with
      | None => ub "write beyond the names"
      | Some o =>
          mp (fun p => Plink o (na_cur p + (length text + 1)) (S (na_nname p))
                         (ia_o p) (ia_bytes p) (ia_cur p) (ia_nino p) (pl_freed p) (proc_fd p)) ;;
          mret 0
      end.

(** The new size is computed from [na.bytes]. *)
Definition ia_append (ino : Z) : M world Z :=
  p ← gp (fun p => p);
  let sz := Z.of_nat (length (na_o p)) + sizeof_ino_t in
  int_size sz ;;
  if pl_freed p then ub "realloc of a freed block"
  else
    m ← fallible; (* realloc *)
    if truth m then au_fin
    else if sizeof_ino_t * (Z.of_nat (ia_cur p) + 1) <=? sz then
      mp (fun p => Plink (na_o p) (na_cur p) (na_nname p)
                     (take (ia_cur p) (ia_o p) ++ ino :: drop (S (ia_cur p)) (ia_o p))
                     sz (S (ia_cur p)) (S (ia_nino p)) (pl_freed p) (proc_fd p)) ;;
      mret 0
    else ub "write beyond the inode array".

Definition DOT : ascii := "."%char.

(** The loop of build_array() over the directory's entries. *)
Fixpoint build_loop (plink_dir : bytes) (names : list bytes) : M world Z :=
  match names with
  | [] => mret 0
  | name :: r =>
      if is_dots name then build_loop plink_dir r
      else
        err ← na_append plink_dir name;
        if truth err then mret err
        else
          match strchr name DOT with
          | None => put_errno EINVAL ;; au_fin
          | Some i =>
              put_errno 0 ;;
              let '(ino, erange) := strtoull0 (take i name) in
              (* ERANGE leaves ULLONG_MAX *)
              if (ino =? 2 ^ 64 - 1) && erange then put_errno 34 ;; au_fin
              else
                err ← ia_append ino;
                if truth err then mret err else build_loop plink_dir r
          end
  end.

Definition build_array (plink_dir : bytes) : M world Z :=
  e ← gets (fun w => p_access plink_dir (w_kern w));
  if truth e then put_errno e ;; mret 0
  else
    d ← gets (fun w => p_readdir plink_dir (w_kern w));
    match d with
    | inl e => put_errno e ;; au_fin
    | inr names => build_loop plink_dir names
    end.

(** au_plink_maint(): [*fd]. *)
Definition au_plink_maint (si : option bytes) (close_on_exec : bool) : M world Z :=
  (match si with
   | Some si =>
       fd ← gp proc_fd;
       if 0 <=? fd then put_errno EINVAL ;; au_fin
       else
         fd ← open_ (lit "/proc/" ++ AUFS_PLINK_MAINT_PATH);
         mp (fun p => Plink (na_o p) (na_cur p) (na_nname p) (ia_o p) (ia_bytes p) (ia_cur p)
                        (ia_nino p) (pl_freed p) fd) ;;
         if fd <? 0 then au_fin
         else
           '(e, ssz) ← kernel (p_proc_write si);
           (if truth e then put_errno e else mret tt) ;;
           if negb (ssz =? Z.of_nat (length si)) then au_fin else mret tt
   | None =>
       fd ← gp proc_fd;
       err ← close_ fd;
       if truth err then au_fin
       else mp (fun p => Plink (na_o p) (na_cur p) (na_nname p) (ia_o p) (ia_bytes p) (ia_cur p)
                           (ia_nino p) (pl_freed p) (-1))
   end) ;;
  gp proc_fd.

Definition au_clean_plink : M world unit :=
  '(e, ssz) ← kernel (p_proc_write (lit "clean"));
  (if truth e then put_errno e else mret tt) ;;
  if negb (ssz =? 5) then au_fin else mret tt.

(** [ia.p = ia.o], which moves [ia.cur] too, the other member of the union. *)
Definition ia_rewind : M world unit :=
  mp (fun p => Plink (na_o p) (na_cur p) (na_nname p) (ia_o p) (ia_bytes p) 0 (ia_nino p)
                 (pl_freed p) (proc_fd p)).

Definition ia_test (ino : Z) : M world bool :=
  ia_rewind ;;
  p ← gp (fun p => p);
  mret (existsb (fun x => x =? ino) (take (ia_nino p) (ia_o p))).

(** ** The callbacks of the walk *)

Definition ftw_name (fname : bytes) (base : nat) : bytes := drop base fname.

Definition ftw_list (fname : bytes) (st : option stat) (flags : Z) (base : nat) : M world Z :=
  if strcmp (ftw_name fname base) AUFS_WH_PLINKDIR =? 0 then mret FTW_SKIP_SUBTREE
  else if (flags =? FTW_D) || (flags =? FTW_DNR) then mret FTW_CONTINUE
  else
    s ← filled st;
    t ← ia_test (st_ino s);
    (if (t : bool) then print fname else mret tt) ;;
    mret FTW_CONTINUE.

Definition ftw_cpup (fname : bytes) (st : option stat) (flags : Z) (base : nat) : M world Z :=
  if strcmp (ftw_name fname base) AUFS_WH_PLINKDIR =? 0 then mret FTW_SKIP_SUBTREE
  else if (flags =? FTW_D) || (flags =? FTW_DNR) then mret FTW_CONTINUE
  else
    s ← filled st;
    t ← ia_test (st_ino s);
    (if (t : bool) then
       err ← kernel (p_chown fname (negb (bool_decide (st_kind s = KLnk))));
       if truth err then put_errno err ;; au_fin else mret tt
     else mret tt) ;;
    mret FTW_CONTINUE.

(** ** do_plink() *)

Definition OPEN_LIMIT : Z := 1024.

Fixpoint build_arrays (brinfo : list aufs_brinfo) : M world unit :=
  match brinfo with
  | [] => mret tt
  | b :: r =>
      if negb (truth (au_br_writable (bi_perm b))) then build_arrays r
      else
        m ← fallible; (* malloc *)
        if truth m then au_fin
        else
          err ← build_array (bi_path b ++ SLASH :: AUFS_WH_PLINKDIR);
          if truth err then au_fin else build_arrays r
  end.

(** The number of descriptors for the walk. *)
Definition nopenfd_of (rlim_cur : option Z) : Z :=
  match rlim_cur with
  | None => OPEN_LIMIT
  | Some cur =>
      let n := i32 cur in
      if (OPEN_LIMIT <? cur) || (n <=? 0) then OPEN_LIMIT
      else if 20 <? n then n - 10 else n
  end.

(** The C strings one after the other in the block, from [na.cur] on. *)
Fixpoint unlink_loop (n : nat) (err : Z) : M world Z :=
  match n with
  | O => mret err
  | S k =>
      p ← gp (fun p => p);
      let name := cstr (drop (na_cur p) (na_o p)) in
      e ← kernel (p_unlink name);
      if truth e then put_errno e ;; au_fin
      else
        mp (fun p => Plink (na_o p) (na_cur p + (length name + 1)) (na_nname p) (ia_o p) (ia_bytes p)
                       (ia_cur p) (ia_nino p) (pl_freed p) (proc_fd p)) ;;
        unlink_loop k 0
  end.

Definition free_arrays : M world unit :=
  mp (fun p => Plink (na_o p) (na_cur p) (na_nname p) (ia_o p) (ia_bytes p) (ia_cur p) (ia_nino p)
                 true (proc_fd p)).

(** "%llu " for each inode number, and a newline *)
Definition print_inos : M world unit :=
  ia_rewind ;;
  p ← gp (fun p => p);
  mp (fun p => Plink (na_o p) (na_cur p) (na_nname p) (ia_o p) (ia_bytes p) (ia_nino p) (ia_nino p)
                 (pl_freed p) (proc_fd p)) ;;
  print (flat_map (fun i => fmt_u i ++ lit " ") (take (ia_nino p) (ia_o p))).

Definition do_plink (cwd : bytes) (cmd nbr : Z) (brinfo : list aufs_brinfo) : M world Z :=
  func ← (if (cmd =? AuPlink_FLUSH) || (cmd =? AuPlink_CPUP) then mret ftw_cpup
          else if cmd =? AuPlink_LIST then mret ftw_list
          else put_errno EINVAL ;; au_fin);
  build_arrays (take (Z.to_nat nbr) brinfo) ;;
  p ← gp (fun p => p);
  if (ia_nino p =? 0)%nat then free_arrays ;; mret 0
  else
    (if cmd =? AuPlink_LIST then print_inos else mret tt) ;;
    err ← fallible; (* getrlimit *)
    if truth err then au_fin
    else
      lim ← gets (fun w => p_nofile (w_kern w));
      _ ← nftw func cwd (nopenfd_of lim) (Z.lor FTW_PHYS (Z.lor FTW_MOUNT actionretval));
      err ← (if cmd =? AuPlink_FLUSH then
               au_clean_plink ;;
               mp (fun p => Plink (na_o p) 0 (na_nname p) (ia_o p) (ia_bytes p) (ia_cur p)
                              (ia_nino p) (pl_freed p) (proc_fd p)) ;;
               unlink_loop (na_nname p) 0
             else mret 0);
      free_arrays ;; mret err.

(** strncpy() into [si], which has room for "si=" and 16 digits, and the cut at a comma *)
Definition copy_si (p : bytes) : option bytes :=
  let si := take 20 p in
  match strchr si ","%char with
  | Some i => Some (take i si)
  | None => if (length p <? 20)%nat then Some p else None
  end.

(** au_plink(): the status and [*fd], when it was stored. *)
Definition au_plink (cwd : bytes) (cmd flags : Z) : M world (Z * option Z) :=
  ent ← au_proc_getmntent decode cwd;
  match hasmntopt ent (lit "noplink") with
  | Some _ => mret (0, None)
  | None =>
      fd ← (if truth (Z.land flags AuPlinkFlag_OPEN) then
              match hasmntopt ent (lit "si") with
              | None => put_errno EINVAL ;; au_fin
              | Some p =>
                  match copy_si p with
                  | None => ub "strchr beyond the buffer"
                  | Some si =>
                      fd ← au_plink_maint (Some si) (truth (Z.land flags AuPlinkFlag_CLOEXEC));
                      _ ← au_proc_getmntent decode cwd;
                      mret (Some fd)
                  end
              end
            else mret None);
      '(err, nbr, brinfo) ← au_br cwd;
      if truth err then au_fin
      else
        err ← do_plink cwd cmd nbr brinfo;
        if truth err then au_fin
        else if truth (Z.land flags AuPlinkFlag_CLOSE) then
          fd ← au_plink_maint None false; mret (err, Some fd)
        else mret (err, fd)
  end.

(** ** auplink.c *)
Definition auplink_usage (me : bytes) : M world Z :=
  print (clit "usage: " ++ me ++ clit " aufs_mount_point list|cpup|flush\n" ++
    clit "'list' shows the pseudo-linked inode numbers and filenames.\n" ++
    clit "'cpup' copies-up all pseudo-link to the writeble branch.\n" ++
    clit "'flush' calls 'cpup', and then 'mount -o remount,clean_plink=inum'\n" ++
    clit "and remove the whiteouted plink.\n" ++
    AuVersion ++ clit "\n") ;;
  exit_ EINVAL.

(** main(); the directory's path after chdir(2) is [getcwd]. *)
Definition auplink_main (getcwd : bytes -> bytes) (argv : list bytes) : M world Z :=
  match argv with
  | [_; dir; what] =>
      cmd ← (if strcmp what (lit "flush") =? 0 then mret AuPlink_FLUSH
             else if strcmp what (lit "list") =? 0 then mret AuPlink_LIST
             else if strcmp what (lit "cpup") =? 0 then mret AuPlink_CPUP
             else put_errno EINVAL ;; au_fin);
      err ← fallible; (* chdir *)
      if truth err then au_fin
      else
        e ← fallible; (* getcwd *)
        if truth e then au_fin
        else '(err, _) ← au_plink (getcwd dir) cmd AuPlinkFlag_OPEN; mret err
  | _ => auplink_usage (default (lit "(null)") (head argv))
  end.
End plink.

(** ** The builds: without glibc, au_util.h defines FTW_ACTIONRETVAL as 0 before
    au_nftw.h, whose definition as 16 is only seen by au_nftw.c. *)
Definition FTW_ACTIONRETVAL_util : Z := 0.

Definition nftw_musl {K} `{!PlinkKernel K}
    (fn : bytes -> option stat -> Z -> nat -> M (world K plink) Z) (path : bytes) (fd_limit flags : Z)
  : M (world K plink) Z :=
  t ← gets (fun w => p_tree path (w_kern w));
  au_nftw fn t path fd_limit flags.

(** ** Building the arrays *)

Definition plink_dir (b : aufs_brinfo) : bytes := bi_path b ++ SLASH :: AUFS_WH_PLINKDIR.
Definition plink_path (dir name : bytes) : bytes := dir ++ SLASH :: name.

(** The inode number in the name of a pseudo-link, "12.345". *)
Definition ino_of (name : bytes) : Z := undigits 10 (take (default O (strchr name DOT)) name).

(** A name that the kernel gives to a pseudo-link. *)
Definition plink_name (name : bytes) : Prop :=
  exists ino rest, 0 < ino < 2 ^ 64 /\ name = digits 10 ino ++ DOT :: rest /\ NUL ∉ rest.

Definition no_dots (names : list bytes) : list bytes :=
  List.filter (fun n => negb (is_dots n)) names.

Definition cz (s : bytes) : bytes := s ++ [NUL].

(** The block that holds [names]. *)
Definition blk (names : list bytes) : bytes := concat (map cz names).

Lemma blk_app l1 l2 : blk (l1 ++ l2) = blk l1 ++ blk l2.
Proof. unfold blk. by rewrite map_app, concat_app. Qed.

Lemma blk_single n : blk [n] = n ++ [NUL].
Proof. apply app_nil_r. Qed.

(** The arrays with [names] and [inos]. *)
Definition plink_of (names : list bytes) (inos : list Z) (ib fd : Z) : plink :=
  Plink (blk names) (length (blk names)) (length names) inos ib (length inos) (length inos) false fd.

Section build.
Context {K : Type} `{!PlinkKernel K}.
Notation world := (world K plink).
Context (w0 : world) (Hf : w_faults w0 = []) (fd : Z).

Definition pw (e : Z) (names : list bytes) (inos : list Z) (ib : Z) : world :=
  set_errno e (set_glob (plink_of names inos ib fd) w0).

Lemma na_append_run e names inos ib dir name :
  Z.of_nat (length (blk (names ++ [plink_path dir name]))) < 2 ^ 31 ->
  na_append dir name (pw e names inos ib) =
    (Ret 0, pw e (names ++ [plink_path dir name]) inos ib).
Proof.
  intros Hsz. unfold na_append, gp. rewrite bind_gets. cbv zeta.
  rewrite blk_app, blk_single, !length_app in Hsz. unfold plink_path in Hsz at 1.
  rewrite length_app in Hsz. cbn [length] in Hsz.
  unfold int_size. cbn [w_glob pw set_errno set_glob plink_of na_o na_cur pl_freed].
  rewrite (proj2 (Z.ltb_lt _ _)) by lia. rewrite bind_ret.
  rewrite (bind_run _ _ _ 0 _ (fallible_ok (pw e names inos ib) Hf)).
  change (truth 0) with false. cbv iota.
  set (l := (length dir + length name + 2)%nat).
  assert (poke (blk names ++ replicate l NUL) (length (blk names)) ((dir ++ SLASH :: name) ++ [NUL])
          = Some (blk (names ++ [plink_path dir name]))) as ->.
  { pose proof (poke_ok (blk names) (replicate l NUL) [] ((dir ++ SLASH :: name) ++ [NUL])) as E.
    rewrite !app_nil_r in E. rewrite blk_app, blk_single. apply E.
    rewrite length_replicate, !length_app. cbn [length]. lia. }
  unfold mp. rewrite bind_modify. unfold pw, plink_of.
  rewrite blk_app, blk_single, !length_app. cbn [length]. unfold mret, M_ret.
  replace (length names + 1)%nat with (S (length names)) by lia.
  unfold plink_path. by rewrite !length_app.
Qed.

Lemma ia_append_run e names inos ib ino :
  8 * Z.of_nat (length inos) <= Z.of_nat (length (blk names)) ->
  Z.of_nat (length (blk names)) + 8 < 2 ^ 31 ->
  ia_append ino (pw e names inos ib) =
    (Ret 0, pw e names (inos ++ [ino]) (Z.of_nat (length (blk names)) + 8)).
Proof.
  intros Hl Hsz. unfold ia_append, gp, int_size. rewrite bind_gets. cbv zeta.
  cbn [w_glob pw set_errno set_glob plink_of na_o ia_cur pl_freed].
  unfold sizeof_ino_t. rewrite (proj2 (Z.ltb_lt _ _)) by lia. rewrite bind_ret.
  rewrite (bind_run _ _ _ 0 _ (fallible_ok (pw e names inos ib) Hf)).
  change (truth 0) with false. cbv iota. rewrite (proj2 (Z.leb_le _ _)) by lia.
  unfold mp. rewrite bind_modify. unfold pw, plink_of, mret, M_ret.
  cbn [w_glob set_errno set_glob na_o na_cur na_nname ia_o ia_bytes ia_cur ia_nino pl_freed proc_fd].
  rewrite take_ge, drop_ge by lia. rewrite !length_app. cbn [length].
  by replace (length inos + 1)%nat with (S (length inos)) by lia.
Qed.

Lemma plink_name_dot name :
  plink_name name ->
  exists i, strchr name DOT = Some i /\ strtoull0 (take i name) = (ino_of name, false) /\
    0 < ino_of name < 2 ^ 64.
Proof.
  intros (ino & rest & Hi & -> & _).
  assert (strchr (digits 10 ino ++ DOT :: rest) DOT = Some (length (digits 10 ino))) as E.
  { apply first_idx_app. unfold digits.
    apply (digits_not_elem 10 ino); [lia|change (byte_val DOT) with 46; lia..]. }
  eexists. split; [exact E|]. unfold ino_of. rewrite E. change (default O (Some ?k)) with k.
  rewrite take_app_length, strtoull0_digits, digits_undigits by lia. done.
Qed.

Lemma build_loop_run dir ns e names inos ib :
  (8 <= length dir)%nat ->
  Forall (fun n => is_dots n = true \/ plink_name n) ns ->
  8 * Z.of_nat (length inos) <= Z.of_nat (length (blk names)) ->
  let names' := names ++ map (plink_path dir) (no_dots ns) in
  let inos' := inos ++ map ino_of (no_dots ns) in
  Z.of_nat (length (blk names')) + 8 < 2 ^ 31 ->
  exists e' ib', build_loop dir ns (pw e names inos ib) = (Ret 0, pw e' names' inos' ib') /\
    8 * Z.of_nat (length inos') <= Z.of_nat (length (blk names')).
Proof.
  intros Hdir Hns. revert e names inos ib. induction Hns as [|n ns Hn _ IH];
    intros e names inos ib Hl names' inos' Hsz.
  { unfold names', inos'. cbn [no_dots List.filter map]. rewrite !app_nil_r. by exists e, ib. }
  cbn [build_loop]. unfold names', inos', no_dots in *. cbn [List.filter map] in *. clear names' inos'.
  destruct (is_dots n) eqn:Ed; cbn [negb map] in *.
  { by apply IH. }
  destruct Hn as [Hn|Hn]; [done|]. destruct (plink_name_dot n Hn) as (i & Ei & Eu & Hino).
  set (q := plink_path dir n) in *.
  assert (blk (names ++ q :: map (plink_path dir) (List.filter (fun n => negb (is_dots n)) ns))
          = blk (names ++ [q]) ++ blk (map (plink_path dir)
              (List.filter (fun n => negb (is_dots n)) ns))) as Eb
    by (rewrite <- blk_app, <- app_assoc; done).
  rewrite Eb, length_app in Hsz.
  rewrite (bind_run _ _ _ _ _ (na_append_run e names inos ib dir n ltac:(fold q; lia))).
  change (truth 0) with false. cbv iota. rewrite Ei. cbv beta iota.
  assert (put_errno 0 (pw e (names ++ [q]) inos ib) = (Ret tt, pw 0 (names ++ [q]) inos ib)) as E0 by done.
  rewrite (bind_run _ _ _ _ _ E0), Eu. clear E0.
  cbv beta iota. rewrite andb_false_r.
  assert (length (blk (names ++ [q])) = length (blk names) + length dir + length n + 2)%nat as Eq.
  { rewrite blk_app, blk_single, !length_app. unfold q, plink_path. rewrite length_app.
    cbn [length]. lia. }
  rewrite (bind_run _ _ _ _ _ (ia_append_run 0 (names ++ [q]) inos ib (ino_of n) ltac:(lia) ltac:(lia))).
  change (truth 0) with false. cbv iota.
  destruct (IH 0 (names ++ [q]) (inos ++ [ino_of n]) (Z.of_nat (length (blk (names ++ [q]))) + 8))
    as (e' & ib' & E & H').
  - rewrite length_app. cbn [length]. lia.
  - rewrite <- app_assoc. cbn [app]. rewrite Eb, length_app. exact Hsz.
  - rewrite <- !app_assoc in *. by exists e', ib'.
Qed.

(** The pseudo-links of a branch: a read-only branch and one without the directory have
    none. *)
Definition br_names (k : K) (b : aufs_brinfo) : list bytes :=
  if truth (au_br_writable (bi_perm b)) && (p_access (plink_dir b) k =? 0) then
    match p_readdir (plink_dir b) k with
    | inr ns => no_dots ns
    | inl _ => []
    end
  else [].

Definition all_paths (k : K) (br : list aufs_brinfo) : list bytes :=
  flat_map (fun b => map (plink_path (plink_dir b)) (br_names k b)) br.
Definition all_inos (k : K) (br : list aufs_brinfo) : list Z :=
  flat_map (fun b => map ino_of (br_names k b)) br.

(** A directory that is there can be read, and holds names of pseudo-links. *)
Definition dir_ok (k : K) (b : aufs_brinfo) : Prop :=
  truth (au_br_writable (bi_perm b)) = true -> p_access (plink_dir b) k = 0 ->
  exists ns, p_readdir (plink_dir b) k = inr ns /\
    Forall (fun n => is_dots n = true \/ plink_name n) ns.

Lemma plink_dir_length b : (8 <= length (plink_dir b))%nat.
Proof. unfold plink_dir. rewrite length_app. simpl. lia. Qed.

Lemma build_array_run b e names inos ib :
  truth (au_br_writable (bi_perm b)) = true -> dir_ok (w_kern w0) b ->
  8 * Z.of_nat (length inos) <= Z.of_nat (length (blk names)) ->
  let names' := names ++ map (plink_path (plink_dir b)) (br_names (w_kern w0) b) in
  let inos' := inos ++ map ino_of (br_names (w_kern w0) b) in
  Z.of_nat (length (blk names')) + 8 < 2 ^ 31 ->
  exists e' ib', build_array (plink_dir b) (pw e names inos ib) = (Ret 0, pw e' names' inos' ib') /\
    8 * Z.of_nat (length inos') <= Z.of_nat (length (blk names')).
Proof.
  intros Hw Hok Hl. unfold br_names. rewrite Hw. cbn [andb]. cbv zeta. intros Hsz.
  unfold build_array. rewrite bind_gets. change (w_kern (pw _ _ _ _)) with (w_kern w0).
  destruct (Z.eqb_spec (p_access (plink_dir b) (w_kern w0)) 0) as [Ha|Ha].
  - rewrite Ha. change (truth 0) with false. cbv iota. rewrite bind_gets.
    change (w_kern (pw _ _ _ _)) with (w_kern w0).
    destruct (Hok Hw Ha) as (ns & Er & Hns). rewrite Er in *.
    by apply build_loop_run; [apply plink_dir_length|..].
  - unfold truth. rewrite (proj2 (Z.eqb_neq _ _) Ha). cbn [negb map].
    rewrite !app_nil_r. by eexists _, ib.
Qed.

Lemma build_arrays_run br e names inos ib :
  Forall (dir_ok (w_kern w0)) br ->
  8 * Z.of_nat (length inos) <= Z.of_nat (length (blk names)) ->
  let names' := names ++ all_paths (w_kern w0) br in
  let inos' := inos ++ all_inos (w_kern w0) br in
  Z.of_nat (length (blk names')) + 8 < 2 ^ 31 ->
  exists e' ib', build_arrays br (pw e names inos ib) = (Ret tt, pw e' names' inos' ib').
Proof.
  intros Hok. revert e names inos ib. induction Hok as [|b br Hb _ IH]; intros e names inos ib Hl.
  { cbv zeta. cbn [all_paths all_inos flat_map]. rewrite !app_nil_r. by exists e, ib. }
  cbv zeta. unfold all_paths, all_inos in *. cbn [flat_map build_arrays].
  destruct (truth (au_br_writable (bi_perm b))) eqn:Ew; cbn [negb].
  - rewrite !app_assoc, blk_app, length_app. intros Hsz.
    rewrite (bind_run _ _ _ 0 _ (fallible_ok (pw e names inos ib) Hf)).
    change (truth 0) with false. cbv iota. fold (plink_dir b).
    destruct (build_array_run b e names inos ib Ew Hb Hl) as (e1 & ib1 & E & Hl'); [lia|].
    rewrite (bind_run _ _ _ _ _ E). change (truth 0) with false. cbv iota.
    apply IH; [done|]. rewrite blk_app, length_app. exact Hsz.
  - unfold br_names at 1 3 5. rewrite Ew. cbn [andb map app]. by apply IH.
Qed.
End build.

(** ** The walk and the removal *)

(** The names that the walk acts on: not directories, with a pseudo-linked inode. *)
Definition is_linked (inos : list Z) (e : bytes * stat * Z) : bool :=
  negb (bool_decide (st_kind e.1.2 = KDir)) && existsb (fun x => x =? st_ino e.1.2) inos.

Definition at_plinkdir (name : bytes) : bool := bool_decide (name = AUFS_WH_PLINKDIR).

Section walk.
Context {K : Type} `{!PlinkKernel K}.
Notation world := (world K plink).
Implicit Types w : world.
Context (Hchown : forall f b k, (p_chown f b k).1 = 0).
Context (Hunlink : forall f k, (p_unlink f k).1 = 0).

(** chown(2) or lchown(2) of one name, with its effect on the kernel's state. *)
Definition copy_up (k : K) (e : bytes * stat * Z) : K :=
  (p_chown e.1.1 (negb (bool_decide (st_kind e.1.2 = KLnk))) k).2.

Definition remove (k : K) (name : bytes) : K := (p_unlink name k).2.

(** What ftw_cpup() does with a name that is not skipped. *)
Definition cpup_act (e : bytes * stat * Z) : M world unit :=
  if (e.2 =? FTW_D) || (e.2 =? FTW_DNR) then mret tt
  else
    t ← ia_test (st_ino e.1.2);
    if (t : bool) then
      err ← kernel (p_chown e.1.1 (negb (bool_decide (st_kind e.1.2 = KLnk))));
      if truth err then put_errno err ;; au_fin else mret tt
    else mret tt.

Lemma ftw_cpup_act path s ty base w :
  ftw_cpup path (Some s) ty base w =
    (if at_plinkdir (drop base path) then mret FTW_SKIP_SUBTREE
     else cpup_act (path, s, ty) ;; mret FTW_CONTINUE) w.
Proof.
  unfold ftw_cpup, at_plinkdir, ftw_name, cpup_act.
  case_bool_decide as H.
  - by rewrite (proj2 (Z.eqb_eq _ _)) by (by apply strcmp_0).
  - rewrite (proj2 (Z.eqb_neq _ _)) by (by rewrite strcmp_0). cbn [fst snd].
    destruct (_ || _); [done|]. cbn [filled]. rewrite bind_ret, bind_assoc. done.
Qed.

(** The state after [ia_test]. *)
Definition rewound (w : world) : world :=
  let p := w_glob w in
  set_glob (Plink (na_o p) (na_cur p) (na_nname p) (ia_o p) (ia_bytes p) 0 (ia_nino p)
              (pl_freed p) (proc_fd p)) w.

Lemma ia_test_run ino w inos :
  ia_o (w_glob w) = inos -> ia_nino (w_glob w) = length inos ->
  ia_test ino w = (Ret (existsb (fun x => x =? ino) inos), rewound w).
Proof.
  intros Ho Hn. unfold ia_test, ia_rewind, mp, gp. rewrite bind_modify, bind_gets.
  unfold rewound. cbn [w_glob set_glob ia_nino ia_o]. rewrite Ho, Hn. by rewrite firstn_all.
Qed.

(** What the walk leaves alone. *)
Definition walked (w w' : world) (k : K) : Prop :=
  w_kern w' = k /\ w_faults w' = w_faults w /\
  na_o (w_glob w') = na_o (w_glob w) /\ na_nname (w_glob w') = na_nname (w_glob w) /\
  ia_o (w_glob w') = ia_o (w_glob w) /\ ia_nino (w_glob w') = ia_nino (w_glob w).

Lemma walked_trans w w1 w2 k1 k2 : walked w w1 k1 -> walked w1 w2 k2 -> walked w w2 k2.
Proof. unfold walked. intros (? & ? & ? & ? & ? & ?) (? & ? & ? & ? & ? & ?). repeat split; congruence. Qed.

Lemma cpup_one inos path s w :
  ia_o (w_glob w) = inos -> ia_nino (w_glob w) = length inos ->
  let e := (path, s, node_type s) in
  exists w', cpup_act e w = (Ret tt, w') /\
    walked w w' (if is_linked inos e then copy_up (w_kern w) e else w_kern w).
Proof.
  intros Ho Hn e. unfold cpup_act, is_linked, e. cbn [fst snd].
  assert ((node_type s =? FTW_D) || (node_type s =? FTW_DNR) = bool_decide (st_kind s = KDir)) as ->
    by (unfold node_type; by destruct (st_kind s)).
  case_bool_decide as Hk; cbn [negb andb]; [by exists w|].
  rewrite (bind_run _ _ _ _ _ (ia_test_run (st_ino s) w inos Ho Hn)).
  destruct (existsb _ inos); [|by exists (rewound w)].
  pose proof (Hchown path (negb (bool_decide (st_kind s = KLnk))) (w_kern w)) as Hc.
  unfold copy_up. cbn [fst snd]. destruct (p_chown _ _ (w_kern w)) as [z k'] eqn:Ec.
  simpl in Hc. subst z. rewrite (bind_run _ _ (rewound w) 0 (set_kern k' (rewound w))).
  - change (truth 0) with false. cbv iota. by eexists.
  - unfold kernel. change (w_kern (rewound w)) with (w_kern w). by rewrite Ec.
Qed.

Lemma cpup_all inos l w :
  ia_o (w_glob w) = inos -> ia_nino (w_glob w) = length inos ->
  Forall (fun e => e.2 = node_type e.1.2) l ->
  exists w', run_all cpup_act l w = (Ret tt, w') /\
    walked w w' (foldl copy_up (w_kern w) (List.filter (is_linked inos) l)).
Proof.
  intros Ho Hn Hl. revert w Ho Hn. induction Hl as [|[[path s] ty] l Hty _ IH]; intros w Ho Hn.
  { by exists w. }
  cbn [fst snd] in Hty. subst ty. cbn [run_all List.filter].
  destruct (cpup_one inos path s w Ho Hn) as (w1 & E1 & H1). rewrite (bind_run _ _ _ _ _ E1).
  assert (ia_o (w_glob w1) = inos /\ ia_nino (w_glob w1) = length inos) as [Ho1 Hn1].
  { destruct H1 as (_ & _ & _ & _ & -> & ->). done. }
  destruct (IH w1 Ho1 Hn1) as (w2 & E2 & H2). exists w2. split; [exact E2|].
  assert (w_kern w1 = _) as Ek by (by destruct H1 as (-> & _)). rewrite Ek in H2.
  destruct (is_linked inos (path, s, node_type s)); exact (walked_trans _ _ _ _ _ H1 H2).
Qed.

Lemma entries_types skip dev t path name :
  Forall (fun e => e.2 = node_type e.1.2) (entries skip dev t path name).
Proof.
  revert path name. induction t as [a sub IH] using fsnode_ind'. intros path name.
  cbn [entries]. destruct (an_lstat a) as [|s]; [constructor|].
  destruct (_ || _); [constructor|]. constructor; [done|].
  destruct (st_kind s); [|constructor..].
  induction IH as [|[n c] sub Hc _ IHs]; [constructor|]. cbn [flat_map].
  apply Forall_app. split; [|exact IHs]. destruct (is_dots n); [constructor|apply Hc].
Qed.

Lemma unlink_loop_run done_ todo w err :
  na_o (w_glob w) = blk (done_ ++ todo) -> na_cur (w_glob w) = length (blk done_) ->
  Forall (fun n => NUL ∉ n) todo ->
  exists w', unlink_loop (length todo) err w =
      (Ret (match todo with [] => err | _ => 0 end), w') /\
    w_kern w' = foldl remove (w_kern w) todo.
Proof.
  intros Ho Hc Hn. revert done_ w err Ho Hc.
  induction Hn as [|n todo Hn _ IH]; intros done_ w err Ho Hc; [by exists w|].
  cbn [length unlink_loop foldl]. unfold gp. rewrite bind_gets. cbv zeta.
  assert (cstr (drop (na_cur (w_glob w)) (na_o (w_glob w))) = n) as ->.
  { rewrite Hc, Ho, blk_app, drop_app_length. change (n :: todo) with ([n] ++ todo).
    rewrite blk_app, blk_single, <- app_assoc. by apply cstr_app. }
  pose proof (Hunlink n (w_kern w)) as Hu. unfold remove at 2.
  destruct (p_unlink n (w_kern w)) as [z k'] eqn:Eu. simpl in Hu. subst z.
  rewrite (bind_run _ _ w 0 (set_kern k' w)) by (unfold kernel; by rewrite Eu).
  change (truth 0) with false. cbv iota. unfold mp. rewrite bind_modify.
  set (w1 := set_glob _ _).
  destruct (IH (done_ ++ [n]) w1 0) as (w' & E & Hk).
  - rewrite <- app_assoc. exact Ho.
  - simpl. rewrite Hc, blk_app, blk_single, !length_app. done.
  - exists w'. rewrite E. split; [by destruct todo|exact Hk].
Qed.
End walk.

Lemma nopenfd_pos lim : 0 < nopenfd_of lim.
Proof.
  unfold nopenfd_of, OPEN_LIMIT. destruct lim as [cur|]; [|lia].
  destruct (_ || _) eqn:E; [lia|]. bool_lia. destruct (Z.ltb_spec 20 (i32 cur)); lia.
Qed.

(** "si=" and up to 16 hexadecimal digits are cut out of the options. *)
Lemma copy_si_ok si rest :
  (length si < 20)%nat -> ","%char ∉ si ->
  match rest with [] => True | c :: _ => c = ","%char end -> copy_si (si ++ rest) = Some si.
Proof.
  intros Hl Hn Hr. unfold copy_si, strchr. destruct rest as [|c rest].
  - rewrite app_nil_r, take_ge by lia. apply first_idx_None in Hn. rewrite Hn.
    by rewrite (proj2 (Nat.ltb_lt _ _)).
  - subst c. rewrite take_app_ge by lia. destruct (20 - length si)%nat as [|n] eqn:E; [lia|].
    cbn [take]. by rewrite first_idx_app, take_app_length.
Qed.

Section plink_props.
Context {K : Type} `{!PlinkKernel K}.
Notation world := (world K plink).
Implicit Types w : world.

(** The flags of the walk. *)
Definition walk_flags (ar : Z) : Z := Z.lor FTW_PHYS (Z.lor FTW_MOUNT ar).

Lemma all_paths_no_nul k br :
  Forall (fun b => NUL ∉ bi_path b /\ dir_ok k b) br -> Forall (fun n => NUL ∉ n) (all_paths k br).
Proof.
  induction 1 as [|b br [Hb Hok] _ IH]; [constructor|]. unfold all_paths. cbn [flat_map].
  apply Forall_app. split; [|exact IH]. unfold br_names.
  destruct (truth _) eqn:Ew; [|constructor]. cbn [andb].
  destruct (Z.eqb_spec (p_access (plink_dir b) k) 0) as [Ha|]; [|constructor].
  destruct (Hok Ew Ha) as (ns & -> & Hns). induction Hns as [|n ns Hn _ IHn]; [constructor|].
  unfold no_dots. cbn [List.filter]. destruct (is_dots n); cbn [negb map]; [exact IHn|].
  constructor; [|exact IHn]. destruct Hn as [|(ino & rest & _ & -> & Hr)]; [done|].
  unfold plink_path, plink_dir. rewrite !not_elem_of_app, !not_elem_of_cons, !not_elem_of_app.
  repeat split; try done.
  - intros H. repeat (apply elem_of_cons in H as [H|H]; [discriminate|]). by apply not_elem_of_nil in H.
  - apply (digits_not_elem 10 ino); [lia|change (byte_val NUL) with 0; lia..].
  - by apply not_elem_of_cons.
Qed.

(** C16. "auplink flush", built without glibc, that is with the repository's own walk
    (au_nftw.c): when the calls succeed, do_plink() first copies up every file of the
    aufs, below the mount point and on its device, whose inode number is that of a
    pseudo-link of a writable branch, under each of its names; then it tells the kernel
    to forget the pseudo-links, and only then removes them from the branches, each of
    them and nothing else. (The tree has to be one that the walk gets through: no deeper
    than the number of descriptors, and, as plink.c gives the walk 0 for
    FTW_ACTIONRETVAL, without a ".wh..wh.plnk" in sight; with the value 16 that
    au_nftw.c expects there might be one.) *)
Theorem flush_copies_then_removes ar cwd nbr brinfo a sub s (clean : K -> K) fd w :
  let k := w_kern w in
  let br := take (Z.to_nat nbr) brinfo in
  let name := drop (lev_base cwd []) cwd in
  let inos := all_inos k br in
  let linked := List.filter (is_linked inos)
                  (entries at_plinkdir (st_dev s) (FsNode a sub) cwd name) in
  w_faults w = [] -> w_glob w = plink_of [] [] 0 fd ->
  (forall f b k, (p_chown f b k).1 = 0) -> (forall f k, (p_unlink f k).1 = 0) ->
  (forall k, p_proc_write (lit "clean") k = ((0, 5), clean k)) ->
  Forall (fun b => NUL ∉ bi_path b /\ dir_ok k b) br -> inos <> [] ->
  Z.of_nat (length (blk (all_paths k br))) + 8 < 2 ^ 31 ->
  p_tree cwd k = FsNode a sub -> an_lstat a = inr s -> ar = 0 \/ ar = FTW_ACTIONRETVAL ->
  walkable at_plinkdir (truth (Z.land (walk_flags ar) FTW_ACTIONRETVAL)) (st_dev s) (FsNode a sub)
    cwd name (nopenfd_of (p_nofile k)) [] ->
  slash_at cwd = length cwd -> Z.of_nat (length cwd) <= PATH_MAX ->
  exists w', do_plink nftw_musl ar cwd AuPlink_FLUSH nbr brinfo w = (Ret 0, w') /\
    w_kern w' = foldl remove (clean (foldl copy_up k linked)) (all_paths k br).
Proof.
  intros k br name inos linked Hf Hg Hchown Hunlink Hclean Hbr Hinos Hsz Htree Hs Har Hwalk Hp Hl.
  assert (w = pw w fd (w_errno w) [] [] 0) as Ew by (unfold pw; rewrite <- Hg; by destruct w).
  destruct (build_arrays_run w Hf fd br (w_errno w) [] [] 0) as (e' & ib' & Eb);
    [by eapply Forall_impl; [exact Hbr|intros b []]|simpl; lia|exact Hsz|].
  cbn [app] in Eb. fold k in Eb. rewrite <- Ew in Eb. fold inos in Eb.
  unfold do_plink. change (AuPlink_FLUSH =? AuPlink_FLUSH) with true. cbn [orb].
  rewrite bind_ret. fold br. rewrite (bind_run _ _ _ _ _ Eb).
  set (w1 := pw w fd e' (all_paths k br) inos ib'). unfold gp. rewrite bind_gets. cbv zeta.
  assert ((ia_nino (w_glob w1) =? 0)%nat = false) as ->.
  { apply Nat.eqb_neq. simpl. by destruct inos. }
  change (AuPlink_FLUSH =? AuPlink_LIST) with false. cbv iota. rewrite bind_ret.
  rewrite (bind_run _ _ _ 0 _ (fallible_ok w1 Hf)). change (truth 0) with false. cbv iota.
  rewrite bind_gets. change (w_kern w1) with k. fold (walk_flags ar).
  assert (exists w2, nftw_musl ftw_cpup cwd (nopenfd_of (p_nofile k)) (walk_flags ar) w1 = (Ret 0, w2)
            /\ walked w1 w2 (foldl copy_up k linked)) as (w2 & E2 & Hk2 & _ & Hna & Hnn & _).
  { unfold nftw_musl. rewrite bind_gets. change (w_kern w1) with k. rewrite Htree.
    destruct (cpup_all Hchown inos (entries at_plinkdir (st_dev s) (FsNode a sub) cwd name) w1)
      as (w2 & E2 & H2); [done..|apply entries_types|].
    exists w2. split; [|exact H2].
    rewrite (au_nftw_entries ftw_cpup cpup_act at_plinkdir (walk_flags ar)
               ftw_cpup_act) with (s := s) (name := name);
      try done; try (by destruct Har as [->| ->]); [|apply nopenfd_pos].
    by rewrite (bind_run _ _ _ _ _ E2). }
  rewrite (bind_run _ _ _ _ _ E2). unfold au_clean_plink. rewrite !bind_assoc.
  rewrite (bind_run _ _ w2 (0, 5) (set_kern (clean (w_kern w2)) w2))
    by (unfold kernel; by rewrite Hclean).
  cbv beta iota. change (truth 0) with false. cbv iota. rewrite bind_assoc, bind_ret.
  change (negb (5 =? 5)) with false. cbv iota. rewrite bind_ret. unfold mp. rewrite bind_assoc, bind_modify.
  set (w3 := set_glob _ (set_kern _ _)).
  destruct (unlink_loop_run Hunlink [] (all_paths k br) w3 0) as (w4 & E4 & Hk4).
  - simpl. by rewrite Hna.
  - done.
  - by apply all_paths_no_nul.
  - assert (na_nname (w_glob w1) = length (all_paths k br)) as -> by done.
    rewrite (bind_run _ _ _ _ _ E4). unfold free_arrays, mp. rewrite bind_modify.
    eexists. split; [by destruct (all_paths k br)|].
    cbn [w_kern set_glob]. rewrite Hk4. simpl. by rewrite Hk2.
Qed.

(** Without glibc, plink.c sees FTW_ACTIONRETVAL as 0: the FTW_SKIP_SUBTREE that
    ftw_cpup() returns for a ".wh..wh.plnk" ends the walk instead of skipping the
    directory.  Only what precedes it is visited; [post], the rest of the mount point, is
    not, whatever pseudo-linked files it has. *)
Theorem walk_stops_at_plinkdir cwd fd a s pre ap subp sp post w :
  an_lstat a = inr s -> st_kind s = KDir -> an_access a = true -> an_opendir a = 0 ->
  an_lstat ap = inr sp -> st_dev sp = st_dev s -> (st_kind sp = KDir -> an_access ap = true) ->
  slash_at cwd = length cwd -> drop (lev_base cwd []) cwd <> AUFS_WH_PLINKDIR ->
  0 < fd -> Z.of_nat (length cwd) + 12 < PATH_MAX ->
  walkable at_plinkdir false (st_dev s) (FsNode a pre) cwd (drop (lev_base cwd []) cwd) fd [] ->
  let t := FsNode a (pre ++ (AUFS_WH_PLINKDIR, FsNode ap subp) :: post) in
  au_nftw ftw_cpup t cwd fd (walk_flags FTW_ACTIONRETVAL_util) w =
    (run_all cpup_act
       (entries at_plinkdir (st_dev s) (FsNode a pre) cwd (drop (lev_base cwd []) cwd)) ;;
     mret FTW_SKIP_SUBTREE) w.
Proof.
  intros Hs Hk Hacc Hop Hsp Hdev Haccp Hp Hne Hfd Hl Hwalk t.
  unfold au_nftw, t. rewrite (proj2 (Z.leb_gt _ _)), (proj2 (Z.ltb_ge _ _)) by lia.
  cbn [do_nftw walkable entries] in *. rewrite Hs in *. destruct Hwalk as [_ Hwalk].
  unfold at_plinkdir in Hwalk at 1. rewrite bool_decide_eq_false_2 in Hwalk by done.
  destruct (Hwalk eq_refl) as [_ Hsub]. destruct (Hsub Hk) as (_ & _ & Hfold).
  set (flags := walk_flags FTW_ACTIONRETVAL_util).
  rewrite (stat_type_ok flags eq_refl eq_refl a s Hs (fun _ => Hacc)). cbv beta iota.
  rewrite !bind_ret. cbv zeta. change (truth (Z.land flags FTW_DEPTH)) with false. cbn [negb].
  erewrite bind_ext; [|apply ftw_cpup_act|reflexivity].
  unfold at_plinkdir at 1 2. rewrite bool_decide_eq_false_2 by done.
  rewrite Z.eqb_refl. cbn [negb orb]. rewrite Hk. cbn [run_all].
  rewrite !bind_assoc. unfold node_type. rewrite Hk.
  apply bind_ext; [done|]. intros _ w1. rewrite bind_ret.
  change (truth FTW_CONTINUE) with false. cbv iota. rewrite bind_ret.
  change (FTW_D =? FTW_D) with true. cbn [orb andb]. unfold truth at 1.
  rewrite (proj2 (Z.eqb_neq fd 0)) by lia. cbn [negb]. rewrite Hop.
  change (truth 0) with false. cbv iota. cbn [filled]. rewrite bind_assoc, bind_ret.
  set (h := History _ _ _).
  erewrite (bind_ext (each_entry _ _ _));
    [|apply (each_entry_stops ftw_cpup cpup_act at_plinkdir flags (st_dev s)); [done| | | |]|
      reflexivity].
  - rewrite !bind_assoc. apply bind_ext; [done|]. intros _ w2. by rewrite bind_ret.
  - apply (children_visited ftw_cpup cpup_act at_plinkdir flags ftw_cpup_act eq_refl eq_refl eq_refl
      (st_dev s)); [done|exact Hfold|]. split; [done|]. simpl. lia.
  - done.
  - change (length AUFS_WH_PLINKDIR) with 12%nat. lia.
  - intros w2. apply (do_nftw_skip ftw_cpup cpup_act at_plinkdir flags ftw_cpup_act eq_refl eq_refl
      eq_refl ap subp sp _ AUFS_WH_PLINKDIR); [done|done|done| | |done].
    + by rewrite Hdev.
    + unfold lev_base. cbn [h_base h]. by apply drop_child_path.
Qed.
End plink_props.

(** ** A small aufs: two pseudo-links, three names of the one, a directory of the kernel *)

Module PlinkDemo.
Definition log (what : string) (f : bytes) (k : list bytes) : list bytes := k ++ [lit what ++ f].
Definition dir_answers (ino : Z) : answers :=
  let s := Stat 7 ino KDir in Answers (inr s) (inr s) true 0.
Definition file_answers (ino : Z) (kind : fkind) : answers :=
  let s := Stat 7 ino kind in Answers (inr s) (inr s) true 20.
Definition file (ino : Z) : fsnode := FsNode (file_answers ino KOther) [].
Definition sub : list (bytes * fsnode) :=
  [(lit ".", file 2); (lit "a", file 12); (lit "b", file 99);
   (lit "d", FsNode (dir_answers 30) [(lit "c", file 12); (lit "l", FsNode (file_answers 5 KLnk) [])])].
Definition hidden : list (bytes * fsnode) :=
  [(lit "a", file 12); (AUFS_WH_PLINKDIR, FsNode (dir_answers 31) []); (lit "z", file 12)].
#[export] Instance kernel : PlinkKernel (list bytes) := {
  p_access d _ := if bool_decide (d = lit "/rw/.wh..wh.plnk") then 0 else ENOENT;
  p_readdir _ _ := inr [lit "."; lit ".."; lit "12.3"; lit "5.77"];
  p_tree _ _ := FsNode (dir_answers 2) sub;
  p_chown f b k := (0, log (if b : bool then "chown " else "lchown ") f k);
  p_unlink f k := (0, log "unlink " f k);
  p_nofile _ := Some 256;
  p_proc_write f k := ((0, Z.of_nat (length f)), log "proc " f k)
}.
Definition world1 : world (list bytes) plink :=
  World 0 [] [] (plink_of [] [] 0 3) ∅ ∅ ∅ 4 ∅ [] [] [].
End PlinkDemo.
Import PlinkDemo.

Lemma demo_plink_name n ino rest :
  0 < ino < 2 ^ 64 -> n = digits 10 ino ++ DOT :: rest -> bool_decide (NUL ∉ rest) = true ->
  plink_name n.
Proof. intros Hi Hn Hr%bool_decide_eq_true. by exists ino, rest. Qed.

Lemma demo_dirs_ok :
  Forall (fun b => NUL ∉ bi_path b /\ dir_ok [] b) Demo.branches.
Proof.
  assert (forall b, dir_ok [] b) as Hok.
  { intros b _ _. eexists. split; [reflexivity|].
    constructor; [by left|]. constructor; [by left|].
    constructor; [right; by apply (demo_plink_name _ 12 (lit "3"))|].
    constructor; [right; by apply (demo_plink_name _ 5 (lit "77"))|constructor]. }
  repeat constructor; try apply Hok; apply (bool_decide_unpack _); vm_compute; exact Logic.I.
Qed.

Ltac walkable_solve :=
  cbn; repeat lazymatch goal with
  | |- _ /\ _ => split
  | |- ~ _ => fail
  | |- _ -> _ => intros _
  end; try reflexivity; try discriminate; apply (bool_decide_unpack _); vm_compute; exact Logic.I.

Lemma demo_walkable action :
  walkable at_plinkdir action 7 (FsNode (PlinkDemo.dir_answers 2) PlinkDemo.sub) (lit "/mnt")
    (lit "/mnt") 246 [].
Proof. walkable_solve. Qed.

Lemma demo_walkable_pre :
  walkable at_plinkdir false 7 (FsNode (PlinkDemo.dir_answers 2) [(lit "a", PlinkDemo.file 12)])
    (lit "/mnt") (lit "/mnt") 246 [].
Proof. walkable_solve. Qed.

Lemma flush_copies_then_removes_witness :
  exists w', do_plink nftw_musl FTW_ACTIONRETVAL_util (lit "/mnt") AuPlink_FLUSH 3 Demo.branches
      PlinkDemo.world1 = (Ret 0, w') /\
    w_kern w' = map lit ["chown /mnt/a"; "chown /mnt/d/c"; "lchown /mnt/d/l"; "proc clean";
                         "unlink /rw/.wh..wh.plnk/12.3"; "unlink /rw/.wh..wh.plnk/5.77"].
Proof.
  destruct (flush_copies_then_removes FTW_ACTIONRETVAL_util (lit "/mnt") 3 Demo.branches
    (PlinkDemo.dir_answers 2) PlinkDemo.sub (Stat 7 2 KDir) (PlinkDemo.log "proc " (lit "clean")) 3
    PlinkDemo.world1) as (w' & E & Hk); try reflexivity.
  - exact demo_dirs_ok.
  - vm_compute. discriminate.
  - by left.
  - apply demo_walkable.
  - vm_compute. discriminate.
  - exists w'. split; [exact E|]. rewrite Hk. vm_compute. reflexivity.
Defined.

Lemma walk_stops_at_plinkdir_witness :
  au_nftw ftw_cpup (FsNode (PlinkDemo.dir_answers 2) PlinkDemo.hidden) (lit "/mnt") 246
      (walk_flags FTW_ACTIONRETVAL_util) PlinkDemo.world1 =
    (run_all cpup_act
       [(lit "/mnt", Stat 7 2 KDir, FTW_D); (lit "/mnt/a", Stat 7 12 KOther, FTW_F)] ;;
     mret FTW_SKIP_SUBTREE) PlinkDemo.world1.
Proof.
  apply (walk_stops_at_plinkdir (lit "/mnt") 246 (PlinkDemo.dir_answers 2) (Stat 7 2 KDir)
    [(lit "a", PlinkDemo.file 12)] (PlinkDemo.dir_answers 31) [] (Stat 7 31 KDir)
    [(lit "z", PlinkDemo.file 12)] PlinkDemo.world1); try reflexivity; try discriminate.
  apply demo_walkable_pre.
Defined.
