(* ===== verification/Mount.v ===== *)
(** * mount.aufs.c and umount.aufs.c: the helpers of mount(8) and umount(8)

    The helpers inspect their arguments, flush the pseudo-links where the branches are
    about to change, run the real mount(8) or umount(8), start or stop the FHSM daemon and
    update /etc/mtab.  The results of getopt(3) are an argument of
    [mount_main]; Cmdline.v computes them.  The pattern that says when to flush is compiled
    and run by Ere.v. *)
From S2P Require Import Prelude CString AuUtil Ere AufsType Sys Br Shm FhsmCtl Mtab Ftw Plink.

(** ** The options of mount(8) *)

(** The pieces between the commas; at least one. *)
Fixpoint pieces (s : bytes) : list bytes :=
  match s with
  | [] => [[]]
  | c :: r =>
      if decide (c = ","%char) then [] :: pieces r
      else match pieces r with
           | p :: q => (c :: p) :: q
           | [] => [[c]]
           end
  end.

(** [flags]; its last element, AuFlush, is only used where it is set. *)
Record mflags := MFlags {
  f_remount : bool; f_bind : bool; f_fake : bool; f_update : bool; f_verbose : bool
}.

(** The value's start splits a suboption: getsubopt(3) compares what precedes "=". *)
Definition subopt_name (p : bytes) : bytes :=
  match strchr p "="%char with Some i => take i p | None => p end.

Definition set_subopt (f : mflags) (p : bytes) : mflags :=
  if bool_decide (subopt_name p = lit "remount")
  then MFlags true (f_bind f) (f_fake f) (f_update f) (f_verbose f)
  else if bool_decide (subopt_name p = lit "bind")
  then MFlags (f_remount f) true (f_fake f) (f_update f) (f_verbose f)
  else f.

(** The regular expression of test_flush() *)
Definition flush_pattern : bytes :=
  lit "^((add|ins|append|prepend|del)[:=]|(mod|imod)[:=][^,]*=ro|(noplink|ro)$)".

(** ** The vector for mount(8) *)

(** [argv] is the helper's own, [argv[1]] and [argv[2]] being the device and the mount
    point. *)
Definition mount_argv (dev mntpnt : bytes) (argv : list bytes) (f : mflags) : list bytes :=
  [lit "mount"; lit "-i"]
  ++ (if f_fake f then [lit "-f"] else [])
  ++ (if negb (f_bind f) || negb (f_update f) then [lit "-n"] else [])
  ++ (if f_bind f && f_verbose f then [lit "-v"] else [])
  ++ [lit "-t"; lit "aufs"]
  ++ List.filter (fun a => truth (strcmp a (lit "-f")) && truth (strcmp a (lit "-n"))
                           && truth (strcmp a (lit "-v"))) (drop 3 argv)
  ++ [dev; mntpnt].

(** [argv + 2], then the mount point: the vector for umount(8). *)
Definition umount_argv (mntpnt : bytes) (argv : list bytes) : list bytes :=
  [lit "umount"; lit "-i"] ++ drop 2 argv ++ [mntpnt].

(** The vector and its null are stored in an array of [ac] pointers. *)
Definition fill_av {W} (ac : nat) (av : list bytes) : M W unit :=
  if (S (length av) <=? ac)%nat then mret tt else ub "write beyond the vector".

(** ** A part of the program with other globals *)

Section zoom.
Context {K G G' : Type}.

Definition with_glob {G1 G2} (g : G2) (w : world K G1) : world K G2 :=
  World (w_errno w) (w_faults w) (w_kern w) g (w_shm w) (w_files w) (w_fds w) (w_nextfd w)
    (w_fifos w) (w_forks w) (w_waits w) (w_out w).

(** Runs [m], which has globals of its own, initially [g]. *)
Definition zoom {A} (g : G) (m : M (world K G) A) : M (world K G') A := fun w =>
  let '(r, w1) := m (with_glob g w) in (r, with_glob (w_glob w) w1).
End zoom.

Inductive mount_opt := MOpt (c : ascii) (optarg : bytes).

Section mount.
Context {K : Type} `{!AufsKernel K} `{!MountKernel K} `{!PlinkKernel K}.
Context (nftw : (bytes -> option stat -> Z -> nat -> M (world K plink) Z) -> bytes -> Z -> Z
                -> M (world K plink) Z).
Context (actionretval : Z) (decode : bytes -> M (world K plink) (option bytes)).
(** getcwd(3) in a directory; the status that waitpid(2) stores for a program, and for the
    child that updates /etc/mtab; the status of an executed program; what aufhsm gives. *)
Context (getcwd : bytes -> bytes) (wstatus : list bytes -> Z) (mtab_status : Z).
Context (spawn : list bytes -> Z).
Notation world := (world K plink).

Definition test_opts (opts : bytes) (f : mflags) : M world mflags :=
  m ← fallible; (* strdup *)
  if truth m then au_fin else mret (fold_left set_subopt (pieces opts) f).

Definition test_flush (opts : bytes) : M world bool :=
  m ← fallible; (* strdup *)
  if truth m then au_fin
  else
    e ← fallible;
    if truth e then au_fin
    else
      match regcomp flush_pattern with
      | None => au_fin
      | Some preg => mret (existsb (regexec preg) (pieces opts))
      end.

Definition do_mount (dev mntpnt : bytes) (argv : list bytes) (f : mflags) : M world Z :=
  let av := mount_argv dev mntpnt argv f in
  fill_av (length argv + 7) av ;;
  e ← fallible; (* execv *)
  if truth e then au_fin else exit_ (spawn av).

(** The getopt(3) loop of main(): the flags and the options. *)
Fixpoint mount_opts (calls : list mount_opt) (f : mflags) (opts : option bytes)
  : M world (mflags * option bytes) :=
  match calls with
  | [] => mret (f, opts)
  | MOpt c optarg :: r =>
      if decide (c = "f"%char) then
        mount_opts r (MFlags (f_remount f) (f_bind f) true (f_update f) (f_verbose f)) opts
      else if decide (c = "n"%char) then
        mount_opts r (MFlags (f_remount f) (f_bind f) (f_fake f) false (f_verbose f)) opts
      else if decide (c = "v"%char) then
        mount_opts r (MFlags (f_remount f) (f_bind f) (f_fake f) (f_update f) true) opts
      else if decide (c = "o"%char) then
        match opts with
        | None => mount_opts r f (Some optarg)
        | Some _ => put_errno EINVAL ;; au_fin
        end
      else if decide (c = "?"%char \/ c = ":"%char) then put_errno EINVAL ;; au_fin
      else mount_opts r f opts
  end.

(** A call that ends the program when it fails. *)
Definition must : M world unit := e ← fallible; if truth e then au_fin else mret tt.

(** What is left to do when the real mount(8) has ended with [err]. *)
Definition after_mount (cwd : bytes) (f : mflags) (err : Z) : M world Z :=
  zoom (Ctl None 0) (mng_fhsm spawn cwd false) ;;
  if negb (truth err) && negb (f_bind f) then
    if f_update f then au_update_mtab decode mtab_status cwd (f_remount f) (f_verbose f)
    else if f_verbose f then
      ent ← au_proc_getmntent decode cwd;
      au_print_ent ent ;; mret 0
    else mret err
  else mret err.

(** main() of mount.aufs.c *)
Definition mount_main (argv : list bytes) (calls : list mount_opt) : M world Z :=
  match argv with
  | _ :: dev :: mntpnt :: _ =>
      '(f, opts) ← mount_opts calls (MFlags false false false true false) None;
      must ;; must ;; must ;; must ;; (* opendir, chdir, getcwd, fchdir *)
      let cwd := getcwd mntpnt in
      f ← (match opts with Some o => test_opts o f | None => mret f end);
      (if negb (f_bind f) && f_update f then must else mret tt) ;; (* access *)
      fd ← (if f_remount f then
              put_errno EINVAL ;;
              if f_bind f then au_fin
              else
                match opts with
                | None => ub "null dereference of opts"
                | Some o =>
                    fl ← test_flush o;
                    if (fl : bool) then
                      '(err, fd) ← au_plink nftw actionretval decode cwd AuPlink_FLUSH
                                     (Z.lor AuPlinkFlag_OPEN AuPlinkFlag_CLOEXEC);
                      if truth err then au_fin else mret fd
                    else mret None
                end
            else mret None);
      pid ← fork_;
      if pid =? 0 then do_mount dev mntpnt argv f
      else if pid <? 0 then au_fin
      else
        match fd with
        | Some fd => if 0 <=? fd then _ ← close_ fd; mret tt else mret tt
        | None => mret tt
        end ;;
        waited ← waitpid_ pid;
        if waited <? 0 then au_fin
        else
          let status := wstatus (mount_argv dev mntpnt argv f) in
          let err := if Z.land status 127 =? 0 then Z.land (Z.shiftr status 8) 255 else 1 in
          after_mount cwd f err
  | _ => print AuVersion ;; put_errno EINVAL ;; au_fin
  end.

(** main() of umount.aufs.c; the array has [argc + 1] elements. *)
Definition umount_main (argv : list bytes) : M world Z :=
  match argv with
  | _ :: mntpnt :: _ =>
      ent ← au_proc_getmntent decode mntpnt;
      match hasmntopt ent (lit "noplink") with
      | Some _ => mret tt
      | None =>
          '(err, _) ← au_plink nftw actionretval decode mntpnt AuPlink_FLUSH
                        (Z.lor AuPlinkFlag_OPEN AuPlinkFlag_CLOEXEC);
          if truth err then au_fin else mret tt
      end ;;
      zoom (Ctl None 0) (mng_fhsm spawn mntpnt true) ;;
      let av := umount_argv mntpnt argv in
      fill_av (length argv + 1) av ;;
      e ← fallible; (* execv *)
      if truth e then au_fin else exit_ (spawn av)
  | _ => print AuVersion ;; put_errno EINVAL ;; au_fin
  end.
End mount.

(** ** Properties *)

(** *** Which options flush the pseudo-links

    The meaning of the pattern: an option that changes the branches, up to its
    separator; one that makes a branch read-only; [noplink] or [ro] by themselves. *)
Definition starts_with_sep (word s : bytes) : option bytes :=
  match drop_prefix word s with
  | Some (c :: r) => if decide (c = ":"%char \/ c = "="%char) then Some r else None
  | _ => None
  end.

Definition flush_pat (s : bytes) : bool :=
  existsb (fun w => bool_decide (is_Some (starts_with_sep (lit w) s)))
    ["add"; "ins"; "append"; "prepend"; "del"]%string
  || existsb (fun w => match starts_with_sep (lit w) s with
                       | Some r => bool_decide (is_Some (strstr r (lit "=ro")))
                       | None => false
                       end) ["mod"; "imod"]%string
  || bool_decide (s = lit "noplink") || bool_decide (s = lit "ro").

Definition seps : ere := RSet false [(":", ":"); ("=", "=")]%char.
Definition not_comma : ere := RSet true [(",", ",")]%char.

Lemma flush_regcomp :
  regcomp flush_pattern = Some (RCat RBol
    (RAlt (RAlt
       (RCat (RAlt (RAlt (RAlt (RAlt (word (lit "add")) (word (lit "ins"))) (word (lit "append")))
                (word (lit "prepend"))) (word (lit "del"))) seps)
       (RCat (RAlt (word (lit "mod")) (word (lit "imod")))
          (RCat seps (RCat (RStar not_comma) (word (lit "=ro"))))))
       (RCat (RAlt (word (lit "noplink")) (word (lit "ro"))) REol))).
Proof. vm_compute. reflexivity. Qed.

Lemma drop_prefix_take w s :
  drop_prefix w s = if bool_decide (take (length w) s = w) then Some (drop (length w) s) else None.
Proof.
  revert s. induction w as [|c w IH]; intros s; cbn [drop_prefix length].
  - by rewrite take_0, bool_decide_true.
  - destruct s as [|d s]; [done|]. cbn [take drop]. rewrite IH.
    destruct (decide (c = d)) as [<-|Hn].
    + destruct (decide (take (length w) s = w)) as [E|E].
      * rewrite !bool_decide_true by congruence. done.
      * rewrite !bool_decide_false by congruence. done.
    + rewrite bool_decide_false by congruence. done.
Qed.

Lemma in_seps c : in_set false [(":", ":"); ("=", "=")]%char c = bool_decide (c = ":"%char \/ c = "="%char).
Proof.
  transitivity (in_set false [(":", ":")]%char c || in_set false [("=", "=")]%char c).
  { unfold in_set. cbn [existsb xorb]. by rewrite !Bool.orb_false_r. }
  rewrite !in_set_chr, <- bool_decide_or. apply bool_decide_ext. naive_solver.
Qed.

(** A word, a separator, and then [r]. *)
Lemma word_sep_match w b r s :
  w <> [] ->
  match_here b (RCat (word w) (RCat seps r)) s =
    match starts_with_sep w s with Some x => match_here false r x | None => false end.
Proof.
  intros Hw. rewrite match_here_cat_word by done. unfold starts_with_sep, seps.
  rewrite drop_prefix_take. case_bool_decide; [|done]. cbn [andb].
  rewrite match_here_set. destruct (drop _ s) as [|c x]; [done|]. rewrite in_seps.
  case_decide; [by rewrite bool_decide_true|by rewrite bool_decide_false].
Qed.

Lemma word_sep_end w b s :
  w <> [] ->
  match_here b (RCat (word w) seps) s = bool_decide (is_Some (starts_with_sep w s)).
Proof.
  intros Hw. transitivity (match_here b (RCat (word w) (RCat seps REps)) s).
  - rewrite !match_here_cat_word by done. f_equal. unfold seps. by
      destruct (drop _ s) as [|c x]; rewrite match_here_set, match_here_set_end, ?match_here_eps,
        ?Bool.andb_true_r.
  - rewrite word_sep_match by done. destruct (starts_with_sep w s).
    + by rewrite match_here_eps, bool_decide_true.
    + by rewrite bool_decide_false by by intros [].
Qed.

Lemma word_eol w b s :
  w <> [] -> match_here b (RCat (word w) REol) s = bool_decide (s = w).
Proof.
  intros Hw. rewrite match_here_cat_word, match_here_eol by done.
  apply Bool.eq_iff_eq_true. rewrite andb_true_iff, !bool_decide_eq_true, is_nil_spec. split.
  - intros [Ht Hd]. by rewrite <- (take_drop (length w) s), Ht, Hd, app_nil_r.
  - intros ->. by rewrite firstn_all, drop_all.
Qed.

(** [^,]*=ro, on what has no comma: "=ro" occurs. *)
Lemma star_ro_match s :
  ","%char ∉ s ->
  match_here false (RCat (RStar not_comma) (word (lit "=ro"))) s
  = bool_decide (is_Some (strstr s (lit "=ro"))).
Proof.
  intros Hs. assert (forall y, match_here false (word (lit "=ro")) y = true <->
    exists r, y = lit "=ro" ++ r) as Hw.
  { intros y. rewrite match_here_spec. split.
    - intros (u & z & -> & H). exists z. f_equal. cbn in H. unfold RChr in H. inv_match. cbn [app].
      repeat match goal with H : in_set false _ _ = true |- _ =>
        rewrite in_set_chr, bool_decide_eq_true in H; subst end. done.
    - intros [r ->]. exists (lit "=ro"), r. split; [done|].
      apply (m_cat _ _ _ ["="%char]); [by constructor|].
      apply (m_cat _ _ _ ["r"%char]); by constructor. }
  apply Bool.eq_iff_eq_true. unfold not_comma. rewrite match_here_star_any, bool_decide_eq_true.
  - split.
    + intros (x & y & -> & Hy). apply Hw in Hy as [r ->].
      destruct (strstr _ _) eqn:E; [done|]. by apply strstr_None with (l := x) (r := r) in E.
    + intros [t Ht]. apply strstr_Some in Ht as (l & r & -> & -> & _).
      exists l, (lit "=ro" ++ r). split; [done|]. apply Hw. by exists r.
  - apply Forall_forall. intros c Hc. unfold in_set. cbn [existsb xorb].
    apply negb_true_iff. rewrite Bool.orb_false_r. apply not_true_is_false. unfold in_range.
    cbn [fst snd]. rewrite andb_true_iff, !Z.leb_le. intros [? ?].
    assert (c = ","%char) by (apply byte_val_inj; lia). by subst.
Qed.

Lemma starts_with_sep_rest w s r : starts_with_sep w s = Some r -> forall c, c ∈ r -> c ∈ s.
Proof.
  unfold starts_with_sep. rewrite drop_prefix_take. case_bool_decide; [|done].
  destruct (drop (length w) s) as [|d x] eqn:E; [done|]. case_decide; [|done]. intros [= <-] c Hc.
  rewrite <- (take_drop (length w) s), E. set_solver.
Qed.

Lemma pieces_no_comma s p : p ∈ pieces s -> ","%char ∉ p.
Proof.
  revert p; induction s as [|c s IH]; intros p; simpl.
  - intros ->%list_elem_of_singleton. apply not_elem_of_nil.
  - case_decide.
    + intros [->|Hp]%elem_of_cons; [apply not_elem_of_nil|by apply IH].
    + destruct (pieces s) as [|q qs].
      * intros ->%list_elem_of_singleton. set_solver.
      * intros [->|Hp]%elem_of_cons; [|apply IH; by right].
        intros [Hq|Hq]%elem_of_cons; [congruence|]. apply (IH q); [by left|done].
Qed.

Lemma existsb_ext_in {A} (f g : A -> bool) l :
  (forall x, x ∈ l -> f x = g x) -> existsb f l = existsb g l.
Proof.
  induction l as [|x l IH]; intros H; [done|]. simpl. rewrite H by set_solver.
  f_equal. apply IH. set_solver.
Qed.

(** The pattern, as the C library runs it, against its meaning. *)
Lemma flush_pattern_meaning s :
  ","%char ∉ s ->
  exists preg, regcomp flush_pattern = Some preg /\ regexec preg s = flush_pat s.
Proof.
  intros Hs. eexists. split; [apply flush_regcomp|].
  rewrite regexec_bol, !match_here_alt, !match_here_cat_alt.
  rewrite !word_sep_end, !word_sep_match, !word_eol by done.
  assert (forall w, match starts_with_sep w s with
      | Some x => match_here false (RCat (RStar not_comma) (word (lit "=ro"))) x
      | None => false end
    = match starts_with_sep w s with
      | Some r => bool_decide (is_Some (strstr r (lit "=ro")))
      | None => false end) as Hro.
  { intros w. destruct (starts_with_sep w s) as [x|] eqn:E; [|done].
    apply star_ro_match. intros Hc. by apply Hs, (starts_with_sep_rest _ _ _ E). }
  rewrite !Hro. unfold flush_pat. cbn [existsb]. rewrite !Bool.orb_false_r, <- !Bool.orb_assoc.
  done.
Qed.

(** do_mount() never writes beyond its vector. *)
Lemma mount_argv_fits dev mntpnt argv f :
  (3 <= length argv)%nat -> (S (length (mount_argv dev mntpnt argv f)) <= length argv + 7)%nat.
Proof.
  intros H. unfold mount_argv. rewrite !length_app. cbn [length].
  pose proof (List.filter_length_le (fun a => truth (strcmp a (lit "-f"))
    && truth (strcmp a (lit "-n")) && truth (strcmp a (lit "-v"))) (drop 3 argv)) as Hl.
  rewrite length_drop in Hl. set (n := length (List.filter _ _)) in *.
  destruct (f_fake f), (f_bind f), (f_update f), (f_verbose f); cbn [negb orb andb length]; lia.
Qed.

Lemma pieces_not_nil s : pieces s <> [].
Proof. induction s as [|c s IH]; simpl; [done|]. case_decide; [done|]. by destruct (pieces s). Qed.

(** The pieces are what the commas separate. *)
Lemma pieces_app p s : ","%char ∉ p -> pieces (p ++ ","%char :: s) = p :: pieces s.
Proof.
  induction p as [|c p IH]; intros H; simpl; [done|].
  rewrite decide_False by set_solver. by rewrite IH by set_solver.
Qed.

Lemma pieces_last p : ","%char ∉ p -> pieces p = [p].
Proof.
  induction p as [|c p IH]; intros H; simpl; [done|].
  rewrite decide_False by set_solver. by rewrite IH by set_solver.
Qed.

Section mount_props.
Context {K : Type} `{!AufsKernel K} `{!MountKernel K} `{!PlinkKernel K}.
Context (nftw : (bytes -> option stat -> Z -> nat -> M (world K plink) Z) -> bytes -> Z -> Z
                -> M (world K plink) Z).
Context (actionretval : Z) (decode : bytes -> M (world K plink) (option bytes)).
Context (getcwd : bytes -> bytes) (wstatus : list bytes -> Z) (mtab_status : Z).
Context (spawn : list bytes -> Z).
Notation world := (world K plink).
Implicit Types w : world.

(** C19. A helper that remounts flushes the pseudo-links exactly when one of the options
    between the commas changes a branch, makes one read-only ("mod:...=ro"), or is
    "noplink" or "ro": the compiled pattern means [flush_pat]. *)
Theorem test_flush_decides opts w :
  w_faults w = [] -> test_flush opts w = (Ret (existsb flush_pat (pieces opts)), w).
Proof.
  intros Hf. unfold test_flush. rewrite !(bind_run _ _ _ _ _ (fallible_ok w Hf)).
  cbn [truth negb Z.eqb]. rewrite (bind_run _ _ _ _ _ (fallible_ok w Hf)).
  destruct (flush_pattern_meaning []) as (preg & E & _); [apply not_elem_of_nil|].
  rewrite E. cbn [truth negb Z.eqb]. unfold mret, M_ret. do 2 f_equal. apply existsb_ext_in. intros p Hp.
  destruct (flush_pattern_meaning p) as (preg' & E' & Hm); [by apply pieces_no_comma in Hp|].
  rewrite E in E'. by injection E' as <-.
Qed.

(** umount.aufs never runs umount(8) within the bounds of its memory: whatever the
    arguments, the terminating null of the vector is written behind the array, which has
    [argc + 1] elements for [argc + 2] values. *)
Theorem umount_av_overflow me mntpnt args ent x w w1 :
  au_proc_getmntent decode mntpnt w = (Ret ent, w) -> hasmntopt ent (lit "noplink") = Some x ->
  zoom (Ctl None 0) (mng_fhsm spawn mntpnt true) w = (Ret tt, w1) ->
  umount_main nftw actionretval decode spawn (me :: mntpnt :: args) w =
    (Ub "write beyond the vector", w1).
Proof.
  intros He Hn Hm. unfold umount_main. rewrite (bind_run _ _ _ _ _ He), Hn, bind_ret.
  rewrite (bind_run _ _ _ _ _ Hm). cbv zeta. unfold umount_argv, fill_av.
  rewrite !length_app. cbn [length drop]. rewrite drop_0.
  rewrite (proj2 (Nat.leb_gt _ _)) by lia. done.
Qed.

(** A failed mount(8) is not what mount.aufs reports: mng_fhsm() is run whatever the
    status [err] was, and when nothing is mounted its au_br() ends the program first, with
    an error number that does not depend on [err]. *)
Theorem failed_mount_status_lost cwd f err w :
  w_faults w = [] -> 0 <= w_nextfd w -> k_is_aufs cwd = false ->
  exists w', after_mount decode mtab_status spawn cwd f err w =
    (Exit (if w_errno w =? 0 then 255 else u8 (w_errno w)), w').
Proof.
  intros Hf Hfd Hk. unfold after_mount.
  assert (exists w', zoom (Ctl None 0) (mng_fhsm spawn cwd false) w =
    (Exit (if w_errno w =? 0 then 255 else u8 (w_errno w)), w')) as [w' E].
  { unfold zoom, mng_fhsm. set (v := with_glob _ w).
    assert (w_faults v = []) as Hv by done.
    assert (exists v', au_br cwd v = (Exit (if w_errno w =? 0 then 255 else u8 (w_errno w)), v'))
      as [v' Ev].
    { unfold au_br. rewrite (bind_run _ _ _ _ _ (open_ok v cwd Hv)).
      change (w_nextfd v) with (w_nextfd w). rewrite (proj2 (Z.ltb_ge _ _)) by done.
      set (v2 := set_fds _ _). rewrite (bind_run _ _ _ _ _ (fallible_ok v2 Hv)).
      change (truth 0) with false. cbv iota. rewrite Hk. cbn [negb].
      unfold au_fin. change (w_errno v2) with (w_errno w). by destruct (w_errno w =? 0); eexists. }
    unfold mbind at 1, M_bind. rewrite Ev. by eexists. }
  exists w'. unfold mbind at 1, M_bind. by rewrite E.
Qed.
End mount_props.

(** ** A system with one aufs *)

Module MountDemo.
#[export] Instance mounts : MountKernel unit := {
  k_mounts _ := [Mntent (lit "none") (lit "/a") (lit "aufs") (lit "rw,noplink") 0 0];
  k_mtab _ := []; k_mtab_is_proc _ := true; k_link k := (0, k);
  k_written _ := 0%nat; k_rename _ k := (0, k); k_flush _ k := (0, k);
  k_tilde_ours _ := false
}.
#[export] Instance plinks : PlinkKernel unit := {
  p_access _ _ := ENOENT; p_readdir _ _ := inl ENOENT;
  p_tree _ _ := FsNode (Answers (inl ENOENT) (inl ENOENT) false ENOENT) [];
  p_chown _ _ k := (0, k); p_unlink _ k := (0, k); p_nofile _ := None;
  p_proc_write l k := ((0, Z.of_nat (length l)), k)
}.
(** The same kernel without an aufs. *)
#[export] Instance no_aufs : AufsKernel nat := {
  k_is_aufs _ := false; k_dev _ := (0, 42); k_ino _ := 2; k_br_count k := ((0, EINVAL), k);
  k_br_fill _ k := ((0, []), k); k_wbr_fd _ k := ((0, []), k); k_openat _ k := (0, k);
  k_nlink _ _ := 1; k_mvdown _ m k := ((0, m), k); k_fhsm_fd k := ((3, 0), k);
  k_fhsm_read _ k := ((0, []), k); k_list_cmd _ k := ((0, []), k)
}.
#[export] Instance no_mounts : MountKernel nat := {
  k_mounts _ := []; k_mtab _ := []; k_mtab_is_proc _ := true; k_link k := (0, k);
  k_written _ := 0%nat; k_rename _ k := (0, k); k_flush _ k := (0, k); k_tilde_ours _ := false
}.
Definition world0 {K} (k : K) : world K plink := World 0 [] k plink0 ∅ ∅ ∅ 3 ∅ [1] [] [].
Definition flags : mflags := MFlags false false false true false.
End MountDemo.
Import Sys.Demo MountDemo.

(** Which options of a remount flush the pseudo-links. *)
Example flush_options :
  map (fun s => flush_pat (lit s))
    ["add:1:/b=rw"; "del=/b"; "mod:/b=ro+wh"; "imod=/b=rw"; "noplink"; "ro"; "rw"; "plink"]%string
  = [true; true; true; false; true; true; false; false].
Proof. reflexivity. Qed.

Lemma test_flush_decides_witness :
  test_flush (lit "rw,mod:/b=ro+wh") (MountDemo.world0 tt) = (Ret true, MountDemo.world0 tt).
Proof. apply (test_flush_decides (lit "rw,mod:/b=ro+wh") (MountDemo.world0 tt)). reflexivity. Defined.

Lemma umount_av_overflow_witness :
  umount_main nftw_musl 0 au_decode_mntpnt_glibc (fun _ => 0) [lit "umount.aufs"; lit "/a"; lit "-n"]
      (MountDemo.world0 tt) =
    (Ub "write beyond the vector",
     (zoom (Ctl None 0) (mng_fhsm (fun _ => 0) (lit "/a") true) (MountDemo.world0 tt)).2).
Proof.
  apply (umount_av_overflow nftw_musl 0 au_decode_mntpnt_glibc (fun _ => 0) (lit "umount.aufs")
    (lit "/a") [lit "-n"] (Mntent (lit "none") (lit "/a") (lit "aufs") (lit "rw,noplink") 0 0)
    (lit "noplink")); vm_compute; reflexivity.
Defined.

Lemma failed_mount_status_lost_witness :
  exists w', after_mount au_decode_mntpnt_glibc 0 (fun _ => 0) (lit "/a") MountDemo.flags 32
      (MountDemo.world0 O) = (Exit 255, w').
Proof.
  apply (failed_mount_status_lost au_decode_mntpnt_glibc 0 (fun _ => 0) (lit "/a") MountDemo.flags 32
    (MountDemo.world0 O)); [reflexivity|discriminate|reflexivity].
Defined.
