(* ===== verification/LinuxList.v ===== *)
(** * The doubly linked list of the daemon: linux-list.h on a heap

    [Event] and [Mvdown] keep the operations in progress as a list of Rocq.  Here the
    operations of fhsm/linux-list.h work on a heap of list heads, and the three places
    of the daemon that use them (fhsm/mvdown.c, fhsm/event.c) are shown to do to the
    heap what [Event] and [Mvdown] do to the list.  [None] is an access to memory
    that is not allocated. *)
From S2P Require Import Prelude AufsType FhsmData Sys Daemon Mvdown Event.

Record list_head := LH { prev : Z; next : Z }.
Notation heap := (gmap Z list_head).

(** ** linux-list.h *)

Definition get_next (p : Z) (h : heap) : option Z := next <$> h !! p.
Definition get_prev (p : Z) (h : heap) : option Z := prev <$> h !! p.
Definition put_next (p v : Z) (h : heap) : option heap :=
  (fun x => <[p := LH (prev x) v]> h) <$> h !! p.
Definition put_prev (p v : Z) (h : heap) : option heap :=
  (fun x => <[p := LH v (next x)]> h) <$> h !! p.

Definition INIT_LIST_HEAD (list : Z) (h : heap) : option heap :=
  h ← put_next list list h; put_prev list list h.

Definition list_add_between (new prev next : Z) (h : heap) : option heap :=
  h ← put_prev next new h;
  h ← put_next new next h;
  h ← put_prev new prev h;
  put_next prev new h.

Definition list_add (new head : Z) (h : heap) : option heap :=
  n ← get_next head h; list_add_between new head n h.

Definition list_del_between (prev next : Z) (h : heap) : option heap :=
  h ← put_prev next prev h; put_next prev next h.

Definition list_del_entry (entry : Z) (h : heap) : option heap :=
  p ← get_prev entry h; n ← get_next entry h; list_del_between p n h.

Definition list_del (entry : Z) (h : heap) : option heap :=
  p ← get_prev entry h; n ← get_next entry h;
  h ← list_del_between p n h;
  h ← put_next entry 0 h;
  put_prev entry 0 h.

Definition list_empty (head : Z) (h : heap) : option bool :=
  n ← get_next head h; Some (n =? head).

(** ** The uses *)

(** The heads and the structures that hold them: list_entry() is the identity, as
    [list] is looked up under the address of its structure. *)
Record opes := Opes { heads : heap; data : gmap Z in_ope }.

(** The loop of handle_sig() on SIGCHLD: list_del(), free(), [found] *)
Fixpoint sigchld_loop (fuel : nat) (head pid pos : Z) (o : opes) : option (opes * bool) :=
  match fuel with
  | O => None
  | S k =>
      if pos =? head then Some (o, false)
      else
        io ← data o !! pos;
        if io_pid io =? pid then
          h ← list_del pos (heads o);
          Some (Opes (delete pos h) (delete pos (data o)), true)
        else n ← get_next pos (heads o); sigchld_loop k head pid n o
  end.
Definition sigchld (fuel : nat) (head pid : Z) (o : opes) : option (opes * bool) :=
  n ← get_next head (heads o); sigchld_loop fuel head pid n o.

(** The loop of au_mvdown_run(): whether the branch is in progress already *)
Fixpoint busy_loop (fuel : nat) (head brid pos : Z) (o : opes) : option bool :=
  match fuel with
  | O => None
  | S k =>
      if pos =? head then Some false
      else
        io ← data o !! pos;
        if io_brid io =? brid then Some true
        else n ← get_next pos (heads o); busy_loop k head brid n o
  end.
Definition busy (fuel : nat) (head brid : Z) (o : opes) : option bool :=
  n ← get_next head (heads o); busy_loop fuel head brid n o.

(** malloc() at the free address [a], the fields set, list_add() *)
Definition add_ope (head brid a : Z) (o : opes) : option opes :=
  h ← list_add a head (<[a := LH 0 0]> (heads o));
  Some (Opes h (<[a := InOpe brid 0]> (data o))).

(** ** Circular lists *)

Lemma put_next_get p v h :
  is_Some (h !! p) -> exists h', put_next p v h = Some h' /\ dom h' = dom h /\
    (forall q, get_next q h' = if decide (q = p) then Some v else get_next q h) /\
    (forall q, get_prev q h' = get_prev q h).
Proof.
  intros [x Hx]. unfold put_next. rewrite Hx. eexists. split; [reflexivity|].
  split; [rewrite dom_insert_lookup_L; [done|by eexists]|].
  unfold get_next, get_prev. split; intros q.
  - case_decide; [subst; by rewrite lookup_insert_eq|by rewrite lookup_insert_ne].
  - destruct (decide (q = p)) as [->|]; [by rewrite lookup_insert_eq, Hx|by rewrite lookup_insert_ne].
Qed.

Lemma put_prev_get p v h :
  is_Some (h !! p) -> exists h', put_prev p v h = Some h' /\ dom h' = dom h /\
    (forall q, get_prev q h' = if decide (q = p) then Some v else get_prev q h) /\
    (forall q, get_next q h' = get_next q h).
Proof.
  intros [x Hx]. unfold put_prev. rewrite Hx. eexists. split; [reflexivity|].
  split; [rewrite dom_insert_lookup_L; [done|by eexists]|].
  unfold get_next, get_prev. split; intros q.
  - case_decide; [subst; by rewrite lookup_insert_eq|by rewrite lookup_insert_ne].
  - destruct (decide (q = p)) as [->|]; [by rewrite lookup_insert_eq, Hx|by rewrite lookup_insert_ne].
Qed.

(** From [a] through the nodes of [l] to [z], and back *)
Fixpoint chain (h : heap) (a : Z) (l : list Z) (z : Z) : Prop :=
  match l with
  | [] => get_next a h = Some z /\ get_prev z h = Some a
  | b :: r => get_next a h = Some b /\ get_prev b h = Some a /\ chain h b r z
  end.

Definition dlist (h : heap) (head : Z) (l : list Z) : Prop :=
  NoDup (head :: l) /\ chain h head l head.

Lemma chain_frame h h' a l z :
  (forall q, q ∈ a :: l -> get_next q h' = get_next q h) ->
  (forall q, q ∈ l ++ [z] -> get_prev q h' = get_prev q h) ->
  chain h a l z -> chain h' a l z.
Proof.
  revert a. induction l as [|b r IH]; intros a Hn Hp; simpl.
  - intros [H1 H2]. rewrite Hn, Hp by set_solver. done.
  - intros (H1 & H2 & H3). rewrite Hn, Hp by set_solver. split_and!; try done.
    apply IH; [|intros q Hq; apply Hp|done]; set_solver.
Qed.

Lemma chain_app h a l1 x l2 z :
  chain h a (l1 ++ x :: l2) z <-> chain h a l1 x /\ chain h x l2 z.
Proof.
  revert a. induction l1 as [|b r IH]; intros a; simpl; [tauto|]. rewrite IH. tauto.
Qed.

(** The node before the end, and the chain up to it *)
Lemma chain_back h a l z :
  chain h a l z ->
  exists p, get_prev z h = Some p /\ get_next p h = Some z /\ p ∈ a :: l /\
    (p = a /\ l = [] \/ exists l', l = l' ++ [p] /\ chain h a l' p).
Proof.
  destruct l as [|y l' _] using rev_ind.
  - intros [H1 H2]. exists a. split_and!; try done; [set_solver|by left].
  - rewrite chain_app. intros [H1 [H2 H3]]. exists y. split_and!; try done; [set_solver|].
    right. by exists l'.
Qed.

Lemma chain_front h a l z :
  chain h a l z ->
  exists n, get_next a h = Some n /\ get_prev n h = Some a /\ n ∈ l ++ [z] /\
    (n = z /\ l = [] \/ exists r, l = n :: r /\ chain h n r z).
Proof.
  destruct l as [|b r]; simpl.
  - intros [H1 H2]. exists z. split_and!; try done; [set_solver|by left].
  - intros (H1 & H2 & H3). exists b. split_and!; try done; [set_solver|]. right. by exists r.
Qed.

Lemma get_next_Some p v h : get_next p h = Some v -> is_Some (h !! p).
Proof. unfold get_next. destruct (h !! p); [by eexists|done]. Qed.
Lemma get_prev_Some p v h : get_prev p h = Some v -> is_Some (h !! p).
Proof. unfold get_prev. destruct (h !! p); [by eexists|done]. Qed.

Lemma dom_Some (h h' : heap) p : dom h' = dom h -> is_Some (h !! p) -> is_Some (h' !! p).
Proof. rewrite <- !elem_of_dom. by intros ->. Qed.

Lemma INIT_LIST_HEAD_spec p h :
  is_Some (h !! p) -> exists h', INIT_LIST_HEAD p h = Some h' /\ dlist h' p [].
Proof.
  intros Hp. unfold INIT_LIST_HEAD.
  destruct (put_next_get p p h Hp) as (h1 & -> & D1 & N1 & P1). simpl.
  destruct (put_prev_get p p h1) as (h2 & -> & D2 & P2 & N2); [by eapply dom_Some|].
  exists h2. split; [done|]. split; [apply NoDup_singleton|]. simpl.
  by rewrite N2, P2, N1, !decide_True.
Qed.

Lemma list_add_spec new head l h :
  dlist h head l -> is_Some (h !! new) -> new ∉ head :: l ->
  exists h', list_add new head h = Some h' /\ dlist h' head (new :: l).
Proof.
  intros [Hnd Hc] Hnew Hni. destruct (chain_front _ _ _ _ Hc) as (b & Hb & Hpb & Hbl & Hcase).
  unfold list_add. rewrite Hb. simpl. unfold list_add_between.
  destruct (put_prev_get b new h) as (h1 & -> & D1 & P1 & N1); [by eapply get_prev_Some|]. simpl.
  destruct (put_next_get new b h1) as (h2 & -> & D2 & N2 & P2); [by eapply dom_Some|]. simpl.
  destruct (put_prev_get new head h2) as (h3 & -> & D3 & P3 & N3).
  { eapply (dom_Some h); [congruence|done]. } simpl.
  destruct (put_next_get head new h3) as (h4 & -> & D4 & N4 & P4).
  { eapply (dom_Some h); [congruence|by eapply get_next_Some]. }
  exists h4. split; [done|].
  assert (new <> head /\ new <> b) as [Hnh Hnb] by set_solver.
  assert (forall q, get_next q h4 = if decide (q = head) then Some new
                    else if decide (q = new) then Some b else get_next q h) as N.
  { intros q. rewrite N4, N3, N2, N1. done. }
  assert (forall q, get_prev q h4 = if decide (q = new) then Some head
                    else if decide (q = b) then Some new else get_prev q h) as P.
  { intros q. rewrite P4, P3, P2, P1. done. }
  split.
  { apply NoDup_cons in Hnd as [H1 H2]. apply NoDup_cons. split; [set_solver|].
    apply NoDup_cons. split; [set_solver|done]. }
  simpl. rewrite N, P, !decide_True by done. split_and!; try done.
  destruct Hcase as [[-> ->]|(r & -> & Hr)]; simpl.
  - rewrite N, P, decide_False, decide_True, decide_False, decide_True by done. done.
  - rewrite N, P, decide_False, decide_True, decide_False, decide_True by done.
    split_and!; try done. apply NoDup_cons in Hnd as [Hh Hnd]. apply NoDup_cons in Hnd as [Hbr _].
    eapply chain_frame; [| |exact Hr].
    + intros q Hq. rewrite N, !decide_False; [done|set_solver..].
    + intros q Hq. rewrite P, !decide_False; [done|set_solver..].
Qed.

Lemma list_del_spec head l1 x l2 h :
  dlist h head (l1 ++ x :: l2) ->
  exists h', list_del x h = Some h' /\ dlist h' head (l1 ++ l2) /\ get_next x h' = Some 0.
Proof.
  intros [Hnd Hc]. apply chain_app in Hc as [Hc1 Hc2].
  destruct (chain_back _ _ _ _ Hc1) as (p & Hxp & Hpx & Hpl & Hp).
  destruct (chain_front _ _ _ _ Hc2) as (n & Hxn & Hnx & Hnl & Hn).
  apply NoDup_cons in Hnd as [Hh Hnd]. apply NoDup_app in Hnd as (Hd1 & Hd12 & Hd2).
  apply NoDup_cons in Hd2 as [Hx2 Hd2].
  assert (x ∉ head :: l1 /\ x ∉ l2) as [Hx1 _] by set_solver.
  assert (p <> x) as Hpne by (intros ->; done).
  assert (n <> x) as Hnne by (intros ->; set_solver).
  unfold list_del. rewrite Hxp, Hxn. simpl. unfold list_del_between.
  destruct (put_prev_get n p h) as (h1 & -> & D1 & P1 & N1); [by eapply get_prev_Some|]. simpl.
  destruct (put_next_get p n h1) as (h2 & -> & D2 & N2 & P2).
  { eapply dom_Some; [done|by eapply get_next_Some]. } simpl.
  destruct (put_next_get x 0 h2) as (h3 & -> & D3 & N3 & P3).
  { eapply (dom_Some h); [congruence|by eapply get_next_Some]. } simpl.
  destruct (put_prev_get x 0 h3) as (h4 & -> & D4 & P4 & N4).
  { eapply (dom_Some h); [congruence|by eapply get_next_Some]. }
  exists h4. split; [done|].
  assert (forall q, get_next q h4 = if decide (q = x) then Some 0
                    else if decide (q = p) then Some n else get_next q h) as N.
  { intros q. rewrite N4, N3, N2, N1. done. }
  assert (forall q, get_prev q h4 = if decide (q = x) then Some 0
                    else if decide (q = n) then Some p else get_prev q h) as P.
  { intros q. rewrite P4, P3, P2, P1. done. }
  split; [|by rewrite N, decide_True]. split.
  { apply NoDup_cons. split; [set_solver|]. apply NoDup_app. split_and!; set_solver. }
  (* the chain from [p] on, whatever is before it *)
  assert (chain h4 p l2 head) as Hfrom.
  { destruct Hn as [[-> ->]|(r & -> & Hr)]; simpl.
    - by rewrite N, P, decide_False, decide_True, decide_False, decide_True by done.
    - rewrite N, P, decide_False, decide_True, decide_False, decide_True by done.
      split_and!; try done. apply NoDup_cons in Hd2 as [Hnr Hd2].
      eapply chain_frame; [| |exact Hr].
      + intros q Hq. rewrite N, !decide_False; [done| |]; set_solver.
      + intros q Hq. rewrite P, !decide_False; [done| |]; set_solver. }
  destruct Hp as [[-> ->]|(l' & -> & Hl')]; [exact Hfrom|].
  rewrite <- app_assoc. simpl. apply chain_app. split; [|exact Hfrom].
  apply NoDup_app in Hd1 as (Hd1 & Hdp & _).
  eapply chain_frame; [| |exact Hl'].
  - intros q Hq. rewrite N, !decide_False; [done| |]; set_solver.
  - intros q Hq. rewrite P, !decide_False; [done| |]; set_solver.
Qed.

(** ** The operations in progress *)

Definition on_data (o : opes) (p : Z) (io : in_ope) : Prop := data o !! p = Some io.
Definition ope_list (o : opes) (head : Z) (ios : list in_ope) : Prop :=
  exists l, dlist (heads o) head l /\ Forall2 (on_data o) l ios.

Definition first (head : Z) (l : list Z) : Z := match l with [] => head | p :: _ => p end.

Lemma Forall2_impl_in {A B} (P Q : A -> B -> Prop) l k :
  Forall2 P l k -> (forall x y, x ∈ l -> P x y -> Q x y) -> Forall2 Q l k.
Proof.
  intros H HPQ. induction H; constructor; [apply HPQ; [left|done]|].
  apply IHForall2. intros. apply HPQ; [by right|done].
Qed.

Lemma chain_first h a l z : chain h a l z -> get_next a h = Some (first z l).
Proof. destruct l; simpl; tauto. Qed.

Lemma chain_dom h a l z : chain h a l z -> Forall (fun p => is_Some (h !! p)) (a :: l).
Proof.
  revert a. induction l as [|b r IH]; intros a; simpl.
  - intros [H _]. constructor; [by eapply get_next_Some|done].
  - intros (H & _ & Hr). constructor; [by eapply get_next_Some|by apply IH].
Qed.

Lemma list_empty_spec h head l :
  dlist h head l -> list_empty head h = Some (bool_decide (l = [])).
Proof.
  intros [Hnd Hc]. unfold list_empty. rewrite (chain_first _ _ _ _ Hc). simpl. f_equal.
  apply NoDup_cons in Hnd as [Hni _]. destruct l as [|p l]; simpl; [by rewrite Z.eqb_refl|].
  apply Z.eqb_neq. set_solver.
Qed.

Lemma sigchld_loop_spec fuel head pid l1 l2 ios1 ios2 o :
  dlist (heads o) head (l1 ++ l2) ->
  Forall2 (on_data o) l1 ios1 -> Forall2 (on_data o) l2 ios2 -> (length l2 < fuel)%nat ->
  exists o', sigchld_loop fuel head pid (first head l2) o = Some (o', (del_pid pid ios2).2) /\
    ope_list o' head (ios1 ++ (del_pid pid ios2).1).
Proof.
  revert l1 l2 ios1 ios2. induction fuel as [|k IH]; intros l1 l2 ios1 ios2 Hd H1 H2 Hf; [lia|].
  simpl. destruct H2 as [|p io l2 ios2 Hp H2]; simpl.
  { rewrite Z.eqb_refl, app_nil_r. rewrite app_nil_r in Hd. exists o. split; [done|].
    by exists l1. }
  pose proof Hd as [Hnd Hc].
  assert (p <> head) as Hph by (apply NoDup_cons in Hnd as [Hni _]; intros ->; apply Hni; set_solver).
  rewrite (proj2 (Z.eqb_neq p head)) by done.
  unfold on_data in Hp. rewrite Hp. simpl. destruct (Z.eqb_spec (io_pid io) pid) as [He|He].
  - destruct (list_del_spec _ _ _ _ _ Hd) as (h' & -> & Hd' & _). simpl.
    eexists. split; [reflexivity|]. exists (l1 ++ l2).
    assert (p ∉ l1 ++ l2) as Hpl.
    { apply NoDup_cons in Hnd as [_ Hnd]. apply NoDup_app in Hnd as (_ & H12 & Hnd).
      apply NoDup_cons in Hnd as [Hp2 _]. set_solver. }
    assert (forall q, q <> p -> get_next q (delete p h') = get_next q h' /\
                                get_prev q (delete p h') = get_prev q h') as Hdel
      by (intros q Hq; unfold get_next, get_prev; by rewrite lookup_delete_ne).
    split.
    + destruct Hd' as [Hnd' Hc']. split; [done|]. eapply chain_frame; [| |exact Hc'].
      * intros q Hq. apply Hdel. set_solver.
      * intros q Hq. apply Hdel. set_solver.
    + assert (forall l ios, p ∉ l -> Forall2 (on_data o) l ios ->
        Forall2 (on_data (Opes (delete p h') (delete p (data o)))) l ios) as Hkeep.
      { intros l ios Hni H. eapply Forall2_impl_in; [exact H|]. intros q io' Hq Hqo.
        unfold on_data in *. simpl. rewrite lookup_delete_ne; [done|set_solver]. }
      apply Forall2_app; apply Hkeep; (done || set_solver).
  - apply chain_app in Hc as [_ Hc2]. rewrite (chain_first _ _ _ _ Hc2). simpl.
    destruct (del_pid pid ios2) as [r found] eqn:E. simpl.
    destruct (IH (l1 ++ [p]) l2 (ios1 ++ [io]) ios2) as (o' & E' & Ho').
    + by rewrite <- app_assoc.
    + apply Forall2_app; [done|]. by constructor.
    + done.
    + simpl in Hf. lia.
    + rewrite E in E', Ho'. exists o'. split; [exact E'|]. by rewrite <- app_assoc in Ho'.
Qed.

Lemma busy_loop_spec fuel head brid l1 l2 ios2 o :
  dlist (heads o) head (l1 ++ l2) -> Forall2 (on_data o) l2 ios2 -> (length l2 < fuel)%nat ->
  busy_loop fuel head brid (first head l2) o = Some (existsb (fun io => io_brid io =? brid) ios2).
Proof.
  revert l1 l2 ios2. induction fuel as [|k IH]; intros l1 l2 ios2 Hd H2 Hf; [lia|].
  simpl. destruct H2 as [|p io l2 ios2 Hp H2]; simpl; [by rewrite Z.eqb_refl|].
  pose proof Hd as [Hnd Hc].
  assert (p <> head) as Hph by (apply NoDup_cons in Hnd as [Hni _]; intros ->; apply Hni; set_solver).
  rewrite (proj2 (Z.eqb_neq p head)) by done.
  unfold on_data in Hp. rewrite Hp. simpl. destruct (io_brid io =? brid); [done|].
  apply chain_app in Hc as [_ Hc2]. rewrite (chain_first _ _ _ _ Hc2). simpl.
  apply (IH (l1 ++ [p])); [by rewrite <- app_assoc|done|simpl in Hf; lia].
Qed.

(** C20. The daemon's doubly linked list implements the list of operations that
    [Event] and [Mvdown] keep: on a heap that holds [ios] behind [head], the search
    of au_mvdown_run() finds a branch exactly when [ios] has it, malloc() and
    list_add() put a new operation in front, and the loop of handle_sig() takes out
    what [del_pid] takes out, with the same [found].  Each ends, and none of them
    touches memory that is not allocated. *)
Theorem in_ope_refined o head ios brid pid a fuel :
  ope_list o head ios -> heads o !! a = None -> (length ios < fuel)%nat ->
  busy fuel head brid o = Some (existsb (fun io => io_brid io =? brid) ios) /\
  (exists o', add_ope head brid a o = Some o' /\ ope_list o' head (InOpe brid 0 :: ios)) /\
  (exists o', sigchld fuel head pid o = Some (o', (del_pid pid ios).2) /\
     ope_list o' head (del_pid pid ios).1) /\
  list_empty head (heads o) = Some (bool_decide (ios = [])).
Proof.
  intros (l & Hd & Hl) Ha Hf. pose proof (Forall2_length _ _ _ Hl) as Hlen.
  pose proof Hd as [Hnd Hc]. pose proof (chain_dom _ _ _ _ Hc) as Hdom.
  assert (a ∉ head :: l) as Hni.
  { intros Hin. rewrite Forall_forall in Hdom. destruct (Hdom a Hin) as [x Hx]. congruence. }
  split_and!.
  - unfold busy. rewrite (chain_first _ _ _ _ Hc). simpl.
    apply (busy_loop_spec fuel head brid []); (done || lia).
  - unfold add_ope. set (h0 := <[a := LH 0 0]> (heads o)).
    assert (dlist h0 head l) as Hd0.
    { split; [done|]. eapply chain_frame; [| |exact Hc]; intros q Hq;
        unfold get_next, get_prev, h0; rewrite lookup_insert_ne; (done || set_solver). }
    destruct (list_add_spec a head l h0 Hd0) as (h' & -> & Hd'); [|done|].
    { unfold h0. rewrite lookup_insert_eq. by eexists. }
    simpl. eexists. split; [reflexivity|]. exists (a :: l). split; [done|]. constructor.
    + unfold on_data. simpl. by rewrite lookup_insert_eq.
    + eapply Forall2_impl_in; [exact Hl|]. intros q io Hq Hqo. unfold on_data in *. simpl.
      rewrite lookup_insert_ne; [done|set_solver].
  - unfold sigchld. rewrite (chain_first _ _ _ _ Hc). simpl.
    destruct (sigchld_loop_spec fuel head pid [] l [] ios o Hd) as (o' & E & Ho');
      [by constructor|done|lia|]. by exists o'.
  - rewrite (list_empty_spec _ _ _ Hd). f_equal. apply bool_decide_ext.
    destruct Hl; split; done.
Qed.

Module ListDemo.
Definition o1 : opes :=
  Opes {[1 := LH 3 2; 2 := LH 1 3; 3 := LH 2 1]} {[2 := InOpe 10 100; 3 := InOpe 11 101]}.
Lemma o1_list : ope_list o1 1 [InOpe 10 100; InOpe 11 101].
Proof.
  exists [2; 3]. split; [split|].
  - apply (bool_decide_unpack _). vm_compute. exact Logic.I.
  - by vm_compute.
  - by repeat constructor.
Qed.
End ListDemo.

Lemma in_ope_refined_witness :
  busy 3 1 11 ListDemo.o1 = Some true /\
  exists o', sigchld 3 1 100 ListDemo.o1 = Some (o', true) /\ ope_list o' 1 [InOpe 11 101].
Proof.
  destruct (in_ope_refined ListDemo.o1 1 [InOpe 10 100; InOpe 11 101] 11 100 4 3
    ListDemo.o1_list eq_refl ltac:(simpl; lia)) as (H1 & _ & H2 & _).
  split; [exact H1|exact H2].
Defined.
