(* ===== verification/Uloop.v ===== *)
(** * The userspace loopback block device driver: uloop.c

    src/sample/uloop/drivers/block/uloop.c is a filter of the loop driver.  The
    backing file of the loop device is a sparse cache; a bitmap file holds one
    bit per page of it, set once a user process has stored that page.  A transfer
    whose page is not there yet takes a process from the READY queue, puts the
    request in its element, moves it to the RCVREQ queue, sends the process a
    signal and waits for the answer in the SNDRES queue, after which it sets the
    bit.  One page of the bitmap is cached in [bmpbuf]; [ulo_bmp_pindex] switches
    the cached page.

    The state of the driver is the kernel part [ulok] of a [world]; files and
    descriptors are those of the world, so that a user process that stores a page
    and the driver that reads it see the same page cache.  vfs_write, kernel_read,
    kill_pid and the allocators may fail: [w_faults] decides, but for kernel_read,
    whose failures are [u_rfaults].

    A thread in [uloop_xfer] is a program counter [xpc]; one step runs from one
    blocking point or lock to the next, so that the steps of several threads and
    of the user processes interleave as the locks of the driver let them. *)
From S2P Require Import Prelude AufsType FhsmData Sys.

(** lia also reasons about division and remainder by constants. *)
#[local] Ltac Zify.zify_post_hook ::= Z.to_euclidean_division_equations.

Definition EIO : Z := 5.
Definition ENXIO : Z := 6.
Definition ESRCH : Z := 3.
Definition EBADF : Z := 9.
Definition ENOMEM : Z := 12.
Definition EFAULT : Z := 14.
Definition ERESTARTSYS : Z := 512.

(** ** Bytes of a file, at an offset *)

(** [splice off data l]: [l] with [data] written at [off], zeros in the hole. *)
Definition splice (off : nat) (data l : bytes) : bytes :=
  take off (l ++ replicate (off - length l) NUL) ++ data ++ drop (off + length data) l.

Definition page_at (p : Z) (l : bytes) : bytes :=
  take (Z.to_nat PAGE) (drop (Z.to_nat (p * PAGE)) l).

(** Bit [n] of a bitmap, in the order of test_bit() and set_bit() on a
    little-endian machine. *)
Definition test_bit (n : Z) (l : bytes) : bool :=
  Z.testbit (byte_val (default NUL (l !! Z.to_nat (n / 8)))) (n mod 8).
Definition set_bit (n : Z) (l : bytes) : bytes :=
  alter (fun c => byte_of (Z.setbit (byte_val c) (n mod 8))) (Z.to_nat (n / 8)) l.

(** ** include/linux/uloop.h *)

Definition LOOP_CHANGE_FD : Z := 0x4C06.
Definition UloCtl_Begin : Z := Z.land LOOP_CHANGE_FD 0xff.
Definition UloCtl_SETBMP : Z := UloCtl_Begin + 1.
Definition UloCtl_READY : Z := UloCtl_SETBMP + 1.
Definition UloCtl_RCVREQ : Z := UloCtl_READY + 1.
Definition UloCtl_SNDRES : Z := UloCtl_RCVREQ + 1.

(** union ulo_ctl is two 64-bit words: its members overlay one another. *)
Record ulo_ctl := Ctl { ctl_w0 : Z; ctl_w1 : Z }.

Definition lo32 (z : Z) : Z := z mod 2 ^ 32.
Definition hi32 (z : Z) : Z := z / 2 ^ 32.

(** struct ulo_ctl_setbmp { int fd; int pagesize; } *)
Definition setbmp_fd (c : ulo_ctl) : Z := i32 (lo32 (ctl_w0 c)).
Definition setbmp_pagesize (c : ulo_ctl) : Z := i32 (hi32 (ctl_w0 c)).
Definition ctl_setbmp (fd pagesize : Z) : ulo_ctl := Ctl (u32 fd + u32 pagesize * 2 ^ 32) 0.

(** struct ulo_ctl_ready { int signum; struct pid *pid; } *)
Definition ready_signum (c : ulo_ctl) : Z := i32 (lo32 (ctl_w0 c)).
Definition ready_pid (c : ulo_ctl) : Z := ctl_w1 c.
Definition set_signum (s : Z) (c : ulo_ctl) : ulo_ctl :=
  Ctl (u32 s + hi32 (ctl_w0 c) * 2 ^ 32) (ctl_w1 c).
Definition set_pid (p : Z) (c : ulo_ctl) : ulo_ctl := Ctl (ctl_w0 c) p.

(** struct ulo_ctl_rcvreq and ulo_ctl_sndres
    { unsigned long long start; int size; } *)
Definition req_start (c : ulo_ctl) : Z := u64 (ctl_w0 c).
Definition req_size (c : ulo_ctl) : Z := i32 (lo32 (ctl_w1 c)).
Definition set_req (start size : Z) (c : ulo_ctl) : ulo_ctl :=
  Ctl start (u32 size + hi32 (ctl_w1 c) * 2 ^ 32).

(** _IOW and _IOR of asm-generic/ioctl.h, for a union of 16 bytes *)
Definition ioc (dir nr : Z) : Z :=
  Z.lor (Z.shiftl dir 30) (Z.lor (Z.shiftl 16 16) (Z.lor (Z.shiftl 76 8) nr)).
Definition ULOCTL_SETBMP : Z := ioc 1 UloCtl_SETBMP.
Definition ULOCTL_READY : Z := ioc 2 UloCtl_READY.
Definition ULOCTL_RCVREQ : Z := ioc 2 UloCtl_RCVREQ.
Definition ULOCTL_SNDRES : Z := ioc 1 UloCtl_SNDRES.

(** ** The state of the driver *)

Inductive qindex := UloQ_READY | UloQ_RCVREQ | UloQ_SNDRES.
#[export] Instance qindex_eq_dec : EqDecision qindex.
Proof. solve_decision. Defined.

(** struct file: the path of the file it opens and its f_mode *)
Record kfile := KFile { f_path : bytes; f_mode : Z }.
Definition FMODE_READ : Z := 1.
Definition FMODE_WRITE : Z := 2.

(** struct ulo_dev.  The spin locks and the mutex only delimit steps. *)
Record ulo_dev := Dev {
  q_ready : list ulo_ctl;
  q_rcvreq : list ulo_ctl;
  q_sndres : list ulo_ctl;
  bmp : option kfile;
  bmpidx : Z;
  bmpbuf : option bytes;
  bmpsz : Z
}.

Definition queue (i : qindex) (d : ulo_dev) : list ulo_ctl :=
  match i with
  | UloQ_READY => q_ready d | UloQ_RCVREQ => q_rcvreq d | UloQ_SNDRES => q_sndres d
  end.
Definition set_queue (i : qindex) (l : list ulo_ctl) (d : ulo_dev) : ulo_dev :=
  match i with
  | UloQ_READY => Dev l (q_rcvreq d) (q_sndres d) (bmp d) (bmpidx d) (bmpbuf d) (bmpsz d)
  | UloQ_RCVREQ => Dev (q_ready d) l (q_sndres d) (bmp d) (bmpidx d) (bmpbuf d) (bmpsz d)
  | UloQ_SNDRES => Dev (q_ready d) (q_rcvreq d) l (bmp d) (bmpidx d) (bmpbuf d) (bmpsz d)
  end.
Definition set_bmp (x : option kfile) (d : ulo_dev) : ulo_dev :=
  Dev (q_ready d) (q_rcvreq d) (q_sndres d) x (bmpidx d) (bmpbuf d) (bmpsz d).
Definition set_bmpidx (x : Z) (d : ulo_dev) : ulo_dev :=
  Dev (q_ready d) (q_rcvreq d) (q_sndres d) (bmp d) x (bmpbuf d) (bmpsz d).
Definition set_bmpbuf (x : option bytes) (d : ulo_dev) : ulo_dev :=
  Dev (q_ready d) (q_rcvreq d) (q_sndres d) (bmp d) (bmpidx d) x (bmpsz d).
Definition set_bmpsz (x : Z) (d : ulo_dev) : ulo_dev :=
  Dev (q_ready d) (q_rcvreq d) (q_sndres d) (bmp d) (bmpidx d) (bmpbuf d) x.

(** The kernel around it: loop->lo_backing_file and loop->private_data, the
    modes of the open descriptors, the references to files the driver holds, the
    signals it sent and the contents of fresh memory. *)
Record ulok := Ulok {
  u_rfaults : list fault;
  u_backing : option bytes;
  u_dev : option ulo_dev;
  u_modes : gmap Z Z;
  u_refs : Z;
  u_sigs : list (Z * Z);
  u_junk : Z
}.
Definition set_rfaults (x : list fault) (k : ulok) : ulok :=
  Ulok x (u_backing k) (u_dev k) (u_modes k) (u_refs k) (u_sigs k) (u_junk k).
Definition set_backing (x : option bytes) (k : ulok) : ulok :=
  Ulok (u_rfaults k) x (u_dev k) (u_modes k) (u_refs k) (u_sigs k) (u_junk k).
Definition set_dev (x : option ulo_dev) (k : ulok) : ulok :=
  Ulok (u_rfaults k) (u_backing k) x (u_modes k) (u_refs k) (u_sigs k) (u_junk k).
Definition set_refs (x : Z) (k : ulok) : ulok :=
  Ulok (u_rfaults k) (u_backing k) (u_dev k) (u_modes k) x (u_sigs k) (u_junk k).
Definition set_sigs (x : list (Z * Z)) (k : ulok) : ulok :=
  Ulok (u_rfaults k) (u_backing k) (u_dev k) (u_modes k) (u_refs k) x (u_junk k).

Section driver.
Context {G : Type}.
Notation world := (world ulok G).
Notation MU := (M world).

Definition mod_k (f : ulok -> ulok) : MU unit := modify (fun w => set_kern (f (w_kern w)) w).
Definition mod_dev (f : ulo_dev -> ulo_dev) : MU unit :=
  mod_k (fun k => set_dev (f <$> u_dev k) k).

(** [p->...] *)
Definition deref {A} (what : string) (p : option A) : MU A :=
  match p with Some a => mret a | None => ub what end.
Definition get_dev : MU ulo_dev :=
  d ← gets (fun w => u_dev (w_kern w)); deref "NULL private_data" d.

Definition BUG_ON (c : bool) : MU unit := if c then ub "BUG" else mret tt.

(** ** Services of the kernel *)

Definition contents (p : bytes) (w : world) : bytes := default [] (w_files w !! p).

Definition vfs_write (f : kfile) (buf : bytes) (sz pos : Z) : MU Z :=
  x ← pop_fault;
  match x with
  | FErr e => mret (- e)
  | _ =>
      let n := match x with FShort n => Nat.min n (Z.to_nat sz) | _ => Z.to_nat sz end in
      modify (fun w => set_files (<[f_path f :=
        splice (Z.to_nat pos) (take n buf) (contents (f_path f) w)]> (w_files w)) w) ;;
      mret (Z.of_nat n)
  end.

Definition pop_rfault : MU fault := fun w =>
  match u_rfaults (w_kern w) with
  | [] => (Ret FOk, w)
  | x :: r => (Ret x, set_kern (set_rfaults r (w_kern w)) w)
  end.

(** The bytes read replace the beginning of the buffer. *)
Definition kernel_read (f : kfile) (pos : Z) (buf : bytes) (n : Z) : MU (Z * bytes) :=
  x ← pop_rfault;
  match x with
  | FErr e => mret (- e, buf)
  | _ =>
      if pos <? 0 then mret (- EINVAL, buf)
      else
        c ← gets (contents (f_path f));
        let m := match x with FShort m => Nat.min m (Z.to_nat n) | _ => Z.to_nat n end in
        let got := take m (drop (Z.to_nat pos) c) in
        mret (Z.of_nat (length got), got ++ drop (length got) buf)
  end.

Definition i_size_read (p : bytes) : MU Z := gets (fun w => Z.of_nat (length (contents p w))).

(** copy_from_user() and copy_to_user(): whether some bytes were not copied *)
Definition copy_user : MU bool :=
  x ← pop_fault; mret (match x with FErr _ => true | _ => false end).
(** kmalloc(), kmem_cache_alloc(), __get_free_page(): whether memory was got *)
Definition alloc : MU bool :=
  x ← pop_fault; mret (match x with FErr _ => false | _ => true end).

Definition fget (fd : Z) : MU (option kfile) :=
  w ← get;
  match w_fds w !! fd with
  | None => mret None
  | Some p =>
      mod_k (fun k => set_refs (u_refs k + 1) k) ;;
      mret (Some (KFile p (default (FMODE_READ + FMODE_WRITE) (u_modes (w_kern w) !! fd))))
  end.
Definition fput (f : option kfile) : MU unit :=
  _ ← deref "fput(NULL)" f; mod_k (fun k => set_refs (u_refs k - 1) k).

Definition kill_pid (pid sig : Z) : MU Z :=
  x ← pop_fault;
  match x with
  | FErr e => mret (- e)
  | _ => mod_k (fun k => set_sigs (u_sigs k ++ [(pid, sig)]) k) ;; mret 0
  end.

(** ** Queues *)

Definition ulo_append (i : qindex) (q : ulo_ctl) : MU unit :=
  _ ← get_dev; mod_dev (fun d => set_queue i (queue i d ++ [q]) d).

(** wait_event_interruptible() looks at the queue before it looks for signals:
    [inr q] is the element taken, [inl] the error of an interrupted wait, [None]
    a thread that goes on sleeping. *)
Definition ulo_wait (intr : bool) (i : qindex) : MU (option (Z + ulo_ctl)) :=
  d ← get_dev;
  match queue i d with
  | q :: r => mod_dev (set_queue i r) ;; mret (Some (inr q))
  | [] => mret (if intr then Some (inl (- ERESTARTSYS)) else None)
  end.

(** ** The bitmap *)

Definition ulo_write (f : kfile) (buf : bytes) (sz pos : Z) : MU Z :=
  ret ← vfs_write f buf sz pos;
  mret (if ret =? sz then 0
        else if u64 ret <=? sz then - EIO else ret).

Definition ulo_bmp_pindex (pindex : Z) : MU Z :=
  d ← get_dev;
  if bmpidx d =? pindex then mret 0
  else if bmpsz d / PAGE <? pindex then mret (- EIO)
  else
    f ← deref "NULL bmp" (bmp d);
    buf ← deref "NULL bmpbuf" (bmpbuf d);
    err ← ulo_write f buf PAGE (i64 (bmpidx d * PAGE));
    if truth err then mret err
    else
      isz ← i_size_read (f_path f);
      BUG_ON (negb (bmpsz d =? isz)) ;;
      let pos := i64 (pindex * PAGE) in
      BUG_ON (bmpsz d <? pos + PAGE) ;;
      '(err, buf1) ← kernel_read f pos buf PAGE;
      mod_dev (set_bmpbuf (Some buf1)) ;;
      if negb (err =? PAGE) then
        '(e2, buf2) ← kernel_read f (pos - PAGE) buf1 PAGE;
        mod_dev (set_bmpbuf (Some buf2)) ;;
        mret (if negb (e2 =? PAGE) then - EIO
              else if 0 <=? err then - EIO else err)
      else mod_dev (set_bmpidx pindex) ;; mret 0.

(** ** Transfers *)

(** The request that the loop driver passes: [x_raw] is where raw_page + raw_off
    lies in the backing file, whose page cache holds that page. *)
Record xreq := XReq { x_cmd : Z; x_raw : Z; x_size : Z; x_block : Z }.

(** Where a thread is in uloop_xfer(): at the top of its loop, waiting for a
    process ([XBegin]), holding the element of a process ([XSend]), waiting for an
    answer ([XEnd]), holding the answer to another request ([XBack]) or to its own
    ([XSet]).  [XDone] carries the result, and what was copied to loop_page. *)
Inductive xpc :=
  | XStart
  | XTest (sz pos : Z)
  | XBegin (sz pos pindex bit : Z)
  | XSend (sz pos pindex bit : Z) (q : ulo_ctl)
  | XEnd (sz pos pindex bit : Z)
  | XBack (sz pos pindex bit : Z) (q : ulo_ctl)
  | XSet (sz pos pindex bit : Z)
  | XDone (err : Z) (loop_buf : option bytes).

Definition bmp_page_bytes : Z := PAGE * 8.

(** A page of the page cache beyond the end of the file reads as zeros. *)
Definition mapped (off n : Z) (c : bytes) : bytes :=
  let got := take (Z.to_nat n) (drop (Z.to_nat off) c) in
  got ++ replicate (Z.to_nat n - length got) NUL.

(** [memcpy(loop_buf, raw_buf, size)], whatever [cmd] is *)
Definition xfer_copy (r : xreq) : MU xpc :=
  b ← gets (fun w => u_backing (w_kern w));
  p ← deref "NULL lo_backing_file" b;
  c ← gets (contents p);
  mret (XDone 0 (Some (mapped (x_raw r) (x_size r) c))).

Definition xfer_test (r : xreq) (sz pos : Z) : MU xpc :=
  if sz <=? 0 then xfer_copy r
  else
    let loff := u64 pos / PAGE in
    let pindex := loff / bmp_page_bytes in
    let bit := loff mod bmp_page_bytes in
    err ← ulo_bmp_pindex pindex;
    if truth err then mret (XDone err None)
    else
      d ← get_dev;
      buf ← deref "NULL bmpbuf" (bmpbuf d);
      if test_bit bit buf
      then mret (XTest (i32 (sz - PAGE)) (i64 (pos + PAGE)))
      else mret (XBegin sz pos pindex bit).

Definition ulo_xfer_begin_wait (intr : bool) (sz pos pindex bit : Z) : MU xpc :=
  x ← ulo_wait intr UloQ_READY;
  mret (match x with
        | None => XBegin sz pos pindex bit
        | Some (inl err) => XDone err None
        | Some (inr q) => XSend sz pos pindex bit q
        end).

Definition ulo_xfer_begin_send (sz pos pindex bit : Z) (q : ulo_ctl) : MU xpc :=
  _ ← get_dev;
  mod_dev (fun d => set_queue UloQ_RCVREQ (q_rcvreq d ++ [set_req (u64 pos) PAGE q]) d) ;;
  err ← kill_pid (ready_pid q) (ready_signum q);
  mret (if truth err then XDone err None else XEnd sz pos pindex bit).

Definition ulo_xfer_end_wait (intr : bool) (sz pos pindex bit : Z) : MU xpc :=
  x ← ulo_wait intr UloQ_SNDRES;
  mret (match x with
        | None => XEnd sz pos pindex bit
        | Some (inl err) => XDone err None
        | Some (inr q) =>
            if (req_start q =? u64 pos) && (req_size q =? PAGE)
            then XSet sz pos pindex bit else XBack sz pos pindex bit q
        end).

Definition ulo_xfer_end_set (sz pos pindex bit : Z) : MU xpc :=
  err ← ulo_bmp_pindex pindex;
  if truth err then mret (XDone err None)
  else
    d ← get_dev;
    buf ← deref "NULL bmpbuf" (bmpbuf d);
    mod_dev (set_bmpbuf (Some (set_bit bit buf))) ;;
    mret (XTest (i32 (sz - PAGE)) (i64 (pos + PAGE))).

(** One step of uloop_xfer(); [intr]: a signal is pending for the thread. *)
Definition uloop_xfer (intr : bool) (r : xreq) (pc : xpc) : MU xpc :=
  match pc with
  | XStart =>
      d ← gets (fun w => u_dev (w_kern w));
      mret (match d with
            | Some (Dev _ _ _ (Some _) _ _ _) =>
                XTest (x_size r) (i64 (i64 (x_block r) * 512))
            | _ => XDone (- ESRCH) None
            end)
  | XTest sz pos => xfer_test r sz pos
  | XBegin sz pos pindex bit => ulo_xfer_begin_wait intr sz pos pindex bit
  | XSend sz pos pindex bit q => ulo_xfer_begin_send sz pos pindex bit q
  | XEnd sz pos pindex bit => ulo_xfer_end_wait intr sz pos pindex bit
  | XBack sz pos pindex bit q =>
      ulo_append UloQ_SNDRES q ;; mret (XEnd sz pos pindex bit)
  | XSet sz pos pindex bit => ulo_xfer_end_set sz pos pindex bit
  | XDone err buf => mret (XDone err buf)
  end.

(** ** ioctls of the user processes *)

Definition fput_ret (f : option kfile) (err : Z) : MU Z := fput f ;; mret err.

Definition ulo_ctl_setbmp (uarg : ulo_ctl) : MU Z :=
  d ← get_dev;
  if bmp d is Some _ then mret (- EBUSY) else
  bad ← copy_user;
  if bad : bool then mret (- EFAULT) else
  f ← fget (setbmp_fd uarg);
  match f with
  | None => fput_ret None (- EINVAL)
  | Some f =>
      if negb (setbmp_pagesize uarg =? PAGE) then fput_ret (Some f) (- EINVAL)
      else if negb (Z.land (f_mode f) (Z.lor FMODE_READ FMODE_WRITE)
                    =? Z.lor FMODE_READ FMODE_WRITE)
      then fput_ret (Some f) (- EBADF)
      else
        isz ← i_size_read (f_path f);
        mod_dev (set_bmpsz isz) ;;
        if (isz =? 0) || negb (isz mod PAGE =? 0) then fput_ret (Some f) (- EBADF)
        else
          got ← alloc;
          if negb got then mod_dev (set_bmpbuf None) ;; fput_ret (Some f) (- ENOMEM)
          else
            junk ← gets (fun w => replicate (Z.to_nat PAGE) (byte_of (u_junk (w_kern w))));
            mod_dev (fun d => set_bmpidx 0 (set_bmp (Some f) d)) ;;
            '(err, buf) ← kernel_read f 0 junk PAGE;
            if err =? PAGE then mod_dev (set_bmpbuf (Some buf)) ;; mret 0
            else
              mod_dev (fun d => set_bmpbuf None (set_bmp None d)) ;;
              fput_ret (Some f) (if 0 <=? err then - EIO else err)
  end.

(** kmem_cache_alloc() reports failure by NULL, for which IS_ERR() is false: the
    copy then goes to an address near zero. *)
Definition ulo_ctl_queue (current : Z) (i : qindex) (uarg : ulo_ctl) : MU Z :=
  got ← alloc;
  if negb got then ub "copy to NULL qelem" else
  bad ← copy_user;
  if bad : bool then mret (- EFAULT)
  else
    let q := match i with UloQ_READY => set_pid current uarg | _ => uarg end in
    ulo_append i q ;; mret 0.

(** The error and the union at [uarg] *)
Definition ulo_ctl_rcvreq (uarg : ulo_ctl) : MU (Z * ulo_ctl) :=
  d ← get_dev;
  match q_rcvreq d with
  | [] => mret (- ENXIO, uarg)
  | q :: r =>
      mod_dev (set_queue UloQ_RCVREQ r) ;;
      bad ← copy_user;
      if bad : bool then ulo_append UloQ_RCVREQ q ;; mret (- EFAULT, uarg)
      else mret (0, q)
  end.

Definition uloop_ioctl (current cmd : Z) (uarg : ulo_ctl) : MU (Z * ulo_ctl) :=
  if cmd =? ULOCTL_SETBMP then err ← ulo_ctl_setbmp uarg; mret (err, uarg)
  else if cmd =? ULOCTL_READY then
    err ← ulo_ctl_queue current UloQ_READY uarg; mret (err, uarg)
  else if cmd =? ULOCTL_RCVREQ then ulo_ctl_rcvreq uarg
  else if cmd =? ULOCTL_SNDRES then
    err ← ulo_ctl_queue current UloQ_SNDRES uarg; mret (err, uarg)
  else mret (- EINVAL, uarg).

(** ** LOOP_SET_STATUS and LOOP_CLR_FD *)

Definition uloop_release : MU Z :=
  d ← get_dev;
  (if bmpbuf d is Some buf then
     f ← deref "NULL bmp" (bmp d);
     _ ← ulo_write f buf PAGE (i64 (bmpidx d * PAGE));
     mret tt
   else mret tt) ;;
  (if bmp d is Some f then fput (Some f) else mret tt) ;;
  mod_k (set_dev None) ;;
  mret 0.

Definition uloop_dev_init : MU Z :=
  b ← gets (fun w => u_backing (w_kern w));
  match b with
  | None => mret (- EBADF)
  | Some p =>
      isz ← i_size_read p;
      if negb (isz mod PAGE =? 0) then mret (- EBADF)
      else
        got ← alloc;
        if negb got then mod_k (set_dev None) ;; mret (- ENOMEM)
        else
          mod_k (fun k => set_dev
            (Some (Dev [] [] [] None (u_junk k) None (u_junk k))) k) ;;
          mret 0
  end.
End driver.

(** ** Splicing and bits *)

Lemma lookup_splice_in off data l i :
  (off <= i < off + length data)%nat -> splice off data l !! i = data !! (i - off)%nat.
Proof.
  intros [Hl Hr]. unfold splice.
  assert (length (take off (l ++ replicate (off - length l) NUL)) = off) as Hlen
    by (rewrite length_take, length_app, length_replicate; lia).
  rewrite lookup_app_r, Hlen by lia. rewrite lookup_app_l by lia. done.
Qed.

Lemma lookup_splice_out off data l i :
  (off <= length l)%nat -> (i < off \/ off + length data <= i)%nat ->
  splice off data l !! i = l !! i.
Proof.
  intros Hoff Hi. unfold splice.
  replace (off - length l)%nat with 0%nat by lia. simpl. rewrite app_nil_r.
  assert (length (take off l) = off) as Hlen by (rewrite length_take; lia).
  destruct Hi as [Hi|Hi].
  - rewrite lookup_app_l by lia. by rewrite lookup_take_lt by lia.
  - rewrite lookup_app_r, Hlen by lia. rewrite lookup_app_r by lia.
    rewrite lookup_drop. f_equal. lia.
Qed.

Lemma length_splice off data l :
  (off + length data <= length l)%nat -> length (splice off data l) = length l.
Proof.
  intros H. unfold splice. rewrite !length_app, length_take, length_drop, length_app,
    length_replicate. lia.
Qed.

(** What is spliced over is forgotten, wholly or in part. *)
Lemma splice_splice off d1 d2 l :
  (off + length d2 <= length l)%nat -> (length d1 <= length d2)%nat ->
  splice off d2 (splice off d1 l) = splice off d2 l.
Proof.
  intros Hl Hd. apply list_eq. intros i.
  assert (length (splice off d1 l) = length l) as Hlen by (apply length_splice; lia).
  destruct (decide (off <= i < off + length d2)%nat).
  - by rewrite !lookup_splice_in by lia.
  - rewrite !lookup_splice_out by lia. done.
Qed.

Lemma splice_self off n l :
  (off + n <= length l)%nat -> splice off (take n (drop off l)) l = l.
Proof.
  intros H. apply list_eq. intros i.
  assert (length (take n (drop off l)) = n) as Hn by (rewrite length_take, length_drop; lia).
  destruct (decide (off <= i < off + n)%nat).
  - rewrite lookup_splice_in by lia. rewrite lookup_take_lt by lia.
    rewrite lookup_drop. f_equal. lia.
  - by rewrite lookup_splice_out by lia.
Qed.

Lemma splice_alter off g i data l :
  (off <= length l)%nat -> (i < length data)%nat ->
  splice off (alter g i data) l = alter g (off + i)%nat (splice off data l).
Proof.
  intros Hl Hi. apply list_eq. intros j.
  destruct (decide (j = off + i)%nat) as [->|Hne].
  - rewrite list_lookup_alter_eq. rewrite !lookup_splice_in by (rewrite ?length_alter; lia).
    replace (off + i - off)%nat with i by lia. by rewrite list_lookup_alter_eq.
  - rewrite list_lookup_alter_ne by lia.
    destruct (decide (off <= j < off + length data)%nat).
    + rewrite !lookup_splice_in by (rewrite ?length_alter; lia).
      by rewrite list_lookup_alter_ne by lia.
    + by rewrite !lookup_splice_out by (rewrite ?length_alter; lia).
Qed.

Lemma testbit_setbit_byte c n m :
  0 <= n < 8 -> 0 <= m < 8 ->
  Z.testbit (byte_val (byte_of (Z.setbit (byte_val c) n))) m
    = (n =? m) || Z.testbit (byte_val c) m.
Proof.
  intros Hn Hm. rewrite byte_val_of. change 256 with (2 ^ 8).
  rewrite Z.mod_pow2_bits_low by lia. rewrite Z.setbit_eqb by lia. done.
Qed.

Lemma test_set_bit n m l :
  0 <= n -> 0 <= m -> n / 8 < Z.of_nat (length l) ->
  test_bit m (set_bit n l) = (n =? m) || test_bit m l.
Proof.
  intros Hn Hm Hl. unfold test_bit, set_bit.
  destruct (decide (n / 8 = m / 8)) as [He|He].
  - rewrite He, list_lookup_alter_eq.
    assert (is_Some (l !! Z.to_nat (m / 8))) as [c Hc].
    { apply lookup_lt_is_Some_2. lia. }
    rewrite Hc. simpl. rewrite testbit_setbit_byte by lia.
    f_equal. apply Bool.eq_iff_eq_true. rewrite !Z.eqb_eq.
    split; [lia|by intros ->].
  - rewrite list_lookup_alter_ne by lia.
    rewrite (proj2 (Z.eqb_neq n m)); [done|]. by intros ->.
Qed.

(** ** The bitmap that the driver means

    The driver means by its bitmap the file with the cached page in place of the
    page [bmpidx].  [bmp_rep w d l]: the device of [w] is [d], well formed, and its
    bitmap is [l]. *)
Section bitmap.
Context {G : Type}.
Notation world := (world ulok G).

Definition bmp_page (d : ulo_dev) : nat := Z.to_nat (bmpidx d * PAGE).

Definition dev_wf (d : ulo_dev) (f : kfile) (buf c : bytes) : Prop :=
  bmp d = Some f /\ bmpbuf d = Some buf /\ Z.of_nat (length buf) = PAGE /\
  bmpsz d = Z.of_nat (length c) /\ 0 <= bmpidx d /\
  bmpidx d * PAGE + PAGE <= bmpsz d /\ bmpsz d mod PAGE = 0 /\ bmpsz d < 2 ^ 63.

Definition bmp_rep (w : world) (d : ulo_dev) (f : kfile) (l : bytes) : Prop :=
  u_dev (w_kern w) = Some d /\
  exists buf, dev_wf d f buf (contents (f_path f) w) /\
              l = splice (bmp_page d) buf (contents (f_path f) w).

Definition same_queues (d d' : ulo_dev) : Prop :=
  q_ready d' = q_ready d /\ q_rcvreq d' = q_rcvreq d /\ q_sndres d' = q_sndres d.

Definition good_fault (f : fault) : Prop :=
  match f with FErr e => 0 < e < 4096 | _ => True end.
Definition good_faults (w : world) : Prop :=
  Forall good_fault (w_faults w) /\ Forall good_fault (u_rfaults (w_kern w)).

(** What an operation on the bitmap file leaves alone. *)
Definition bmp_frame (f : kfile) (w w' : world) : Prop :=
  (forall p, p <> f_path f -> contents p w' = contents p w) /\
  u_backing (w_kern w') = u_backing (w_kern w) /\
  (good_faults w -> good_faults w') /\
  (u_rfaults (w_kern w) = [] -> u_rfaults (w_kern w') = []) /\
  w_glob w' = w_glob w /\ w_fds w' = w_fds w /\ w_errno w' = w_errno w.

#[export] Instance bmp_frame_preorder f : PreOrder (bmp_frame f).
Proof.
  split; [by intros w; split_and!|].
  intros x y z (H1 & H2 & H3 & H4 & H5 & H6 & H7) (K1 & K2 & K3 & K4 & K5 & K6 & K7).
  split_and!; [|congruence|auto|auto|congruence..].
  intros p Hp. by rewrite K1, H1.
Qed.

Lemma i64_small z : 0 <= z < 2 ^ 63 -> i64 z = z.
Proof. intros H. apply wrap_s_small; lia. Qed.
Lemma u64_small z : 0 <= z < 2 ^ 64 -> u64 z = z.
Proof. apply wrap_u_small. Qed.

Lemma contents_insert p q c (w : world) :
  contents q (set_files (<[p := c]> (w_files w)) w) =
    if decide (p = q) then c else contents q w.
Proof.
  unfold contents. simpl. case_decide as E.
  - subst. by rewrite lookup_insert_eq.
  - by rewrite lookup_insert_ne.
Qed.

Lemma splice_nil off l : (off <= length l)%nat -> splice off [] l = l.
Proof. intros H. apply (splice_self off 0). lia. Qed.

Lemma pop_fault_spec (w : world) :
  exists x w', pop_fault w = (Ret x, w') /\ w_kern w' = w_kern w /\
    w_files w' = w_files w /\ w_glob w' = w_glob w /\ w_fds w' = w_fds w /\ w_errno w' = w_errno w /\
    (good_faults w -> good_fault x /\ good_faults w').
Proof.
  unfold pop_fault, good_faults. destruct (w_faults w) as [|x r] eqn:E.
  - exists FOk, w. by rewrite E.
  - exists x, (set_faults r w). split_and!; try done. intros [H ?]. inversion_clear H. by split_and!.
Qed.

(** Writing a page of the bitmap: some prefix of it arrives, all of it when no
    error is reported. *)
Lemma ulo_write_spec f buf pos (w : world) :
  good_faults w -> Z.of_nat (length buf) = PAGE -> 0 <= pos ->
  pos + PAGE <= Z.of_nat (length (contents (f_path f) w)) ->
  exists err w' n,
    ulo_write f buf PAGE pos w = (Ret err, w') /\ w_kern w' = w_kern w /\
    contents (f_path f) w' =
      splice (Z.to_nat pos) (take n buf) (contents (f_path f) w) /\
    (err = 0 -> take n buf = buf) /\ bmp_frame f w w'.
Proof.
  intros Hg Hb Hp Hl. unfold PAGE in *.
  destruct (pop_fault_spec w) as (x & w1 & E & Hk & Hf & Hgl & Hfd & Her & Hgx).
  destruct (Hgx Hg) as [Hx Hg1].
  assert (forall p, contents p w1 = contents p w) as Hc
    by (intros p; unfold contents; by rewrite Hf).
  unfold ulo_write, vfs_write. rewrite bind_assoc, (bind_run _ _ _ _ _ E).
  assert (forall n, let w' := set_files (<[f_path f :=
      splice (Z.to_nat pos) (take n buf) (contents (f_path f) w)]> (w_files w1)) w1 in
    bmp_frame f w w') as Hfr.
  { intros n w'. split_and!; simpl.
    - intros p Hne. unfold w'. rewrite contents_insert, decide_False by done. apply Hc.
    - by rewrite Hk.
    - done.
    - by rewrite Hk.
    - done.
    - done.
    - done. }
  destruct x as [|e|m]; simpl in Hx.
  - cbn beta iota zeta. rewrite bind_assoc, bind_modify, !bind_ret. eexists _, _, (length buf). split; [done|]. split; [done|].
    rewrite contents_insert, decide_True, Hc by done.
    replace (Z.to_nat 4096) with (length buf) by lia. split_and!; [done| |apply Hfr].
    by rewrite firstn_all.
  - rewrite bind_ret. assert (u64 (- e) = 2 ^ 64 - e) as Hu
      by (unfold u64, wrap_u; lia).
    rewrite (proj2 (Z.eqb_neq _ _)) by lia. rewrite Hu, (proj2 (Z.leb_gt _ _)) by lia.
    eexists _, w1, 0%nat. split; [done|]. split; [done|]. rewrite Hc. split.
    { rewrite take_0, splice_nil by lia. done. }
    split; [lia|]. unfold bmp_frame. split_and!; rewrite ?Hk; auto.
  - cbn beta iota zeta. rewrite bind_assoc, bind_modify, !bind_ret.
    eexists _, _, (Nat.min m (Z.to_nat 4096)). split; [done|]. split; [done|].
    rewrite contents_insert, decide_True, Hc by done. split; [done|].
    split; [|apply Hfr]. intros He. destruct (Z.eqb_spec (Z.of_nat (Nat.min m (Z.to_nat 4096))) 4096) as [Hm|Hm].
    + rewrite take_ge by lia. done.
    + unfold EIO in He. rewrite u64_small in He by lia. case_match; bool_lia.
Qed.

Lemma pop_rfault_spec f (w : world) :
  good_faults w ->
  exists x w1, pop_rfault w = (Ret x, w1) /\ w_files w1 = w_files w /\
    u_dev (w_kern w1) = u_dev (w_kern w) /\ bmp_frame f w w1 /\ good_fault x /\
    (u_rfaults (w_kern w) = [] -> x = FOk).
Proof.
  intros [Hg1 Hg2]. unfold pop_rfault.
  destruct (u_rfaults (w_kern w)) as [|x r] eqn:Er; [by exists FOk, w|].
  inversion_clear Hg2. exists x, (set_kern (set_rfaults r (w_kern w)) w).
  split_and!; try done. split_and!; try done. simpl. by rewrite Er.
Qed.

(** Reading a page of the bitmap: the whole page when no fault is pending. *)
Lemma kernel_read_spec f pos buf (w : world) :
  good_faults w ->
  exists r got w', kernel_read f pos buf PAGE w = (Ret (r, got), w') /\
    w_files w' = w_files w /\ u_dev (w_kern w') = u_dev (w_kern w) /\ bmp_frame f w w' /\
    (0 <= pos -> pos + PAGE <= Z.of_nat (length (contents (f_path f) w)) ->
     Z.of_nat (length buf) = PAGE ->
     (u_rfaults (w_kern w) = [] -> r = PAGE) /\
     (r = PAGE -> got = take (Z.to_nat PAGE) (drop (Z.to_nat pos) (contents (f_path f) w)))).
Proof.
  intros Hg. unfold kernel_read. unfold PAGE in *.
  destruct (pop_rfault_spec f w Hg) as (x & w1 & E & Hf & Hd & Hfr & Hx & Hok).
  assert (contents (f_path f) w1 = contents (f_path f) w) as Hc
    by (unfold contents; by rewrite Hf).
  rewrite (bind_run _ _ _ _ _ E).
  destruct x as [|e|m]; [|simpl in Hx|];
    [destruct (Z.ltb_spec pos 0) | |destruct (Z.ltb_spec pos 0)];
    (eexists _, _, w1; split; [reflexivity|]; split_and!; [done|done|done|]);
    intros Hp Hl Hb; try lia; rewrite ?Hc.
  - split; intros; [rewrite length_take, length_drop; lia|].
    rewrite (drop_ge buf), app_nil_r; [done|]. rewrite length_take, length_drop. lia.
  - split; [intros H; by specialize (Hok H)|lia].
  - split; [intros H'; by specialize (Hok H')|].
    rewrite length_take, length_drop. intros H'. rewrite (drop_ge buf), app_nil_r.
    + f_equal. lia.
    + lia.
Qed.

Lemma bug_on_false {A} (k : unit -> M world A) (w : world) : (BUG_ON false ≫= k) w = k tt w.
Proof. done. Qed.

Lemma page_bounds d f buf c p :
  dev_wf d f buf c -> 0 <= p < bmpsz d / PAGE ->
  0 <= p * PAGE /\ p * PAGE + PAGE <= Z.of_nat (length c) /\ p * PAGE < 2 ^ 63.
Proof. intros (_ & _ & _ & ? & _ & _ & _ & ?) ?. unfold PAGE in *. lia. Qed.

(** Writing the cached page back leaves the bitmap that the driver means alone; once it
    succeeds the file is that bitmap. *)
Lemma bmp_written d f buf (w : world) :
  good_faults w -> u_dev (w_kern w) = Some d -> dev_wf d f buf (contents (f_path f) w) ->
  let l := splice (bmp_page d) buf (contents (f_path f) w) in
  exists err w1, ulo_write f buf PAGE (bmpidx d * PAGE) w = (Ret err, w1) /\
    bmp_frame f w w1 /\ good_faults w1 /\ bmp_rep w1 d f l /\ w_kern w1 = w_kern w /\
    length (contents (f_path f) w1) = length (contents (f_path f) w) /\
    (err = 0 -> contents (f_path f) w1 = l).
Proof.
  intros Hg Hd Hwf l. pose proof Hwf as (Hbmp & Hbuf & Hlen & Hsz & Hi0 & Hi1 & Hmod & Hmax).
  unfold PAGE in *.
  destruct (ulo_write_spec f buf (bmpidx d * 4096) w) as (err & w1 & n & E & Hk & Hc1 & He0 & Hfr);
    [done|unfold PAGE; lia..|].
  assert (length (contents (f_path f) w1) = length (contents (f_path f) w)) as Hlen1
    by (rewrite Hc1; apply length_splice; rewrite length_take; lia).
  exists err, w1. split; [exact E|]. split; [done|]. split; [by apply Hfr|].
  split; [|split; [done|]; split; [done|intros H; by rewrite Hc1, He0]].
  split; [by rewrite Hk|]. exists buf. split; [|rewrite Hc1, splice_splice; try done].
  - unfold dev_wf. rewrite Hlen1. done.
  - unfold bmp_page, PAGE. lia.
  - rewrite length_take. lia.
Qed.

(** A page that was read whole may be the cached one. *)
Lemma rep_switched d f buf c p got :
  dev_wf d f buf c -> 0 <= p < bmpsz d / PAGE ->
  got = take (Z.to_nat PAGE) (drop (Z.to_nat (p * PAGE)) c) ->
  let d' := set_bmpidx p (set_bmpbuf (Some got) d) in
  dev_wf d' f got c /\ c = splice (bmp_page d') got c.
Proof.
  intros Hwf Hp -> d'. pose proof (page_bounds _ _ _ _ _ Hwf Hp) as Hpb.
  destruct Hwf as (Hbmp & Hbuf & Hlen & Hsz & Hi0 & Hi1 & Hmod & Hmax).
  unfold dev_wf, d', bmp_page, PAGE in *. simpl. split.
  - split_and!; try done; try lia. rewrite length_take, length_drop. lia.
  - symmetry. apply splice_self. lia.
Qed.

(** Switching the cached page never changes the bitmap the driver means, as long as
    the pages can be read: not even when the page that is left cannot be written, or
    is written in part. *)
Lemma pindex_spec pindex d f l (w : world) :
  good_faults w -> bmp_rep w d f l -> 0 <= pindex < bmpsz d / PAGE ->
  exists err w' d', ulo_bmp_pindex pindex w = (Ret err, w') /\
    bmp_frame f w w' /\ good_faults w' /\
    (err = 0 \/ u_rfaults (w_kern w) = [] -> bmp_rep w' d' f l /\ same_queues d d') /\
    (err = 0 -> bmpidx d' = pindex).
Proof.
  intros Hg (Hd & buf & Hwf & Hl) Hp. pose proof (page_bounds _ _ _ _ _ Hwf Hp) as Hpb.
  pose proof Hwf as (Hbmp & Hbuf & Hlen & Hsz & Hi0 & Hi1 & Hmod & Hmax).
  unfold ulo_bmp_pindex, get_dev. rewrite bind_assoc, bind_gets, Hd. simpl. rewrite bind_ret.
  destruct (Z.eqb_spec (bmpidx d) pindex) as [He|Hne].
  { exists 0, w, d. split; [done|]. split_and!; [done..| |done].
    intros _. split; [|done]. split; [done|]. eauto. }
  rewrite (proj2 (Z.ltb_ge _ _)) by lia. rewrite Hbmp, Hbuf. simpl. rewrite !bind_ret.
  assert (Z.of_nat (length buf) = 4096 /\ 0 <= bmpidx d * 4096 < 2 ^ 63) as [Hb Hi]
    by (unfold PAGE in *; lia).
  destruct (bmp_written d f buf w Hg Hd Hwf) as (err & w1 & E & Hfr & Hg1 & Hrep1 & Hk & Hlen1 & Hcl).
  rewrite <- Hl in Hrep1, Hcl. unfold PAGE in *. rewrite (i64_small (bmpidx d * 4096)) by lia.
  rewrite (bind_run _ _ _ _ _ E).
  destruct (Z.eqb_spec err 0) as [->|Hne0]; cbn [truth negb Z.eqb].
  2:{ unfold truth. rewrite (proj2 (Z.eqb_neq _ _)) by done. exists err, w1, d.
      split; [done|]. split_and!; try done. }
  unfold i_size_read. rewrite bind_gets, Hlen1, Hsz, Z.eqb_refl. simpl negb. rewrite bug_on_false. cbv zeta.
  rewrite (i64_small (pindex * 4096)) by lia. rewrite (proj2 (Z.ltb_ge _ _)) by lia.
  rewrite bug_on_false.
  destruct (kernel_read_spec f (pindex * 4096) buf w1 Hg1)
    as (r & got & w2 & E2 & Hf2 & Hd2 & Hfr2 & Hr); unfold PAGE in *.
  rewrite (bind_run _ _ _ _ _ E2). unfold mod_dev, mod_k. rewrite bind_modify.
  specialize (Hr ltac:(lia) ltac:(lia) ltac:(lia)) as [Hr1 Hr2].
  set (w3 := set_kern _ w2).
  assert (bmp_frame f w w3) as Hfr3 by (etrans; [exact Hfr|exact Hfr2]).
  assert (good_faults w3) as Hg3 by (apply Hfr3, Hg).
  destruct (Z.eqb_spec r 4096) as [->|Hr4]; simpl.
  - rewrite bind_modify. eexists 0, _, (set_bmpidx pindex (set_bmpbuf (Some got) d)).
    split; [reflexivity|]. split; [exact Hfr3|]. split; [exact Hg3|]. split; [|done].
    intros _. split; [|done]. split; [simpl; rewrite Hd2, Hk, Hd; reflexivity|]. exists got.
    match goal with |- dev_wf _ _ _ (contents _ ?w') /\ _ =>
      change (contents (f_path f) w') with (contents (f_path f) w2) end.
    assert (contents (f_path f) w2 = l) as -> by (unfold contents; rewrite Hf2; by apply Hcl).
    rewrite (Hcl eq_refl) in *. apply (rep_switched d f buf); [|done|by apply Hr2].
    unfold dev_wf in *. rewrite Hlen1. done.
  - destruct (kernel_read_spec f (pindex * 4096 - 4096) got w3 Hg3)
      as (r' & got' & w4 & E4 & Hf4 & Hd4 & Hfr4 & _); unfold PAGE in *.
    rewrite (bind_run _ _ _ _ _ E4). rewrite bind_modify.
    eexists _, _, d. split; [reflexivity|].
    split; [by etrans; [exact Hfr3|]|]. split; [apply Hfr4, Hg3|].
    assert (forall P : Prop, u_rfaults (w_kern w) = [] -> P) as Hno.
    { intros P H. exfalso. apply Hr4, Hr1. apply Hfr, H. }
    split; [intros [H|H]; [|by apply Hno]|intros H]; unfold EIO in H; repeat case_match; bool_lia.
Qed.

(** A bit of the cached page is the bit of the bitmap. *)
Lemma cached_bit d f buf c n :
  dev_wf d f buf c -> 0 <= n -> bmpidx d = n / bmp_page_bytes ->
  test_bit (n mod bmp_page_bytes) buf = test_bit n (splice (bmp_page d) buf c).
Proof.
  intros (_ & _ & Hlen & Hsz & Hi0 & Hi1 & _) Hn Hi. unfold bmp_page_bytes, PAGE in *.
  unfold test_bit, bmp_page, PAGE. rewrite lookup_splice_in by lia.
  replace (n mod (4096 * 8) mod 8) with (n mod 8) by lia.
  replace (Z.to_nat (n / 8) - Z.to_nat (bmpidx d * 4096))%nat
    with (Z.to_nat (n mod (4096 * 8) / 8)) by lia. done.
Qed.

Lemma cached_set d f buf c n :
  dev_wf d f buf c -> 0 <= n -> bmpidx d = n / bmp_page_bytes ->
  splice (bmp_page d) (set_bit (n mod bmp_page_bytes) buf) c
    = set_bit n (splice (bmp_page d) buf c).
Proof.
  intros (_ & _ & Hlen & Hsz & Hi0 & Hi1 & _) Hn Hi. unfold bmp_page_bytes, PAGE in *.
  unfold set_bit, bmp_page, PAGE. rewrite splice_alter by lia.
  replace (n mod (4096 * 8) mod 8) with (n mod 8) by lia. f_equal. lia.
Qed.

Lemma length_set_bit n l : length (set_bit n l) = length l.
Proof. apply length_alter. Qed.

(** Setting a bit of the cached page sets that bit of the bitmap. *)
Lemma set_bit_rep d f l n (w : world) :
  bmp_rep w d f l -> 0 <= n -> bmpidx d = n / bmp_page_bytes ->
  exists buf, bmpbuf d = Some buf /\
    let d' := set_bmpbuf (Some (set_bit (n mod bmp_page_bytes) buf)) d in
    let w' := set_kern (set_dev (Some d') (w_kern w)) w in
    mod_dev (set_bmpbuf (Some (set_bit (n mod bmp_page_bytes) buf))) w = (Ret tt, w') /\
    bmp_rep w' d' f (set_bit n l).
Proof.
  intros (Hd & buf & Hwf & Hl) Hn Hi. exists buf. pose proof Hwf as (_ & Hb & _).
  split; [done|]. cbv zeta. split; [unfold mod_dev, mod_k, modify; by rewrite Hd|].
  split; [done|]. exists (set_bit (n mod bmp_page_bytes) buf). split.
  - destruct Hwf as (? & ? & ? & ? & ? & ? & ? & ?). unfold dev_wf.
    rewrite length_set_bit. by split_and!.
  - rewrite Hl. symmetry. exact (cached_set d f buf _ n Hwf Hn Hi).
Qed.

Lemma rep_length w d f l : bmp_rep w d f l -> Z.of_nat (length l) = bmpsz d.
Proof.
  intros (Hd & buf & (_ & _ & Hlen & Hsz & Hi0 & Hi1 & _) & ->). unfold PAGE in *.
  unfold bmp_page, PAGE. rewrite length_splice by lia. lia.
Qed.

(** ** Steps that touch only the queues *)

Definition upd_dev (d : ulo_dev) (w : world) : world :=
  set_kern (set_dev (Some d) (w_kern w)) w.

Lemma rep_set_queue i q d f l (w : world) :
  bmp_rep w d f l -> bmp_rep (upd_dev (set_queue i q d) w) (set_queue i q d) f l.
Proof. intros (Hd & buf & Hwf & Hl). split; [done|]. exists buf. by destruct i. Qed.

Lemma frame_upd_dev f d (w : world) : bmp_frame f w (upd_dev d w).
Proof. by split_and!. Qed.

Lemma get_dev_run {A} d (k : ulo_dev -> M world A) (w : world) :
  u_dev (w_kern w) = Some d -> (get_dev ≫= k) w = k d w.
Proof. intros H. unfold get_dev. by rewrite bind_assoc, bind_gets, H. Qed.

Lemma mod_dev_run {A} g d (k : unit -> M world A) (w : world) :
  u_dev (w_kern w) = Some d -> (mod_dev g ≫= k) w = k tt (upd_dev (g d) w).
Proof. intros H. unfold mod_dev, mod_k. rewrite bind_modify. by rewrite H. Qed.

Lemma ulo_wait_spec intr i d (w : world) :
  u_dev (w_kern w) = Some d ->
  ulo_wait intr i w =
    match queue i d with
    | q :: r => (Ret (Some (inr q)), upd_dev (set_queue i r d) w)
    | [] => (Ret (if intr then Some (inl (- ERESTARTSYS)) else None), w)
    end.
Proof.
  intros H. unfold ulo_wait. rewrite (get_dev_run d) by done.
  destruct (queue i d); [done|]. by rewrite (mod_dev_run _ d) by done.
Qed.

Lemma ulo_append_spec i q d (w : world) :
  u_dev (w_kern w) = Some d ->
  ulo_append i q w = (Ret tt, upd_dev (set_queue i (queue i d ++ [q]) d) w).
Proof.
  intros H. unfold ulo_append. rewrite (get_dev_run d) by done.
  unfold mod_dev, mod_k, modify. by rewrite H.
Qed.

Lemma rep_same (w w' : world) d f l :
  u_dev (w_kern w') = u_dev (w_kern w) -> w_files w' = w_files w ->
  bmp_rep w d f l -> bmp_rep w' d f l.
Proof. unfold bmp_rep, contents. intros -> ->. done. Qed.

(** The fault taken, and a world that differs only in what is pending *)
Lemma pop_fault_frame f (w : world) :
  good_faults w ->
  exists x w', pop_fault w = (Ret x, w') /\ bmp_frame f w w' /\ good_fault x /\
    good_faults w' /\ w_kern w' = w_kern w /\ w_files w' = w_files w.
Proof.
  intros Hg. destruct (pop_fault_spec w) as (x & w' & E & Hk & Hf & Hgl & Hfd & Her & Hgx).
  destruct (Hgx Hg). exists x, w'. unfold bmp_frame, contents. rewrite Hf, Hk.
  by split_and!.
Qed.

Lemma kill_pid_spec f p s (w : world) :
  good_faults w ->
  exists err w', kill_pid p s w = (Ret err, w') /\ bmp_frame f w w' /\
    u_dev (w_kern w') = u_dev (w_kern w) /\ w_files w' = w_files w.
Proof.
  intros Hg. destruct (pop_fault_frame f w Hg) as (x & w' & E & Hfr & Hx & Hg' & Hk & Hf).
  unfold kill_pid. rewrite (bind_run _ _ _ _ _ E).
  destruct x; (eexists _, _; split; [reflexivity|]; split; [exact Hfr|]; by rewrite <- ?Hk).
Qed.

Lemma req_start_set s z c : req_start (set_req s z c) = u64 s.
Proof. done. Qed.
Lemma req_size_set s z c : req_size (set_req s z c) = i32 z.
Proof.
  unfold req_size, set_req, lo32, i32, wrap_s, u32, wrap_u. simpl.
  rewrite Z.mod_add by lia. rewrite Z.mod_mod by lia. rewrite Z.add_mod_idemp_l by lia. done.
Qed.

(** ** Steps of a transfer that touch the bitmap *)

Definition pos_ok (d : ulo_dev) (pos : Z) : Prop :=
  0 <= pos /\ pos + PAGE < 2 ^ 63 /\ pos / PAGE < 8 * bmpsz d.

Lemma pos_pindex (d : ulo_dev) pos :
  bmpsz d mod PAGE = 0 -> pos_ok d pos ->
  0 <= pos / PAGE /\ 0 <= pos / PAGE / bmp_page_bytes < bmpsz d / PAGE /\
  u64 pos = pos /\ i64 (pos + PAGE) = pos + PAGE.
Proof.
  intros Hm (Hp1 & Hp2 & Hp3). unfold bmp_page_bytes, PAGE in *.
  rewrite u64_small, i64_small by lia. split_and!; try lia.
Qed.

(** The top of the loop: an error, the next page when the bit is set, a request
    when it is not. *)
Lemma xfer_test_spec r sz pos d f l (w : world) :
  good_faults w -> u_rfaults (w_kern w) = [] -> bmp_rep w d f l -> pos_ok d pos -> 0 < sz ->
  exists pc w' d', xfer_test r sz pos w = (Ret pc, w') /\
    bmp_frame f w w' /\ bmp_rep w' d' f l /\ same_queues d d' /\
    ((exists err, pc = XDone err None /\ err <> 0) \/
     (pc = XTest (i32 (sz - PAGE)) (pos + PAGE) /\ test_bit (pos / PAGE) l = true) \/
     (pc = XBegin sz pos (pos / PAGE / bmp_page_bytes) (pos / PAGE mod bmp_page_bytes) /\
      test_bit (pos / PAGE) l = false)).
Proof.
  intros Hg Hr Hrep Hpos Hsz. pose proof Hrep as (Hd & buf0 & Hwf0 & _).
  pose proof Hwf0 as (_ & _ & _ & _ & _ & _ & Hm & _).
  destruct (pos_pindex d pos Hm Hpos) as (Hn & Hpi & Hu & Hi).
  unfold xfer_test. rewrite (proj2 (Z.leb_gt _ _)) by lia. cbv zeta. rewrite Hu, Hi.
  destruct (pindex_spec _ d f l w Hg Hrep Hpi)
    as (err & w' & d' & E & Hfr & Hg' & Hrep' & Hidx).
  destruct (Hrep' (or_intror Hr)) as [Hrep1 Hsq]. rewrite (bind_run _ _ _ _ _ E).
  unfold truth. destruct (Z.eqb_spec err 0) as [->|Hne]; simpl.
  2:{ eexists _, w', d'. split; [reflexivity|]. split_and!; try apply Hsq; try done. eauto. }
  specialize (Hidx eq_refl). pose proof Hrep1 as (Hd' & buf & Hwf & Hl).
  pose proof Hwf as (_ & Hb & _). unfold get_dev.
  rewrite bind_assoc, bind_gets, Hd'. simpl. rewrite bind_ret, Hb. simpl. rewrite bind_ret.
  rewrite (cached_bit d' f buf _ (pos / PAGE) Hwf Hn Hidx), <- Hl.
  destruct (test_bit (pos / PAGE) l); eexists _, w', d';
    (split; [reflexivity|]; split_and!; try apply Hsq; try done; eauto).
Qed.

(** The end of a request: an error, or its bit is set. *)
Lemma xfer_end_set_spec sz pos d f l (w : world) :
  good_faults w -> u_rfaults (w_kern w) = [] -> bmp_rep w d f l -> pos_ok d pos ->
  exists pc w' d' l',
    ulo_xfer_end_set sz pos (pos / PAGE / bmp_page_bytes) (pos / PAGE mod bmp_page_bytes) w
      = (Ret pc, w') /\
    bmp_frame f w w' /\ bmp_rep w' d' f l' /\ same_queues d d' /\
    ((exists err, pc = XDone err None /\ err <> 0 /\ l' = l) \/
     (pc = XTest (i32 (sz - PAGE)) (pos + PAGE) /\ l' = set_bit (pos / PAGE) l)).
Proof.
  intros Hg Hr Hrep Hpos. pose proof Hrep as (Hd & buf0 & Hwf0 & _).
  pose proof Hwf0 as (_ & _ & _ & _ & _ & _ & Hm & _).
  destruct (pos_pindex d pos Hm Hpos) as (Hn & Hpi & Hu & Hi).
  unfold ulo_xfer_end_set. rewrite Hi.
  destruct (pindex_spec _ d f l w Hg Hrep Hpi)
    as (err & w' & d' & E & Hfr & Hg' & Hrep' & Hidx).
  destruct (Hrep' (or_intror Hr)) as [Hrep1 Hsq]. rewrite (bind_run _ _ _ _ _ E).
  unfold truth. destruct (Z.eqb_spec err 0) as [->|Hne]; simpl.
  2:{ eexists _, w', d', l. split; [reflexivity|]. split_and!; try apply Hsq; try done.
      left. eauto. }
  specialize (Hidx eq_refl). pose proof Hrep1 as (Hd' & _).
  destruct (set_bit_rep d' f l (pos / PAGE) w' Hrep1 Hn Hidx) as (buf & Hb & Es & Hrep2).
  unfold get_dev. rewrite bind_assoc, bind_gets, Hd'. simpl. rewrite bind_ret, Hb. simpl.
  rewrite bind_ret, (bind_run _ _ _ _ _ Es).
  eexists _, _, _, _. split; [reflexivity|]. split; [exact Hfr|]. split; [exact Hrep2|].
  split; [exact Hsq|]. right. done.
Qed.

(** ** ULOCTL_SETBMP *)

Lemma kernel_read_ok f pos buf n (w : world) :
  u_rfaults (w_kern w) = [] -> 0 <= pos ->
  let got := take (Z.to_nat n) (drop (Z.to_nat pos) (contents (f_path f) w)) in
  kernel_read f pos buf n w =
    (Ret (Z.of_nat (length got), got ++ drop (length got) buf), w).
Proof.
  intros Hr Hp. unfold kernel_read, pop_rfault, mbind at 1, M_bind at 1. rewrite Hr.
  by rewrite (proj2 (Z.ltb_ge _ _)) by done.
Qed.

(** Attaching a bitmap file to a device that has none: the driver then means the
    contents of the file. *)
Lemma setbmp_spec uarg d p mode c (w : world) :
  u_dev (w_kern w) = Some d -> bmp d = None ->
  w_faults w = [] -> u_rfaults (w_kern w) = [] ->
  w_fds w !! setbmp_fd uarg = Some p -> setbmp_pagesize uarg = PAGE ->
  default 3 (u_modes (w_kern w) !! setbmp_fd uarg) = mode -> Z.land mode 3 = 3 ->
  contents p w = c -> PAGE <= Z.of_nat (length c) < 2 ^ 63 -> Z.of_nat (length c) mod PAGE = 0 ->
  exists w' d', ulo_ctl_setbmp uarg w = (Ret 0, w') /\
    w_faults w' = [] /\ u_rfaults (w_kern w') = [] /\
    u_backing (w_kern w') = u_backing (w_kern w) /\ u_refs (w_kern w') = u_refs (w_kern w) + 1 /\
    bmp_rep w' d' (KFile p mode) c /\ same_queues d d' /\
    w_files w' = w_files w /\ w_fds w' = w_fds w /\ w_glob w' = w_glob w.
Proof.
  intros Hd Hb Hf Hr Hfd Hpg Hm Hrw Hc Hl Hlm. unfold ulo_ctl_setbmp.
  rewrite (get_dev_run d), Hb by done. unfold copy_user, alloc.
  rewrite bind_assoc, (bind_run _ _ _ _ _ (pop_fault_ok w Hf)), bind_ret.
  unfold fget. rewrite bind_assoc. unfold get. unfold mbind at 1, M_bind at 1. rewrite Hfd.
  unfold mod_k at 1. rewrite bind_assoc, bind_modify, bind_ret.
  rewrite Hpg, Z.eqb_refl. cbn [negb f_mode f_path].
  change (FMODE_READ + FMODE_WRITE) with 3. rewrite Hm.
  change (Z.lor FMODE_READ FMODE_WRITE) with 3. rewrite Hrw, Z.eqb_refl. cbn [negb].
  set (w1 := set_kern _ w). unfold i_size_read. rewrite bind_gets.
  change (contents p w1) with (contents p w). rewrite Hc.
  rewrite (mod_dev_run _ d) by done. rewrite (proj2 (Z.eqb_neq _ 0)) by (unfold PAGE in *; lia).
  rewrite Hlm. cbn [negb Z.eqb orb]. set (w2 := upd_dev _ w1).
  assert (w_faults w2 = []) as Hf2 by done.
  rewrite bind_assoc, (bind_run _ _ _ _ _ (pop_fault_ok w2 Hf2)), bind_ret. cbn [negb].
  rewrite bind_gets, (mod_dev_run _ (set_bmpsz (Z.of_nat (length c)) d)) by done.
  set (w3 := upd_dev _ w2). set (junk := replicate (Z.to_nat PAGE) _).
  assert (length junk = Z.to_nat PAGE) as Hj by apply length_replicate. clearbody junk.
  rewrite (bind_run _ _ _ _ _ (kernel_read_ok (KFile p mode) 0 _ PAGE w3 Hr (Z.le_refl 0))).
  change (contents (f_path (KFile p mode)) w3) with (contents p w). rewrite Hc.
  assert (Z.of_nat (length (take (Z.to_nat PAGE) (drop (Z.to_nat 0) c))) = PAGE) as Hlen.
  { rewrite length_take, length_drop. unfold PAGE in *. lia. }
  rewrite Hlen, Z.eqb_refl, (mod_dev_run _ _ _ w3 eq_refl).
  eexists _, (set_bmpbuf (Some _) (set_bmpidx 0 (set_bmp (Some (KFile p mode))
    (set_bmpsz (Z.of_nat (length c)) d)))).
  split; [reflexivity|]. split_and!; try done.
  split; [reflexivity|]. eexists. split.
  - unfold dev_wf. simpl. split; [done|]. split; [done|].
    match goal with |- context[contents p ?w'] =>
      change (contents p w') with (contents p w) end.
    rewrite Hc, (drop_ge junk), app_nil_r by lia. unfold PAGE in *. split_and!; try done; lia.
  - match goal with |- context[contents ?q ?w'] =>
      change (contents q w') with (contents p w) end.
    rewrite Hc. rewrite (drop_ge junk), app_nil_r by lia.
    symmetry. apply splice_self. simpl. unfold PAGE in *. lia.
Qed.

(** ** Where the guards of ulo_bmp_pindex() are wrong *)

(** Nothing fails: the page that is left is written, and the file holds the bitmap. *)
Lemma ulo_write_ok f buf pos (w : world) :
  w_faults w = [] -> Z.of_nat (length buf) = PAGE ->
  ulo_write f buf PAGE pos w =
    (Ret 0, set_files (<[f_path f := splice (Z.to_nat pos) buf (contents (f_path f) w)]>
                         (w_files w)) w).
Proof.
  intros Hf Hb. unfold ulo_write, vfs_write.
  rewrite bind_assoc, (bind_run _ _ _ _ _ (pop_fault_ok w Hf)). cbv zeta.
  rewrite bind_assoc, bind_modify, !bind_ret, Z2Nat.id, Z.eqb_refl by (unfold PAGE; lia).
  replace (Z.to_nat PAGE) with (length buf) by lia. by rewrite firstn_all.
Qed.

(** The test [bmpsz / PAGE_SIZE < pindex] lets the first page beyond the end of the
    bitmap pass; the next check then stops the kernel. *)
Lemma pindex_past_end d f l (w : world) :
  w_faults w = [] -> bmp_rep w d f l ->
  exists w', ulo_bmp_pindex (bmpsz d / PAGE) w = (Ub "BUG", w').
Proof.
  intros Hfl (Hd & buf & Hwf & Hl).
  pose proof Hwf as (Hbmp & Hbuf & Hlen & Hsz & Hi0 & Hi1 & Hmod & Hmax).
  unfold ulo_bmp_pindex. rewrite (get_dev_run d) by done. unfold PAGE in *.
  rewrite (proj2 (Z.eqb_neq _ _)) by lia. rewrite Z.ltb_irrefl, Hbmp, Hbuf. simpl.
  rewrite !bind_ret, (i64_small (bmpidx d * 4096)) by lia.
  rewrite (bind_run _ _ _ _ _ (ulo_write_ok f buf _ w Hfl Hlen)). cbn [truth negb Z.eqb].
  unfold i_size_read. rewrite bind_gets, contents_insert, decide_True by done.
  rewrite length_splice by lia. rewrite <- Hsz, Z.eqb_refl. simpl negb.
  rewrite bug_on_false. cbv zeta.
  assert (i64 (bmpsz d / 4096 * 4096) = bmpsz d) as ->.
  { replace (bmpsz d / 4096 * 4096) with (bmpsz d) by lia. apply i64_small. lia. }
  rewrite (proj2 (Z.ltb_lt _ _)) by lia. by eexists.
Qed.

(** When the page of the bitmap that is wanted cannot be read, the recovery
    reads [pos - PAGE_SIZE], the page before the wanted one, instead of the page that
    was cached: from then on the bitmap that the driver means has the bits of page
    [pindex - 1] also at the page [bmpidx], so that pages of the cache which were
    never stored pass for stored. *)
Theorem failed_read_corrupts_bitmap pindex e d f l (w : world) :
  w_faults w = [] -> u_rfaults (w_kern w) = [FErr e] -> 0 < e < 4096 ->
  bmp_rep w d f l -> 1 <= pindex < bmpsz d / PAGE -> pindex <> bmpidx d ->
  exists w' d', ulo_bmp_pindex pindex w = (Ret (- e), w') /\
    bmp_rep w' d' f (splice (bmp_page d) (page_at (pindex - 1) l) l).
Proof.
  intros Hfl Hr He (Hd & buf & Hwf & Hl) Hp Hne.
  pose proof Hwf as (Hbmp & Hbuf & Hlen & Hsz & Hi0 & Hi1 & Hmod & Hmax).
  unfold ulo_bmp_pindex. rewrite (get_dev_run d) by done. unfold page_at, bmp_page, PAGE in *.
  rewrite (proj2 (Z.eqb_neq _ _)) by lia. rewrite (proj2 (Z.ltb_ge _ _)), Hbmp, Hbuf by lia.
  cbn [deref]. rewrite !bind_ret, (i64_small (bmpidx d * 4096)) by lia.
  rewrite (bind_run _ _ _ _ _ (ulo_write_ok f buf _ w Hfl Hlen)), <- Hl. cbn [truth negb Z.eqb].
  set (w1 := set_files _ w).
  assert (contents (f_path f) w1 = l) as Hc1 by (unfold w1; by rewrite contents_insert, decide_True).
  assert (Z.of_nat (length l) = bmpsz d) as Hll by (rewrite Hl, length_splice; lia).
  unfold i_size_read. rewrite bind_gets, Hc1, Hll, Z.eqb_refl. simpl negb. rewrite bug_on_false.
  cbv zeta. rewrite (i64_small (pindex * 4096)) by lia.
  rewrite (proj2 (Z.ltb_ge _ _)), bug_on_false by lia.
  set (w2 := set_kern (set_rfaults [] (w_kern w1)) w1).
  assert (kernel_read f (pindex * 4096) buf 4096 w1 = (Ret (- e, buf), w2)) as E2.
  { unfold kernel_read, pop_rfault, mbind, M_bind.
    change (u_rfaults (w_kern w1)) with (u_rfaults (w_kern w)). by rewrite Hr. }
  rewrite (bind_run _ _ _ _ _ E2), (mod_dev_run _ d) by done.
  rewrite (proj2 (Z.eqb_neq _ _)) by lia. cbn [negb]. set (w3 := upd_dev _ w2).
  assert (u_rfaults (w_kern w3) = []) as Hr3 by done.
  rewrite (bind_run _ _ _ _ _ (kernel_read_ok f (pindex * 4096 - 4096) buf 4096 w3 Hr3 ltac:(lia))).
  change (contents (f_path f) w3) with (contents (f_path f) w1). rewrite Hc1.
  replace ((pindex - 1) * 4096) with (pindex * 4096 - 4096) by lia.
  set (got := take _ (drop _ l)).
  assert (length got = Z.to_nat 4096) as Hg
    by (unfold got; rewrite length_take, length_drop; lia).
  rewrite Hg, (drop_ge buf), app_nil_r by lia.
  rewrite (mod_dev_run _ _ _ w3 eq_refl). rewrite Z2Nat.id, Z.eqb_refl by lia. cbn [negb].
  rewrite (proj2 (Z.leb_gt _ _)) by lia.
  eexists _, (set_bmpbuf (Some got) (set_bmpbuf (Some buf) d)). split; [reflexivity|].
  split; [reflexivity|]. exists got. unfold bmp_page, PAGE.
  match goal with |- context[contents ?q ?w'] => change (contents q w') with (contents q w1) end.
  rewrite Hc1. split; [|reflexivity]. unfold dev_wf, PAGE. simpl. split_and!; try done; lia.
Qed.
End bitmap.

Module UloopDemo.
Definition path : bytes := lit "/bitmap".
(** Two pages of the bitmap, the first one of ones and cached *)
Definition page (c : ascii) : bytes := replicate 4096 c.
Definition ones : ascii := byte_of 255.
Definition dev : ulo_dev := Dev [] [] [] (Some (KFile path 3)) 0 (Some (page ones)) 8192.
Definition start : world ulok unit :=
  World 0 [] (Ulok [FErr EIO] (Some (lit "/cache")) (Some dev) ∅ 1 [] 0) tt ∅
    {[path := page ones ++ page NUL]} ∅ 3 ∅ [] [] [].
Definition bitmap : bytes := page ones ++ page NUL.

Lemma start_contents : contents path start = bitmap.
Proof. vm_compute. reflexivity. Qed.
Lemma start_rep : bmp_rep start dev (KFile path 3) bitmap.
Proof.
  split; [reflexivity|]. exists (page ones). simpl f_path. rewrite start_contents. split.
  - split; [reflexivity|]. split; [reflexivity|].
    split; [apply Z.eqb_eq; vm_compute; reflexivity|].
    split; [apply Z.eqb_eq; vm_compute; reflexivity|]. unfold PAGE. simpl.
    split_and!; (lia || reflexivity).
  - vm_compute. reflexivity.
Qed.
End UloopDemo.
Import UloopDemo.

Lemma failed_read_corrupts_bitmap_witness :
  test_bit 32768 bitmap = false /\
  exists w' d', ulo_bmp_pindex 1 start = (Ret (- EIO), w') /\
    bmp_rep w' d' (KFile path 3) (splice (bmp_page dev) (page_at (1 - 1) bitmap) bitmap).
Proof.
  split; [vm_compute; reflexivity|].
  assert (0 < EIO < 4096) as He by (unfold EIO; lia).
  assert (1 <= 1 < bmpsz dev / PAGE) as Hp by (cbn; unfold PAGE; lia).
  exact (failed_read_corrupts_bitmap 1 EIO dev (KFile path 3) bitmap start eq_refl eq_refl He
    start_rep Hp ltac:(discriminate)).
Defined.
