(* ===== verification/UloMod.v ===== *)
(** * Loading and unloading the driver: uloop.c, module part

    Loading makes a cache for the elements of the queues and registers the table of the
    driver's functions with the loop driver, which is the interface [LoopDriver]. *)
From S2P Require Import Prelude CString AuUtil AufsType FhsmData Sys Uloop.

Definition MAX_LO_CRYPT : Z := 20.
Definition LOOP_FILTER_ULOOP : Z := MAX_LO_CRYPT - 1.
Definition ULOOP_NAME : bytes := lit "uloop".
Definition ULOOP_VERSION : bytes := lit "20071126".

(** struct loop_func_table, as far as the driver fills it *)
Record loop_func_table (G : Type) := LoopFuncs {
  lf_number : Z;
  lf_release : M (world ulok G) Z;
  lf_init : M (world ulok G) Z;
  lf_transfer : bool -> xreq -> xpc -> M (world ulok G) xpc;
  lf_ioctl : Z -> Z -> ulo_ctl -> M (world ulok G) (Z * ulo_ctl)
}.
Arguments LoopFuncs {G}.
Arguments lf_number {G}.

Definition uloop_ops {G} : loop_func_table G :=
  LoopFuncs LOOP_FILTER_ULOOP uloop_release uloop_dev_init uloop_xfer uloop_ioctl.

(** The loop driver's registry of transfer functions; a refusal leaves it alone, and
    taking back what was registered restores it. *)
Class LoopDriver (G L : Type) := {
  loop_register_transfer : loop_func_table G -> L -> Z * L;
  loop_unregister_transfer : Z -> L -> L;
  register_refused t l : (loop_register_transfer t l).1 <> 0 -> (loop_register_transfer t l).2 = l;
  unregister_registered t l :
    (loop_register_transfer t l).1 = 0 ->
    loop_unregister_transfer (lf_number t) (loop_register_transfer t l).2 = l
}.

(** The caches that exist, by name. *)
Record kmod (L : Type) := Kmod { km_caches : list bytes; km_loop : L }.
Arguments Kmod {L}. Arguments km_caches {L}. Arguments km_loop {L}.

Section module.
Context {G L : Type} `{!LoopDriver G L}.
Notation world := (world (kmod L) unit).
Notation MK := (M world).

(** kmem_cache_create() *)
Definition kmem_cache_create (name : bytes) : MK bool :=
  e ← fallible;
  if truth e then mret false
  else modify (fun w => set_kern (Kmod (name :: km_caches (w_kern w)) (km_loop (w_kern w))) w) ;;
       mret true.
Definition kmem_cache_destroy : MK unit :=
  modify (fun w => set_kern (Kmod (tail (km_caches (w_kern w))) (km_loop (w_kern w))) w).

Definition uloop_mod_init : MK Z :=
  cache ← kmem_cache_create ULOOP_NAME;
  if negb cache then mret (- ENOMEM)
  else
    err ← (fun w => let '(e, l) := loop_register_transfer uloop_ops (km_loop (w_kern w)) in
                    (Ret e, set_kern (Kmod (km_caches (w_kern w)) l) w));
    (if err =? 0 then print (ULOOP_NAME ++ lit " " ++ ULOOP_VERSION) else kmem_cache_destroy) ;;
    mret err.

Definition uloop_mod_exit : MK unit :=
  modify (fun w => set_kern (Kmod (km_caches (w_kern w))
    (loop_unregister_transfer (lf_number (@uloop_ops G)) (km_loop (w_kern w)))) w) ;;
  kmem_cache_destroy.

(** Whether the next call that may fail does. *)
Definition next_fails (w : world) : bool :=
  match w_faults w with FErr _ :: _ => true | _ => false end.

(** C36. Loading has exactly three outcomes: -ENOMEM without memory for the cache, and else
    what the loop driver answers to the registration of the driver's functions.  When it is
    0 the cache exists and the functions are registered, and unloading undoes both; in any
    other case the kernel is left as it was.  (Of the loop driver it is only used that a
    refusal changes nothing and that taking a registration back restores its registry.) *)
Theorem mod_init_undone (w : world) :
  let k := w_kern w in
  let r := loop_register_transfer uloop_ops (km_loop k) in
  let err := if next_fails w then - ENOMEM else r.1 in
  exists w', uloop_mod_init w = (Ret err, w') /\
    w_kern w' = (if err =? 0 then Kmod (ULOOP_NAME :: km_caches k) r.2 else k) /\
    (err = 0 -> exists w'', uloop_mod_exit w' = (Ret tt, w'') /\ w_kern w'' = k).
Proof.
  intros k r err. unfold uloop_mod_init, kmem_cache_create. rewrite bind_assoc.
  assert (exists w1, fallible w = (Ret (if next_fails w then -1 else 0), w1) /\ w_kern w1 = k)
    as (w1 & E & Hk).
  { unfold fallible, pop_fault, next_fails, mbind, M_bind. destruct (w_faults w) as [|[|?|?] ?]; eauto. }
  rewrite (bind_run _ _ _ _ _ E). unfold err. destruct (next_fails w).
  { change (truth (-1)) with true. cbv iota. rewrite bind_ret. by exists w1. }
  change (truth 0) with false. cbv iota.
  rewrite bind_assoc, bind_modify, bind_ret. cbn [negb]. rewrite Hk. set (w2 := set_kern _ w1).
  pose proof (register_refused (@uloop_ops G) (km_loop k)) as Href.
  pose proof (unregister_registered (@uloop_ops G) (km_loop k)) as Hun.
  unfold mbind at 1, M_bind at 1. change (km_loop (w_kern w2)) with (km_loop k). fold r in Href, Hun |- *.
  destruct r as [z l]. cbn [fst snd] in *. destruct (Z.eqb_spec z 0) as [->|Hne].
  - unfold print. rewrite bind_modify. eexists. split; [reflexivity|]. split; [done|].
    intros _. unfold uloop_mod_exit, kmem_cache_destroy. rewrite bind_modify.
    eexists. split; [reflexivity|]. specialize (Hun eq_refl). cbn in Hun |- *. rewrite Hun.
    by destruct k.
  - unfold kmem_cache_destroy. rewrite bind_modify. eexists. split; [reflexivity|].
    split; [|done]. cbn. rewrite Href by done. by destruct k.
Qed.
End module.

(** A loop driver with one slot, which is free or not. *)
Module UloModDemo.
#[export] Program Instance one_slot : LoopDriver unit (option Z) := {
  loop_register_transfer t l :=
    match l with None => (0, Some (lf_number t)) | Some n => (- EINVAL, Some n) end;
  loop_unregister_transfer n l := match l with Some m => if m =? n then None else l | None => None end
}.
Next Obligation. intros t [n|]; [done|]. by intros []. Qed.
Next Obligation. intros t [n|]; cbn; [by intros [=]|]. by rewrite Z.eqb_refl. Qed.
End UloModDemo.
Import UloModDemo.

Example load_twice :
  let w : world (kmod (option Z)) unit := World 0 [] (Kmod [] None) tt ∅ ∅ ∅ 3 ∅ [] [] [] in
  let '(r1, w1) := uloop_mod_init (G := unit) w in
  (r1, (uloop_mod_init (G := unit) w1).1) = (Ret 0, Ret (- EINVAL)).
Proof. reflexivity. Qed.
