(* ===== verification/Ulolib.v ===== *)
(** * The library of the userspace loopback block device: libuloop.c

    src/sample/uloop/libuloop.c creates the cache and the bitmap file, attaches
    them to the loop device ([ulo_init]) and serves the requests of the driver
    ([ulo_loop]).  The loop driver itself (LOOP_SET_FD, LOOP_SET_STATUS64,
    LOOP_CLR_FD) is not part of the repository: these ioctls are modelled as they
    are documented, setting the backing file and calling the filter's init and
    release functions, which are those of [Uloop].

    [ulo_loop] blocks in sigwaitinfo(2), so it is a program counter [upc] with one
    step per system call, as the threads of the driver are; its callback [store] is
    a parameter. *)
From S2P Require Import Prelude CString AufsType FhsmData Sys Uloop.

#[local] Ltac Zify.zify_post_hook ::= Z.to_euclidean_division_equations.

(** struct uloop *)
Record uloop := ULoop {
  fd_DEV : Z; fd_CACHE : Z; fd_BITMAP : Z;
  pagesize : Z; tgt_size : Z; cache_size : Z
}.

Definition set_fd_DEV (x : Z) (u : uloop) : uloop :=
  ULoop x (fd_CACHE u) (fd_BITMAP u) (pagesize u) (tgt_size u) (cache_size u).
Definition set_fd_CACHE (x : Z) (u : uloop) : uloop :=
  ULoop (fd_DEV u) x (fd_BITMAP u) (pagesize u) (tgt_size u) (cache_size u).
Definition set_fd_BITMAP (x : Z) (u : uloop) : uloop :=
  ULoop (fd_DEV u) (fd_CACHE u) x (pagesize u) (tgt_size u) (cache_size u).
Definition set_sizes (pg t c : Z) (u : uloop) : uloop :=
  ULoop (fd_DEV u) (fd_CACHE u) (fd_BITMAP u) pg t c.

(** The variable [g_uloop] among the globals of the program that is linked with
    the library. *)
Class HasUloop (G : Type) := {
  g_uloop : G -> uloop;
  put_uloop : uloop -> G -> G;
  g_put_uloop u g : g_uloop (put_uloop u g) = u;
  put_put_uloop u v g : put_uloop u (put_uloop v g) = put_uloop u g
}.

(** struct ulo_init *)
Record ulo_init_args := UloInit {
  path_DEV : bytes; path_CACHE : bytes; path_BITMAP : bytes;
  dev_flags : Z; init_size : Z
}.

Section lib.
Context {G : Type} `{!HasUloop G}.
Notation world := (world ulok G).
Notation MU := (M world).

Definition get_u : MU uloop := gets (fun w => g_uloop (w_glob w)).
Definition mod_u (f : uloop -> uloop) : MU unit :=
  modify (fun w => set_glob (put_uloop (f (g_uloop (w_glob w))) (w_glob w)) w).

(** The return value of ioctl(2) for what the kernel returned *)
Definition sysret (err : Z) : MU Z :=
  if err <? 0 then put_errno (- err) ;; mret (-1) else mret err.

(** ** ulo_loop() *)

Inductive upc :=
  | UBegin (ctl : ulo_ctl)
  | UReady (ctl : ulo_ctl)
  | USigwait (ctl : ulo_ctl)
  | URcvreq (ctl : ulo_ctl)
  | UStore (ctl : ulo_ctl)
  | USndres (ctl : ulo_ctl)
  | UExit (err : Z).

Section loop.
Context (store : Z -> Z -> MU Z) (sig pid : Z).

(** The three [if]s of the loop body from where [err] is known, and the loop's test *)
Definition ulo_stored (ctl : ulo_ctl) (err : Z) : upc :=
  if err =? 0 then USndres ctl else UExit err.
Definition ulo_received (ctl : ulo_ctl) (err : Z) : upc :=
  if err =? 0 then UStore ctl else UExit err.
Definition ulo_signalled (ctl : ulo_ctl) (err : Z) : upc :=
  if err =? sig then URcvreq ctl else ulo_received ctl err.

Definition ulo_loop_begin (ctl : ulo_ctl) : MU upc :=
  err ← fallible;
  err ← (if err =? 0 then fallible else mret err);
  err ← (if err =? 0 then fallible else mret err);
  mret (if err =? 0 then UReady ctl else UExit err).

(** sigwaitinfo(2) takes a pending signal of the set; [None]: none is pending *)
Definition sigwaitinfo : MU (option Z) :=
  x ← pop_fault;
  match x with
  | FErr e => put_errno e ;; mret (Some (-1))
  | _ =>
      s ← gets (fun w => u_sigs (w_kern w));
      if bool_decide ((pid, sig) ∈ s)
      then mod_k (fun k => set_sigs (filter (fun x => x <> (pid, sig)) (u_sigs k)) k) ;;
           mret (Some sig)
      else mret None
  end.

Definition ulo_loop (pc : upc) : MU upc :=
  match pc with
  | UBegin ctl => ulo_loop_begin ctl
  | UReady ctl =>
      let ctl := set_signum sig ctl in
      '(e, ctl) ← uloop_ioctl pid ULOCTL_READY ctl;
      err ← sysret e;
      mret (if err =? 0 then USigwait ctl else ulo_signalled ctl err)
  | USigwait ctl =>
      r ← sigwaitinfo;
      mret (match r with Some err => ulo_signalled ctl err | None => USigwait ctl end)
  | URcvreq ctl =>
      '(e, ctl) ← uloop_ioctl pid ULOCTL_RCVREQ ctl;
      err ← sysret e;
      mret (ulo_received ctl err)
  | UStore ctl =>
      err ← store (req_start ctl) (req_size ctl);
      mret (ulo_stored ctl err)
  | USndres ctl =>
      let ctl := set_req (req_start ctl) (req_size ctl) ctl in
      '(e, ctl) ← uloop_ioctl pid ULOCTL_SNDRES ctl;
      err ← sysret e;
      mret (if err =? 0 then UReady ctl else UExit err)
  | UExit err => mret (UExit err)
  end.
End loop.

(** ** ulo_init() *)

(** write(2) at a position set by lseek(2) *)
Definition write_at (fd off : Z) (data : bytes) : MU Z :=
  x ← pop_fault;
  match x with
  | FErr e => put_errno e ;; mret (-1)
  | _ =>
      let n := match x with FShort n => Nat.min n (length data) | _ => length data end in
      c ← file_of fd;
      put_file fd (splice (Z.to_nat off) (take n data) c) ;;
      mret (Z.of_nat n)
  end.

Definition ulo_create_size (path : bytes) (size : Z) : MU Z :=
  fd ← open_creat path;
  if fd <? 0 then mret fd
  else
    err ← fallible;
    if truth err then mret err
    else
      c ← file_of fd;
      if Z.of_nat (length c) =? size then mret fd
      else
        off ← lseek_ fd (i64 (size - 1)) 0;
        if off =? -1 then mret (-1)
        else
          sz ← write_at fd off [NUL];
          if negb (sz =? 1) then mret (-1) else mret fd.

(** ioctl(2) on the loop device: what the loop driver does with its filter *)
Definition LOOP_SET_FD (fd : Z) : MU Z :=
  err ← fallible;
  if truth err then mret err
  else p ← fd_what fd; mod_k (set_backing (Some p)) ;; mret 0.
Definition LOOP_SET_STATUS64 : MU Z :=
  err ← fallible;
  if truth err then mret err else e ← uloop_dev_init; sysret e.
Definition LOOP_CLR_FD : MU Z :=
  err ← fallible;
  if truth err then mret err
  else
    d ← gets (fun w => u_dev (w_kern w));
    (if d is Some _ then _ ← uloop_release; mret tt else mret tt) ;;
    mod_k (set_backing None) ;; mret 0.

Definition ulo_init_loop (pid : Z) (dev_path : bytes) (flags : Z) (cache_path : bytes) : MU Z :=
  err ← open_ dev_path;
  if err <? 0 then mret err
  else
    mod_u (set_fd_DEV err) ;;
    u ← get_u;
    err ← LOOP_SET_FD (fd_CACHE u);
    if truth err then mret err
    else
      let out_loop err := _ ← LOOP_CLR_FD; mret err in
      err ← LOOP_SET_STATUS64;
      if truth err then out_loop err
      else
        '(e, _) ← uloop_ioctl pid ULOCTL_SETBMP (ctl_setbmp (fd_BITMAP u) (pagesize u));
        err ← sysret e;
        if err =? 0 then mret 0 else out_loop err.

Definition round_page (pg x : Z) : Z :=
  let m := x mod pg in if truth m then u64 (x + (pg - m)) else x.

(** The size of the bitmap file for a cache of [c] bytes *)
Definition bitmap_size (pg c : Z) : Z :=
  let sz := c / pg / 8 in
  if sz <? pg then pg else round_page pg sz.

Definition ulo_init (pid : Z) (init : ulo_init_args) : MU Z :=
  let size := init_size init in
  mod_u (set_sizes PAGE size (round_page PAGE size)) ;;
  u ← get_u;
  if truth (cache_size u mod pagesize u) then mret EINVAL
  else
    fd ← ulo_create_size (path_CACHE init) (cache_size u);
    mod_u (set_fd_CACHE fd) ;;
    if fd <? 0 then mret fd
    else
      let sz := bitmap_size (pagesize u) (cache_size u) in
      if truth (sz mod pagesize u) then mret EINVAL
      else
        fd ← ulo_create_size (path_BITMAP init) sz;
        mod_u (set_fd_BITMAP fd) ;;
        if fd <? 0 then mret fd
        else ulo_init_loop pid (path_DEV init) (dev_flags init) (path_CACHE init).
End lib.

(** ** Memory that maps a file

    mmap(2) of [n] bytes of a descriptor at [off] (EINVAL for a length of 0, a
    negative offset or one within a page, ENOMEM for a negative [int] made a [size_t]).  Access beyond
    the last page of the file is SIGBUS; what is written between the end of the file
    and the end of its last page is lost, and zeros are read there. *)
Section mapping.
Context {G : Type}.
Notation world := (world ulok G).
Notation MU := (M world).

Definition SIGBUS_status : Z := 135.
Definition SIGABRT_status : Z := 134.

Definition assert_ (c : bool) : MU unit := if c then mret tt else exit_ SIGABRT_status.

Definition mmap (fd off n : Z) : MU (option bytes) :=
  if (n <=? 0) || negb (off mod PAGE =? 0) || (i64 off <? 0) then mret None
  else
    err ← fallible;
    if truth err then mret None else p ← fd_what fd; mret (Some p).
Definition munmap : MU Z := fallible.

Definition mem_read (p : bytes) (off n : Z) : MU bytes :=
  c ← gets (contents p);
  if page_round (Z.of_nat (length c)) <? off + n then exit_ SIGBUS_status
  else mret (mapped off n c).

Definition mem_write (p : bytes) (off : Z) (data : bytes) : MU unit :=
  c ← gets (contents p);
  if page_round (Z.of_nat (length c)) <? off + Z.of_nat (length data) then exit_ SIGBUS_status
  else modify (fun w => set_files
    (<[p := take (length c) (splice (Z.to_nat off) data c)]> (w_files w)) w).

(** The names that the programs give to the files when told none:
    snprintf(def, sizeof(def) - 1, "/tmp/%d.bitmap", getpid()) *)
Definition bitmap_def (pid : Z) : bytes :=
  take 17 (lit "/tmp/" ++ CString.fmt_d pid ++ lit ".bitmap").
Definition cache_def (pid : Z) : bytes :=
  take 16 (lit "/tmp/" ++ CString.fmt_d pid ++ lit ".cache").
End mapping.

(** [still w w']: only the pending faults and errno may differ. *)
Section still.
Context {G : Type}.
Notation world := (world ulok G).

Definition still (w w' : world) : Prop :=
  w_files w' = w_files w /\ w_kern w' = w_kern w /\ w_glob w' = w_glob w /\
  w_fds w' = w_fds w /\ (good_faults w -> good_faults w') /\
  (good_faults w -> w_errno w <> 0 -> w_errno w' <> 0).

#[export] Instance still_preorder : PreOrder still.
Proof.
  split; [by intros w; split_and!|].
  intros x y z (? & ? & ? & ? & ? & ?) (? & ? & ? & ? & ? & ?). split_and!; try congruence; auto.
Qed.

Lemma still_contents w w' p : still w w' -> contents p w' = contents p w.
Proof. intros (H & _). unfold contents. by rewrite H. Qed.

Lemma pop_fault_still (w : world) :
  exists x w', pop_fault w = (Ret x, w') /\ still w w' /\ (good_faults w -> good_fault x).
Proof.
  destruct (pop_fault_spec w) as (x & w' & E & Hk & Hf & Hgl & Hfd & Her & Hgx).
  exists x, w'. unfold still. rewrite Her. split_and!; try done; intros H; by apply Hgx.
Qed.

Lemma fallible_still (w : world) : exists e w', fallible w = (Ret e, w') /\ still w w'.
Proof.
  destruct (pop_fault_still w) as (x & w' & E & H & Hx). unfold fallible.
  rewrite (bind_run _ _ _ _ _ E). destruct x as [|e|n]; try by exists 0, w'.
  eexists _, _. split; [reflexivity|]. destruct H as (H1 & H2 & H3 & H4 & H5 & H6).
  split_and!; try done. intros Hg _. specialize (Hx Hg). simpl in *. lia.
Qed.

(** A change of the files between two calm stretches is the only one. *)
Lemma still_files w w1 F w2 :
  still w w1 -> still (set_files F w1) w2 ->
  w2 = set_files F (set_files (w_files w) w2) /\ still w (set_files (w_files w) w2).
Proof.
  intros (F1 & K1 & G1 & D1 & Q1 & R1) (F2 & K2 & G2 & D2 & Q2 & R2). simpl in *. split.
  - rewrite <- F2. by destruct w2.
  - split_and!; simpl; [done|congruence..|auto|auto].
Qed.

Lemma mmap_still fd off n (w : world) :
  exists o w', mmap fd off n w = (Ret o, w') /\ still w w' /\
    forall p, o = Some p -> p = default [] (w_fds w !! fd) /\ 0 < n /\ off mod PAGE = 0 /\
      0 <= i64 off.
Proof.
  unfold mmap. destruct (_ || _) eqn:E; [by exists None, w|].
  destruct (fallible_still w) as (e & w' & E' & H). rewrite (bind_run _ _ _ _ _ E').
  destruct (truth e); [by exists None, w'|].
  eexists _, w'. split; [reflexivity|]. split; [done|]. intros p [= <-].
  destruct H as (_ & _ & _ & -> & _ & _). bool_lia. split; [done|].
  destruct E as [[E1 E2] E3]. apply negb_false_iff, Z.eqb_eq in E2. lia.
Qed.
End still.

(** ** The files that ulo_init() makes *)

Section init.
Context {G : Type} `{!HasUloop G}.
Notation world := (world ulok G).

Definition zeros (n : Z) : bytes := replicate (Z.to_nat n) NUL.

Lemma length_zeros n : 0 <= n -> Z.of_nat (length (zeros n)) = n.
Proof. intros H. unfold zeros. rewrite length_replicate. lia. Qed.

Lemma test_bit_zeros n k : test_bit n (zeros k) = false.
Proof.
  unfold test_bit. assert (default NUL (zeros k !! Z.to_nat (n / 8)) = NUL) as ->.
  { unfold zeros. destruct (_ !! _) as [c|] eqn:E; [|done].
    by apply lookup_replicate in E as [-> _]. }
  apply Z.testbit_0_l.
Qed.

(** The size of the bitmap is a whole number of pages, and it has a bit for every
    page of the cache unless less than 8 pages follow a multiple of 32768. *)
Lemma bitmap_size_pages c :
  0 <= c < 2 ^ 62 -> let b := bitmap_size PAGE c in
  b mod PAGE = 0 /\ PAGE <= b /\ b < 2 ^ 63.
Proof.
  intros Hc. unfold bitmap_size, round_page, truth, PAGE. cbv zeta.
  destruct (Z.ltb_spec (c / 4096 / 8) 4096); [lia|].
  destruct (Z.eqb_spec (c / 4096 / 8 mod 4096) 0); simpl; [lia|].
  rewrite u64_small by lia. lia.
Qed.

(** The bitmap file that ulo_init() makes for a cache of [pages] pages has a bit
    for every one of them, except when the number of pages is at least 32768 and
    exceeds a multiple of 32768 by 1 to 7: then the division by 8 drops the pages
    that are left, and the last pages have no bit. *)
Theorem bitmap_covers_cache pages :
  0 <= pages < 2 ^ 50 ->
  (pages <= 8 * bitmap_size PAGE (pages * PAGE) <->
   ~ (32768 <= pages /\ 0 < pages mod 32768 < 8)).
Proof.
  intros Hp. unfold bitmap_size, round_page, truth, PAGE. cbv zeta.
  rewrite Z.div_mul by lia.
  destruct (Z.ltb_spec (pages / 8) 4096); [lia|].
  destruct (Z.eqb_spec (pages / 8 mod 4096) 0); simpl; [lia|].
  rewrite u64_small by lia. lia.
Qed.

Lemma splice_zeros n : 0 < n -> splice (Z.to_nat (n - 1)) [NUL] [] = zeros n.
Proof.
  intros Hn. unfold splice, zeros. rewrite drop_nil, app_nil_r, app_nil_l.
  rewrite take_ge by (rewrite length_replicate; simpl; lia).
  change [NUL] with (replicate 1 NUL). rewrite <- replicate_add. f_equal. simpl. lia.
Qed.

(** A file that does not exist yet is created, sparse, with the size asked for. *)
Lemma ulo_create_size_new path size (w : world) :
  w_faults w = [] -> w_files w !! path = None -> 0 < size < 2 ^ 63 -> 0 <= w_nextfd w ->
  exists w', ulo_create_size path size w = (Ret (w_nextfd w), w') /\
    w_faults w' = [] /\ w_kern w' = w_kern w /\ w_glob w' = w_glob w /\
    w_files w' = <[path := zeros size]> (w_files w) /\
    w_fds w' = <[w_nextfd w := path]> (w_fds w) /\ w_nextfd w' = w_nextfd w + 1.
Proof.
  intros Hf Hn Hs Hfd. unfold ulo_create_size, open_creat.
  rewrite bind_assoc, (bind_run _ _ _ _ _ (fallible_ok w Hf)). cbn [truth negb Z.eqb].
  rewrite bind_assoc, bind_modify, Hn. unfold new_fd at 1, mbind at 1, M_bind at 1. simpl w_nextfd.
  rewrite (proj2 (Z.ltb_ge _ _)) by done.
  match goal with |- context[(_ ≫= _) ?v] => set (w1 := v) end.
  rewrite (bind_run _ _ _ _ _ (fallible_ok w1 Hf)). cbn [truth negb Z.eqb].
  assert (file_of (w_nextfd w) w1 = (Ret [], w1)) as Hfile.
  { apply (file_of_run w1 _ path); simpl; by rewrite lookup_insert_eq. }
  rewrite (bind_run _ _ _ _ _ Hfile).
  change (w_nextfd (set_files _ w)) with (w_nextfd w). change (Z.of_nat (length [])) with 0.
  rewrite (proj2 (Z.eqb_neq _ _)) by lia.
  rewrite i64_small by lia. unfold lseek_. rewrite bind_assoc, (bind_run _ _ _ _ _ Hfile). simpl.
  rewrite (proj2 (Z.ltb_ge _ _)) by lia. rewrite bind_ret, (proj2 (Z.eqb_neq _ _)) by lia.
  unfold write_at. rewrite bind_assoc, (bind_run _ _ _ _ _ (pop_fault_ok w1 Hf)).
  cbv zeta. rewrite bind_assoc, (bind_run _ _ _ _ _ Hfile).
  unfold put_file. rewrite bind_assoc, bind_modify. simpl.
  eexists. split; [reflexivity|]. split_and!; try done. simpl.
  rewrite lookup_insert_eq. simpl. rewrite splice_zeros by lia. by rewrite insert_insert_eq.
Qed.

Lemma mod_u_run {A} g (k : unit -> M world A) (w : world) :
  (mod_u g ≫= k) w = k tt (set_glob (put_uloop (g (g_uloop (w_glob w))) (w_glob w)) w).
Proof. reflexivity. Qed.

Lemma sysret_0 {A} (k : Z -> M world A) (w : world) : (sysret 0 ≫= k) w = k 0 w.
Proof. reflexivity. Qed.

(** The driver's side of ulo_init(): the loop device gets the cache as its backing
    file, and the bitmap. *)
Lemma ulo_init_loop_ready pid dev flags cp bp n (w : world) :
  let u := g_uloop (w_glob w) in
  w_faults w = [] -> u_rfaults (w_kern w) = [] -> u_modes (w_kern w) = ∅ ->
  w_fds w !! fd_CACHE u = Some cp -> w_fds w !! fd_BITMAP u = Some bp ->
  w_nextfd w <> fd_CACHE u -> w_nextfd w <> fd_BITMAP u -> 0 <= w_nextfd w ->
  0 <= fd_BITMAP u < 2 ^ 31 -> pagesize u = PAGE ->
  Z.of_nat (length (contents cp w)) mod PAGE = 0 ->
  contents bp w = zeros n -> PAGE <= n < 2 ^ 63 -> n mod PAGE = 0 ->
  exists w' d, ulo_init_loop pid dev flags cp w = (Ret 0, w') /\
    w_faults w' = [] /\ u_rfaults (w_kern w') = [] /\ u_backing (w_kern w') = Some cp /\
    bmp_rep w' d (KFile bp 3) (zeros n) /\
    q_ready d = [] /\ q_rcvreq d = [] /\ q_sndres d = [] /\
    w_files w' = w_files w /\ w_fds w' = <[w_nextfd w := dev]> (w_fds w) /\
    w_glob w' = put_uloop (set_fd_DEV (w_nextfd w) u) (w_glob w).
Proof.
  intros u Hf Hrf Hmo Hc Hb Hnc Hnb Hfd Hbfd Hpg Hcl Hbl Hn Hnm.
  assert (g_uloop (w_glob w) = u) as Hu by done. clearbody u.
  unfold ulo_init_loop. rewrite (bind_run _ _ w (w_nextfd w) _ (open_ok w dev Hf)).
  rewrite (proj2 (Z.ltb_ge _ _)) by done. rewrite mod_u_run. unfold get_u.
  rewrite bind_gets. cbn [w_glob set_fds set_nextfd set_glob]. rewrite g_put_uloop, Hu.
  cbn [fd_CACHE fd_BITMAP pagesize set_fd_DEV].
  match goal with |- context[(_ ≫= _) ?v] => set (w1 := v) end.
  assert (w_faults w1 = []) as Hf1 by done.
  unfold LOOP_SET_FD. rewrite bind_assoc, (bind_run _ _ _ _ _ (fallible_ok w1 Hf1)).
  cbn [truth negb Z.eqb]. unfold fd_what. rewrite bind_assoc, bind_gets.
  assert (w_fds w1 !! fd_CACHE u = Some cp) as Hc1 by (simpl; by rewrite lookup_insert_ne).
  rewrite Hc1. change (default [] (Some cp)) with cp.
  rewrite bind_assoc. unfold mod_k at 1. rewrite bind_modify, bind_ret. cbn [truth negb Z.eqb].
  match goal with |- context[(_ ≫= _) ?v] => set (w2 := v) end.
  assert (w_faults w2 = []) as Hf2 by done.
  unfold LOOP_SET_STATUS64. rewrite bind_assoc, (bind_run _ _ _ _ _ (fallible_ok w2 Hf2)).
  cbn [truth negb Z.eqb]. rewrite bind_assoc. unfold uloop_dev_init.
  rewrite bind_assoc, bind_gets. change (u_backing (w_kern w2)) with (Some cp). cbv iota.
  unfold i_size_read. rewrite bind_assoc, bind_gets.
  change (contents cp w2) with (contents cp w). rewrite Hcl. cbn [negb Z.eqb].
  unfold alloc at 1. rewrite !bind_assoc, (bind_run _ _ _ _ _ (pop_fault_ok w2 Hf2)).
  rewrite bind_ret. cbn [negb]. rewrite bind_assoc. unfold mod_k at 1. rewrite bind_modify, bind_ret.
  match goal with |- context[(_ ≫= _) ?v] => set (w3 := v) end.
  rewrite sysret_0. cbn [truth negb Z.eqb].
  set (d0 := Dev [] [] [] None (u_junk (w_kern w2)) None (u_junk (w_kern w2))) in *.
  assert (u_dev (w_kern w3) = Some d0) as Hd0 by done.
  change (uloop_ioctl pid ULOCTL_SETBMP (ctl_setbmp (fd_BITMAP u) (pagesize u)))
    with (err ← ulo_ctl_setbmp (ctl_setbmp (fd_BITMAP u) (pagesize u)) : M world Z;
          mret (err, ctl_setbmp (fd_BITMAP u) (pagesize u))).
  assert (setbmp_fd (ctl_setbmp (fd_BITMAP u) (pagesize u)) = fd_BITMAP u) as Hsf.
  { unfold setbmp_fd, ctl_setbmp, lo32, i32, wrap_s, u32, wrap_u. cbn [ctl_w0]. lia. }
  assert (setbmp_pagesize (ctl_setbmp (fd_BITMAP u) (pagesize u)) = PAGE) as Hsp.
  { rewrite Hpg. unfold setbmp_pagesize, ctl_setbmp, hi32, i32, wrap_s, u32, wrap_u, PAGE.
    cbn [ctl_w0]. lia. }
  destruct (setbmp_spec (ctl_setbmp (fd_BITMAP u) (pagesize u)) d0 bp 3 (zeros n) w3)
    as (w4 & d4 & E4 & Hf4 & Hr4 & Hb4 & _ & Hrep4 & (Hq1 & Hq2 & Hq3) & Hfi4 & Hfd4 & Hgl4);
    try done; try (rewrite length_zeros; unfold PAGE in *; lia).
  { rewrite Hsf. simpl. by rewrite lookup_insert_ne. }
  { rewrite Hsf. simpl. by rewrite Hmo. }
  rewrite bind_assoc, (bind_run _ _ _ _ _ E4), bind_ret, sysret_0. cbn [Z.eqb].
  eexists _, _. split; [reflexivity|]. by split_and!.
Qed.

Lemma round_page_spec x :
  0 <= x < 2 ^ 62 -> let r := round_page PAGE x in
  r mod PAGE = 0 /\ x <= r < x + PAGE.
Proof.
  intros Hx. unfold round_page, truth, PAGE. cbv zeta.
  destruct (Z.eqb_spec (x mod 4096) 0); simpl; [lia|]. rewrite u64_small by lia. lia.
Qed.

(** When nothing fails, ulo_init() makes a sparse cache as long as the target
    rounded up to a page, and a bitmap of zeros, and leaves the device ready: the
    cache is its backing file, the bitmap that the driver means is all zeros, and no
    request is queued.  The sizes and descriptors are those of [g_uloop]. *)
Theorem ulo_init_ready pid dev cp bp flags size (w : world) :
  w_faults w = [] -> u_rfaults (w_kern w) = [] -> u_modes (w_kern w) = ∅ ->
  w_files w !! cp = None -> w_files w !! bp = None -> cp <> bp ->
  0 <= w_nextfd w -> w_nextfd w + 3 < 2 ^ 31 -> 0 < size < 2 ^ 61 ->
  let c := round_page PAGE size in
  exists w' d, ulo_init pid (UloInit dev cp bp flags size) w = (Ret 0, w') /\
    w_faults w' = [] /\ u_rfaults (w_kern w') = [] /\ u_backing (w_kern w') = Some cp /\
    w_files w' = <[bp := zeros (bitmap_size PAGE c)]> (<[cp := zeros c]> (w_files w)) /\
    bmp_rep w' d (KFile bp 3) (zeros (bitmap_size PAGE c)) /\
    q_ready d = [] /\ q_rcvreq d = [] /\ q_sndres d = [] /\
    w_fds w' = <[w_nextfd w + 2 := dev]> (<[w_nextfd w + 1 := bp]>
                 (<[w_nextfd w := cp]> (w_fds w))) /\
    w_glob w' = put_uloop
      (ULoop (w_nextfd w + 2) (w_nextfd w) (w_nextfd w + 1) PAGE size c) (w_glob w).
Proof.
  intros Hf Hr Hm Hcp Hbp Hne Hfd Hfd2 Hs c.
  destruct (round_page_spec size) as [Hc1 Hc2]; [lia|]. fold c in Hc1, Hc2.
  destruct (bitmap_size_pages c) as (Hb1 & Hb2 & Hb3); [unfold PAGE in *; lia|].
  unfold ulo_init. cbn [init_size path_CACHE path_BITMAP path_DEV dev_flags].
  rewrite mod_u_run. unfold get_u. rewrite bind_gets. cbn [w_glob set_glob].
  rewrite g_put_uloop. cbn [cache_size pagesize set_sizes]. fold c. rewrite Hc1.
  cbn [truth negb Z.eqb]. set (w1 := set_glob _ w).
  destruct (ulo_create_size_new cp c w1) as (w2 & E2 & Hf2 & Hk2 & Hg2 & Hfi2 & Hfd2' & Hn2);
    try done; [unfold PAGE in *; lia|].
  rewrite (bind_run _ _ _ _ _ E2), mod_u_run. rewrite (proj2 (Z.ltb_ge _ _)) by done.
  rewrite Hb1. cbn [truth negb Z.eqb]. set (w3 := set_glob _ w2).
  assert (w_nextfd w1 = w_nextfd w) as Hn1 by done.
  destruct (ulo_create_size_new bp (bitmap_size PAGE c) w3)
    as (w4 & E4 & Hf4 & Hk4 & Hg4 & Hfi4 & Hfd4 & Hn4); try done.
  { simpl. rewrite Hfi2. by rewrite lookup_insert_ne. }
  { unfold PAGE in *. lia. }
  { simpl. lia. }
  rewrite (bind_run _ _ _ _ _ E4), mod_u_run.
  change (w_nextfd w3) with (w_nextfd w2). rewrite Hn2, Hn1 in *.
  rewrite (proj2 (Z.ltb_ge _ _)) by lia.
  set (w5 := set_glob _ w4).
  assert (g_uloop (w_glob w5) = ULoop (fd_DEV (g_uloop (w_glob w))) (w_nextfd w)
            (w_nextfd w + 1) PAGE size c) as Hu5.
  { simpl. rewrite g_put_uloop, Hg4. simpl. rewrite g_put_uloop, Hg2. simpl.
    by rewrite g_put_uloop. }
  assert (w_fds w5 = <[w_nextfd w + 1 := bp]> (<[w_nextfd w := cp]> (w_fds w))) as Hfd5.
  { simpl. rewrite Hfd4. simpl. by rewrite Hfd2', Hn2. }
  assert (w_files w5 = <[bp := zeros (bitmap_size PAGE c)]> (<[cp := zeros c]> (w_files w)))
    as Hfi5 by (simpl; rewrite Hfi4; simpl; by rewrite Hfi2).
  assert (w_nextfd w5 = w_nextfd w + 2) as Hn5 by (simpl; rewrite Hn4; simpl; rewrite Hn2; lia).
  assert (w_kern w5 = w_kern w) as Hk5 by (simpl; by rewrite Hk4; simpl; rewrite Hk2).
  destruct (ulo_init_loop_ready pid dev flags cp bp (bitmap_size PAGE c) w5)
    as (w6 & d & E6 & Hf6 & Hr6 & Hb6 & Hrep & Hq1 & Hq2 & Hq3 & Hfi6 & Hfd6 & Hg6);
    rewrite ?Hu5, ?Hfd5, ?Hk5, ?Hn5; cbn [fd_CACHE fd_BITMAP pagesize]; try done; try lia.
  { rewrite lookup_insert_ne by lia. by rewrite lookup_insert_eq. }
  { by rewrite lookup_insert_eq. }
  { unfold contents. rewrite Hfi5, lookup_insert_ne by done. rewrite lookup_insert_eq. simpl.
    rewrite length_zeros; unfold PAGE in *; lia. }
  { unfold contents. rewrite Hfi5. by rewrite lookup_insert_eq. }
  exists w6, d. split; [exact E6|]. rewrite Hfi6, Hfd6, Hfd5, Hn5, Hfi5.
  split_and!; try done. rewrite Hg6, Hn5, Hu5. simpl.
  rewrite Hg4. simpl. rewrite Hg2. simpl. by rewrite !put_put_uloop.
Qed.

(** C30. The two rounding errors together: when the number of pages of the cache
    exceeds a multiple of 32768 by 1 to 7, ulo_init() succeeds, and the first read of
    the page that has no bit, a page of the device like any other, stops the kernel
    at BUG_ON(). *)
Theorem last_pages_crash_kernel pid dev cp bp flags size cmd raw sz (w : world) :
  w_faults w = [] -> u_rfaults (w_kern w) = [] -> u_modes (w_kern w) = ∅ ->
  w_files w !! cp = None -> w_files w !! bp = None -> cp <> bp ->
  0 <= w_nextfd w -> w_nextfd w + 3 < 2 ^ 31 -> 0 < size < 2 ^ 60 ->
  let c := round_page PAGE size in let b := bitmap_size PAGE c in
  32768 <= c / PAGE -> 0 < c / PAGE mod 32768 < 8 -> 0 < sz ->
  let r := XReq cmd raw sz (8 * b * 8) in
  exists w', ulo_init pid (UloInit dev cp bp flags size) w = (Ret 0, w') /\
    8 * b * PAGE < size /\
    uloop_xfer false r XStart w' = (Ret (XTest sz (8 * b * PAGE)), w') /\
    exists w'', uloop_xfer false r (XTest sz (8 * b * PAGE)) w' = (Ub "BUG", w'').
Proof.
  intros Hf Hr Hm Hcp Hbp Hne Hfd Hfd2 Hs c b Hc1 Hc2 Hsz r.
  destruct (ulo_init_ready pid dev cp bp flags size w)
    as (w' & d & E & Hf' & Hr' & Hb' & Hfi & Hrep & _); try done; [lia|].
  fold c b in Hrep.
  destruct (round_page_spec size) as [Hcm Hcr]; [lia|]. fold c in Hcm, Hcr.
  assert (8 * b < c / PAGE) as Hlt.
  { destruct (bitmap_covers_cache (c / PAGE)) as [H _]; [unfold PAGE in *; lia|].
    replace (c / PAGE * PAGE) with c in H by (unfold PAGE in *; lia). fold b in H.
    destruct (Z.le_gt_cases (c / PAGE) (8 * b)) as [Hle|Hgt]; [|lia].
    exfalso. apply (H Hle). lia. }
  destruct (bitmap_size_pages c) as (Hbm & Hb1 & Hb2); [unfold PAGE in *; lia|]. fold b in Hbm, Hb1, Hb2.
  pose proof Hrep as (Hd & buf & (Hbmp & _) & _).
  pose proof (rep_length _ _ _ _ Hrep) as Hlen. rewrite length_zeros in Hlen by (unfold PAGE in *; lia).
  exists w'. split; [exact E|]. split; [unfold PAGE in *; lia|]. split.
  - unfold uloop_xfer. rewrite bind_gets, Hd. destruct d. simpl in *. rewrite Hbmp.
    rewrite (i64_small (8 * b * 8)), i64_small by (unfold PAGE in *; lia).
    unfold mret, M_ret. f_equal. f_equal. f_equal. unfold PAGE. lia.
  - unfold uloop_xfer, xfer_test. rewrite (proj2 (Z.leb_gt _ _)) by done. cbv zeta.
    destruct (pindex_past_end d _ _ w' Hf' Hrep) as [w'' E'']. exists w''.
    rewrite u64_small by (unfold PAGE in *; lia).
    replace (8 * b * PAGE / PAGE / bmp_page_bytes) with (bmpsz d / PAGE)
      by (unfold bmp_page_bytes, PAGE in *; lia).
    unfold mbind, M_bind. by rewrite E''.
Qed.
End init.

Module UlolibDemo.
(** A program with no globals but the library's *)
#[export, program] Instance own : HasUloop uloop :=
  {| g_uloop u := u; put_uloop u _ := u |}.
Next Obligation. done. Qed.
Next Obligation. done. Qed.

Definition start : world ulok uloop :=
  World 0 [] (Ulok [] None None ∅ 0 [] 0) (ULoop 0 0 0 0 0 0) ∅ ∅ ∅ 3 ∅ [] [] [].
End UlolibDemo.
Import UlolibDemo.

(** A target of 128 MiB and one byte *)
Lemma last_pages_crash_kernel_witness :
  exists w', ulo_init 7 (UloInit (lit "/dev/loop0") (lit "/c") (lit "/b") 0 134217729) start
             = (Ret 0, w') /\
    exists w'', uloop_xfer false (XReq 0 0 512 262144) (XTest 512 134217728) w' = (Ub "BUG", w'').
Proof.
  assert (0 <= w_nextfd start) as H1 by (cbn; lia).
  assert (w_nextfd start + 3 < 2 ^ 31) as H2 by (cbn; lia).
  assert (0 < 134217729 < 2 ^ 60) as H3 by lia.
  assert (bitmap_size PAGE (round_page PAGE 134217729) = 4096) as Hb by (vm_compute; reflexivity).
  assert (round_page PAGE 134217729 / PAGE = 32769) as Hp by (vm_compute; reflexivity).
  destruct (last_pages_crash_kernel 7 (lit "/dev/loop0") (lit "/c") (lit "/b") 0 134217729
    0 0 512 start eq_refl eq_refl eq_refl eq_refl eq_refl ltac:(discriminate) H1 H2 H3
    ltac:(rewrite Hp; lia) ltac:(rewrite Hp; reflexivity || lia) ltac:(lia))
    as (w' & E & _ & _ & w'' & E2).
  rewrite Hb in E2. by exists w'; split; [|exists w''].
Defined.
