(* ===== verification/UloSys.v ===== *)
(** * The device at work: several readers, several user processes

    A [sys] is a world, the threads inside uloop_xfer() and the processes inside
    ulo_loop().  [step] lets any one of them run to its next lock or blocking point.
    [UloStore] is the interface between the library and its callback: what a [store]
    must promise.  Against it the device is proved safe: whatever the interleaving
    and whatever fails, except reading the bitmap, a transfer that succeeds hands
    over the bytes of the target. *)
From S2P Require Import Prelude AufsType FhsmData Sys Uloop Ulolib.

#[local] Ltac Zify.zify_post_hook ::= Z.to_euclidean_division_equations.

(** The page [n] of the cache holds what the target has there. *)
Definition stored (target cache : bytes) (n : Z) : Prop :=
  forall i, (Z.to_nat (n * PAGE) <= i < Z.to_nat (n * PAGE) + Z.to_nat PAGE)%nat ->
    (i < length target)%nat -> cache !! i = target !! i.

(** A change of the cache that only brings in bytes of the target. *)
Definition fills (target c c' : bytes) : Prop :=
  forall i, c' !! i = c !! i \/ ((i < length target)%nat /\ c' !! i = target !! i).

Lemma fills_refl target c : fills target c c.
Proof. intros i. by left. Qed.

Lemma stored_fills target c c' n : fills target c c' -> stored target c n -> stored target c' n.
Proof. intros Hf Hs i Hi Hl. destruct (Hf i) as [->|[_ ->]]; auto. Qed.

(** Bytes of the target, written where they belong in a mapped cache *)
Lemma put_fills target c off data :
  (forall i, (i < length data)%nat -> data !! i = target !! (off + i)%nat) ->
  (off + length data <= length target <= length c)%nat ->
  fills target c (take (length c) (splice off data c)).
Proof.
  intros Hd Hl i. destruct (decide (i < length c)%nat) as [Hi|Hi].
  - rewrite lookup_take_lt by done. destruct (decide (off <= i < off + length data)%nat) as [Hin|Hin].
    + right. split; [lia|]. rewrite lookup_splice_in, Hd by lia. f_equal. lia.
    + left. apply lookup_splice_out; lia.
  - left. rewrite lookup_take_ge by lia. symmetry. apply lookup_ge_None. lia.
Qed.

Lemma put_stored target c off data n :
  (forall i, (i < length data)%nat -> data !! i = target !! (off + i)%nat) ->
  (length target <= length c)%nat ->
  (off <= Z.to_nat (n * PAGE))%nat ->
  (Z.to_nat (n * PAGE) + Z.to_nat PAGE <= off + length data \/
   length target <= off + length data)%nat ->
  stored target (take (length c) (splice off data c)) n.
Proof.
  intros Hd Hl Ho Hn i Hi Ht. rewrite lookup_take_lt by lia.
  rewrite lookup_splice_in, Hd by lia. f_equal. lia.
Qed.

Lemma lookup_mapped off n c i :
  0 <= off -> (i < Z.to_nat n)%nat -> (Z.to_nat off + i < length c)%nat ->
  mapped off n c !! i = c !! (Z.to_nat off + i)%nat.
Proof.
  intros Ho Hi Hl. unfold mapped. rewrite lookup_app_l by (rewrite length_take, length_drop; lia).
  rewrite lookup_take_lt by lia. by rewrite lookup_drop.
Qed.

Lemma length_mapped off n c : length (mapped off n c) = Z.to_nat n.
Proof. unfold mapped. rewrite length_app, length_replicate, length_take. lia. Qed.

(** The window that both programs map for a request of a page: the page of [start]
    and what [start] is beyond its beginning, cut at the end of the target. *)
Lemma store_window t start :
  0 <= start < 2 ^ 64 -> 0 <= t < 2 ^ 61 ->
  u64 (start + PAGE) <= round_page PAGE t -> 0 <= i64 (start - start mod PAGE) ->
  let off := start - start mod PAGE in
  let sz := i32 (PAGE + start mod PAGE) in
  let n := if t <? u64 (off + sz) then i32 (t - off) else sz in
  off = start / PAGE * PAGE /\ 0 < n < 8192 /\ off + n <= t /\
  (off + PAGE <= off + n \/ t <= off + n).
Proof.
  intros Hs Ht Ha Ho. destruct (round_page_spec t) as [Hr1 Hr2]; [lia|]. cbv zeta.
  assert (0 <= start - start mod PAGE < 2 ^ 63) as Ho2.
  { unfold i64, wrap_s, PAGE in *. lia. }
  rewrite u64_small in Ha by (unfold PAGE in *; lia).
  assert (i32 (PAGE + start mod PAGE) = PAGE + start mod PAGE) as ->
    by (apply wrap_s_small; unfold PAGE; lia).
  rewrite u64_small by (unfold PAGE in *; lia).
  destruct (Z.ltb_spec t (start - start mod PAGE + (PAGE + start mod PAGE))) as [Hlt|Hge].
  - assert (i32 (t - (start - start mod PAGE)) = t - (start - start mod PAGE)) as ->
      by (apply wrap_s_small; unfold PAGE in *; lia).
    unfold PAGE in *. lia.
  - unfold PAGE in *. lia.
Qed.

(** What a step of a user process leaves alone when it stores: everything but the
    cache, its own variables, the pending faults and errno. *)
Definition store_frame {G} (cachep : bytes) (w w' : world ulok G) : Prop :=
  (forall p, p <> cachep -> contents p w' = contents p w) /\
  w_kern w' = w_kern w /\ w_fds w' = w_fds w /\ (good_faults w -> good_faults w').

Class UloStore {G} (store : Z -> Z -> M (world ulok G) Z) (cachep bmpp target : bytes) := {
  store_env : world ulok G -> Prop;
  (** the library needs nothing that the driver changes *)
  store_env_stable w w' :
    (forall p, p <> bmpp -> contents p w' = contents p w) ->
    w_glob w' = w_glob w -> w_fds w' = w_fds w -> (w_errno w <> 0 -> w_errno w' <> 0) ->
    store_env w -> store_env w';
  store_spec start w :
    store_env w -> good_faults w -> 0 <= start < 2 ^ 64 ->
    let '(o, w') := store start PAGE w in
    store_frame cachep w w' /\ store_env w' /\
    fills target (contents cachep w) (contents cachep w') /\
    (o = Ret 0 -> stored target (contents cachep w') (start / PAGE))
}.

Section system.
Context {G : Type} (store : Z -> Z -> M (world ulok G) Z) (sig : Z).
Notation world := (world ulok G).

Record sys := Sys { s_w : world; s_thr : list (xreq * xpc); s_usr : list (Z * upc) }.

Inductive label := LThread (i : nat) (intr : bool) | LUser (j : nat).

(** A kernel thread that hits BUG() or a null pointer stops the machine ([None]);
    a process that dies leaves the others running. *)
Definition sys_step (a : label) (s : sys) : option sys :=
  match a with
  | LThread i intr =>
      '(r, pc) ← s_thr s !! i;
      match uloop_xfer intr r pc (s_w s) with
      | (Ret pc', w') => Some (Sys w' (<[i := (r, pc')]> (s_thr s)) (s_usr s))
      | _ => None
      end
  | LUser j =>
      '(pid, pc) ← s_usr s !! j;
      match ulo_loop store sig pid pc (s_w s) with
      | (Ret pc', w') => Some (Sys w' (s_thr s) (<[j := (pid, pc')]> (s_usr s)))
      | (Exit e, w') => Some (Sys w' (s_thr s) (<[j := (pid, UExit e)]> (s_usr s)))
      | _ => None
      end
  end.

Definition step (s s' : sys) : Prop := exists a, sys_step a s = Some s'.

Fixpoint run (l : list label) (s : sys) : option sys :=
  match l with
  | [] => Some s
  | a :: r => match sys_step a s with Some s' => run r s' | None => None end
  end.

Lemma run_steps l s s' : run l s = Some s' -> rtc step s s'.
Proof.
  revert s. induction l as [|a l IH]; intros s H; simpl in H; [by injection H as <-; constructor|].
  destruct (sys_step a s) as [s1|] eqn:E; [|done].
  eapply rtc_l; [by exists a|]. by apply IH.
Qed.

(** ** The invariant *)

Section inv.
Context (cachep bmpp target : bytes) `{!UloStore store cachep bmpp target} (nbits : Z).

(** A request that the loop driver makes: it starts at a page or lies within one, it
    is inside the bitmap, and raw_page is where the sector [real_block] is. *)
Definition req_ok (r : xreq) : Prop :=
  0 <= x_raw r /\
  (x_raw r mod PAGE = 0 \/ x_raw r mod PAGE + x_size r <= PAGE) /\ x_raw r = x_block r * 512 /\
  0 <= x_size r < 2 ^ 31 /\ x_raw r + x_size r <= nbits * PAGE /\
  x_raw r + x_size r + PAGE < 2 ^ 63.

Definition res_ok (c : bytes) (q : ulo_ctl) : Prop :=
  req_size q = PAGE -> stored target c (req_start q / PAGE).

(** The loop has come to [pos] with [sz] bytes left, all before it being stored. *)
Definition at_pos (c : bytes) (r : xreq) (sz pos : Z) : Prop :=
  (pos - x_raw r) mod PAGE = 0 /\ x_raw r <= pos /\ pos - x_raw r = x_size r - sz /\ - PAGE < sz /\
  (forall n, x_raw r / PAGE <= n < pos / PAGE -> stored target c n).

Definition in_page (pos pindex bit : Z) : Prop :=
  pindex = pos / PAGE / bmp_page_bytes /\ bit = pos / PAGE mod bmp_page_bytes.

Definition copied (r : xreq) (buf : bytes) : Prop :=
  forall i, (i < Z.to_nat (x_size r))%nat -> (Z.to_nat (x_raw r) + i < length target)%nat ->
    buf !! i = target !! (Z.to_nat (x_raw r) + i)%nat.

Definition thr_ok (c : bytes) (t : xreq * xpc) : Prop :=
  let '(r, pc) := t in
  req_ok r /\
  match pc with
  | XStart => True
  | XTest sz pos => at_pos c r sz pos
  | XBegin sz pos pindex bit | XSend sz pos pindex bit _ | XEnd sz pos pindex bit =>
      at_pos c r sz pos /\ 0 < sz /\ in_page pos pindex bit
  | XBack sz pos pindex bit q =>
      at_pos c r sz pos /\ 0 < sz /\ in_page pos pindex bit /\ res_ok c q
  | XSet sz pos pindex bit =>
      at_pos c r sz pos /\ 0 < sz /\ in_page pos pindex bit /\ stored target c (pos / PAGE)
  | XDone err buf => err = 0 -> exists b, buf = Some b /\ copied r b
  end.

Definition usr_ok (c : bytes) (u : Z * upc) : Prop :=
  match u.2 with
  | UStore ctl => req_size ctl = PAGE
  | USndres ctl => res_ok c ctl
  | _ => True
  end.

(** A request asks for a page; an answer is for a page that is stored. *)
Definition elem_ok (c : bytes) (i : qindex) (q : ulo_ctl) : Prop :=
  match i with
  | UloQ_READY => True
  | UloQ_RCVREQ => req_size q = PAGE
  | UloQ_SNDRES => res_ok c q
  end.
Definition queues_ok (c : bytes) (d : ulo_dev) : Prop :=
  forall i, Forall (elem_ok c i) (queue i d).

Lemma queue_set_queue i j l d : queue i (set_queue j l d) = if decide (i = j) then l else queue i d.
Proof. by destruct i, j. Qed.

(** A set bit is a stored page. *)
Definition bits_ok (c l : bytes) : Prop :=
  forall n, 0 <= n < nbits -> test_bit n l = true -> stored target c n.

Definition world_ok (w : world) : Prop :=
  good_faults w /\ u_rfaults (w_kern w) = [] /\ u_backing (w_kern w) = Some cachep /\
  store_env w /\
  exists d f l, f_path f = bmpp /\ bmp_rep w d f l /\ nbits = 8 * Z.of_nat (length l) /\
    bits_ok (contents cachep w) l /\ queues_ok (contents cachep w) d.

Definition sys_ok (s : sys) : Prop :=
  world_ok (s_w s) /\ Forall (thr_ok (contents cachep (s_w s))) (s_thr s) /\
  Forall (usr_ok (contents cachep (s_w s))) (s_usr s).

(** Everything but the bitmap survives when the cache is filled further. *)
Lemma res_fills c c' q : fills target c c' -> res_ok c q -> res_ok c' q.
Proof. intros Hf Hq H1. eapply stored_fills; eauto. Qed.

Lemma at_pos_fills c c' r sz pos :
  fills target c c' -> at_pos c r sz pos -> at_pos c' r sz pos.
Proof.
  intros Hf (? & ? & ? & ? & H). unfold at_pos. split_and!; try done.
  intros n Hn. eapply stored_fills; eauto.
Qed.

Lemma thr_fills c c' t : fills target c c' -> thr_ok c t -> thr_ok c' t.
Proof.
  intros Hf. destruct t as [r pc]. unfold thr_ok. intros [Hr H]. split; [done|].
  destruct pc; try done; destruct_and?; split_and?;
    eauto using at_pos_fills, res_fills, stored_fills.
Qed.

Lemma usr_fills c c' u : fills target c c' -> usr_ok c u -> usr_ok c' u.
Proof. intros Hf. unfold usr_ok. destruct (u.2); try done. by apply res_fills. Qed.

(** *** Threads *)

Context (Hcb : cachep <> bmpp).

Lemma frame_cache f (w w' : world) :
  f_path f = bmpp -> bmp_frame f w w' -> contents cachep w' = contents cachep w.
Proof. intros Hf (H & _). apply H. by rewrite Hf. Qed.

(** A step of the driver keeps the world in order when it keeps the bitmap sound. *)
Lemma world_ok_driver f d' l' (w w' : world) :
  world_ok w -> f_path f = bmpp -> bmp_frame f w w' -> bmp_rep w' d' f l' ->
  nbits = 8 * Z.of_nat (length l') -> bits_ok (contents cachep w) l' ->
  queues_ok (contents cachep w) d' -> world_ok w'.
Proof.
  intros (Hg & Hr & Hb & He & _) Hf Hfr Hrep Hn Hbits Hq.
  pose proof (frame_cache f w w' Hf Hfr) as Hc.
  destruct Hfr as (Hp & Hb' & Hg' & Hr' & Hgl & Hfd & Her).
  split_and!; [auto|auto|congruence| |].
  - eapply (store_env_stable w w'); [by rewrite <- Hf|done|done|by rewrite Her|done].
  - rewrite Hc. by exists d', f, l'.
Qed.

(** What a step of a thread does: it returns, and keeps the invariant. *)
Definition thread_good (r : xreq) (o : outcome xpc) (w w' : world) : Prop :=
  exists pc', o = Ret pc' /\ world_ok w' /\ contents cachep w' = contents cachep w /\
    thr_ok (contents cachep w') (r, pc').

Lemma thread_good_driver r f d' l' pc' (w w' : world) :
  world_ok w -> f_path f = bmpp -> bmp_frame f w w' -> bmp_rep w' d' f l' ->
  nbits = 8 * Z.of_nat (length l') -> bits_ok (contents cachep w) l' ->
  queues_ok (contents cachep w) d' ->
  thr_ok (contents cachep w) (r, pc') -> thread_good r (Ret pc') w w'.
Proof.
  intros Hw Hf Hfr Hrep Hn Hbits Hq Ht. exists pc'.
  pose proof (frame_cache f w w' Hf Hfr) as Hc. rewrite Hc.
  split_and!; try done. by eapply world_ok_driver.
Qed.

Lemma queues_same c d d' : same_queues d d' -> queues_ok c d -> queues_ok c d'.
Proof.
  intros (H0 & H1 & H2) H i. specialize (H i). destruct i; simpl in *; by rewrite ?H0, ?H1, ?H2.
Qed.

Lemma queues_take c i q rest d :
  queues_ok c d -> queue i d = q :: rest -> elem_ok c i q /\ queues_ok c (set_queue i rest d).
Proof.
  intros H E. pose proof (H i) as Hi. rewrite E in Hi. inversion_clear Hi. split; [done|].
  intros j. rewrite queue_set_queue. case_decide; [by subst|apply H].
Qed.

Lemma queues_put c i q d :
  queues_ok c d -> elem_ok c i q -> queues_ok c (set_queue i (queue i d ++ [q]) d).
Proof.
  intros H Hq j. rewrite queue_set_queue. case_decide; [|apply H]. subst.
  apply Forall_app. split; [apply H|by constructor].
Qed.

Lemma at_pos_pos_ok c r sz pos d f l (w : world) :
  req_ok r -> at_pos c r sz pos -> 0 < sz -> bmp_rep w d f l ->
  nbits = 8 * Z.of_nat (length l) -> pos_ok d pos.
Proof.
  intros (? & ? & ? & ? & ? & ?) (? & ? & ? & ? & _) Hsz Hrep Hn.
  rewrite (rep_length w d f l Hrep) in Hn. unfold pos_ok, PAGE in *. lia.
Qed.

(** Going on to the next page, once this one is stored *)
Lemma at_pos_next c r sz pos :
  req_ok r -> at_pos c r sz pos -> 0 < sz -> stored target c (pos / PAGE) ->
  at_pos c r (i32 (sz - PAGE)) (pos + PAGE).
Proof.
  intros (? & ? & ? & ? & ? & ?) (? & ? & ? & ? & Hs) Hsz Hst.
  assert (i32 (sz - PAGE) = sz - PAGE) as -> by (unfold PAGE in *; apply wrap_s_small; lia).
  unfold at_pos, PAGE in *. split_and!; try lia. intros n Hn.
  destruct (decide (n = pos / 4096)) as [->|]; [done|]. apply Hs. lia.
Qed.

Lemma at_pos_copied c r sz pos :
  req_ok r -> at_pos c r sz pos -> sz <= 0 -> copied r (mapped (x_raw r) (x_size r) c).
Proof.
  intros (? & ? & ? & ? & ? & ?) (? & ? & ? & ? & Hs) Hsz i Hi Hl. unfold PAGE in *.
  specialize (Hs ((x_raw r + Z.of_nat i) / 4096) ltac:(lia)).
  specialize (Hs (Z.to_nat (x_raw r) + i)%nat). unfold PAGE in Hs.
  specialize (Hs ltac:(lia) Hl). rewrite <- Hs.
  assert (is_Some (c !! (Z.to_nat (x_raw r) + i)%nat)) as [b Hb].
  { rewrite Hs. by apply lookup_lt_is_Some_2. }
  pose proof (lookup_lt_Some _ _ _ Hb). apply lookup_mapped; lia.
Qed.

Lemma thread_test r sz pos (w : world) :
  req_ok r -> at_pos (contents cachep w) r sz pos -> world_ok w ->
  let '(o, w') := xfer_test r sz pos w in thread_good r o w w'.
Proof.
  intros Hr Hp Hw. pose proof Hw as (Hg & Hrf & Hb & He & d & f & l & Hf & Hrep & Hn & Hbits & Hq).
  destruct (decide (sz <= 0)) as [Hz|Hz].
  - unfold xfer_test. rewrite (proj2 (Z.leb_le _ _)) by done.
    unfold xfer_copy. rewrite bind_gets, Hb. cbn [deref]. rewrite bind_ret, bind_gets.
    exists (XDone 0 (Some (mapped (x_raw r) (x_size r) (contents cachep w)))).
    split_and!; try done. split; [done|]. intros _. eexists. split; [done|].
    by eapply at_pos_copied.
  - assert (pos_ok d pos) as Hpos by (eapply at_pos_pos_ok; eauto; lia).
    destruct (xfer_test_spec r sz pos d f l w Hg Hrf Hrep Hpos ltac:(lia))
      as (pc & w' & d' & -> & Hfr & Hrep' & Hsq & Hpc).
    eapply (thread_good_driver r f d' l); try done.
    { by eapply queues_same. }
    split; [done|]. destruct Hpc as [(err & -> & Hne)|[(-> & Ht)|(-> & Ht)]]; try done.
    + apply at_pos_next; try done; [lia|]. apply Hbits; [|done].
      destruct Hpos as (? & ? & Hp2). rewrite <- (rep_length w d f l Hrep) in Hp2.
      unfold PAGE in *. lia.
    + split_and!; [done|lia|done].
Qed.

Lemma thread_set r sz pos pindex bit (w : world) :
  thr_ok (contents cachep w) (r, XSet sz pos pindex bit) -> world_ok w ->
  let '(o, w') := ulo_xfer_end_set sz pos pindex bit w in thread_good r o w w'.
Proof.
  intros (Hr & Hp & Hz & [-> ->] & Hst) Hw.
  pose proof Hw as (Hg & Hrf & Hb & He & d & f & l & Hf & Hrep & Hn & Hbits & Hq).
  assert (pos_ok d pos) as Hpos by (eapply at_pos_pos_ok; eauto).
  destruct (xfer_end_set_spec sz pos d f l w Hg Hrf Hrep Hpos)
    as (pc & w' & d' & l' & -> & Hfr & Hrep' & Hsq & Hpc).
  assert (nbits = 8 * Z.of_nat (length l') /\ bits_ok (contents cachep w) l') as [Hn' Hb'].
  { destruct Hpc as [(err & _ & _ & ->)|(_ & ->)]; [done|]. rewrite length_set_bit.
    split; [done|]. intros n Hr' Ht. destruct Hpos as (Hp0 & _ & Hp2).
    rewrite <- (rep_length w d f l Hrep) in Hp2.
    rewrite test_set_bit in Ht by (unfold PAGE in *; lia).
    apply orb_prop in Ht as [Ht%Z.eqb_eq|Ht]; [by rewrite <- Ht|]. by apply Hbits. }
  eapply (thread_good_driver r f d' l'); try done.
  { by eapply queues_same. }
  split; [done|]. destruct Hpc as [(err & -> & Hne & _)|(-> & _)]; try done.
  by apply at_pos_next.
Qed.

(** Taking an element from a queue, or leaving one there *)
Lemma thread_wait intr i r (k : option (Z + ulo_ctl) -> xpc) (w : world) :
  world_ok w ->
  (forall d q rest, u_dev (w_kern w) = Some d -> queue i d = q :: rest ->
     elem_ok (contents cachep w) i q ->
     thr_ok (contents cachep w) (r, k (Some (inr q)))) ->
  thr_ok (contents cachep w) (r, k (Some (inl (- ERESTARTSYS)))) ->
  thr_ok (contents cachep w) (r, k None) ->
  let '(o, w') := (x ← ulo_wait intr i; mret (k x) : M world xpc) w in thread_good r o w w'.
Proof.
  intros Hw Hq Hi Hn.
  pose proof Hw as (Hg & Hrf & Hb & He & d & f & l & Hf & Hrep & Hn' & Hbits & Hres).
  pose proof Hrep as (Hd & _). unfold mbind, M_bind. rewrite (ulo_wait_spec intr i d) by done.
  specialize (Hq d). destruct (queue i d) as [|q rest] eqn:E.
  - exists (k (if intr then Some (inl (- ERESTARTSYS)) else None)). by destruct intr.
  - eapply (thread_good_driver r f (set_queue i rest d) l); try done.
    + by apply rep_set_queue.
    + by eapply queues_take.
    + apply (Hq q rest); try done. by eapply queues_take.
Qed.

Lemma thread_send r sz pos pindex bit q (w : world) :
  thr_ok (contents cachep w) (r, XSend sz pos pindex bit q) -> world_ok w ->
  let '(o, w') := ulo_xfer_begin_send sz pos pindex bit q w in thread_good r o w w'.
Proof.
  intros (Hr & Ht) Hw.
  pose proof Hw as (Hg & Hrf & Hb & He & d & f & l & Hf & Hrep & Hn & Hbits & Hres).
  pose proof Hrep as (Hd & _). unfold ulo_xfer_begin_send.
  rewrite (get_dev_run d), (mod_dev_run _ d) by done.
  set (w1 := upd_dev _ w).
  destruct (kill_pid_spec f (ready_pid q) (ready_signum q) w1) as (err & w2 & E & Hfr & Hd2 & Hf2);
    [done|].
  rewrite (bind_run _ _ _ _ _ E).
  assert (bmp_frame f w w2) as Hfr' by (etrans; [apply frame_upd_dev|exact Hfr]).
  set (d1 := set_queue UloQ_RCVREQ _ d) in w1.
  assert (bmp_rep w2 d1 f l) as Hrep2
    by (eapply rep_same; [exact Hd2|exact Hf2|]; by apply (rep_set_queue UloQ_RCVREQ)).
  eapply (thread_good_driver r f d1 l); try done.
  - apply (queues_put _ UloQ_RCVREQ); [done|]. simpl. by rewrite req_size_set.
  - split; [done|]. unfold truth. destruct (Z.eqb_spec err 0); [exact Ht|]. by intros ?.
Qed.

Lemma thread_step intr r pc (w : world) :
  thr_ok (contents cachep w) (r, pc) -> world_ok w ->
  let '(o, w') := uloop_xfer intr r pc w in thread_good r o w w'.
Proof.
  intros Ht Hw. pose proof Ht as [Hr Hpc]. destruct pc; unfold uloop_xfer.
  - rewrite bind_gets. unfold mret, M_ret. eexists. split_and!; [done..|]. split; [done|].
    destruct Hw as (_ & _ & _ & _ & d & f & l & _ & (Hd & buf & (Hb & _) & _) & _).
    rewrite Hd. destruct d; simpl in *. rewrite Hb.
    destruct Hr as (? & ? & Hx & ? & ? & ?). unfold PAGE in *.
    rewrite (i64_small (x_block r)), (i64_small (x_block r * 512)) by lia.
    rewrite <- Hx. unfold at_pos, PAGE. split_and!; try lia.
  - by apply thread_test.
  - apply thread_wait; [done|intros d q rest ? ? _; exact Ht|by split|exact Ht].
  - by apply thread_send.
  - apply thread_wait; [done| |by split|exact Ht].
    intros d q rest _ _ Hres. simpl in Hres.
    destruct Hpc as (Hp & Hz & Hin). destruct (_ && _) eqn:E.
    + bool_lia. destruct E as [E1 E2]. split; [done|]. split_and!; try done.
      assert (u64 pos = pos) as Hu.
      { destruct Hr as (? & ? & ? & ? & ? & ?), Hp as (? & ? & ? & ? & _).
        unfold PAGE in *. apply u64_small. lia. }
      rewrite Hu in E1. rewrite <- E1. by apply Hres.
    + split; [done|]. by split_and!.
  - pose proof Hw as (Hg & Hrf & Hb & He & d & f & l & Hf & Hrep & Hn & Hbits & Hres).
    pose proof Hrep as (Hd & _). destruct Hpc as (Hp & Hz & Hin & Hq).
    rewrite (bind_run _ _ _ _ _ (ulo_append_spec UloQ_SNDRES q d w Hd)).
    eapply (thread_good_driver r f (set_queue UloQ_SNDRES (q_sndres d ++ [q]) d) l); try done.
    + by apply (rep_set_queue UloQ_SNDRES).
    + by apply (queues_put _ UloQ_SNDRES).
  - by apply thread_set.
  - eexists. by split_and!.
Qed.

(** *** User processes *)

Lemma world_ok_same (w w' : world) :
  world_ok w -> good_faults w' -> w_files w' = w_files w ->
  u_dev (w_kern w') = u_dev (w_kern w) -> u_rfaults (w_kern w') = u_rfaults (w_kern w) ->
  u_backing (w_kern w') = u_backing (w_kern w) ->
  w_glob w' = w_glob w -> w_fds w' = w_fds w -> (w_errno w <> 0 -> w_errno w' <> 0) ->
  world_ok w'.
Proof.
  intros (Hg & Hr & Hb & He & d & f & l & Hf & Hrep & Hrest) Hg' Hfi Hd Hr' Hb' Hgl Hfd Her.
  assert (forall p, contents p w' = contents p w) as Hc by (intros; unfold contents; by rewrite Hfi).
  split_and!; [done|congruence|congruence| |].
  - eapply (store_env_stable w w'); auto.
  - exists d, f, l. rewrite Hc. split; [done|]. split; [by eapply rep_same|done].
Qed.

(** [drv m Q w]: however [m] ends, the world stays in order and the cache as it is;
    and what it returns satisfies [Q]. *)
Definition drv {A} (m : M world A) (Q : A -> Prop) (w : world) : Prop :=
  let '(o, w') := m w in
  world_ok w' /\ contents cachep w' = contents cachep w /\ forall a, o = Ret a -> Q a.

Lemma drv_ret {A} (a : A) (Q : A -> Prop) w : world_ok w -> Q a -> drv (mret a) Q w.
Proof. intros Hw HQ. split_and!; [done..|]. by intros ? [= <-]. Qed.

Lemma drv_bind {A B} (m : M world A) (k : A -> M world B) Q R w :
  drv m Q w ->
  (forall a w', world_ok w' -> contents cachep w' = contents cachep w -> Q a -> drv (k a) R w') ->
  drv (m ≫= k) R w.
Proof.
  unfold drv, mbind, M_bind. destruct (m w) as [[a|e|u|] w1]; intros (Hw & Hc & HQ) Hk;
    cbv beta iota; try (split_and!; done).
  specialize (Hk a w1 Hw Hc (HQ a eq_refl)). destruct (k a w1) as [o w2].
  destruct Hk as (? & ? & ?). split_and!; [done|congruence|done].
Qed.

Lemma drv_weaken {A} (m : M world A) (Q R : A -> Prop) w :
  drv m Q w -> (forall a, Q a -> R a) -> drv m R w.
Proof. unfold drv. destruct (m w). intros (? & ? & ?) ?. split_and!; auto. Qed.

Lemma drv_pop_fault w : world_ok w -> drv pop_fault good_fault w.
Proof.
  intros Hw. pose proof Hw as (Hg & _). unfold drv.
  destruct (pop_fault_spec w) as (x & w' & -> & Hk & Hf & Hgl & Hfd & Her & Hgx).
  split_and!; [|by unfold contents; rewrite Hf|intros a [= <-]; by apply Hgx].
  eapply world_ok_same; try done; try by rewrite Hk. by apply Hgx. by rewrite Her.
Qed.

Lemma drv_modify g w :
  world_ok w -> (world_ok w -> world_ok (g w)) -> w_files (g w) = w_files w ->
  drv (modify g) (fun _ => True) w.
Proof.
  intros Hw Hg Hf. split_and!; [by apply Hg|by unfold contents; simpl; rewrite Hf|done].
Qed.

Lemma drv_put_errno e w : world_ok w -> e <> 0 -> drv (put_errno e) (fun _ => True) w.
Proof.
  intros Hw He. apply drv_modify; [done| |done]. intros _.
  eapply world_ok_same; try done. apply Hw.
Qed.

Lemma drv_ub {A} x (Q : A -> Prop) w : world_ok w -> drv (ub x) Q w.
Proof. intros Hw. unfold drv, ub. by split_and!. Qed.

Ltac drv_go := repeat first
  [ apply drv_ret; [done|try done]
  | apply drv_ub; done
  | eapply drv_bind; [by apply drv_pop_fault|intros ? ? ? ? ?]
  | eapply drv_bind; [by apply drv_put_errno; [|simpl in *; lia]|intros ? ? ? ? _]
  | match goal with |- drv (match ?x with _ => _ end) _ _ => destruct x end ].

Lemma drv_fallible w : world_ok w -> drv fallible (fun _ => True) w.
Proof. intros Hw. unfold fallible. drv_go. Qed.

Lemma drv_copy_user w : world_ok w -> drv copy_user (fun _ => True) w.
Proof. intros Hw. unfold copy_user. drv_go. Qed.

Lemma drv_alloc w : world_ok w -> drv alloc (fun _ => True) w.
Proof. intros Hw. unfold alloc. drv_go. Qed.

Lemma drv_sysret e w : world_ok w -> drv (sysret e) (fun err => err = 0 <-> e = 0) w.
Proof.
  intros Hw. unfold sysret. destruct (Z.ltb_spec e 0).
  - eapply drv_bind; [apply drv_put_errno; [done|lia]|]. intros. apply drv_ret; [done|]. lia.
  - by apply drv_ret.
Qed.

Lemma drv_append i q w :
  world_ok w -> elem_ok (contents cachep w) i q ->
  drv (ulo_append i q) (fun _ => True) w.
Proof.
  intros Hw Hq. pose proof Hw as (_ & _ & _ & _ & d & f & l & Hf & Hrep & Hn & Hbits & Hres).
  pose proof Hrep as (Hd & _). unfold drv. rewrite (ulo_append_spec i q d w Hd).
  split_and!; [|done|done].
  eapply (world_ok_driver f (set_queue i (queue i d ++ [q]) d) l); try done;
    [by apply rep_set_queue|by apply queues_put].
Qed.

Lemma drv_ctl_queue p i q w :
  world_ok w -> elem_ok (contents cachep w) i q ->
  drv (ulo_ctl_queue p i q) (fun _ => True) w.
Proof.
  intros Hw Hq. unfold ulo_ctl_queue. eapply drv_bind; [by apply drv_alloc|].
  intros got w1 Hw1 Hc1 _. destruct got; simpl; [|by apply drv_ub].
  eapply drv_bind; [by apply drv_copy_user|]. intros bad w2 Hw2 Hc2 _.
  destruct bad; [by apply drv_ret|]. eapply drv_bind.
  - apply drv_append; [done|]. rewrite Hc2, Hc1. by destruct i.
  - intros. by apply drv_ret.
Qed.

Lemma drv_rcvreq q w :
  world_ok w -> drv (ulo_ctl_rcvreq q) (fun x => x.1 = 0 -> req_size x.2 = PAGE) w.
Proof.
  intros Hw. pose proof Hw as (_ & _ & _ & _ & d & f & l & Hf & Hrep & Hn & Hbits & Hres).
  pose proof Hrep as (Hd & _). unfold ulo_ctl_rcvreq, drv. rewrite (get_dev_run d) by done.
  destruct (q_rcvreq d) as [|q1 rest] eqn:E; [by apply drv_ret|].
  destruct (queues_take _ UloQ_RCVREQ q1 rest d Hres E) as [Hq1 Hres'].
  rewrite (mod_dev_run _ d) by done. set (w1 := upd_dev _ w).
  assert (world_ok w1) as Hw1.
  { eapply (world_ok_driver f (set_queue UloQ_RCVREQ rest d) l); try done.
    by apply (rep_set_queue UloQ_RCVREQ). }
  change (contents cachep w) with (contents cachep w1).
  match goal with |- let '(_, _) := ?m w1 in _ => change (drv m (fun x => x.1 = 0 -> req_size x.2 = PAGE) w1) end.
  eapply drv_bind; [by apply drv_copy_user|]. intros bad w2 Hw2 Hc2 _.
  destruct bad; [|by apply drv_ret].
  eapply drv_bind; [by apply drv_append|]. intros. by apply drv_ret.
Qed.

Lemma drv_sigwaitinfo pid w : world_ok w -> drv (sigwaitinfo sig pid)
  (fun r => forall err, r = Some err -> err <> 0 \/ err = sig) w.
Proof.
  intros Hw. unfold sigwaitinfo. eapply drv_bind; [by apply drv_pop_fault|].
  intros x w1 Hw1 _ Hx. assert (drv (s ← gets (fun w => u_sigs (w_kern w));
    if bool_decide ((pid, sig) ∈ s)
    then mod_k (fun k => set_sigs (filter (fun x => x <> (pid, sig)) (u_sigs k)) k) ;;
         mret (Some sig) else mret None) (fun r => forall err, r = Some err -> err <> 0 \/ err = sig) w1)
    as H.
  { unfold drv. rewrite bind_gets. case_bool_decide; [|by apply drv_ret].
    apply drv_bind with (Q := fun _ => True).
    - apply drv_modify; try done. intros _. eapply world_ok_same; try done. apply Hw1.
    - intros. apply drv_ret; [done|]. intros err [= <-]. by right. }
  destruct x; try exact H. drv_go. intros err [= <-]. left. lia.
Qed.

(** A step of a process keeps the world in order, and fills the cache at most. *)
Definition user_good (pid : Z) (o : outcome upc) (w w' : world) : Prop :=
  world_ok w' /\ fills target (contents cachep w) (contents cachep w') /\
  forall pc, o = Ret pc -> usr_ok (contents cachep w') (pid, pc).

Lemma drv_user pid (m : M world upc) w :
  drv m (fun pc => usr_ok (contents cachep w) (pid, pc)) w ->
  let '(o, w') := m w in user_good pid o w w'.
Proof.
  unfold drv. destruct (m w) as [o w']. intros (Hw & Hc & HQ). unfold user_good. rewrite Hc.
  split_and!; [done|apply fills_refl|done].
Qed.

Lemma usr_signalled c pid ctl err :
  err <> 0 \/ err = sig -> usr_ok c (pid, ulo_signalled sig ctl err).
Proof.
  intros He. unfold ulo_signalled, ulo_received.
  destruct (Z.eqb_spec err sig), (Z.eqb_spec err 0); try done. lia.
Qed.

Lemma drv_ioctl3 (m : M world (Z * ulo_ctl)) (k : ulo_ctl -> Z -> upc) R Q w :
  world_ok w -> drv m (fun x => x.1 = 0 -> R x.2) w ->
  (forall ctl err, (err = 0 -> R ctl) -> Q (k ctl err)) ->
  drv ('(e, ctl) ← m; err ← sysret e; mret (k ctl err)) Q w.
Proof.
  intros Hw Hm HQ. eapply drv_bind; [exact Hm|]. intros [e ctl] w1 Hw1 Hc1 HR.
  eapply drv_bind; [by apply drv_sysret|]. intros err w2 Hw2 _ He. apply drv_ret; [done|].
  apply HQ. intros H. by apply HR, He.
Qed.

Lemma user_store pid ctl w :
  usr_ok (contents cachep w) (pid, UStore ctl) -> world_ok w -> let '(o, w') := ulo_loop store sig pid (UStore ctl) w in user_good pid o w w'.
Proof.
  intros Hsz Hw. unfold usr_ok in Hsz. simpl in Hsz.
  pose proof Hw as (Hg & Hr & Hb & He & d & f & l & Hf & Hrep & Hn & Hbits & Hres).
  unfold ulo_loop. unfold mbind, M_bind. rewrite Hsz.
  assert (0 <= req_start ctl < 2 ^ 64) as Hs0 by (apply Z.mod_pos_bound; lia).
  pose proof (store_spec (req_start ctl) w He Hg Hs0) as H.
  destruct (store _ _ w) as [o w1]. destruct H as ((Hp & Hk & Hfd & Hg1) & He1 & Hfill & Hst).
  assert (world_ok w1) as Hw1.
  { split_and!; [auto|by rewrite Hk|by rewrite Hk|done|].
    exists d, f, l. split; [done|].
    assert (contents (f_path f) w1 = contents (f_path f) w) as Hcb1 by (apply Hp; congruence).
    split; [unfold bmp_rep; by rewrite Hk, Hcb1|]. split; [done|]. split.
    - intros n Hn' Ht. eapply stored_fills; [exact Hfill|]. by apply Hbits.
    - intros j. eapply Forall_impl; [apply Hres|]. intros q. destruct j; try done.
      by apply res_fills. }
  destruct o as [err|e|u|]; (split; [done|]); (split; [done|]); intros pc [= <-].
  unfold ulo_stored. destruct (Z.eqb_spec err 0) as [->|]; [|done].
  intros _. by apply Hst.
Qed.

Lemma user_step pid pc w :
  usr_ok (contents cachep w) (pid, pc) -> world_ok w ->
  let '(o, w') := ulo_loop store sig pid pc w in user_good pid o w w'.
Proof.
  intros Hu Hw. destruct pc as [ctl|ctl|ctl|ctl|ctl|ctl|err];
    [| | | |by apply user_store| |]; apply drv_user; unfold ulo_loop; cbv zeta.
  - unfold ulo_loop_begin. eapply drv_bind; [by apply drv_fallible|]. intros e1 w1 Hw1 _ _.
    eapply drv_bind with (Q := fun _ => True).
    { destruct (e1 =? 0); [by apply drv_fallible|by apply drv_ret]. }
    intros e2 w2 Hw2 _ _. eapply drv_bind with (Q := fun _ => True).
    { destruct (e2 =? 0); [by apply drv_fallible|by apply drv_ret]. }
    intros e3 w3 Hw3 _ _. apply drv_ret; [done|]. by destruct (e3 =? 0).
  - apply (drv_ioctl3 _ _ (fun _ => True)); [done| |].
    + eapply drv_bind; [by apply drv_ctl_queue|]. intros. by apply drv_ret.
    + intros ctl' err _. destruct (Z.eqb_spec err 0); [done|]. apply usr_signalled. by left.
  - eapply drv_bind; [by apply drv_sigwaitinfo|]. intros [err|] w1 Hw1 _ He.
    + apply drv_ret; [done|]. by apply usr_signalled, He.
    + by apply drv_ret.
  - apply (drv_ioctl3 _ _ (fun ctl => req_size ctl = PAGE)); [done|by apply drv_rcvreq|].
    intros ctl' err Hr. unfold ulo_received. destruct (Z.eqb_spec err 0); [by apply Hr|done].
  - apply (drv_ioctl3 _ _ (fun _ => True)); [done| |].
    + eapply drv_bind; [|intros; by apply drv_ret]. apply drv_ctl_queue; [done|].
      intros Hz. rewrite req_start_set, req_size_set in *.
      assert (u64 (req_start ctl) = req_start ctl) as Hs
        by (unfold req_start, u64, wrap_u; rewrite Z.mod_mod; lia).
      rewrite Hs in *. apply Hu. rewrite <- Hz. symmetry.
      unfold req_size, i32, wrap_s. lia.
    + intros ctl' err _. by destruct (err =? 0).
  - by apply drv_ret.
Qed.

(** *** The whole system *)

Lemma sys_ok_step a s s' : sys_ok s -> sys_step a s = Some s' -> sys_ok s'.
Proof.
  intros (Hw & Ht & Hu) Hs. destruct a as [i intr|j]; simpl in Hs.
  - destruct (s_thr s !! i) as [[r pc]|] eqn:E; [|done]. simpl in Hs.
    pose proof (Forall_lookup_1 _ _ _ _ Ht E) as Htr.
    pose proof (thread_step intr r pc (s_w s) Htr Hw) as H.
    destruct (uloop_xfer intr r pc (s_w s)) as [o w']. destruct H as (pc' & -> & Hw' & Hc & Ht').
    injection Hs as <-. split; [done|]. cbn [s_w s_thr s_usr].
    split; [apply Forall_insert; [|done]|]; by rewrite Hc.
  - destruct (s_usr s !! j) as [[pid pc]|] eqn:E; [|done]. simpl in Hs.
    pose proof (Forall_lookup_1 _ _ _ _ Hu E) as Hur.
    pose proof (user_step pid pc (s_w s) Hur Hw) as H.
    destruct (ulo_loop store sig pid pc (s_w s)) as [o w']. destruct H as (Hw' & Hf & Hq).
    assert (forall pc', usr_ok (contents cachep w') (pid, pc') ->
      sys_ok (Sys w' (s_thr s) (<[j:=(pid, pc')]> (s_usr s)))) as Hgo.
    { intros pc' Hpc. split; [done|]. cbn [s_w s_thr s_usr]. split.
      - eapply Forall_impl; [exact Ht|]. intros t. by apply thr_fills.
      - apply Forall_insert; [|done]. eapply Forall_impl; [exact Hu|].
        intros u. by apply usr_fills. }
    destruct o as [pc'|e| |]; try done; injection Hs as <-; apply Hgo; [by apply Hq|done].
Qed.

Lemma sys_ok_steps s s' : sys_ok s -> rtc step s s' -> sys_ok s'.
Proof. intros H Hr. induction Hr as [|s s1 s2 [a Ha] _ IH]; eauto using sys_ok_step. Qed.

(** The device is set up, no thread has entered uloop_xfer() and no process
    ulo_loop() yet.  Any number of both may come. *)
Definition sys_start (s : sys) : Prop :=
  world_ok (s_w s) /\ Forall (fun t => t.2 = XStart /\ req_ok t.1) (s_thr s) /\
  Forall (fun u => exists ctl, u.2 = UBegin ctl) (s_usr s).

Lemma sys_start_ok s : sys_start s -> sys_ok s.
Proof.
  intros (Hw & Ht & Hu). split; [done|]. split.
  - eapply Forall_impl; [exact Ht|]. intros [r pc] [Hpc Hr]. simpl in *. subst pc. by split.
  - eapply Forall_impl; [exact Hu|]. intros [pid pc] [ctl Hc]. unfold usr_ok. simpl in *. by rewrite Hc.
Qed.

Lemma reachable_ok s s' : sys_start s -> rtc step s s' -> sys_ok s'.
Proof. intros Hs Hr. by eapply sys_ok_steps; [apply sys_start_ok|]. Qed.

(** A transfer that is done and reports no error has copied the target. *)
Lemma done_copied s i r buf :
  sys_ok s -> s_thr s !! i = Some (r, XDone 0 buf) -> exists b, buf = Some b /\ copied r b.
Proof.
  intros (_ & Ht & _) Hi. pose proof (Forall_lookup_1 _ _ _ _ Ht Hi) as [_ H]. by apply H.
Qed.

(** C4. However the steps of any number of readers and of user processes
    interleave, whichever of their calls fail and whichever waits are interrupted, as
    long as the bitmap can be read: a transfer that uloop_xfer() reports as done has
    copied the bytes of the target, for every byte that the target has. *)
Theorem transfer_gives_target s s' i r err buf :
  sys_start s -> rtc step s s' -> s_thr s' !! i = Some (r, XDone err buf) -> err = 0 ->
  exists b, buf = Some b /\
    forall k, (k < Z.to_nat (x_size r))%nat -> (Z.to_nat (x_raw r) + k < length target)%nat ->
      b !! k = target !! (Z.to_nat (x_raw r) + k)%nat.
Proof.
  intros Hs Hr Hi ->. eapply done_copied; [by eapply reachable_ok|exact Hi].
Qed.

(** C14. As long as the bitmap can be read ([u_rfaults] is empty from the start: see
    [failed_read_corrupts_bitmap] for what a failed read does), and for requests inside the
    bitmap ([req_ok]), in every reachable state, whatever else fails, the bitmap that the
    driver means (its file with the cached page in place) is sound: a page whose bit is set
    is in the cache as the target has it; and so is the page of every answer that waits in
    the SNDRES queue. *)
Theorem bitmap_sound s s' :
  sys_start s -> rtc step s s' ->
  exists d f l, f_path f = bmpp /\ bmp_rep (s_w s') d f l /\
    (forall n, 0 <= n < 8 * Z.of_nat (length l) -> test_bit n l = true ->
       stored target (contents cachep (s_w s')) n) /\
    (forall q, q ∈ q_sndres d -> req_size q = PAGE ->
       stored target (contents cachep (s_w s')) (req_start q / PAGE)).
Proof.
  intros Hs Hr. pose proof (reachable_ok s s' Hs Hr) as (Hw & _ & _).
  destruct Hw as (_ & _ & _ & _ & d & f & l & Hf & Hrep & Hn & Hb & Hq).
  exists d, f, l. split_and!; try done.
  - intros n Hr'. apply Hb. lia.
  - intros q Hin. by eapply Forall_forall in Hin; [|exact (Hq UloQ_SNDRES)].
Qed.

(** C15. As long as the bitmap can be read, every thread with a request inside the bitmap
    ([req_ok]; a page without a bit is another matter, see the last pages in Ulolib.v) can
    take a step in every reachable state, whatever else fails, and whether a signal
    interrupts its wait or not: uloop_xfer() does not reach BUG(), a null pointer or a page
    of the bitmap that does not exist; and the step leaves the backing file as it is, even
    that of a write request. *)
Theorem transfer_never_crashes s s' i r pc intr :
  sys_start s -> rtc step s s' -> s_thr s' !! i = Some (r, pc) ->
  exists pc' w', uloop_xfer intr r pc (s_w s') = (Ret pc', w') /\
    sys_step (LThread i intr) s' = Some (Sys w' (<[i := (r, pc')]> (s_thr s')) (s_usr s')) /\
    contents cachep w' = contents cachep (s_w s').
Proof.
  intros Hs Hr Hi. pose proof (reachable_ok s s' Hs Hr) as (Hw & Ht & _).
  pose proof (thread_step intr r pc (s_w s') (Forall_lookup_1 _ _ _ _ Ht Hi) Hw) as H.
  simpl. rewrite Hi. simpl. destruct (uloop_xfer intr r pc (s_w s')) as [o w'].
  destruct H as (pc' & -> & _ & Hc & _). by exists pc', w'.
Qed.

(** Where a thread is about to use the bitmap: the page and the bit within it *)
Definition bit_of (pc : xpc) : option (Z * Z) :=
  match pc with
  | XBegin _ _ p b | XSend _ _ p b _ | XEnd _ _ p b | XBack _ _ p b _ | XSet _ _ p b => Some (p, b)
  | _ => None
  end.

(** C21. As long as the bitmap can be read, and for requests inside the bitmap, in every
    reachable state the data of the driver is well formed: there is a bitmap file and one
    page of it is cached, inside the file, which has the length that the driver remembers;
    every request in the RCVREQ queue is for one page; and every thread that is going to set
    a bit does so inside the cached page and inside the file. *)
Theorem device_well_formed s s' :
  sys_start s -> rtc step s s' ->
  exists d f buf, u_dev (w_kern (s_w s')) = Some d /\ f_path f = bmpp /\
    dev_wf d f buf (contents bmpp (s_w s')) /\
    Forall (fun q => req_size q = PAGE) (q_rcvreq d) /\
    Forall (fun t => match bit_of t.2 with
                     | Some (p, b) => 0 <= p /\ p * PAGE + PAGE <= bmpsz d /\
                                      0 <= b < 8 * Z.of_nat (length buf)
                     | None => True
                     end) (s_thr s').
Proof.
  intros Hs Hr. pose proof (reachable_ok s s' Hs Hr) as (Hw & Ht & _).
  destruct Hw as (_ & _ & _ & _ & d & f & l & Hf & Hrep & Hn & _ & Hq).
  pose proof (rep_length _ _ _ _ Hrep) as Hlen. destruct Hrep as (Hd & buf & Hwf & _).
  rewrite Hf in Hwf. exists d, f, buf. split_and!; try done; [exact (Hq UloQ_RCVREQ)|].
  pose proof Hwf as (_ & _ & Hbuf & _ & _ & Hidx & Hmod & _).
  eapply Forall_impl; [exact Ht|]. intros [r pc] [Hreq Hpc]. simpl.
  assert (forall sz pos p b, at_pos (contents cachep (s_w s')) r sz pos -> 0 < sz ->
    in_page pos p b -> 0 <= p /\ p * PAGE + PAGE <= bmpsz d /\ 0 <= b < 8 * Z.of_nat (length buf))
    as Hgo.
  { intros sz pos p b (A1 & A2 & A3 & A4 & _) Hsz [-> ->].
    destruct Hreq as (R1 & R2 & _ & R4 & R5 & _). unfold bmp_page_bytes, PAGE in *. lia. }
  destruct pc; simpl in Hpc |- *; try done; destruct_and!; by eapply Hgo.
Qed.
End inv.
End system.

(** ** A device that ulo_init() has just set up *)

Section served.
Context {G : Type} `{!HasUloop G} (store : Z -> Z -> M (world ulok G) Z) (sig : Z).
Context (cachep bmpp target : bytes) `{!UloStore store cachep bmpp target}.
Context (Hcb : cachep <> bmpp).
Implicit Types w : world ulok G.

(** Every callback that keeps its promise serves its target, once the library is set up:
    what a program has to show is [store_env] for the world that ulo_init() leaves. *)
Lemma init_served pid dev size w w' faults thr usr s i r buf :
  w_faults w = [] -> u_rfaults (w_kern w) = [] -> u_modes (w_kern w) = ∅ ->
  w_files w !! cachep = None -> w_files w !! bmpp = None ->
  0 <= w_nextfd w -> w_nextfd w + 3 < 2 ^ 31 -> 0 < size < 2 ^ 61 ->
  ulo_init pid (UloInit dev cachep bmpp 0 size) w = (Ret 0, w') ->
  let c := round_page PAGE size in
  (w_files w' = <[bmpp := zeros (bitmap_size PAGE c)]> (<[cachep := zeros c]> (w_files w)) ->
   w_fds w' = <[w_nextfd w + 2 := dev]> (<[w_nextfd w + 1 := bmpp]>
                (<[w_nextfd w := cachep]> (w_fds w))) ->
   w_glob w' = put_uloop (ULoop (w_nextfd w + 2) (w_nextfd w) (w_nextfd w + 1) PAGE size c)
                 (w_glob w) ->
   contents cachep w' = zeros c -> store_env (set_faults faults w')) ->
  Forall good_fault faults ->
  Forall (fun t => t.2 = XStart /\ req_ok (8 * bitmap_size PAGE c) t.1) thr ->
  Forall (fun u => exists ctl, u.2 = UBegin ctl) usr ->
  rtc (step store sig) (Sys (set_faults faults w') thr usr) s ->
  s_thr s !! i = Some (r, XDone 0 buf) ->
  exists b, buf = Some b /\ copied target r b.
Proof.
  intros Hf Hr Hm Hcp Hbp Hn Hfd Hs Hi c Henv Hfl Ht Hu Hst Hthr.
  destruct (ulo_init_ready pid dev cachep bmpp 0 size w)
    as (w1 & d & E & Hf1 & Hr1 & Hb1 & Hfi & Hrep & Hq0 & Hq1 & Hq2 & Hfd1 & Hg1); try done.
  rewrite Hi in E. injection E as <-. fold c in Hfi, Hrep, Hg1.
  destruct (round_page_spec size) as [Hc1 Hc2]; [lia|]. fold c in Hc1, Hc2.
  destruct (bitmap_size_pages c) as (Hbm & Hbs & _); [unfold PAGE in *; lia|].
  assert (contents cachep w' = zeros c) as Hcc.
  { unfold contents. rewrite Hfi, lookup_insert_ne by done. by rewrite lookup_insert_eq. }
  eapply (done_copied store cachep bmpp target (8 * bitmap_size PAGE c)); [|exact Hthr].
  eapply (reachable_ok store sig cachep bmpp target); [done| |exact Hst].
  split; [|split; [done|done]]. simpl. split; [|split; [done|split; [done|split]]].
  - split; [done|by cbn; rewrite Hr1; constructor].
  - by apply Henv.
  - exists d, (KFile bmpp 3), (zeros (bitmap_size PAGE c)).
    rewrite length_zeros by (unfold PAGE in *; lia). split_and!; try done.
    + intros n _ Hbit. by rewrite test_bit_zeros in Hbit.
    + intros []; simpl; by rewrite ?Hq0, ?Hq1, ?Hq2.
Qed.
End served.

(** ** A device of two pages, a reader and a process *)

Module SysDemo.
Definition cachep : bytes := lit "/cache".
Definition bmpp : bytes := lit "/bitmap".
Definition target : bytes := replicate 4096 "a"%char ++ replicate 904 "b"%char.

(** The simplest callback: it copies the page of the target. *)
Definition store (start size : Z) : M (world ulok unit) Z :=
  let off := Z.to_nat (start / PAGE * PAGE) in
  if (off <? length target)%nat then
    modify (fun w =>
      let c := contents cachep w in
      set_files (<[cachep := take (length c)
        (splice off (take (Z.to_nat PAGE) (drop off target)) c)]> (w_files w)) w) ;;
    mret 0
  else mret (-1).

Lemma store_page off (w : world ulok unit) :
  (off < length target)%nat -> (length target <= length (contents cachep w))%nat ->
  let d := take (Z.to_nat PAGE) (drop off target) in
  (forall i, (i < length d)%nat -> d !! i = target !! (off + i)%nat) /\
  (off + length d <= length target)%nat /\
  (off + Z.to_nat PAGE <= off + length d \/ length target <= off + length d)%nat.
Proof.
  intros Ho Hc d. assert (length d = Nat.min (Z.to_nat PAGE) (length target - off)) as Hd
    by (unfold d; by rewrite length_take, length_drop).
  split_and!; [|lia..]. intros i Hi. unfold d in *.
  rewrite lookup_take_lt by lia. by rewrite lookup_drop.
Qed.

#[export, program] Instance demo_store : UloStore store cachep bmpp target :=
  {| store_env w := (length target <= length (contents cachep w))%nat |}.
Next Obligation. intros w w' Hc _ _ _ H. cbn beta in *. by rewrite Hc. Qed.
Next Obligation.
  intros start w He Hg Hs. cbn beta in He |- *. unfold store. set (off := Z.to_nat _).
  destruct (Nat.ltb_spec off (length target)) as [Hlt|Hge].
  2:{ unfold mret, M_ret, store_frame. split_and!; try done. apply fills_refl. }
  destruct (store_page off w Hlt He) as (Hd & Hl & Hp). rewrite bind_modify.
  unfold mret, M_ret, store_frame. rewrite contents_insert, decide_True by done.
  split_and!; try done.
  - intros p Hne. rewrite contents_insert, decide_False; [done|congruence].
  - rewrite length_take, length_splice; lia.
  - apply put_fills; [exact Hd|lia].
  - intros _. apply put_stored; [exact Hd|done|unfold off; lia|exact Hp].
Qed.

Definition dev : ulo_dev :=
  Dev [] [] [] (Some (KFile bmpp 3)) 0 (Some (zeros 4096)) 4096.
Definition start : sys :=
  Sys (World 0 [] (Ulok [] (Some cachep) (Some dev) ∅ 1 [] 0) tt ∅
         {[cachep := zeros 8192; bmpp := zeros 4096]} ∅ 3 ∅ [] [] [])
    [(XReq 0 0 5000 0, XStart)] [(7, UBegin (Ctl 0 0))].

(** Of each page: the process gets ready, the reader asks, the process stores. *)
Definition page_labels : list label :=
  [LUser 0; LUser 0; LThread 0 false; LThread 0 false; LThread 0 false;
   LUser 0; LUser 0; LUser 0; LUser 0; LThread 0 false; LThread 0 false].
Definition labels : list label :=
  LThread 0 false :: page_labels ++ page_labels ++ [LThread 0 false].
Definition final : sys := default start (run store 10 labels start).

Definition is_done (t : xreq * xpc) : bool :=
  match t.2 with XDone 0 _ => true | _ => false end.
Lemma run_final : run store 10 labels start = Some final.
Proof.
  assert (bool_decide (is_Some (run store 10 labels start)) = true) as H by (vm_compute; reflexivity).
  unfold final. apply bool_decide_eq_true in H as [s E]. by rewrite E.
Qed.
Lemma final_done : exists r buf, s_thr final !! 0%nat = Some (r, XDone 0 buf).
Proof.
  assert (match s_thr final !! 0%nat with Some t => is_done t | None => false end = true) as H
    by (vm_compute; reflexivity).
  destruct (s_thr final !! 0%nat) as [[r []]|]; try done. destruct err; try done. by exists r, loop_buf.
Qed.

Lemma start_ok : sys_start store cachep bmpp target 32768 start.
Proof.
  split; [|split].
  - split; [by split|]. split; [done|]. split; [done|]. split.
    { unfold store_env, demo_store. apply Nat.leb_le. vm_compute. reflexivity. }
    exists dev, (KFile bmpp 3), (zeros 4096). split; [done|].
    assert (contents bmpp (s_w start) = zeros 4096) as Hb by (vm_compute; reflexivity).
    split.
    + split; [done|]. exists (zeros 4096). simpl f_path. rewrite Hb. split.
      * split_and!; (done || (apply Z.eqb_eq; vm_compute; reflexivity)).
      * vm_compute. reflexivity.
    + split; [apply Z.eqb_eq; vm_compute; reflexivity|]. split.
      * intros n _ H. by rewrite test_bit_zeros in H.
      * intros []; constructor.
  - constructor; [|done]. split; [done|]. unfold req_ok, PAGE. simpl. split_and!; lia.
  - constructor; [|done]. by exists (Ctl 0 0).
Qed.

(** The reader is about to set the bit of the second page. *)
Definition mid : sys := default start (run store 10 (take 22 labels) start).
Lemma run_mid : run store 10 (take 22 labels) start = Some mid.
Proof.
  assert (bool_decide (is_Some (run store 10 (take 22 labels) start)) = true) as H
    by (vm_compute; reflexivity).
  unfold mid. apply bool_decide_eq_true in H as [s E]. by rewrite E.
Qed.
Lemma mid_sets : exists r sz pos p b, s_thr mid !! 0%nat = Some (r, XSet sz pos p b).
Proof.
  assert (match s_thr mid !! 0%nat with Some (_, XSet _ _ _ _) => true | _ => false end = true) as H
    by (vm_compute; reflexivity).
  destruct (s_thr mid !! 0%nat) as [[r []]|]; try done. by eexists _, _, _, _, _.
Qed.
Lemma reached_mid : rtc (step store 10) start mid.
Proof. by eapply run_steps, run_mid. Qed.

Lemma distinct : cachep <> bmpp.
Proof. done. Qed.
Lemma reached : rtc (step store 10) start final.
Proof. by eapply run_steps, run_final. Qed.
End SysDemo.
Import SysDemo.

Lemma transfer_gives_target_witness :
  exists r buf b, s_thr final !! 0%nat = Some (r, XDone 0 buf) /\ buf = Some b /\
    forall k, (k < Z.to_nat (x_size r))%nat -> (Z.to_nat (x_raw r) + k < length target)%nat ->
      b !! k = target !! (Z.to_nat (x_raw r) + k)%nat.
Proof.
  destruct final_done as (r & buf & H). exists r, buf.
  destruct (transfer_gives_target store 10 cachep bmpp target 32768 distinct start final 0 r 0 buf
    start_ok reached H eq_refl) as (b & Hb & Hk).
  exists b. exact (conj H (conj Hb Hk)).
Defined.

Lemma bitmap_sound_witness :
  exists d f l, f_path f = bmpp /\ bmp_rep (s_w final) d f l /\
    (forall n, 0 <= n < 8 * Z.of_nat (length l) -> test_bit n l = true ->
       stored target (contents cachep (s_w final)) n) /\
    (forall q, q ∈ q_sndres d -> req_size q = PAGE ->
       stored target (contents cachep (s_w final)) (req_start q / PAGE)).
Proof.
  exact (bitmap_sound store 10 cachep bmpp target 32768 distinct start final start_ok reached).
Defined.

(** In the middle of a transfer *)
Lemma transfer_never_crashes_witness :
  exists r sz pos p b pc' w', s_thr mid !! 0%nat = Some (r, XSet sz pos p b) /\
    uloop_xfer true r (XSet sz pos p b) (s_w mid) = (Ret pc', w') /\
    contents cachep w' = contents cachep (s_w mid).
Proof.
  destruct mid_sets as (r & sz & pos & p & b & H). exists r, sz, pos, p, b.
  destruct (transfer_never_crashes store 10 cachep bmpp target 32768 distinct start mid 0 r
    (XSet sz pos p b) true start_ok reached_mid H) as (pc' & w' & E & _ & Hc).
  exists pc', w'. exact (conj H (conj E Hc)).
Defined.

Lemma device_well_formed_witness :
  exists d f buf, u_dev (w_kern (s_w final)) = Some d /\ f_path f = bmpp /\
    dev_wf d f buf (contents bmpp (s_w final)) /\ Forall (fun q => req_size q = PAGE) (q_rcvreq d).
Proof.
  destruct (device_well_formed store 10 cachep bmpp target 32768 distinct start final start_ok
    reached) as (d & f & buf & H1 & H2 & H3 & H4 & _).
  exists d, f, buf. exact (conj H1 (conj H2 (conj H3 H4))).
Defined.
