(* ===== verification/Ulobdev.v ===== *)
(** * A block device behind the userspace loopback device: ulobdev.c

    src/sample/uloop/ulobdev.c copies the pages that the driver asks for from a
    block device to the cache, both mapped.  The device is a file of the world, of
    the length of the device.  The options that getopt(3) returns and the
    operands left are arguments of [parse]; Cmdline.v computes them. *)
From S2P Require Import AuUtil.
From S2P Require Import Prelude CString AufsType FhsmData Sys Uloop Ulolib UloSys.

#[local] Ltac Zify.zify_post_hook ::= Z.to_euclidean_division_equations.

(** The globals: g_uloop of the library and those of ulobdev.c *)
Record bdev := Bdev {
  b_uloop : uloop;
  real_fd : Z;
  me : option bytes;
  real_bdev : bytes
}.
Definition set_real_fd (x : Z) (g : bdev) : bdev := Bdev (b_uloop g) x (me g) (real_bdev g).
Definition set_me (x : option bytes) (g : bdev) : bdev :=
  Bdev (b_uloop g) (real_fd g) x (real_bdev g).
Definition set_real_bdev (x : bytes) (g : bdev) : bdev :=
  Bdev (b_uloop g) (real_fd g) (me g) x.

#[export, program] Instance bdev_uloop : HasUloop bdev :=
  {| g_uloop := b_uloop;
     put_uloop u g := Bdev u (real_fd g) (me g) (real_bdev g) |}.
Next Obligation. done. Qed.
Next Obligation. done. Qed.

Section bdev.
Notation world := (world ulok bdev).
Notation MU := (M world).

Definition mod_g (f : bdev -> bdev) : MU unit := modify (fun w => set_glob (f (w_glob w)) w).
Definition gget {A} (f : bdev -> A) : MU A := gets (fun w => f (w_glob w)).

Definition store (start size : Z) : MU Z :=
  u ← get_u;
  assert_ (u64 (start + size) <=? cache_size u) ;;
  let m := start mod pagesize u in
  let start := start - m in
  let size := i32 (size + m) in
  let tsize := tgt_size u in
  let size := if tsize <? u64 (start + size) then i32 (tsize - start) else size in
  fd ← gget real_fd;
  src ← mmap fd start size;
  match src with
  | None => mret (-1)
  | Some s =>
      dst ← mmap (fd_CACHE u) start size;
      match dst with
      | None => _ ← munmap; mret (-1)
      | Some d =>
          bytes ← mem_read s start size;
          mem_write d start bytes ;;
          err ← munmap;
          _ ← munmap;
          mret err
      end
  end.

(** BLKGETSIZE stores the number of sectors; the program keeps it in an [int]. *)
Definition init_size : MU Z :=
  dev ← gget real_bdev;
  fd ← open_ dev;
  mod_g (set_real_fd fd) ;;
  if fd <? 0 then mod_g (set_me (Some dev)) ;; mret (u64 (-1))
  else
    err ← fallible;
    if truth err then
      _ ← close_ fd; mod_g (set_me (Some dev)) ;; mret (u64 (-1))
    else
      c ← gets (contents dev);
      let i := i32 (Z.of_nat (length c) / 512) in
      mret (u64 (u64 i * 512)).

Definition init (pid : Z) (dev cache bitmap : bytes) : MU Z :=
  size ← init_size;
  let err := i32 size in
  err ← (if negb (err =? -1)
         then ulo_init pid (UloInit dev cache bitmap 0 size) else mret err);
  b ← gget real_bdev;
  mod_g (set_me (Some b)) ;;
  mret err.

Definition usage {A} : MU A :=
  m ← gget me;
  print (default (lit "(null)") m ++ clit " [-b bitmap] [-c cache] /dev/loopN block_device\n") ;;
  exit_ EINVAL.

(** The options: 'b' and 'c' with their argument, anything else a mistake *)
Fixpoint parse_opts (calls : list (ascii * bytes)) (c b : option bytes)
    : MU (option bytes * option bytes) :=
  match calls with
  | [] => mret (c, b)
  | (o, arg) :: r =>
      if decide (o = "b"%char) then parse_opts r c (Some arg)
      else if decide (o = "c"%char) then parse_opts r (Some arg) b
      else usage
  end.

Definition parse (pid : Z) (calls : list (ascii * bytes)) (operands : list bytes)
    : MU (bytes * bytes * bytes) :=
  '(c, b) ← parse_opts calls None None;
  match operands with
  | [dev; real] =>
      mod_g (set_real_bdev real) ;;
      mret (dev, default (cache_def pid) c, default (bitmap_def pid) b)
  | _ => usage
  end.

(** [inl status]: the process that was started ends with it; [inr tt]: the child goes
    on in ulo_loop(SIGUSR1, store, NULL). *)
Definition main (argv0 : bytes) (pid : Z) (calls : list (ascii * bytes))
    (operands : list bytes) : MU (Z + unit) :=
  mod_g (set_me (Some argv0)) ;;
  '(dev, cache, bitmap) ← parse pid calls operands;
  err ← init pid dev cache bitmap;
  if truth err then
    m ← gget me; (if m is Some m then print m else mret tt) ;; mret (inl err)
  else
    p ← fork_;
    if p =? 0 then mret (inr tt) else mret (inl err).

(** ** Storing a page *)

Section store.
Context (cachep bmpp devp target : bytes).

(** The library has been set up for the target, and the device is open. *)
Definition bdev_env (w : world) : Prop :=
  let u := b_uloop (w_glob w) in
  pagesize u = PAGE /\ tgt_size u = Z.of_nat (length target) /\
  cache_size u = round_page PAGE (tgt_size u) /\ tgt_size u < 2 ^ 61 /\
  Z.of_nat (length (contents cachep w)) = cache_size u /\
  w_fds w !! fd_CACHE u = Some cachep /\ w_fds w !! real_fd (w_glob w) = Some devp /\
  contents devp w = target.

(** The range that store() maps: it starts at a page boundary and, if it can be mapped at
    all, lies within the target; for a whole page it reaches the page's or the target's
    end. *)
Lemma mapped_range start size t csz :
  0 <= start < 2 ^ 64 -> - 2 ^ 31 <= size < 2 ^ 31 ->
  u64 (start + size) <= csz -> csz < t + PAGE -> t < 2 ^ 61 ->
  let off := start - start mod PAGE in
  let sz1 := i32 (size + start mod PAGE) in
  let n := if t <? u64 (off + sz1) then i32 (t - off) else sz1 in
  0 < n -> off + n <= page_round t ->
  off = start / PAGE * PAGE /\ off + n <= t /\
  (size = PAGE -> off + PAGE <= off + n \/ t <= off + n).
Proof.
  intros Hs Hz Ha Hc Ht off sz1 n Hn Hsb.
  assert (off = start / PAGE * PAGE) as Eoff by (unfold off, PAGE; lia). split; [done|].
  assert (start mod PAGE = start - off) as Em by (unfold off; lia).
  assert (sz1 <= size + (start - off) /\ (size = PAGE -> sz1 = size + (start - off))) as [H1 H1'].
  { unfold sz1, i32, wrap_s, PAGE in *. lia. }
  clearbody off sz1. subst n. destruct (Z.ltb_spec t (u64 (off + sz1))) as [Hlt|Hge].
  - assert (0 <= t - off) as Hto by (unfold page_round, PAGE in *; lia).
    assert (i32 (t - off) <= t - off) as H2 by (unfold i32, wrap_s; lia).
    split; [lia|]. intros Hp. specialize (H1' Hp). rewrite H1' in Hlt.
    rewrite u64_small in Hlt by (unfold PAGE in *; lia). right.
    assert (i32 (t - off) = t - off) as -> by (unfold i32, wrap_s, PAGE in *; lia). lia.
  - rewrite u64_small in Hge by (unfold page_round, PAGE in *; lia).
    split; [done|]. intros Hp. specialize (H1' Hp). unfold PAGE in *. lia.
Qed.

(** Where store() ends: it failed, or died, without touching the cache; or it copied
    [n] bytes at a page boundary, inside the target, and all of the page asked for. *)
Lemma store_cases start size (w : world) :
  bdev_env w -> 0 <= start < 2 ^ 64 -> - 2 ^ 31 <= size < 2 ^ 31 ->
  exists o w1, still w w1 /\
  ((store start size w = (o, w1) /\ o <> Ret 0) \/
   exists err off n,
     store start size w = (Ret err,
       set_files (<[cachep := take (length (contents cachep w))
         (splice (Z.to_nat off) (mapped off n target) (contents cachep w))]> (w_files w)) w1) /\
     off = start / PAGE * PAGE /\ 0 < n /\ off + n <= Z.of_nat (length target) /\
     (size = PAGE -> off + PAGE <= off + n \/ Z.of_nat (length target) <= off + n)).
Proof.
  intros (Hpg & Ht & Hcs & Hmax & Hcl & Hfc & Hfr & Hdev) Hs Hz.
  destruct (round_page_spec (tgt_size (b_uloop (w_glob w)))) as [Hr1 Hr2]; [lia|].
  rewrite <- Hcs in Hr1, Hr2. unfold store, get_u. rewrite bind_gets.
  change (g_uloop (w_glob w)) with (b_uloop (w_glob w)). set (u := b_uloop (w_glob w)) in *.
  unfold assert_. destruct (Z.leb_spec (u64 (start + size)) (cache_size u)) as [Ha|Ha].
  2:{ eexists _, w. split; [reflexivity|]. left. by split. }
  rewrite bind_ret, Hpg. cbv zeta. set (off := start - start mod PAGE).
  set (n := if _ <? _ then _ else _). unfold gget. rewrite bind_gets.
  destruct (mmap_still (real_fd (w_glob w)) off n w) as (src & w1 & E1 & S1 & H1).
  rewrite (bind_run _ _ _ _ _ E1). destruct src as [s|].
  2:{ eexists _, w1. split; [done|]. by left. }
  destruct (H1 s eq_refl) as (-> & Hn & Ho & Hoff).
  destruct (mmap_still (fd_CACHE u) off n w1) as (dst & w2 & E2 & S2 & H2).
  rewrite (bind_run _ _ _ _ _ E2). destruct dst as [d|].
  2:{ destruct (fallible_still w2) as (e & w3 & E3 & S3). unfold munmap.
      rewrite (bind_run _ _ _ _ _ E3). eexists _, w3.
      split; [by etrans; [etrans|]|]. by left. }
  destruct (H2 d eq_refl) as (-> & _). pose proof (transitivity S1 S2) as S12.
  assert (w_fds w1 = w_fds w) as -> by apply S1. rewrite Hfc, Hfr. cbn [default id].
  unfold mem_read. rewrite bind_assoc, bind_gets.
  assert (contents devp w2 = target) as Hd2 by (by rewrite (still_contents w)).
  rewrite Hd2.
  destruct (Z.ltb_spec (page_round (Z.of_nat (length target))) (off + n)) as [Hsb|Hsb].
  { eexists _, w2. split; [exact S12|]. left. by split. }
  rewrite bind_ret. unfold mem_write. rewrite bind_assoc, bind_gets.
  rewrite (still_contents w w2) by done.
  destruct (page_round (Z.of_nat (length (contents cachep w))) <? _).
  { eexists _, w2. split; [exact S12|]. left. split; [reflexivity|]. done. }
  rewrite bind_modify. set (w3 := set_files _ w2).
  destruct (fallible_still w3) as (err & w4 & E4 & S4).
  destruct (fallible_still w4) as (e5 & w5 & E5 & S5). unfold munmap.
  rewrite (bind_run _ _ _ _ _ E4), (bind_run _ _ _ _ _ E5).
  destruct (still_files w w2 _ w5 S12 (transitivity S4 S5)) as [E6 S6].
  exists (Ret err), (set_files (w_files w) w5). split; [exact S6|]. right. exists err, off, n.
  assert (w_files w2 = w_files w) as F2 by apply S12. split; [by rewrite E6, F2|].
  destruct (mapped_range start size (tgt_size u) (cache_size u) Hs Hz Ha) as (Ho1 & Ho2 & Ho3);
    [lia|done|exact Hn|fold off; fold n; by rewrite Ht|]. fold off n in Ho1, Ho2, Ho3.
  rewrite Ht in Ho2, Ho3. by split_and!.
Qed.

Context (Hcd : cachep <> devp) (Hcb : cachep <> bmpp) (Hdb : devp <> bmpp).

#[export, program] Instance bdev_store : UloStore store cachep bmpp target :=
  {| store_env := bdev_env |}.
Next Obligation.
  intros w w' Hp Hg Hf _ (H1 & H2 & H3 & H4 & H5 & H6 & H7 & H8). unfold bdev_env.
  rewrite Hg, Hf, !Hp by done. by split_and!.
Qed.
Next Obligation.
  intros start w He Hg Hs. assert (- 2 ^ 31 <= PAGE < 2 ^ 31) as Hz by (unfold PAGE; lia).
  pose proof He as (Hpg & Ht & Hcs & Hmax & Hcl & Hfc & Hfr & Hdev).
  destruct (store_cases start PAGE w He Hs Hz) as (o & w1 & S & [[E Hne]|H]).
  - rewrite E. rewrite (still_contents w w1) by done.
    assert (bdev_env w1) as He1.
    { destruct S as (Sf & Sk & Sg & Sd & _). unfold bdev_env, contents. by rewrite Sg, Sd, Sf. }
    split; [|split; [done|split; [apply fills_refl|done]]].
    destruct S as (S1 & S2 & S3 & S4 & S5 & _). split_and!; try done.
    intros p _. unfold contents. by rewrite S1.
  - destruct H as (err & off & n & E & Hoff & Hn & Hle & Hpage). rewrite E.
    set (c := contents cachep w) in *. set (c' := take _ _). set (w2 := set_files _ w1).
    destruct (round_page_spec (tgt_size (b_uloop (w_glob w)))) as [_ Hr2]; [lia|].
    rewrite <- Hcs in Hr2.
    assert (forall p, contents p w2 = if decide (cachep = p) then c' else contents p w) as Hc2.
    { intros p. unfold contents, w2. simpl. case_decide as Hd.
      - subst p. by rewrite lookup_insert_eq.
      - by rewrite lookup_insert_ne. }
    assert (forall i, (i < length (mapped off n target))%nat ->
      mapped off n target !! i = target !! (Z.to_nat off + i)%nat) as Hm.
    { intros i Hi. rewrite length_mapped in Hi. apply lookup_mapped; unfold PAGE in *; lia. }
    rewrite Hc2, decide_True by done. unfold store_frame. split_and!.
    + intros p Hp. by rewrite Hc2, decide_False.
    + apply S.
    + apply S.
    + apply S.
    + destruct S as (_ & _ & Sg & Sd & _). unfold bdev_env. simpl w_glob. simpl w_fds.
      rewrite Sg, Sd, !Hc2, decide_True, decide_False by done.
      split_and!; try done. unfold c'. rewrite length_take, length_splice; [lia|].
      rewrite length_mapped. fold c in Hcl. unfold PAGE in *. lia.
    + apply put_fills; [exact Hm|]. rewrite length_mapped. fold c in Hcl. unfold PAGE in *. lia.
    + intros [= ->]. specialize (Hpage eq_refl).
      apply put_stored; [exact Hm|..]; rewrite ?length_mapped; fold c in Hcl; unfold PAGE in *; lia.
Qed.

(** C3. ulo_init() and store() of ulobdev.c together with the driver: once ulo_init()
    has returned 0 for a block device of [size] bytes, on new files and with none of its
    own calls failing, then however many readers and copies of the process run, in
    whatever order, and whichever of the calls fail that follow ([faults]: any list of
    errors and of short reads and writes), as long as the bitmap can be read: a transfer
    inside the bitmap ([req_ok]) that is reported as done has copied the bytes of the
    device. *)
Theorem ulobdev_serves_device pid dev size (w w' : world) faults thr usr s i r err buf :
  w_faults w = [] -> u_rfaults (w_kern w) = [] -> u_modes (w_kern w) = ∅ ->
  w_files w !! cachep = None -> w_files w !! bmpp = None ->
  0 <= real_fd (w_glob w) < w_nextfd w -> w_nextfd w + 3 < 2 ^ 31 -> 0 < size < 2 ^ 61 ->
  w_fds w !! real_fd (w_glob w) = Some devp -> contents devp w = target ->
  Z.of_nat (length target) = size ->
  ulo_init pid (UloInit dev cachep bmpp 0 size) w = (Ret 0, w') -> Forall good_fault faults ->
  Forall (fun t => t.2 = XStart /\
    req_ok (8 * bitmap_size PAGE (round_page PAGE size)) t.1) thr ->
  Forall (fun u => exists ctl, u.2 = UBegin ctl) usr ->
  rtc (step store 10) (Sys (set_faults faults w') thr usr) s ->
  s_thr s !! i = Some (r, XDone err buf) -> err = 0 ->
  exists b, buf = Some b /\
    forall k, (k < Z.to_nat (x_size r))%nat -> (Z.to_nat (x_raw r) + k < length target)%nat ->
      b !! k = target !! (Z.to_nat (x_raw r) + k)%nat.
Proof.
  intros Hf Hr Hm Hcp Hbp Hrf Hfd Hs Hfr Hdev Hlen Hi Hfl Ht Hu Hst Hthr ->.
  destruct (round_page_spec size) as [Hc1 Hc2]; [lia|].
  eapply (init_served store 10 cachep bmpp target Hcb pid dev size w w' faults); try done; [lia|].
  intros Hfi Hfd1 Hg1 Hcc. unfold store_env, bdev_store, bdev_env.
  change (contents ?p (set_faults _ w')) with (contents p w').
  cbn [w_glob w_fds set_faults]. rewrite Hg1, Hfd1. simpl.
  rewrite Hcc, length_zeros by (unfold PAGE in *; lia). split_and!; try done; try lia.
  - do 2 rewrite lookup_insert_ne by lia. by rewrite lookup_insert_eq.
  - do 3 rewrite lookup_insert_ne by lia. done.
  - unfold contents. rewrite Hfi, !lookup_insert_ne by done. exact Hdev.
Qed.
End store.
End bdev.

(** ** A device of nine sectors *)

Module BdevDemo.
Definition cachep : bytes := lit "/cache".
Definition bmpp : bytes := lit "/bitmap".
Definition devp : bytes := lit "/dev/sdb".
Definition target : bytes := replicate 4096 "a"%char ++ replicate 512 "b"%char.

Definition start : world ulok bdev :=
  World 0 [] (Ulok [] None None ∅ 0 [] 0) (Bdev (ULoop 0 0 0 0 0 0) 3 None devp)
    ∅ {[devp := target]} {[3 := devp]} 4 ∅ [] [] [].
Definition args : ulo_init_args := UloInit (lit "/dev/loop0") cachep bmpp 0 4608.
Definition ready : world ulok bdev := (ulo_init 7 args start).2.

(** A read of the first page but its first sector *)
Definition small : xreq := XReq 0 512 3584 1.
(** The first process dies of a failing call, the second one serves the request. *)
Definition faults : list fault := [FErr 5].
Definition labels : list label :=
  [LThread 0 false; LUser 0; LUser 1; LUser 1; LThread 0 false; LThread 0 false; LThread 0 false;
   LUser 1; LUser 1; LUser 1; LUser 1; LThread 0 false; LThread 0 false; LThread 0 false].
Definition processes : list (Z * upc) := [(7, UBegin (Ctl 0 0)); (8, UBegin (Ctl 0 0))].
Definition sys1 : sys := Sys (set_faults faults ready) [(small, XStart)] processes.
Definition final : sys := default sys1 (run store 10 labels sys1).

Lemma ready_ok : ulo_init 7 args start = (Ret 0, ready).
Proof.
  unfold ready. rewrite (surjective_pairing (ulo_init 7 args start)) at 1.
  apply (f_equal2 pair); [vm_compute; reflexivity|done].
Qed.
Lemma bdev_run_final : run store 10 labels sys1 = Some final.
Proof.
  assert (bool_decide (is_Some (run store 10 labels sys1)) = true) as H by (vm_compute; reflexivity).
  unfold final. apply bool_decide_eq_true in H as [s E]. by rewrite E.
Qed.
Lemma bdev_final_done : exists buf, s_thr final !! 0%nat = Some (small, XDone 0 buf).
Proof.
  assert (match s_thr final !! 0%nat with
          | Some (r, XDone 0 _) => r | _ => XReq 1 1 1 1 end = small) as H
    by (vm_compute; reflexivity).
  revert H. generalize (s_thr final !! 0%nat). intros [[r pc]|] H; [|discriminate H].
  destruct pc; try discriminate H. destruct err; try discriminate H. rewrite H. by eexists.
Qed.
Lemma sys1_req : req_ok (8 * bitmap_size PAGE (round_page PAGE 4608)) small.
Proof.
  assert (8 * bitmap_size PAGE (round_page PAGE 4608) = 32768) as -> by (vm_compute; reflexivity).
  unfold req_ok, PAGE. simpl. split_and!; lia.
Qed.
Lemma threads_ok : Forall (fun t : xreq * xpc => t.2 = XStart /\
  req_ok (8 * bitmap_size PAGE (round_page PAGE 4608)) t.1) [(small, XStart)].
Proof. constructor; [split; [reflexivity|exact sys1_req]|constructor]. Qed.
Lemma faults_ok : Forall good_fault faults.
Proof. repeat constructor. Qed.
Lemma processes_ok :
  Forall (fun u : Z * upc => exists ctl, u.2 = UBegin ctl) processes.
Proof. repeat constructor; by eexists. Qed.
Lemma devp_contents : contents devp start = target.
Proof. vm_compute. reflexivity. Qed.
Lemma target_len : Z.of_nat (length target) = 4608.
Proof. vm_compute. reflexivity. Qed.
End BdevDemo.
Import BdevDemo.

Lemma ulobdev_serves_device_witness :
  exists buf b, s_thr final !! 0%nat = Some (small, XDone 0 buf) /\ buf = Some b /\
    forall k, (k < Z.to_nat (x_size small))%nat ->
      (Z.to_nat (x_raw small) + k < length target)%nat ->
      b !! k = target !! (Z.to_nat (x_raw small) + k)%nat.
Proof.
  destruct bdev_final_done as [buf H]. exists buf.
  assert (0 <= real_fd (w_glob start) < w_nextfd start) as Hfd by (cbn; lia).
  assert (w_nextfd start + 3 < 2 ^ 31) as Hn by (cbn; lia).
  assert (0 < 4608 < 2 ^ 61) as Hs by lia.
  destruct (ulobdev_serves_device cachep bmpp devp target ltac:(discriminate)
    ltac:(discriminate) ltac:(discriminate) 7 (lit "/dev/loop0") 4608 start ready
    faults [(small, XStart)] processes final 0%nat small 0 buf
    eq_refl eq_refl eq_refl eq_refl eq_refl Hfd Hn Hs eq_refl devp_contents target_len ready_ok
    faults_ok threads_ok processes_ok (run_steps _ _ _ _ _ bdev_run_final) H eq_refl) as (b & Hb & Hk).
  exists b. exact (conj H (conj Hb Hk)).
Defined.
