(* ===== verification/Ulohttp.v ===== *)
(** * A file on a web server behind the userspace loopback device: ulohttp.c

    src/sample/uloop/ulohttp.c fetches the pages that the driver asks for with
    libcurl, which is not part of the repository.  [Curl] is what the program relies
    on: which header lines and which pieces of the body come back for a URL and a
    range, and whether curl_easy_setopt() copies the strings it is given (it does
    since 7.17.0; before, it kept the pointer, which is what [init_curl_and_size]
    needs).  A transfer may also fail with any code, as [w_faults] decides, after any
    number of pieces. *)
From S2P Require Import AuUtil.
From S2P Require Import Prelude CString Float32 Scan AufsType FhsmData Sys Uloop Ulolib UloSys.

#[local] Ltac Zify.zify_post_hook ::= Z.to_euclidean_division_equations.

Definition ERANGE : Z := 34.
Definition ULONG_MAX : Z := 2 ^ 64 - 1.

Class Curl := {
  curl_copies : bool;
  curl_reply : bytes -> option bytes -> list bytes * list bytes
}.

Definition CURLE_OK : Z := 0.
Definition CURLE_WRITE_ERROR : Z := 23.

(** What arg_for_curl.p points into: the malloc'ed header buffer, or the mapping of a
    file. *)
Inductive place := InHeader | InMap (p : bytes).

(** struct arg_for_curl *)
Record arg_for_curl := Arg {
  a_place : place; a_off : Z; a_written : Z; a_size : Z; a_err : Z
}.

(** The options of the easy handle that the program sets *)
Record handle := Handle {
  c_url : bytes; c_header : bool; c_write : bool; c_range : option bytes
}.

Record http := Http {
  h_uloop : uloop;
  timeout : Z;
  me : option bytes;
  g_url : bytes;
  range : bytes;
  arg : arg_for_curl;
  header : bytes;
  ezcurl : handle
}.
Definition set_timeout x g := Http (h_uloop g) x (me g) (g_url g) (range g) (arg g) (header g) (ezcurl g).
Definition set_me x g := Http (h_uloop g) (timeout g) x (g_url g) (range g) (arg g) (header g) (ezcurl g).
Definition set_url x g := Http (h_uloop g) (timeout g) (me g) x (range g) (arg g) (header g) (ezcurl g).
Definition set_range x g := Http (h_uloop g) (timeout g) (me g) (g_url g) x (arg g) (header g) (ezcurl g).
Definition set_arg x g := Http (h_uloop g) (timeout g) (me g) (g_url g) (range g) x (header g) (ezcurl g).
Definition set_header x g := Http (h_uloop g) (timeout g) (me g) (g_url g) (range g) (arg g) x (ezcurl g).
Definition set_ezcurl x g := Http (h_uloop g) (timeout g) (me g) (g_url g) (range g) (arg g) (header g) x.

#[export, program] Instance http_uloop : HasUloop http :=
  {| g_uloop := h_uloop;
     put_uloop u g := Http u (timeout g) (me g) (g_url g) (range g) (arg g) (header g) (ezcurl g) |}.
Next Obligation. done. Qed.
Next Obligation. done. Qed.

(** [strtoull(s, NULL, 10)], without its errno *)
Definition strtoull10 (s : bytes) : Z :=
  let '(neg, s) := scan_sign (skip_space s) in
  let '(v, _, _) := scan_digits 10 s 0 0 in
  if v <? 2 ^ 64 then u64 (if neg : bool then - v else v) else ULONG_MAX.

Section http.
Context {CU : Curl}.
Notation world := (world ulok http).
Notation MU := (M world).

Definition mod_g (f : http -> http) : MU unit := modify (fun w => set_glob (f (w_glob w)) w).
Definition gget {A} (f : http -> A) : MU A := gets (fun w => f (w_glob w)).

Definition err_curl : MU Z :=
  e ← gets w_errno;
  m ← gget me;
  print (default (lit "(null)") m) ;;
  mod_g (set_me None) ;;
  mret e.

(** The callback of libcurl: [got] has [size * nmemb] bytes. *)
Definition store_from_curl (got : bytes) (size nmemb : Z) : MU Z :=
  a ← gget arg;
  if (size =? 0) || (nmemb =? 0) || truth (a_err a) then mret 0
  else
    let real_bytes := i32 (size * nmemb) in
    if a_size a <? i32 (a_written a + real_bytes)
    then mod_g (set_arg (Arg (a_place a) (a_off a) (a_written a) (a_size a) (a_err a + 1))) ;;
         mret 0
    else
      (match a_place a with
       | InHeader => mod_g (fun g => set_header
           (splice (Z.to_nat (a_off a)) (take (Z.to_nat real_bytes) got) (header g)) g)
       | InMap p => mem_write p (a_off a) (take (Z.to_nat real_bytes) got)
       end) ;;
      mod_g (set_arg (Arg (a_place a) (a_off a + real_bytes)
                          (i32 (a_written a + real_bytes)) (a_size a) (a_err a))) ;;
      mret nmemb.

(** libcurl hands over the pieces one by one, as [1 * length] bytes, and gives up when
    the callback does not report them all as taken.  Without a callback the pieces of
    the body go to stdout and the header lines nowhere. *)
Fixpoint deliver (pieces : list bytes) : MU Z :=
  match pieces with
  | [] => mret CURLE_OK
  | got :: r =>
      n ← store_from_curl got 1 (Z.of_nat (length got));
      if n =? Z.of_nat (length got) then deliver r else mret CURLE_WRITE_ERROR
  end.
Fixpoint print_all (pieces : list bytes) : MU unit :=
  match pieces with [] => mret tt | got :: r => print got ;; print_all r end.

Definition curl_easy_perform : MU Z :=
  c ← gget ezcurl;
  '(lines, body) ← (mret (curl_reply (c_url c) (c_range c)) : MU (list bytes * list bytes));
  x ← pop_fault;
  let cut (l : list bytes) := match x with FShort n => take n l | FErr _ => [] | FOk => l end in
  err ← (if c_header c then deliver (cut lines) else mret CURLE_OK);
  if truth err then mret err
  else
    err ← (if c_write c then deliver (cut body) else print_all (cut body) ;; mret CURLE_OK);
    if truth err then mret err
    else mret (match x with FOk => CURLE_OK | FErr e => e | FShort _ => 18 end).

Definition curl_easy_setopt (f : handle -> handle) : MU Z :=
  x ← pop_fault;
  match x with
  | FErr e => mret e
  | _ => mod_g (fun g => set_ezcurl (f (ezcurl g)) g) ;; mret CURLE_OK
  end.
Definition opt_url (x : bytes) (c : handle) := Handle x (c_header c) (c_write c) (c_range c).
Definition opt_header (x : bool) (c : handle) := Handle (c_url c) x (c_write c) (c_range c).
Definition opt_write (x : bool) (c : handle) := Handle (c_url c) (c_header c) x (c_range c).
Definition opt_range (x : option bytes) (c : handle) :=
  Handle (c_url c) (c_header c) (c_write c) x.

(** [snprintf(range, sizeof(range) - 1, ...)] writes the static buffer; when libcurl
    keeps the pointer that it was given, its range changes with it. *)
Definition write_range (s : bytes) : MU unit :=
  mod_g (set_range (take 30 s)) ;;
  if curl_copies then mret tt
  else mod_g (fun g => set_ezcurl (opt_range (Some (take 30 s)) (ezcurl g)) g).

(** The end of store(), once libcurl is back *)
Definition store_end (curle : Z) : MU Z :=
  err ← munmap;
  if truth err then mret err
  else if negb (curle =? CURLE_OK) then err_curl
  else
    a ← gget arg;
    if negb (a_written a =? a_size a) then mret (-1) else mret 0.

Definition store (start size : Z) : MU Z :=
  u ← get_u;
  assert_ (u64 (start + size) <=? cache_size u) ;;
  let m := start mod pagesize u in
  let start := start - m in
  let size := i32 (size + m) in
  let tsize := tgt_size u in
  let size := if tsize <? u64 (start + size) then i32 (tsize - start) else size in
  o ← mmap (fd_CACHE u) start size;
  match o with
  | None => mod_g (fun g => set_arg (Arg (a_place (arg g)) (a_off (arg g)) (a_written (arg g)) size (a_err (arg g))) g) ;;
            mret (-1)
  | Some p =>
      mod_g (set_arg (Arg (InMap p) start 0 size 0)) ;;
      write_range (fmt_u start ++ lit "-" ++ fmt_u (u64 (start + size - 1))) ;;
      curle ← curl_easy_perform;
      store_end curle
  end.

(** A C string read from an array: nothing when the array has no terminator. *)
Fixpoint c_string (l : bytes) : option bytes :=
  match l with
  | [] => None
  | c :: r => if decide (c = NUL) then Some [] else cons c <$> c_string r
  end.

Definition hsz : Z := 1024.
Definition bind_ok (e : Z) (k : MU Z) : MU Z := if e =? CURLE_OK then k else mret e.

(** The number behind the slash of the Content-Range line *)
Definition range_total (h : bytes) : option Z :=
  p ← strstr h (lit "Content-Range: bytes ");
  i ← strchr p "/"%char;
  Some (strtoull10 (drop (i + 1) p)).

Example range_total_line :
  range_total (lit "HTTP/1.1 206 Partial Content Content-Range: bytes 0-1/4660 Server: x")
    = Some 4660.
Proof. vm_compute. reflexivity. Qed.
Example range_total_lower : range_total (lit "content-range: bytes 0-1/4660") = None.
Proof. vm_compute. reflexivity. Qed.

(** The malloc'ed header is not cleared, and nothing terminates what is stored. *)
Definition get_size : MU Z :=
  got ← alloc;
  if negb got then mret ULONG_MAX
  else
    mod_g (set_arg (Arg InHeader 0 0 hsz 0)) ;;
    j ← gets (fun w => u_junk (w_kern w));
    mod_g (set_header (replicate (Z.to_nat hsz) (byte_of j))) ;;
    curle ← curl_easy_setopt (opt_header true);
    curle ← bind_ok curle (curl_easy_setopt (opt_range (Some (lit "0-1"))));
    curle ← bind_ok curle curl_easy_perform;
    if negb (curle =? CURLE_OK) then _ ← err_curl; mret ULONG_MAX
    else
      a ← gget arg;
      if truth (a_err a) then
        m ← gget me; print (default (lit "(null)") m) ;; put_errno EINVAL ;; mret ULONG_MAX
      else
        h ← gget header;
        match c_string h with
        | None => ub "header without terminator"
        | Some h =>
            match range_total h with
            | None =>
                u ← gget g_url; print u ;; put_errno EINVAL ;; mret ULONG_MAX
            | Some size =>
                curle ← curl_easy_setopt (opt_header false);
                curle ← bind_ok curle (curl_easy_setopt (opt_range None));
                curle ← bind_ok curle (curl_easy_setopt id);
                if curle =? CURLE_OK then mret size
                else _ ← err_curl; mret ULONG_MAX
            end
        end.

Definition init_curl_and_size : MU Z :=
  put_errno ENOMEM ;;
  got ← alloc;
  if negb got then mret (u64 (-1))
  else
    mod_g (set_ezcurl (Handle [] false false None)) ;;
    url ← gget g_url;
    curle ← curl_easy_setopt (opt_url url);
    curle ← bind_ok curle (curl_easy_setopt id);
    if negb (curle =? CURLE_OK) then _ ← err_curl; mret (u64 (-1))
    else
      put_errno ERANGE ;;
      sz ← get_size;
      if sz =? ULONG_MAX then _ ← err_curl; mret sz
      else
        curle ← curl_easy_setopt (opt_write true);
        r ← gget range;
        curle ← bind_ok curle (curl_easy_setopt (opt_range (Some r)));
        if curle =? CURLE_OK then mret sz else _ ← err_curl; mret sz.

Definition init (pid : Z) (dev cache bitmap : bytes) : MU Z :=
  size ← init_curl_and_size;
  let err := i32 size in
  if negb (err =? -1) then ulo_init pid (UloInit dev cache bitmap 0 size) else mret err.

Definition usage {A} : MU A :=
  m ← gget me;
  print (default (lit "(null)") m ++ clit " [-b bitmap] [-c cache] [-t timeout]" ++
    clit " /dev/loopN url_for_fs_image_file\n" ++
    clit "and then, \qmount /dev/loopN /wherever/you/like\n") ;;
  exit_ EINVAL.

(** The options: 'b', 'c', and 't' with what strtol() makes of its argument: a number,
    or nothing when errno is set. *)
Inductive http_opt := OptB (arg : bytes) | OptC (arg : bytes) | OptT (arg : bytes) (v : option Z)
  | OptBad.

(** [inl err] is an early return. *)
Fixpoint parse_opts (calls : list http_opt) (c b : option bytes)
    : MU (Z + (option bytes * option bytes)) :=
  match calls with
  | [] => mret (inr (c, b))
  | OptB a :: r => parse_opts r c (Some a)
  | OptC a :: r => parse_opts r (Some a) b
  | OptT a v :: r =>
      match v with
      | Some v => put_errno 0 ;; mod_g (set_timeout (i32 v)) ;; parse_opts r c b
      | None => put_errno ERANGE ;; mod_g (set_me (Some a)) ;; mret (inl ERANGE)
      end
  | OptBad :: _ => usage
  end.

Definition parse (pid : Z) (calls : list http_opt) (operands : list bytes)
    : MU (Z + bytes * bytes * bytes) :=
  o ← parse_opts calls None None;
  match o with
  | inl err => mret (inl err)
  | inr (c, b) =>
      match operands with
      | [dev; url] =>
          mod_g (set_url url) ;;
          mret (inr (dev, default (cache_def pid) c, default (bitmap_def pid) b))
      | _ => usage
      end
  end.

(** [inl status]: the process that was started ends with it; [inr tt]: the child goes
    on in ulo_loop(SIGUSR1, store, ezcurl). *)
Definition main (argv0 : bytes) (pid : Z) (calls : list http_opt) (operands : list bytes)
    : MU (Z + unit) :=
  mod_g (set_me (Some argv0)) ;;
  o ← parse pid calls operands;
  err ← match o with
        | inl err => mret err
        | inr (dev, cache, bitmap) => init pid dev cache bitmap
        end;
  if truth err then
    m ← gget me; (if m is Some m then print m else mret tt) ;; mret (inl err)
  else
    p ← fork_;
    if p =? 0 then mret (inr tt) else mret (inl err).

(** ** Taking the pieces of the body *)

(** The callback's view of a mapping: [n] bytes of [sz] have come. *)
Definition arg_map (p : bytes) (off sz n : Z) : arg_for_curl := Arg (InMap p) (off + n) n sz 0.

(** Only the file [p] and arg_for_curl have changed, and no size. *)
Definition arg_only (p : bytes) (w w' : world) : Prop :=
  (exists a, w_glob w' = set_arg a (w_glob w)) /\ w_kern w' = w_kern w /\ w_fds w' = w_fds w /\
  w_errno w' = w_errno w /\ w_faults w' = w_faults w /\
  (forall q, q <> p -> contents q w' = contents q w) /\
  length (contents p w') = length (contents p w).

Lemma arg_only_refl p w : arg_only p w w.
Proof. split; [exists (arg (w_glob w)); by destruct (w_glob w)|by split_and!]. Qed.

Lemma arg_only_trans p w1 w2 w3 : arg_only p w1 w2 -> arg_only p w2 w3 -> arg_only p w1 w3.
Proof.
  intros ([a Ha] & ? & ? & ? & ? & Ka & ?) ([b Hb] & ? & ? & ? & ? & Kb & ?).
  split; [exists b; by rewrite Hb, Ha|]. split_and!; try congruence.
  intros q Hq. by rewrite Kb, Ka.
Qed.

Lemma fills_trans target c1 c2 c3 : fills target c1 c2 -> fills target c2 c3 -> fills target c1 c3.
Proof. intros H1 H2 i. destruct (H2 i) as [->|?]; [apply H1|by right]. Qed.

(** One piece that belongs behind what has come: it is refused, when it does not fit,
    or put there. *)
Lemma store_piece target p off sz n got (w : world) :
  arg (w_glob w) = arg_map p off sz n -> 0 <= off -> 0 <= n <= sz -> sz < 2 ^ 30 ->
  0 < Z.of_nat (length got) <= 16384 ->
  (forall i, (i < length got)%nat -> got !! i = target !! (Z.to_nat (off + n) + i)%nat) ->
  (Z.to_nat (off + n) + length got <= length target)%nat ->
  (length target <= length (contents p w))%nat ->
  exists r w', store_from_curl got 1 (Z.of_nat (length got)) w = (Ret r, w') /\
    arg_only p w w' /\
    ((r = 0 /\ contents p w' = contents p w) \/
     (r = Z.of_nat (length got) /\ arg (w_glob w') = arg_map p off sz (n + Z.of_nat (length got)) /\
      n + Z.of_nat (length got) <= sz /\
      contents p w' = take (length (contents p w))
        (splice (Z.to_nat (off + n)) got (contents p w)))).
Proof.
  intros Ha Ho Hn Hsz Hl Hg Ht Hc. unfold store_from_curl, gget. rewrite bind_gets, Ha.
  unfold arg_map. cbn [a_err a_size a_written a_place a_off].
  rewrite (proj2 (Z.eqb_neq 1 0)), (proj2 (Z.eqb_neq (Z.of_nat _) 0)) by lia.
  cbn [orb truth negb Z.eqb]. rewrite Z.mul_1_l. cbv zeta.
  assert (i32 (Z.of_nat (length got)) = Z.of_nat (length got)) as -> by (apply wrap_s_small; lia).
  assert (i32 (n + Z.of_nat (length got)) = n + Z.of_nat (length got)) as ->
    by (apply wrap_s_small; lia).
  destruct (Z.ltb_spec sz (n + Z.of_nat (length got))) as [Hf|Hf].
  - unfold mod_g. rewrite bind_modify. eexists _, _. split; [reflexivity|].
    split; [|by left]. split; [by eexists|]. by split_and!.
  - rewrite Nat2Z.id, firstn_all. unfold mem_write. rewrite bind_assoc, bind_gets.
    rewrite (proj2 (Z.ltb_ge _ _)) by (unfold page_round, PAGE; lia).
    rewrite bind_modify. unfold mod_g. rewrite bind_modify. eexists _, _. split; [reflexivity|].
    set (c' := take _ _).
    match goal with |- arg_only p w ?w' /\ _ => assert (forall q, contents q w' =
      if decide (p = q) then c' else contents q w) as Hc' end.
    { intros q. unfold contents. simpl. case_decide as Hd.
      - subst q. by rewrite lookup_insert_eq.
      - by rewrite lookup_insert_ne. }
    split.
    + split; [by eexists|]. split_and!; try done.
      * intros q Hq. by rewrite Hc', decide_False.
      * rewrite Hc', decide_True by done. unfold c'. rewrite length_take, length_splice; lia.
    + right. rewrite Hc', decide_True by done. simpl. unfold arg_map.
      split_and!; try done. f_equal. lia.
Qed.

(** All pieces: when none is refused, all that the server sent is in its place. *)
Lemma deliver_pieces target p off sz pieces (w : world) n :
  arg (w_glob w) = arg_map p off sz n -> 0 <= off -> 0 <= n <= sz -> sz < 2 ^ 30 ->
  Forall (fun x : bytes => 0 < Z.of_nat (length x) <= 16384) pieces ->
  (forall i, (i < length (mjoin pieces))%nat ->
     mjoin pieces !! i = target !! (Z.to_nat (off + n) + i)%nat) ->
  (Z.to_nat (off + n) + length (mjoin pieces) <= length target)%nat ->
  (length target <= length (contents p w))%nat ->
  exists err w', deliver pieces w = (Ret err, w') /\ arg_only p w w' /\
    fills target (contents p w) (contents p w') /\
    (err = 0 -> arg (w_glob w') = arg_map p off sz (n + Z.of_nat (length (mjoin pieces))) /\
      forall i, (Z.to_nat (off + n) <= i < Z.to_nat (off + n) + length (mjoin pieces))%nat ->
        contents p w' !! i = target !! i).
Proof.
  intros Ha Ho Hn Hsz HF. revert n w Ha Hn.
  induction HF as [|got r Hl HF IH]; intros n w Ha Hn Hp Ht Hc.
  { exists 0, w. split; [done|]. split; [apply arg_only_refl|].
    split; [apply fills_refl|]. intros _. split; [|simpl; lia]. simpl. by rewrite Z.add_0_r. }
  simpl in Hp, Ht. rewrite length_app in Hp, Ht.
  assert (forall i, (i < length got)%nat -> got !! i = target !! (Z.to_nat (off + n) + i)%nat) as Hg.
  { intros i Hi. rewrite <- Hp by lia. by rewrite lookup_app_l. }
  destruct (store_piece target p off sz n got w Ha Ho Hn Hsz Hl Hg ltac:(lia) Hc)
    as (v & w1 & E & Hao & Hcase).
  cbn [deliver]. rewrite (bind_run _ _ _ _ _ E).
  destruct Hcase as [[-> Hc1]|(-> & Ha1 & Hn1 & Hc1)].
  { rewrite (proj2 (Z.eqb_neq _ _)) by lia. exists 23, w1. split; [done|]. split; [done|].
    rewrite Hc1. split; [apply fills_refl|done]. }
  rewrite Z.eqb_refl.
  assert (length (contents p w1) = length (contents p w)) as Hlen by apply Hao.
  destruct (IH (n + Z.of_nat (length got)) w1 Ha1) as (err & w2 & E2 & Hao2 & Hf2 & Hok2); try lia.
  { intros i Hi. replace (Z.to_nat (off + (n + Z.of_nat (length got))) + i)%nat
      with (Z.to_nat (off + n) + (length got + i))%nat by lia.
    rewrite <- Hp by lia. rewrite lookup_app_r by lia. f_equal. lia. }
  exists err, w2. split; [done|]. split; [by eapply arg_only_trans|].
  assert (fills target (contents p w) (contents p w1)) as Hf1
    by (rewrite Hc1; apply put_fills; [exact Hg|lia]).
  split; [by eapply fills_trans|]. intros He. destruct (Hok2 He) as [Ha2 Hd2].
  simpl. rewrite length_app. split; [rewrite Ha2; f_equal; lia|].
  intros i Hi. destruct (decide (i < Z.to_nat (off + n) + length got)%nat) as [Hlt|Hge].
  - destruct (Hf2 i) as [->|[_ ->]]; [|done]. rewrite Hc1.
    rewrite lookup_take_lt by lia. rewrite lookup_splice_in, Hg by lia. f_equal. lia.
  - apply Hd2. lia.
Qed.

(** ** Fetching a page *)

Section fetch.
Context (cachep bmpp url target : bytes).

(** libcurl keeps the pointer to the range, and the server sends what a range asks
    for, in pieces of at most CURL_MAX_WRITE_SIZE bytes. *)
Context (Hkeeps : curl_copies = false).
Context (Hserver : forall a b, 0 <= a <= b -> b < Z.of_nat (length target) ->
  exists lines body,
    curl_reply url (Some (fmt_u a ++ lit "-" ++ fmt_u b)) = (lines, body) /\
    mjoin body = take (Z.to_nat (b - a + 1)) (drop (Z.to_nat a) target) /\
    Forall (fun x : bytes => 0 < Z.of_nat (length x) <= 16384) body).

Definition glob_ok (g : http) : Prop :=
  let u := h_uloop g in
  pagesize u = PAGE /\ tgt_size u = Z.of_nat (length target) /\
  cache_size u = round_page PAGE (tgt_size u) /\ tgt_size u < 10 ^ 14 /\
  c_url (ezcurl g) = url /\ c_header (ezcurl g) = false /\ c_write (ezcurl g) = true.

(** The library has been set up for the target, and so has libcurl; errno is not 0,
    as init_curl_and_size() has left it.  The target is at most 100 TB, so that a
    range fits in its buffer. *)
Definition http_env (w : world) : Prop :=
  glob_ok (w_glob w) /\ Z.of_nat (length (contents cachep w)) = cache_size (h_uloop (w_glob w)) /\
  w_fds w !! fd_CACHE (h_uloop (w_glob w)) = Some cachep /\ w_errno w <> 0.

(** What the steps of store() change: the cache, filled; what is pending; and
    variables that [glob_ok] does not look at. *)
Definition fetching (w w' : world) : Prop :=
  w_kern w' = w_kern w /\ w_fds w' = w_fds w /\ (good_faults w -> good_faults w') /\
  (good_faults w -> w_errno w <> 0 -> w_errno w' <> 0) /\
  (forall q, q <> cachep -> contents q w' = contents q w) /\
  length (contents cachep w') = length (contents cachep w) /\
  h_uloop (w_glob w') = h_uloop (w_glob w) /\ (glob_ok (w_glob w) -> glob_ok (w_glob w')) /\
  fills target (contents cachep w) (contents cachep w').

Lemma fetching_refl w : fetching w w.
Proof. split_and!; try done. apply fills_refl. Qed.

Lemma fetching_trans w1 w2 w3 : fetching w1 w2 -> fetching w2 w3 -> fetching w1 w3.
Proof.
  intros (A1 & A2 & A3 & A4 & A5 & A6 & A7 & A8 & A9) (B1 & B2 & B3 & B4 & B5 & B6 & B7 & B8 & B9).
  unfold fetching. split_and!; try congruence; auto.
  - intros q Hq. by rewrite B5, A5.
  - by eapply fills_trans.
Qed.

Lemma still_fetching w w' : still w w' -> fetching w w'.
Proof.
  intros S. pose proof S as (H1 & H2 & H3 & H4 & H5 & H6). unfold fetching.
  rewrite H3. unfold contents. rewrite H1. split_and!; try done. apply fills_refl.
Qed.

Lemma arg_only_fetching w w' :
  arg_only cachep w w' -> fills target (contents cachep w) (contents cachep w') -> fetching w w'.
Proof.
  intros ([a Ha] & H1 & H2 & H3 & H4 & H5 & H6) Hf. unfold fetching, good_faults.
  rewrite Ha, H1, H3, H4. by split_and!.
Qed.

Lemma glob_fetching f w :
  (forall g, h_uloop (f g) = h_uloop g) -> (forall g, glob_ok g -> glob_ok (f g)) ->
  fetching w (set_glob (f (w_glob w)) w).
Proof.
  intros H1 H2. unfold fetching. simpl. rewrite H1. split_and!; auto. apply fills_refl.
Qed.

Lemma fetching_env w w' : good_faults w -> fetching w w' -> http_env w -> http_env w'.
Proof.
  intros Hg (A1 & A2 & A3 & A4 & A5 & A6 & A7 & A8 & A9) (B1 & B2 & B3 & B4). unfold http_env.
  rewrite A6, A7, A2. by split_and!; auto.
Qed.

Lemma mod_g_run {A} f (k : unit -> MU A) (w : world) :
  (mod_g f ≫= k) w = k tt (set_glob (f (w_glob w)) w).
Proof. reflexivity. Qed.

Lemma write_range_run {A} s (k : unit -> MU A) (w : world) :
  exists w', (write_range s ≫= k) w = k tt w' /\ fetching w w' /\
    arg (w_glob w') = arg (w_glob w) /\ c_range (ezcurl (w_glob w')) = Some (take 30 s).
Proof.
  unfold write_range. rewrite Hkeeps, bind_assoc, !mod_g_run. eexists. split; [reflexivity|].
  split; [|done]. eapply fetching_trans; [apply (glob_fetching (set_range (take 30 s))); done|].
  apply (glob_fetching (fun g => set_ezcurl (opt_range (Some (take 30 s)) (ezcurl g)) g)); done.
Qed.

Lemma mjoin_take_drop (l : list bytes) n : mjoin l = mjoin (take n l) ++ mjoin (drop n l).
Proof. rewrite <- (take_drop n l) at 1. apply join_app. Qed.

(** A range that the server knows: unless something fails, all of it arrives. *)
Lemma perform_spec off n (w : world) :
  good_faults w -> http_env w -> 0 <= off -> 0 < n < 8192 ->
  off + n <= Z.of_nat (length target) ->
  arg (w_glob w) = arg_map cachep off n 0 ->
  c_range (ezcurl (w_glob w)) = Some (fmt_u off ++ lit "-" ++ fmt_u (off + n - 1)) ->
  exists err w', curl_easy_perform w = (Ret err, w') /\ fetching w w' /\
    (err = 0 -> forall i, (Z.to_nat off <= i < Z.to_nat off + Z.to_nat n)%nat ->
       contents cachep w' !! i = target !! i).
Proof.
  intros Hg (HG & Hlen & Hfd & He) Ho Hn Ht Ha Hr.
  destruct HG as (Hpg & Hts & Hcs & Hmax & Hurl & Hch & Hcw).
  destruct (round_page_spec (tgt_size (h_uloop (w_glob w)))) as [_ Hr2]; [lia|]. rewrite <- Hcs in Hr2.
  unfold curl_easy_perform, gget. rewrite bind_gets. rewrite Hurl, Hr.
  destruct (Hserver off (off + n - 1)) as (lines & body & -> & Hbody & Hpieces); [lia|lia|].
  rewrite bind_ret. destruct (pop_fault_still w) as (x & w1 & E1 & S1 & Hx).
  rewrite (bind_run _ _ _ _ _ E1). rewrite Hch, Hcw. cbv zeta. rewrite bind_ret. cbn [truth negb Z.eqb CURLE_OK].
  replace (off + n - 1 - off + 1) with n in Hbody by lia.
  set (cut := match x with FOk => body | FErr _ => [] | FShort k => take k body end).
  assert (exists k, cut = take k body) as [k Hk].
  { unfold cut. destruct x as [|e|k]; [|by exists 0%nat|by exists k].
    exists (length body). by rewrite firstn_all. }
  assert (forall i, (i < length (mjoin cut))%nat -> mjoin cut !! i = mjoin body !! i) as Hpre.
  { intros i Hi. rewrite (mjoin_take_drop body k), <- Hk. by rewrite lookup_app_l. }
  assert (length (mjoin cut) <= Z.to_nat n)%nat as Hlc.
  { assert (length (mjoin cut) <= length (mjoin body))%nat as H
      by (rewrite (mjoin_take_drop body k), <- Hk, length_app; lia).
    rewrite Hbody, length_take in H. lia. }
  destruct (deliver_pieces target cachep off n cut w1 0) as (err & w2 & E2 & Hao & Hf & Hok).
  { destruct S1 as (_ & _ & -> & _). done. }
  { done. } { lia. } { lia. }
  { rewrite Hk. by apply Forall_take. }
  { intros i Hi. rewrite Hpre, Hbody by done. rewrite lookup_take_lt by lia.
    rewrite lookup_drop. f_equal. lia. }
  { lia. }
  { rewrite (still_contents w w1) by done. lia. }
  rewrite (bind_run _ _ _ _ _ E2).
  assert (fetching w w2) as Hfe.
  { eapply fetching_trans; [by apply still_fetching|]. by apply arg_only_fetching. }
  destruct (Z.eqb_spec err 0) as [->|Hne]; cbn [truth negb Z.eqb].
  2:{ unfold truth. rewrite (proj2 (Z.eqb_neq _ _)) by done. exists err, w2. by split_and!. }
  eexists _, w2. split; [reflexivity|]. split; [done|].
  destruct (Hok eq_refl) as [_ Hd]. specialize (Hx Hg). destruct x as [|e|m]; [|simpl in Hx; lia|lia].
  intros _ i Hi. apply Hd. unfold cut.
  rewrite Hbody, length_take, length_drop. lia.
Qed.

Lemma range_fits a b : 0 <= a < 10 ^ 14 -> 0 <= b < 10 ^ 14 ->
  take 30 (fmt_u a ++ lit "-" ++ fmt_u b) = fmt_u a ++ lit "-" ++ fmt_u b.
Proof.
  intros Ha Hb. apply take_ge. rewrite !length_app. change (length (lit "-")) with 1%nat.
  pose proof (digits_length 10 a 14). pose proof (digits_length 10 b 14). unfold fmt_u.
  change (Z.of_nat 14) with 14 in *. lia.
Qed.

Lemma err_curl_run (w : world) :
  exists w', err_curl w = (Ret (w_errno w), w') /\ fetching w w'.
Proof.
  unfold err_curl, gget, print. rewrite !bind_gets, bind_modify. unfold mod_g.
  rewrite bind_modify. eexists. split; [reflexivity|].
  set (w1 := set_out _ w). eapply (fetching_trans w w1).
  - split_and!; try done. apply fills_refl.
  - apply (glob_fetching (set_me None)); done.
Qed.

(** store() reports success only when libcurl did. *)
Lemma store_end_spec err (w : world) :
  good_faults w -> http_env w ->
  exists o w', store_end err w = (o, w') /\ fetching w w' /\
    contents cachep w' = contents cachep w /\ (o = Ret 0 -> err = 0).
Proof.
  intros Hg He. unfold store_end, munmap. destruct (fallible_still w) as (e & w1 & E & S).
  rewrite (bind_run _ _ _ _ _ E). pose proof (still_fetching _ _ S) as F.
  pose proof (still_contents w w1 cachep S) as Hc.
  unfold truth. destruct (Z.eqb_spec e 0) as [->|Hne]; cbn [negb].
  2:{ eexists _, w1. split; [reflexivity|]. split; [done|]. split; [done|]. congruence. }
  destruct (Z.eqb_spec err CURLE_OK) as [->|Hne]; cbn [negb].
  - unfold gget. rewrite bind_gets.
    exists (if negb (a_written (arg (w_glob w1)) =? a_size (arg (w_glob w1))) then Ret (-1) else Ret 0), w1.
    by split; [by destruct (negb _)|].
  - eexists _, _. split; [reflexivity|]. split; [|split; [done|]].
    + eapply fetching_trans; [exact F|]. by destruct (err_curl_run w1) as (w2 & [= <-] & F2).
    + intros [= H0]. exfalso. destruct (fetching_env w w1 Hg F He) as (_ & _ & _ & Hne1). by apply Hne1.
Qed.

Lemma store_fetches start (w : world) :
  http_env w -> good_faults w -> 0 <= start < 2 ^ 64 ->
  exists o w', store start PAGE w = (o, w') /\ fetching w w' /\
    (o = Ret 0 -> stored target (contents cachep w') (start / PAGE)).
Proof.
  intros He Hg Hs. pose proof He as ((Hpg & Hts & Hcs & Hmax & _) & Hlen & Hfd & _).
  unfold store, get_u. rewrite bind_gets. change (g_uloop (w_glob w)) with (h_uloop (w_glob w)).
  set (u := h_uloop (w_glob w)) in *. unfold assert_.
  destruct (Z.leb_spec (u64 (start + PAGE)) (cache_size u)) as [Ha|Ha].
  2:{ eexists _, w. split; [reflexivity|]. split; [apply fetching_refl|done]. }
  rewrite bind_ret, Hpg. cbv zeta. set (off := start - start mod PAGE).
  set (n := if _ <? _ then _ else _).
  destruct (mmap_still (fd_CACHE u) off n w) as (o & w1 & E1 & S1 & H1).
  rewrite (bind_run _ _ _ _ _ E1). destruct o as [p|].
  2:{ rewrite mod_g_run. eexists _, _. split; [reflexivity|]. split; [|done].
      eapply fetching_trans; [by apply still_fetching|].
      apply (glob_fetching (fun g => set_arg (Arg (a_place (arg g)) (a_off (arg g))
        (a_written (arg g)) n (a_err (arg g))) g)); done. }
  destruct (H1 p eq_refl) as (-> & _ & _ & Hio). rewrite Hfd. cbn [default id].
  rewrite Hcs in Ha.
  pose proof (store_window (tgt_size u) start Hs ltac:(lia) Ha Hio) as Hwin.
  cbv zeta in Hwin. fold off in Hwin. fold n in Hwin.
  destruct Hwin as (Hoff & Hn & Hle & Hcov). clearbody n. rewrite Hts in Hle, Hcov.
  assert (0 <= off) as Hoff0 by (unfold PAGE in *; lia).
  rewrite mod_g_run. set (w2 := set_glob _ w1).
  assert (fetching w w2) as F2.
  { eapply fetching_trans; [by apply still_fetching|].
    apply (glob_fetching (set_arg (Arg (InMap cachep) off 0 n 0))); done. }
  match goal with |- context[(write_range ?s ≫= ?k) w2] =>
    destruct (write_range_run s k w2) as (w3 & -> & F3 & Ha3 & Hr3) end.
  pose proof (fetching_trans _ _ _ F2 F3) as F3'.
  assert (good_faults w3) as Hg3 by (apply F3'; done).
  rewrite (u64_small (off + n - 1)), range_fits in Hr3 by lia.
  destruct (perform_spec off n w3) as (err & w4 & E4 & F4 & Hd); try done.
  { by eapply (fetching_env w). }
  { rewrite Ha3. simpl. unfold arg_map. by rewrite Z.add_0_r. }
  rewrite (bind_run _ _ _ _ _ E4). pose proof (fetching_trans _ _ _ F3' F4) as F4'.
  destruct (store_end_spec err w4) as (o & w5 & E5 & F5 & Hc5 & Ho); [by apply F4'| |].
  { by eapply (fetching_env w). }
  exists o, w5. split; [exact E5|]. split; [by eapply fetching_trans|].
  intros ->. rewrite Hc5. intros i Hi Hti. apply Hd; [by apply Ho|]. unfold PAGE in *. lia.
Qed.

Context (Hcb : cachep <> bmpp).

#[export, program] Instance http_store : UloStore store cachep bmpp target :=
  {| store_env := http_env |}.
Next Obligation.
  intros w w' Hp Hg Hf He (H1 & H2 & H3 & H4). unfold http_env.
  rewrite Hg, Hf, Hp by done. by split_and!; auto.
Qed.
Next Obligation.
  intros start w He Hg Hs. destruct (store_fetches start w He Hg Hs) as (o & w' & -> & F & Hst).
  pose proof F as (A1 & A2 & A3 & A4 & A5 & A6 & A7 & A8 & A9).
  split; [by split_and!|]. split; [by eapply fetching_env|]. by split.
Qed.

(** C34. ulo_init() and store() of ulohttp.c together with the driver, behind a libcurl
    that keeps the pointer to the range: once ulo_init() has returned 0 for a file of
    [size] bytes, on new files and with none of its own calls failing, with the handle
    as init_curl_and_size() leaves it and with errno, which err_curl() answers with, not
    0 as it leaves it, then however many readers and copies of the process run, in
    whatever order, and whichever of the calls fail that follow ([faults]: any list of
    errors and of short transfers, those of the network among them), as long as the
    bitmap can be read: a transfer inside the bitmap ([req_ok]) that is reported as done
    has copied the bytes of the file on the server. *)
Theorem ulohttp_serves_file pid dev size (w w' : world) faults thr usr s i r err buf :
  w_faults w = [] -> u_rfaults (w_kern w) = [] -> u_modes (w_kern w) = ∅ ->
  w_files w !! cachep = None -> w_files w !! bmpp = None ->
  0 <= w_nextfd w -> w_nextfd w + 3 < 2 ^ 31 -> 0 < size < 10 ^ 14 ->
  Z.of_nat (length target) = size ->
  c_url (ezcurl (w_glob w)) = url -> c_header (ezcurl (w_glob w)) = false ->
  c_write (ezcurl (w_glob w)) = true ->
  ulo_init pid (UloInit dev cachep bmpp 0 size) w = (Ret 0, w') -> w_errno w' <> 0 ->
  Forall good_fault faults ->
  Forall (fun t => t.2 = XStart /\
    req_ok (8 * bitmap_size PAGE (round_page PAGE size)) t.1) thr ->
  Forall (fun u => exists ctl, u.2 = UBegin ctl) usr ->
  rtc (step store 10) (Sys (set_faults faults w') thr usr) s ->
  s_thr s !! i = Some (r, XDone err buf) -> err = 0 ->
  exists b, buf = Some b /\
    forall k, (k < Z.to_nat (x_size r))%nat -> (Z.to_nat (x_raw r) + k < length target)%nat ->
      b !! k = target !! (Z.to_nat (x_raw r) + k)%nat.
Proof.
  intros Hf Hr Hm Hcp Hbp Hn Hfd Hs Hlen Hurl Hch Hcw Hi He Hfl Ht Hu Hst Hthr ->.
  destruct (round_page_spec size) as [Hc1 Hc2]; [lia|].
  eapply (init_served store 10 cachep bmpp target Hcb pid dev size w w' faults); try done; [lia|].
  intros _ Hfd1 Hg1 Hcc. unfold store_env, http_store, http_env, glob_ok.
  change (contents ?p (set_faults _ w')) with (contents p w').
  cbn [w_glob w_fds w_errno set_faults]. rewrite Hg1, Hfd1. simpl.
  rewrite Hcc, length_zeros by (unfold PAGE in *; lia). split_and!; try done; try lia.
  do 2 rewrite lookup_insert_ne by lia. by rewrite lookup_insert_eq.
Qed.
End fetch.

(** ** A libcurl that copies the range *)

(** When the callback has taken all pieces, they fitted. *)
Lemma deliver_fits p off sz pieces (w w' : world) n :
  arg (w_glob w) = arg_map p off sz n -> 0 <= n <= sz -> sz < 2 ^ 30 ->
  Forall (fun x : bytes => 0 < Z.of_nat (length x) <= 16384) pieces ->
  deliver pieces w = (Ret 0, w') -> n + Z.of_nat (length (mjoin pieces)) <= sz.
Proof.
  intros Ha Hn Hsz HF. revert n w Ha Hn.
  induction HF as [|got r Hl HF IH]; intros n w Ha Hn E; [simpl; lia|].
  cbn [deliver] in E. unfold store_from_curl, gget in E.
  rewrite bind_assoc, bind_gets, Ha in E. unfold arg_map in E.
  cbn [a_err a_size a_written a_place a_off] in E.
  rewrite (proj2 (Z.eqb_neq 1 0)), (proj2 (Z.eqb_neq (Z.of_nat _) 0)) in E by lia.
  cbn [orb truth negb Z.eqb] in E. rewrite Z.mul_1_l in E. cbv zeta in E.
  assert (i32 (Z.of_nat (length got)) = Z.of_nat (length got)) as Hr by (apply wrap_s_small; lia).
  rewrite Hr in E.
  assert (i32 (n + Z.of_nat (length got)) = n + Z.of_nat (length got)) as Hr2
    by (apply wrap_s_small; lia).
  rewrite Hr2 in E.
  destruct (Z.ltb_spec sz (n + Z.of_nat (length got))) as [Hf|Hf].
  { rewrite bind_assoc, mod_g_run, bind_ret, (proj2 (Z.eqb_neq _ _)) in E by lia. done. }
  unfold mem_write in E. rewrite !bind_assoc, bind_gets in E.
  destruct (page_round _ <? _); [done|]. rewrite bind_modify in E.
  rewrite bind_assoc, mod_g_run, bind_ret, Z.eqb_refl in E.
  simpl. rewrite length_app.
  assert (n + Z.of_nat (length got) + Z.of_nat (length (mjoin r)) <= sz) as Hle; [|lia].
  apply (IH (n + Z.of_nat (length got))) in E; [exact E| |lia]. unfold arg_map. simpl. f_equal. lia.
Qed.

Lemma err_curl_run_ret (w : world) : exists w', err_curl w = (Ret (w_errno w), w').
Proof. by eexists. Qed.

(** errno stays set while the pieces come. *)
Definition errno_set (w : world) : Prop := w_errno w <> 0 /\ good_faults w.

Lemma pres_store_from_curl got k n : preserves errno_set (store_from_curl got k n).
Proof.
  unfold store_from_curl, gget, mem_write, mod_g.
  repeat (pres; try (apply preserves_modify; intros ? H; exact H)).
Qed.

Lemma pres_deliver pieces : preserves errno_set (deliver pieces).
Proof.
  induction pieces; cbn [deliver]; [pres|]. apply preserves_bind; [apply pres_store_from_curl|].
  intros n. pres.
Qed.

(** Too long a body is never taken in whole. *)
Lemma perform_too_long p off n lines body (w : world) :
  errno_set w -> arg (w_glob w) = arg_map p off n 0 -> 0 < n < 8192 ->
  c_write (ezcurl (w_glob w)) = true -> c_header (ezcurl (w_glob w)) = false ->
  curl_reply (c_url (ezcurl (w_glob w))) (c_range (ezcurl (w_glob w))) = (lines, body) ->
  Forall (fun x : bytes => 0 < Z.of_nat (length x) <= 16384) body ->
  8192 <= Z.of_nat (length (mjoin body)) ->
  errno_set (curl_easy_perform w).2 /\ (curl_easy_perform w).1 <> Ret 0.
Proof.
  intros [He Hg] Ha Hn Hcw Hch Hreply HF Hlong. unfold curl_easy_perform, gget.
  rewrite bind_gets, Hreply, bind_ret.
  destruct (pop_fault_still w) as (x & w1 & E & S & Hx). rewrite (bind_run _ _ _ _ _ E).
  rewrite Hch, Hcw. cbv zeta. rewrite bind_ret. cbn [truth negb Z.eqb CURLE_OK].
  set (cut := match x with FOk => body | FErr _ => [] | FShort k => take k body end).
  assert (errno_set w1) as H1 by (destruct S as (_ & _ & _ & _ & ? & ?); split; auto).
  pose proof (pres_deliver cut w1 H1) as Hp. unfold mbind, M_bind.
  destruct (deliver cut w1) as [o w2] eqn:Ed. destruct o as [err| | |]; try (by split).
  destruct (Z.eqb_spec err 0) as [->|Hne]; cbn [truth negb Z.eqb].
  2:{ unfold truth. rewrite (proj2 (Z.eqb_neq _ _)) by done. simpl. split; [done|congruence]. }
  split; [done|]. specialize (Hx Hg). destruct x as [|e|k]; simpl in *; [|intros [= ->]; lia|done].
  assert (arg (w_glob w1) = arg_map p off n 0) as Ha1 by (by destruct S as (_ & _ & -> & _)).
  pose proof (deliver_fits p off n cut w1 w2 0 Ha1 ltac:(lia) ltac:(lia) HF Ed). unfold cut in *. lia.
Qed.

(** With a libcurl that copies the strings it is given, as all do since 7.17.0,
    the ranges that store() writes to its buffer never reach it: every request goes
    out with the range that was copied at the start, and when the server answers that
    with more than two pages, no call of store() ever succeeds. *)
Theorem copied_range_never_stores start rg lines body (w : world) :
  curl_copies = true -> good_faults w -> w_errno w <> 0 ->
  pagesize (h_uloop (w_glob w)) = PAGE -> 0 <= tgt_size (h_uloop (w_glob w)) < 2 ^ 61 ->
  cache_size (h_uloop (w_glob w)) = round_page PAGE (tgt_size (h_uloop (w_glob w))) ->
  c_write (ezcurl (w_glob w)) = true -> c_header (ezcurl (w_glob w)) = false ->
  c_range (ezcurl (w_glob w)) = Some rg ->
  curl_reply (c_url (ezcurl (w_glob w))) (Some rg) = (lines, body) ->
  Forall (fun x : bytes => 0 < Z.of_nat (length x) <= 16384) body ->
  8192 <= Z.of_nat (length (mjoin body)) -> 0 <= start < 2 ^ 64 ->
  (store start PAGE w).1 <> Ret 0.
Proof.
  intros Hcopy Hg He Hpg Ht Hcs Hcw Hch Hr Hreply HF Hlong Hs.
  unfold store, get_u. rewrite bind_gets. change (g_uloop (w_glob w)) with (h_uloop (w_glob w)).
  set (u := h_uloop (w_glob w)) in *. unfold assert_.
  destruct (Z.leb_spec (u64 (start + PAGE)) (cache_size u)) as [Ha|Ha]; [|done].
  rewrite bind_ret, Hpg. cbv zeta. set (off := start - start mod PAGE).
  set (n := if _ <? _ then _ else _).
  destruct (mmap_still (fd_CACHE u) off n w) as (o & w1 & E1 & S1 & H1).
  rewrite (bind_run _ _ _ _ _ E1). destruct o as [p|]; [|done].
  destruct (H1 p eq_refl) as (_ & _ & _ & Hio). rewrite Hcs in Ha.
  pose proof (store_window (tgt_size u) start Hs Ht Ha Hio) as Hwin.
  cbv zeta in Hwin. fold off in Hwin. fold n in Hwin. destruct Hwin as (_ & Hn & _). clearbody n.
  rewrite mod_g_run. unfold write_range. rewrite Hcopy, bind_assoc, mod_g_run, bind_ret.
  set (w2 := set_glob _ _).
  assert (w_glob w1 = w_glob w) as Hg1 by apply S1.
  assert (w_faults w2 = w_faults w1) as Hf2 by done.
  assert (good_faults w2 /\ w_errno w2 <> 0) as [Hg2 He2].
  { destruct S1 as (_ & _ & _ & _ & Hgf & Her). split; [by apply Hgf|by apply Her]. }
  match goal with |- ((curl_easy_perform ≫= ?k) w2).1 <> _ => set (tail := k) end.
  destruct (perform_too_long p off n lines body w2) as [Hes Hne]; try done.
  { simpl. unfold arg_map. by rewrite Z.add_0_r. }
  { simpl. by rewrite Hg1. } { simpl. by rewrite Hg1. } { simpl. by rewrite Hg1, Hr. }
  unfold mbind, M_bind. destruct (curl_easy_perform w2) as [[c| | |] w4]; try done.
  simpl in Hes, Hne. unfold tail, store_end, munmap.
  destruct (fallible_still w4) as (e & w5 & E5 & S5). unfold munmap.
  rewrite (bind_run _ _ _ _ _ E5). unfold truth.
  destruct (Z.eqb_spec e 0) as [->|]; cbn [negb]; [|simpl; congruence].
  rewrite (proj2 (Z.eqb_neq c CURLE_OK)) by (unfold CURLE_OK; congruence). cbn [negb].
  destruct (err_curl_run_ret w5) as [w6 ->]. simpl.
  destruct S5 as (_ & _ & _ & _ & _ & Her), Hes as [He4 Hg4].
  intros [= H0]. by apply (Her Hg4 He4).
Qed.

(** ** The size of the target *)

Lemma deliver_header lines (w : world) n h :
  arg (w_glob w) = Arg InHeader n n hsz 0 -> header (w_glob w) = h ->
  Z.of_nat (length h) = hsz -> 0 <= n -> n + Z.of_nat (length (mjoin lines)) <= hsz ->
  Forall (fun x : bytes => (0 < length x)%nat) lines ->
  exists g, deliver lines w = (Ret 0, set_glob g w) /\ ezcurl g = ezcurl (w_glob w) /\
    a_err (arg g) = 0 /\ g_url g = g_url (w_glob w) /\ me g = me (w_glob w) /\
    header g = take (Z.to_nat n) h ++ mjoin lines ++
               drop (Z.to_nat n + length (mjoin lines)) h.
Proof.
  intros Ha Hh Hl Hn Ht HF. revert n w h Ha Hh Hl Hn Ht.
  induction HF as [|got r Hg HF IH]; intros n w h Ha Hh Hl Hn Ht.
  { exists (w_glob w). split; [by destruct w|]. rewrite Ha. split_and!; try done.
    simpl. rewrite Nat.add_0_r, take_drop. done. }
  simpl in Ht. rewrite length_app in Ht. unfold hsz in *.
  assert (store_from_curl got 1 (Z.of_nat (length got)) w =
    (Ret (Z.of_nat (length got)), set_glob (set_arg (Arg InHeader (n + Z.of_nat (length got))
       (n + Z.of_nat (length got)) hsz 0) (set_header (splice (Z.to_nat n) got h) (w_glob w))) w)) as E.
  { unfold store_from_curl, gget. rewrite bind_gets, Ha. cbn [a_err a_size a_written a_place a_off].
    rewrite (proj2 (Z.eqb_neq 1 0)), (proj2 (Z.eqb_neq (Z.of_nat _) 0)) by lia.
    cbn [orb truth negb Z.eqb]. rewrite Z.mul_1_l. cbv zeta.
    assert (i32 (Z.of_nat (length got)) = Z.of_nat (length got)) as -> by (apply wrap_s_small; lia).
    assert (i32 (n + Z.of_nat (length got)) = n + Z.of_nat (length got)) as ->
      by (apply wrap_s_small; lia).
    rewrite (proj2 (Z.ltb_ge _ _)) by lia. rewrite !mod_g_run, Nat2Z.id, firstn_all, Hh. done. }
  cbn [deliver]. rewrite (bind_run _ _ _ _ _ E), Z.eqb_refl.
  set (w1 := set_glob _ w).
  destruct (IH (n + Z.of_nat (length got)) w1 (splice (Z.to_nat n) got h))
    as (g & E2 & H1 & H2 & H3 & H4 & H5); try done; try lia.
  { rewrite length_splice; lia. }
  exists g. split; [by rewrite E2|]. split_and!; try done. rewrite H5. simpl. rewrite length_app.
  unfold splice. replace (Z.to_nat n - length h)%nat with 0%nat by lia. simpl. rewrite app_nil_r.
  assert (length (take (Z.to_nat n) h) = Z.to_nat n) as Hlt by (rewrite length_take; lia).
  replace (Z.to_nat (n + Z.of_nat (length got))) with (Z.to_nat n + length got)%nat by lia.
  rewrite take_app_ge, drop_app_ge by lia. rewrite Hlt.
  replace (Z.to_nat n + length got - Z.to_nat n)%nat with (length got) by lia.
  rewrite take_app_length, drop_app_ge by lia. rewrite drop_drop, <- !app_assoc.
  f_equal. f_equal. f_equal. f_equal. lia.
Qed.

Lemma c_string_app s r : NUL ∉ s -> c_string (s ++ r) = app s <$> c_string r.
Proof.
  induction s as [|c s IH]; intros H; [simpl; by destruct (c_string r)|].
  apply not_elem_of_cons in H as [Hc Hs]. simpl. rewrite decide_False by congruence.
  rewrite IH by done. by destruct (c_string r).
Qed.

Lemma c_string_replicate n c : c <> NUL -> c_string (replicate n c) = None.
Proof. intros H. induction n; simpl; [done|]. rewrite decide_False by done. by rewrite IHn. Qed.

Lemma print_all_run l (w : world) : print_all l w = (Ret tt, set_out (w_out w ++ l) w).
Proof.
  revert w. induction l as [|x l IH]; intros w; simpl; [rewrite app_nil_r; by destruct w|].
  unfold print. rewrite bind_modify, IH. simpl. by rewrite <- app_assoc.
Qed.

Lemma setopt_ok f (w : world) :
  w_faults w = [] ->
  curl_easy_setopt f w = (Ret CURLE_OK, set_glob (set_ezcurl (f (ezcurl (w_glob w))) (w_glob w)) w).
Proof.
  intros Hf. unfold curl_easy_setopt. by rewrite (bind_run _ _ _ _ _ (pop_fault_ok w Hf)).
Qed.

Lemma bind_ok_OK k : bind_ok CURLE_OK k = k.
Proof. done. Qed.

Lemma alloc_ok (w : world) : w_faults w = [] -> alloc w = (Ret true, w).
Proof. intros Hf. unfold alloc. by rewrite (bind_run _ _ _ _ _ (pop_fault_ok w Hf)). Qed.

(** How get_size() finds the size of the target, when nothing fails and the
    header lines hold no NUL and fit in the 1024 bytes that are allocated: it is the
    number behind the slash of the Content-Range line, ULONG_MAX without such a line,
    provided that the fresh memory happens to be zero and one byte of it is left over.
    The buffer is never terminated: in all other cases strstr() runs over its end. *)
Theorem get_size_result lines body (w : world) :
  w_faults w = [] -> c_write (ezcurl (w_glob w)) = false ->
  curl_reply (c_url (ezcurl (w_glob w))) (Some (lit "0-1")) = (lines, body) ->
  Forall (fun x : bytes => (0 < length x)%nat) lines ->
  Z.of_nat (length (mjoin lines)) <= 1024 -> NUL ∉ mjoin lines ->
  (get_size w).1 =
    if bool_decide (byte_of (u_junk (w_kern w)) = NUL) && (Z.of_nat (length (mjoin lines)) <? 1024)
    then Ret (default ULONG_MAX (range_total (mjoin lines)))
    else Ub "header without terminator".
Proof.
  intros Hf Hcw Hreply HF Hlen Hnul. unfold get_size.
  rewrite (bind_run _ _ _ _ _ (alloc_ok w Hf)). cbn [negb].
  rewrite mod_g_run, bind_gets. cbn [w_kern set_glob].
  set (j := byte_of (u_junk (w_kern w))). clearbody j.
  set (junk := replicate (Z.to_nat hsz) j).
  assert (Z.of_nat (length junk) = hsz) as Hlj by (unfold junk; rewrite length_replicate; done).
  assert (forall n, drop n junk = replicate (Z.to_nat hsz - n) j) as Hdj
    by (intros n; apply drop_replicate).
  clearbody junk. rewrite mod_g_run. set (w1 := set_glob _ _).
  rewrite (bind_run _ _ _ _ _ (setopt_ok _ w1 Hf)). rewrite bind_ok_OK.
  set (w2 := set_glob _ w1). rewrite (bind_run _ _ _ _ _ (setopt_ok _ w2 Hf)).
  rewrite bind_ok_OK. set (w3 := set_glob _ w2).
  unfold curl_easy_perform, gget. rewrite bind_assoc, bind_gets.
  change (c_url (ezcurl (w_glob w3))) with (c_url (ezcurl (w_glob w))).
  change (c_range (ezcurl (w_glob w3))) with (Some (lit "0-1")). rewrite Hreply.
  rewrite bind_assoc, bind_ret, bind_assoc, (bind_run _ _ _ _ _ (pop_fault_ok w3 Hf)).
  change (c_header (ezcurl (w_glob w3))) with true.
  change (c_write (ezcurl (w_glob w3))) with (c_write (ezcurl (w_glob w))). rewrite Hcw.
  cbv zeta. cbv iota.
  destruct (deliver_header lines w3 0 junk) as (g & Ed & Hez & Hae & Hgu & Hme & Hh); try done.
  rewrite bind_assoc, (bind_run _ _ _ _ _ Ed). cbn [truth negb Z.eqb].
  rewrite bind_assoc. rewrite bind_assoc, (bind_run _ _ _ _ _ (print_all_run body _)), bind_ret.
  cbn [truth negb Z.eqb CURLE_OK]. rewrite bind_ret. cbn [negb Z.eqb CURLE_OK].
  rewrite bind_gets. cbn [w_glob set_out set_glob]. rewrite Hae. cbn [truth negb Z.eqb].
  rewrite bind_gets. cbn [w_glob set_out set_glob]. rewrite Hh, take_0, app_nil_l, Hdj.
  rewrite (c_string_app _ _ Hnul).
  set (w4 := set_out _ _). assert (w_faults w4 = []) as Hf4 by done. clearbody w4.
  case_bool_decide as Hz; cbn [andb].
  2:{ rewrite c_string_replicate by done. done. }
  unfold hsz in *. destruct (Z.ltb_spec (Z.of_nat (length (mjoin lines))) 1024) as [Hlt|Hge].
  2:{ replace (Z.to_nat 1024 - _)%nat with 0%nat by lia. done. }
  destruct (Z.to_nat 1024 - _)%nat as [|m] eqn:Em; [lia|]. rewrite Hz.
  change (c_string (replicate (S m) NUL)) with (Some ([] : bytes)). cbn [fmap option_fmap option_map]. rewrite app_nil_r.
  destruct (range_total (mjoin lines)) as [sz|]; [|done].
  rewrite (bind_run _ _ _ _ _ (setopt_ok _ w4 Hf4)). rewrite bind_ok_OK.
  set (w5 := set_glob _ w4). rewrite (bind_run _ _ _ _ _ (setopt_ok _ w5 Hf4)).
  rewrite bind_ok_OK. set (w6 := set_glob _ w5).
  by rewrite (bind_run _ _ _ _ _ (setopt_ok _ w6 Hf4)).
Qed.
End http.

(** ** Concrete runs *)

Module HttpDemo.
(** A server that ignores ranges, behind a libcurl that copies strings *)
#[export] Instance server : Curl := {
  curl_copies := true;
  curl_reply url rg := ([lit "HTTP/1.1 206"; lit "Content-Range: bytes 0-1/9000"],
                        [replicate 9000 "a"%char])
}.
Definition u : uloop := ULoop 5 3 4 PAGE 9000 12288.
Definition start (c : handle) : world ulok http :=
  World 5 [] (Ulok [] None None ∅ 0 [] 0) (Http u 30 None [] [] (Arg InHeader 0 0 0 0) [] c)
    ∅ {[lit "/cache" := zeros 12288]} {[3 := lit "/cache"]} 6 ∅ [] [] [].
End HttpDemo.
Import HttpDemo.

Lemma copied_range_never_stores_witness :
  (store 4096 PAGE (start (Handle (lit "http://h/f") false true (Some (lit "0-1"))))).1 <> Ret 0.
Proof.
  set (w := start _).
  assert (Forall (fun x : bytes => 0 < Z.of_nat (length x) <= 16384) [replicate 9000 "a"%char]) as Hb.
  { constructor; [|constructor]. split; [apply Z.ltb_lt|apply Z.leb_le]; vm_compute; reflexivity. }
  assert (8192 <= Z.of_nat (length (mjoin [replicate 9000 "a"%char]))) as Hl.
  { apply Z.leb_le. vm_compute. reflexivity. }
  exact (copied_range_never_stores 4096 (lit "0-1") _ _ w eq_refl
    (conj (Forall_nil_2 _) (Forall_nil_2 _)) ltac:(discriminate) eq_refl
    ltac:(cbn; lia) ltac:(vm_compute; reflexivity) eq_refl eq_refl eq_refl eq_refl Hb Hl
    ltac:(lia)).
Defined.

Lemma get_size_result_witness :
  (get_size (start (Handle (lit "http://h/f") false false None))).1 = Ret 9000.
Proof.
  set (w := start _).
  assert (NUL ∉ mjoin [lit "HTTP/1.1 206"; lit "Content-Range: bytes 0-1/9000"]) as Hn.
  { apply (bool_decide_unpack _). vm_compute. exact Logic.I. }
  etrans; [apply (get_size_result (CU := server) [lit "HTTP/1.1 206"; lit "Content-Range: bytes 0-1/9000"]
    [replicate 9000 "a"%char] w eq_refl eq_refl eq_refl)|vm_compute; reflexivity].
  - repeat constructor; simpl; lia.
  - apply Z.leb_le. vm_compute. reflexivity.
  - exact Hn.
Defined.

(** A server that answers ranges, behind a libcurl that keeps the pointer: a file of nine
    sectors. *)
Module RangeDemo.
Definition cachep : bytes := lit "/cache".
Definition bmpp : bytes := lit "/bitmap".
Definition url : bytes := lit "http://h/f".
Definition target : bytes := replicate 4096 "a"%char ++ replicate 512 "b"%char.

#[export] Instance ranges : Curl := {
  curl_copies := false;
  curl_reply _ rg :=
    match rg with
    | Some s =>
        let '(a, _, r) := scan_digits 10 s 0 0 in
        let '(b, _, _) := scan_digits 10 (drop 1 r) 0 0 in
        ([], [take (Z.to_nat (b - a + 1)) (drop (Z.to_nat a) target)])
    | None => ([], [target])
    end
}.

Lemma scan_digits_u a rest :
  0 <= a -> ends_number rest -> exists n, scan_digits 10 (fmt_u a ++ rest) 0 0 = (a, n, rest).
Proof.
  intros Ha Hr. unfold fmt_u. rewrite scan_digits_app by by apply digits_all_digits.
  fold (undigits 10 (digits 10 a)). rewrite digits_undigits by lia.
  destruct rest as [|c rest]; cbn in Hr; [by eexists|]. subst c. by eexists.
Qed.

Lemma http_target_len : Z.of_nat (length target) = 4608.
Proof. vm_compute. reflexivity. Qed.

Lemma answers a b :
  0 <= a <= b -> b < Z.of_nat (length target) ->
  exists lines body,
    curl_reply url (Some (fmt_u a ++ lit "-" ++ fmt_u b)) = (lines, body) /\
    mjoin body = take (Z.to_nat (b - a + 1)) (drop (Z.to_nat a) target) /\
    Forall (fun x : bytes => 0 < Z.of_nat (length x) <= 16384) body.
Proof.
  intros Ha Hb. pose proof http_target_len as Hl.
  destruct (scan_digits_u a (lit "-" ++ fmt_u b)) as [n E]; [lia|done|].
  destruct (scan_digits_u b []) as [m E2]; [lia|done|]. rewrite app_nil_r in E2.
  eexists _, _. cbn [curl_reply ranges]. rewrite E.
  change (drop 1 (lit "-" ++ fmt_u b)) with (fmt_u b). rewrite E2. split; [reflexivity|].
  split; [apply app_nil_r|]. apply Forall_singleton. rewrite length_take, length_drop. lia.
Qed.

Definition start : world ulok http :=
  World 34 [] (Ulok [] None None ∅ 0 [] 0)
    (Http (ULoop 0 0 0 0 0 0) 30 None url [] (Arg InHeader 0 0 0 0) []
       (Handle url false true (Some []))) ∅ ∅ ∅ 4 ∅ [] [] [].
Definition ready : world ulok http :=
  (ulo_init 7 (UloInit (lit "/dev/loop0") cachep bmpp 0 4608) start).2.

(** A read of the first page but its first sector *)
Definition small : xreq := XReq 0 512 3584 1.
(** The first process dies of a failing call, the second one serves the request. *)
Definition faults : list fault := [FErr 5].
Definition labels : list label :=
  [LThread 0 false; LUser 0; LUser 1; LUser 1; LThread 0 false; LThread 0 false; LThread 0 false;
   LUser 1; LUser 1; LUser 1; LUser 1; LThread 0 false; LThread 0 false; LThread 0 false].
Definition processes : list (Z * upc) := [(7, UBegin (Ctl 0 0)); (8, UBegin (Ctl 0 0))].
Definition sys1 : sys := Sys (set_faults faults ready) [(small, XStart)] processes.
Definition final : sys := default sys1 (run store 10 labels sys1).

Lemma http_ready_ok : ulo_init 7 (UloInit (lit "/dev/loop0") cachep bmpp 0 4608) start = (Ret 0, ready).
Proof.
  unfold ready. rewrite (surjective_pairing (ulo_init 7 _ start)) at 1.
  apply (f_equal2 pair); [vm_compute; reflexivity|done].
Qed.
Lemma http_run_final : run store 10 labels sys1 = Some final.
Proof.
  assert (bool_decide (is_Some (run store 10 labels sys1)) = true) as H by (vm_compute; reflexivity).
  unfold final. apply bool_decide_eq_true in H as [s E]. by rewrite E.
Qed.
Lemma http_final_done : exists buf, s_thr final !! 0%nat = Some (small, XDone 0 buf).
Proof.
  assert (match s_thr final !! 0%nat with
          | Some (r, XDone 0 _) => r | _ => XReq 1 1 1 1 end = small) as H
    by (vm_compute; reflexivity).
  revert H. generalize (s_thr final !! 0%nat). intros [[r pc]|] H; [|discriminate H].
  destruct pc; try discriminate H. destruct err; try discriminate H. rewrite H. by eexists.
Qed.
Lemma http_threads_ok : Forall (fun t : xreq * xpc => t.2 = XStart /\
  req_ok (8 * bitmap_size PAGE (round_page PAGE 4608)) t.1) [(small, XStart)].
Proof.
  constructor; [|constructor]. split; [reflexivity|].
  assert (8 * bitmap_size PAGE (round_page PAGE 4608) = 32768) as -> by (vm_compute; reflexivity).
  unfold req_ok, PAGE. simpl. split_and!; lia.
Qed.
Lemma http_faults_ok : Forall good_fault faults.
Proof. repeat constructor. Qed.
Lemma http_processes_ok :
  Forall (fun u : Z * upc => exists ctl, u.2 = UBegin ctl) processes.
Proof. repeat constructor; by eexists. Qed.
End RangeDemo.

Lemma ulohttp_serves_file_witness :
  exists buf b, s_thr RangeDemo.final !! 0%nat = Some (RangeDemo.small, XDone 0 buf) /\ buf = Some b /\
    forall k, (k < 3584)%nat -> (512 + k < length RangeDemo.target)%nat ->
      b !! k = RangeDemo.target !! (512 + k)%nat.
Proof.
  destruct RangeDemo.http_final_done as [buf H]. exists buf.
  assert (w_nextfd RangeDemo.start + 3 < 2 ^ 31) as Hn by (cbn; lia).
  destruct (ulohttp_serves_file (CU := RangeDemo.ranges) RangeDemo.cachep RangeDemo.bmpp RangeDemo.url RangeDemo.target
    eq_refl RangeDemo.answers ltac:(discriminate) 7 (lit "/dev/loop0") 4608 RangeDemo.start
    RangeDemo.ready RangeDemo.faults [(RangeDemo.small, XStart)] RangeDemo.processes RangeDemo.final 0%nat
    RangeDemo.small 0 buf eq_refl eq_refl eq_refl eq_refl eq_refl ltac:(cbn; lia) Hn ltac:(lia)
    RangeDemo.http_target_len eq_refl eq_refl eq_refl RangeDemo.http_ready_ok ltac:(vm_compute; discriminate)
    RangeDemo.http_faults_ok RangeDemo.http_threads_ok RangeDemo.http_processes_ok (run_steps _ _ _ _ _ RangeDemo.http_run_final) H
    eq_refl) as (b & Hb & Hk).
  exists b. exact (conj H (conj Hb Hk)).
Defined.
