(* ===== verification/Logrow.v ===== *)
(** * Growing a loop device: logrow.c

    src/sample/logrow/logrow.c appends zeros to the backing file of a loop device and
    tells the driver.  The loop device is the kernel part of the world: its size, and
    the capacities that were set.  What getopt_long(3) returns is an argument
    of [main]; Cmdline.v computes it. *)
From S2P Require Import Prelude CString AuUtil Float32 Scan AufsType FhsmData Sys.

#[local] Ltac Zify.zify_post_hook ::= Z.to_euclidean_division_equations.

Record loopdev := LoopDev { l_size : Z; l_set : list Z }.

Section logrow.
Notation world := (world loopdev (option bytes)).
Notation ML := (M world).

(** usage(), with the global [me] *)
Definition usage : ML unit :=
  m ← gets w_glob;
  print (default (lit "(null)") m ++ clit " [options] loop_dev [backend_file]\n" ++
    clit "-s, --set new_size_in_bytes\n" ++
    clit "\twhen backend_file is given, " ++
    clit "it will be expanded too while keeping the original contents\n").

Definition perror (s : bytes) : ML unit := print s.
Definition err_size (name : bytes) (old : Z) : ML unit :=
  print (name ++ lit " (" ++ fmt_u old ++ lit ")").

Definition one_g : Z := 2 ^ 30.

(** calloc(3), with half the size for as long as memory is short. [None]: no memory. *)
Fixpoint calloc_loop (fuel : nat) (sz : Z) : ML (option Z) :=
  match fuel with
  | O => nofuel
  | S k =>
      x ← pop_fault;
      match x with
      | FErr _ => let sz := Z.shiftr sz 1 in
                  if sz =? 0 then mret None else calloc_loop k sz
      | _ => mret (Some sz)
      end
  end.

Fixpoint write_loop (fuel : nat) (fd append sz : Z) : ML Z :=
  match fuel with
  | O => nofuel
  | S k =>
      if append <=? 0 then mret 0
      else
        let sz := if append <? sz then append else sz in
        ssz ← write_ fd (replicate (Z.to_nat sz) NUL);
        if ssz =? -1 then
          e ← gets w_errno;
          if (e =? EAGAIN) || (e =? EINTR) then write_loop k fd append sz else mret (-1)
        else write_loop k fd (u64 (append - ssz)) sz
  end.

(** [FErr] and [FShort] faults are finitely many, and a write that meets none takes at
    least one byte. *)
Definition write_fuel (append : Z) : ML nat :=
  gets (fun w => S (length (w_faults w) + Z.to_nat append)).

Definition out_p (fname : bytes) (err : Z) : ML Z := perror fname ;; mret err.

Definition expand (fname : bytes) (new : Z) : ML Z :=
  fd ← open_ fname;
  if fd <? 0 then out_p fname (-1)
  else
    err ← fallible;
    if truth err then out_p fname err
    else
      c ← file_of fd;
      let st_size := Z.of_nat (length c) in
      if new <? st_size then err_size fname st_size ;; mret (-1)
      else
        let append := new - st_size in
        let sz := if one_g <? append then one_g else append in
        p ← calloc_loop 32 sz;
        match p with
        | None => put_errno 12 ;; out_p fname (-1)
        | Some sz =>
            n ← write_fuel append;
            err ← write_loop n fd append sz;
            if truth err then out_p fname err
            else
              err ← fallible; (* fsync *)
              if truth err then out_p fname err
              else
                err ← close_ fd;
                if truth err then out_p fname err else mret 0
        end.

(** What getopt_long() returned, with [argv[i]], [i] being the index that it stores for
    long options only: before the first one [i] is indeterminate.  [OptNoMatch]: a long option
    that is none of [opts], an array whose end nothing marks. *)
Inductive log_opt :=
  | OptSet (optarg : bytes) (i : option bytes)
  | OptHelp
  | OptBad (i : option bytes)
  | OptNoMatch.

(** [inl err] leaves main(), with or without [usage]. *)
Fixpoint parse (calls : list log_opt) (new : Z) : ML (Z + Z) :=
  match calls with
  | [] => mret (inr new)
  | OptSet optarg i :: r =>
      put_errno 0 ;;
      let '(v, range) := strtoull0 optarg in
      if range then
        put_errno 34 ;;
        match i with
        | None => ub "argv[i] with i indeterminate"
        | Some a => perror a ;; mret (inl 34)
        end
      else parse r v
  | OptHelp :: _ => usage ;; mret (inl 0)
  | OptBad i :: _ =>
      match i with
      | None => ub "argv[i] with i indeterminate"
      | Some a => perror a ;; usage ;; mret (inl EINVAL)
      end
  | OptNoMatch :: _ => ub "opts is not terminated"
  end.

Definition BLKGETSIZE64 : ML (Z * Z) :=
  err ← fallible; k ← gets w_kern; mret (err, l_size k).
Definition LOOP_SET_CAPACITY (new : Z) : ML Z :=
  err ← fallible;
  if truth err then mret err
  else modify (fun w => set_kern (LoopDev (l_size (w_kern w)) (l_set (w_kern w) ++ [new])) w) ;;
       mret 0.

Definition main (argv0 : bytes) (calls : list log_opt) (operands : list bytes) : ML Z :=
  modify (set_glob (Some argv0)) ;;
  o ← parse calls 0;
  match o with
  | inl err => mret err
  | inr new =>
      match operands with
      | [] => usage ;; mret EINVAL
      | dev :: rest =>
          fd ← open_ dev;
          if fd <? 0 then e ← gets w_errno; perror dev ;; mret e
          else
            '(err, old) ← BLKGETSIZE64;
            if truth err then e ← gets w_errno; perror (lit "ioctl BLKGETSIZE64") ;; mret e
            else if new =? 0 then print (fmt_u old) ;; mret err
            else if new <? old then err_size dev old ;; mret EINVAL
            else
              err ← match rest with
                    | fname :: _ => expand fname new
                    | [] => mret 0
                    end;
              if truth err then mret err
              else
                err ← LOOP_SET_CAPACITY new;
                if truth err then
                  e ← gets w_errno; perror (lit "ioctl LOOP_SET_CAPACITY") ;; mret e
                else mret 0
      end
  end.
End logrow.

(** ** Growing the file *)

Section grow.
Notation world := (world loopdev (option bytes)).
Notation ML := (M world).

(** Nothing but errno, the pending faults and what was printed has changed. *)
Definition same_files (w w' : world) : Prop :=
  w_files w' = w_files w /\ w_fds w' = w_fds w.

#[export] Instance same_files_preorder : PreOrder same_files.
Proof. split; [done|]. intros x y z [? ?] [? ?]. split; congruence. Qed.

Lemma pop_fault_cases (w : world) :
  exists x w', pop_fault w = (Ret x, w') /\ same_files w w' /\
    (w_faults w = [] /\ x = FOk /\ w' = w \/ w_faults w = x :: w_faults w').
Proof.
  unfold pop_fault. destruct (w_faults w) as [|x r] eqn:E.
  - exists FOk, w. split; [done|]. split; [done|]. by left.
  - exists x, (set_faults r w). split; [done|]. split; [done|]. by right.
Qed.

Lemma fallible_cases (w : world) : exists e w', fallible w = (Ret e, w') /\ same_files w w'.
Proof.
  unfold fallible. destruct (pop_fault_cases w) as (x & w1 & E & S & _).
  rewrite (bind_run _ _ _ _ _ E). destruct x; eexists _, _; (split; [reflexivity|]); exact S.
Qed.

Lemma calloc_loop_spec fuel sz (w : world) :
  (0 < fuel)%nat -> 0 <= sz < 2 ^ Z.of_nat fuel ->
  exists o w', calloc_loop fuel sz w = (Ret o, w') /\ same_files w w' /\
    forall s, o = Some s -> 0 <= s <= sz /\ (0 < sz -> 0 < s).
Proof.
  revert sz w. induction fuel as [|k IH]; intros sz w Hf Hs; [lia|].
  cbn [calloc_loop]. destruct (pop_fault_cases w) as (x & w1 & E & S & _).
  rewrite (bind_run _ _ _ _ _ E). rewrite Z.shiftr_div_pow2 by lia. change (2 ^ 1) with 2.
  destruct x as [|e|n].
  1, 3: exists (Some sz), w1; split; [done|]; split; [done|]; intros s [= <-]; lia.
  destruct (Z.eqb_spec (sz / 2) 0) as [Hz|Hz]; [by exists None, w1|].
  rewrite Nat2Z.inj_succ, Z.pow_succ_r in Hs by lia.
  destruct k as [|k]; [simpl in Hs; lia|].
  destruct (IH (sz / 2) w1) as (o & w2 & E2 & S2 & Ho); [lia|lia|].
  exists o, w2. split; [done|]. split; [by etrans|]. intros s Hos. specialize (Ho s Hos). lia.
Qed.

(** One write(2): -1, or some of the bytes appended; all of them, unless a fault was
    consumed. *)
Lemma write_cases fd p c data (w : world) :
  w_fds w !! fd = Some p -> w_files w !! p = Some c ->
  exists r w', write_ fd data w = (Ret r, w') /\ w_fds w' = w_fds w /\
    (length (w_faults w') <= length (w_faults w))%nat /\
    ((r = -1 /\ w_files w' = w_files w /\ (length (w_faults w') < length (w_faults w))%nat) \/
     exists n, r = Z.of_nat n /\ (n <= length data)%nat /\
       w_files w' = <[p := c ++ take n data]> (w_files w) /\
       (n = length data \/ (length (w_faults w') < length (w_faults w))%nat)).
Proof.
  intros Hp Hc. unfold write_. destruct (pop_fault_cases w) as (x & w1 & E & [Hf Hd] & Hx).
  rewrite (bind_run _ _ _ _ _ E).
  assert (w_fds w1 !! fd = Some p) as Hp1 by by rewrite Hd.
  assert (w_files w1 !! p = Some c) as Hc1 by by rewrite Hf.
  assert (length (w_faults w1) <= length (w_faults w))%nat as Hle
    by (destruct Hx as [(? & ? & ->)| ->]; simpl; lia).
  destruct x as [|e|n].
  - rewrite (bind_run _ _ _ _ _ (file_of_run w1 fd p c Hp1 Hc1)).
    unfold put_file. rewrite bind_modify, Hp1. eexists _, _. split; [reflexivity|].
    split; [done|]. split; [done|]. right. exists (length data). simpl. rewrite Hf, firstn_all.
    by split_and!; [..|left].
  - unfold put_errno. rewrite bind_modify. eexists _, _. split; [reflexivity|].
    split; [done|]. split; [done|]. left. split; [done|]. split; [done|].
    simpl. destruct Hx as [(? & ? & ?)| ->]; [done|simpl; lia].
  - rewrite (bind_run _ _ _ _ _ (file_of_run w1 fd p c Hp1 Hc1)).
    unfold put_file. rewrite bind_modify, Hp1. eexists _, _. split; [reflexivity|].
    split; [done|]. split; [done|]. right. exists (Nat.min n (length data)). simpl. rewrite Hf.
    split; [done|]. split; [lia|]. split; [done|]. right.
    destruct Hx as [(? & ? & ?)| ->]; [done|simpl; lia].
Qed.

Lemma write_loop_spec fuel fd p append sz c (w : world) :
  (length (w_faults w) + Z.to_nat append < fuel)%nat ->
  0 <= append < 2 ^ 63 -> (0 < append -> 0 < sz) ->
  w_fds w !! fd = Some p -> w_files w !! p = Some c ->
  exists err w' k, write_loop fuel fd append sz w = (Ret err, w') /\ w_fds w' = w_fds w /\
    w_files w' !! p = Some (c ++ replicate k NUL) /\ Z.of_nat k <= append /\
    (err = 0 -> Z.of_nat k = append).
Proof.
  revert append sz c w. induction fuel as [|m IH]; intros append sz c w Hfu Ha Hs Hp Hc; [lia|].
  cbn [write_loop]. destruct (Z.leb_spec append 0) as [H0|H0].
  { exists 0, w, 0%nat. rewrite app_nil_r. split_and!; try done; lia. }
  specialize (Hs H0). set (sz' := if append <? sz then append else sz).
  assert (0 < sz' <= append) as Hsz' by (unfold sz'; destruct (Z.ltb_spec append sz); lia).
  cbv zeta. clearbody sz'.
  destruct (write_cases fd p c (replicate (Z.to_nat sz') NUL) w Hp Hc)
    as (r & w1 & E & Hd1 & Hle & Hr).
  rewrite (bind_run _ _ _ _ _ E). rewrite length_replicate in Hr.
  assert (w_fds w1 !! fd = Some p) as Hp1 by by rewrite Hd1.
  destruct Hr as [(-> & Hf1 & Hlt)|(n & -> & Hn & Hf1 & Hlt)].
  - rewrite Z.eqb_refl, bind_gets.
    assert (w_files w1 !! p = Some c) as Hc1 by by rewrite Hf1.
    destruct (_ || _).
    + destruct (IH append sz' c w1) as (err & w2 & k & E2 & Hd2 & Hrest); try done; try lia.
      exists err, w2, k. split; [done|]. split; [congruence|done].
    + exists (-1), w1, 0%nat. rewrite app_nil_r. split_and!; try done; lia.
  - rewrite (proj2 (Z.eqb_neq _ _)) by lia.
    rewrite take_replicate, Nat.min_l in Hf1 by done.
    assert (u64 (append - Z.of_nat n) = append - Z.of_nat n) as -> by (apply wrap_u_small; lia).
    destruct (IH (append - Z.of_nat n) sz' (c ++ replicate n NUL) w1)
      as (err & w2 & k & E2 & Hd2 & Hk & Hka & Herr); try done; try lia.
    { rewrite Hf1. by rewrite lookup_insert_eq. }
    exists err, w2, (n + k)%nat. split; [done|]. split; [congruence|].
    rewrite replicate_add, app_assoc. split; [done|]. lia.
Qed.

(** What a run of [m] that serves expand() comes to: zeros appended to the bytes [c]
    that [fname] had, to a size of at most [new], of [new] when the answer is 0. *)
Definition grows (fname : bytes) (new : Z) (c : bytes) (m : ML Z) (w : world) : Prop :=
  exists err w' k, m w = (Ret err, w') /\
    w_files w' !! fname = Some (c ++ replicate k NUL) /\
    (k = 0%nat \/ Z.of_nat (length c) + Z.of_nat k <= new) /\
    (err = 0 -> Z.of_nat (length c) + Z.of_nat k = new).

Lemma out_p_grows fname new c k err (w : world) :
  err <> 0 -> w_files w !! fname = Some (c ++ replicate k NUL) ->
  (k = 0%nat \/ Z.of_nat (length c) + Z.of_nat k <= new) -> grows fname new c (out_p fname err) w.
Proof.
  intros Hne Hk Hkn. unfold grows, out_p, perror, print. rewrite bind_modify.
  eexists _, _, k. split; [reflexivity|]. by split_and!.
Qed.

(** The same when nothing has been written yet. *)
Lemma out_p_grows_same fname new c err (w : world) :
  err <> 0 -> w_files w !! fname = Some c -> grows fname new c (out_p fname err) w.
Proof. intros ? Hc. apply (out_p_grows _ _ _ 0%nat); [done|by rewrite app_nil_r|by left]. Qed.

(** fsync(2) and close(2), once the loop has written all of its zeros. *)
Lemma sync_close_grows fname new c k fd (w : world) :
  w_files w !! fname = Some (c ++ replicate k NUL) ->
  Z.of_nat (length c) + Z.of_nat k = new ->
  grows fname new c
    (err ← fallible;
     if truth err then out_p fname err
     else err ← close_ fd; if truth err then out_p fname err else mret 0) w.
Proof.
  intros Hc Hn. assert (k = 0%nat \/ Z.of_nat (length c) + Z.of_nat k <= new) as Hk by (right; lia).
  destruct (fallible_cases w) as (e & w1 & E & [Sf _]). unfold grows. rewrite (bind_run _ _ _ _ _ E).
  unfold truth at 1. destruct (Z.eqb_spec e 0) as [->|He]; cbn [negb].
  2:{ apply (out_p_grows _ _ _ k); [done|by rewrite Sf|done]. }
  unfold close_. rewrite bind_assoc, bind_modify. set (w2 := set_fds _ w1).
  destruct (fallible_cases w2) as (e3 & w3 & E3 & [Sf3 _]). rewrite (bind_run _ _ _ _ _ E3).
  assert (w_files w3 !! fname = Some (c ++ replicate k NUL)) as Hc3
    by (rewrite Sf3; simpl; by rewrite Sf).
  unfold truth. destruct (Z.eqb_spec e3 0) as [->|He3]; cbn [negb].
  2:{ by apply (out_p_grows _ _ _ k). }
  by exists 0, w3, k.
Qed.

(** The loop that writes, and what follows it. *)
Lemma write_grows fname new c fd sz (w : world) :
  0 <= new - Z.of_nat (length c) < 2 ^ 63 -> (0 < new - Z.of_nat (length c) -> 0 < sz) ->
  w_fds w !! fd = Some fname -> w_files w !! fname = Some c ->
  grows fname new c
    (n ← write_fuel (new - Z.of_nat (length c));
     err ← write_loop n fd (new - Z.of_nat (length c)) sz;
     if truth err then out_p fname err
     else err ← fallible;
          if truth err then out_p fname err
          else err ← close_ fd; if truth err then out_p fname err else mret 0) w.
Proof.
  intros Ha Hs Hp Hc. unfold grows, write_fuel. rewrite bind_gets.
  edestruct write_loop_spec with (w := w) as (err & w1 & k & E & Hd & Hk & Hka & Herr);
    [|exact Ha|exact Hs|exact Hp|exact Hc|]; cycle 1.
  { rewrite (bind_run _ _ _ _ _ E). unfold truth at 1.
    destruct (Z.eqb_spec err 0) as [->|Hne]; cbn [negb].
    - specialize (Herr eq_refl). apply (sync_close_grows _ _ _ k); [done|lia].
    - apply (out_p_grows _ _ _ k); [done|done|right; lia]. }
  lia.
Qed.

(** C31. expand() returns whatever fails, interrupted and short writes included; it
    never changes the bytes that the file has, only ever appends zeros, and not more
    than asked for; and when it returns 0 the file is exactly [new] bytes long. *)
Theorem expand_appends_zeros fname new c (w : world) :
  w_files w !! fname = Some c -> 0 <= new < 2 ^ 63 ->
  exists err w' k, expand fname new w = (Ret err, w') /\
    w_files w' !! fname = Some (c ++ replicate k NUL) /\
    (k = 0%nat \/ Z.of_nat (length c) + Z.of_nat k <= new) /\
    (err = 0 -> Z.of_nat (length c) + Z.of_nat k = new).
Proof.
  intros Hc Hn. change (grows fname new c (expand fname new) w). unfold grows, expand, open_.
  destruct (fallible_cases w) as (e & w1 & E & [Sf1 Sd1]). rewrite bind_assoc, (bind_run _ _ _ _ _ E).
  destruct (Z.eqb_spec e 0) as [->|Hne].
  2:{ rewrite bind_ret. apply out_p_grows_same; [done|by rewrite Sf1]. }
  unfold new_fd. unfold mbind at 1, M_bind at 1. destruct (w_nextfd w1 <? 0).
  { apply out_p_grows_same; [done|]. simpl. by rewrite Sf1. }
  set (fd := w_nextfd w1). set (w2 := set_fds _ _).
  destruct (fallible_cases w2) as (e3 & w3 & E3 & [Sf3 Sd3]). rewrite (bind_run _ _ _ _ _ E3).
  assert (w_files w3 !! fname = Some c) as Hc3 by (rewrite Sf3; simpl; by rewrite Sf1).
  assert (w_fds w3 !! fd = Some fname) as Hp3 by (rewrite Sd3; apply lookup_insert_eq).
  unfold truth at 1. destruct (Z.eqb_spec e3 0) as [->|He3]; cbn [negb].
  2:{ by apply out_p_grows_same. }
  rewrite (bind_run _ _ _ _ _ (file_of_run w3 fd fname c Hp3 Hc3)).
  destruct (Z.ltb_spec new (Z.of_nat (length c))) as [Hlt|Hge].
  { unfold err_size, print. rewrite bind_modify. eexists _, _, 0%nat. split; [reflexivity|].
    rewrite app_nil_r. split; [done|]. split; [by left|done]. }
  cbv zeta. set (append := new - Z.of_nat (length c)).
  set (sz := if one_g <? append then one_g else append).
  assert (0 <= sz <= append /\ sz < 2 ^ Z.of_nat 32 /\ (0 < append -> 0 < sz)) as (Hsz & Hsz2 & Hsz3).
  { unfold sz, one_g, append. change (2 ^ Z.of_nat 32) with (2 ^ 32).
    destruct (Z.ltb_spec (2 ^ 30) (new - Z.of_nat (length c))); lia. }
  destruct (calloc_loop_spec 32 sz w3) as (o & w4 & E4 & [Sf4 Sd4] & Ho); [lia|lia|].
  rewrite (bind_run _ _ _ _ _ E4). destruct o as [s|].
  - destruct (Ho s eq_refl) as [Hs1 Hs2].
    apply write_grows; [unfold append in *; lia|unfold append in *; lia|by rewrite Sd4|by rewrite Sf4].
  - unfold put_errno. rewrite bind_modify. apply out_p_grows_same; [done|]. simpl. by rewrite Sf4.
Qed.
End grow.

(** A file of two bytes grown to nine, over a short and an interrupted write. *)
Lemma expand_appends_zeros_witness :
  exists w' k,
    expand (lit "f") 9 (World 0 [FOk; FOk; FOk; FShort 3; FErr EINTR] (LoopDev 0 []) None ∅
      {[lit "f" := lit "ab"]} ∅ 3 ∅ [] [] []) = (Ret 0, w') /\
    w_files w' !! lit "f" = Some (lit "ab" ++ replicate k NUL) /\ 2 + Z.of_nat k = 9.
Proof.
  set (w := World 0 _ _ _ _ _ _ _ _ _ _ _).
  assert (0 <= 9 < 2 ^ 63) as H9 by lia.
  destruct (expand_appends_zeros (lit "f") 9 (lit "ab") w eq_refl H9)
    as (err & w' & k & E & Hf & _ & Hk).
  assert ((expand (lit "f") 9 w).1 = Ret 0) as E0 by (vm_compute; reflexivity).
  rewrite E in E0. injection E0 as ->. exists w', k. split; [exact E|]. split; [exact Hf|].
  exact (Hk eq_refl).
Defined.
