(* ===== verification/LibAu.v ===== *)
(** * libau: which functions are wrapped, and the real ones: libau.c, rdu.c

    libau is preloaded; each of its functions decides by the environment variable
    LIBAU whether to work on aufs by itself or to call the real function, which it
    finds by dlsym(3) once.  [LibAuGlobals] is the part of a program's globals that
    the library uses. *)
From S2P Require Import Prelude CString AufsType FhsmData Sys.

(** [g_loaded]: the [real_] pointers that are set; [g_env]: getenv("LIBAU"). *)
Class LibAuGlobals (G : Type) := {
  g_loaded : G -> gset bytes;
  put_loaded : gset bytes -> G -> G;
  g_env : G -> option bytes;
  g_loaded_put s g : g_loaded (put_loaded s g) = s;
  g_env_put s g : g_env (put_loaded s g) = g_env g
}.

(** ** libau_test_func() *)

(** The loop over the occurrences of [sym]: one that is followed by the end or a colon
    counts. *)
Fixpoint test_loop (fuel : nat) (e sym : bytes) : bool :=
  match fuel with
  | O => false
  | S k =>
      match strstr e sym with
      | None => false
      | Some e =>
          match e !! length sym with
          | None => true
          | Some c => if decide (c = ":"%char) then true else test_loop k (drop 1 e) sym
          end
      end
  end.

Definition libau_test_func (env : option bytes) (sym : bytes) : bool :=
  match env with
  | None => false
  | Some e =>
      match e with
      | [] => true
      | _ => if strcasecmp e (lit "all") =? 0 then true else test_loop (S (length e)) e sym
      end
  end.

Section libau.
Context {K G : Type} `{!LibAuGlobals G}.
Notation world := (world K G).
Notation MW := (M world).

Definition test_func (sym : bytes) : MW bool :=
  gets (fun w => libau_test_func (g_env (w_glob w)) sym).

(** 0 when the real function is known, else 1.  A null pointer that dlsym(3) returns
    is stored like any other, so the next call asks again. *)
Definition libau_dl (sym : bytes) : MW Z :=
  l ← gets (fun w => g_loaded (w_glob w));
  if decide (sym ∈ l) then mret 0
  else
    x ← pop_fault;
    match x with
    | FErr _ => print sym ;; mret 1
    | _ => modify (fun w => set_glob (put_loaded ({[sym]} ∪ g_loaded (w_glob w)) (w_glob w)) w) ;;
           mret 0
    end.

(** ** readdir(3) and readdir_r(3), by the name they are compiled under *)

Definition Rdu_READDIR {A} (sym : bytes) (rdu_readdir real : MW (option A)) : MW (option A) :=
  t ← test_func sym;
  if t : bool then rdu_readdir
  else d ← libau_dl sym; if truth d then mret None else real.

Definition Rdu_READDIR_R {A} (sym : bytes) (none : A) (rdu_readdir real : MW (Z * A))
    : MW (Z * A) :=
  t ← test_func sym;
  if t : bool then rdu_readdir
  else
    d ← libau_dl sym;
    if truth d then e ← gets w_errno; mret (e, none) else real.
End libau.

(** ** What LIBAU says *)

Lemma strcasecmp_0 a b : strcasecmp a b = 0 <-> map tolower a = map tolower b.
Proof. apply strcmp_0. Qed.

Definition listed (sym e : bytes) : Prop :=
  exists l r, e = l ++ sym ++ r /\ (r = [] \/ exists r', r = ":"%char :: r').

Lemma test_loop_correct fuel e sym :
  sym <> [] -> (length e < fuel)%nat -> test_loop fuel e sym = true <-> listed sym e.
Proof.
  intros Hs. revert e. induction fuel as [|k IH]; intros e Hf; [lia|].
  cbn [test_loop]. destruct (strstr e sym) as [t|] eqn:E.
  - destruct (strstr_Some _ _ _ E) as (l & r & -> & Ht & Hmin). subst t.
    rewrite lookup_app_r, Nat.sub_diag by lia.
    destruct r as [|c r]; simpl.
    { split; [intros _|done]. exists l, []. split; [done|by left]. }
    case_decide as Hc.
    { subst c. split; [intros _|done]. exists l, (":"%char :: r). split; [done|right; eauto]. }
    destruct sym as [|s0 sym]; [done|]. simpl in *.
    rewrite length_app in Hf. simpl in Hf. rewrite IH by (rewrite ?drop_0; lia). rewrite drop_0.
    split.
    + intros (l1 & r1 & H & Hr). exists (l ++ s0 :: l1), r1. split; [|done].
      rewrite H. by rewrite <- app_assoc.
    + intros (l1 & r1 & H & Hr).
      assert (length l < length l1)%nat as Hlt.
      { destruct (decide (length l1 < length l)%nat) as [Hlt|Hge].
        - exfalso. apply (Hmin l1 (drop (length l1) l)).
          + pose proof (f_equal (take (length l1)) H) as Ht.
            rewrite take_app_le, take_app_length in Ht by lia.
            rewrite <- Ht at 1. by rewrite take_drop.
          + intros Hn. apply (f_equal length) in Hn. rewrite length_drop in Hn. simpl in Hn. lia.
          + pose proof (f_equal (drop (length l1)) H) as Hd.
            rewrite drop_app_le, drop_app_length in Hd by lia. rewrite Hd.
            change (S (length sym)) with (length (s0 :: sym)). apply take_app_length.
        - destruct (decide (length l1 = length l)) as [He|]; [|lia]. exfalso.
          apply app_inj_1 in H as [_ H]; [|done]. injection H as H.
          apply app_inv_head in H. destruct Hr as [->|[r' ->]]; [done|congruence]. }
      pose proof (f_equal (drop (S (length l))) H) as Hd.
      change (l ++ s0 :: sym ++ c :: r) with (l ++ [s0] ++ sym ++ c :: r) in Hd.
      rewrite app_assoc, drop_app_length' in Hd by (rewrite length_app; simpl; lia).
      rewrite drop_app_le in Hd by lia. exists (drop (S (length l)) l1), r1. by split.
  - split; [done|]. intros (l & r & -> & _). by destruct (strstr_None _ _ E l r).
Qed.

(** libau_test_func() enables a function exactly when LIBAU is set and is empty,
    or "all" in any case, or holds the name followed by its end or a colon; whatever
    precedes the name is ignored. *)
Theorem test_func_correct e sym :
  sym <> [] ->
  libau_test_func (Some e) sym = true <->
    e = [] \/ map tolower e = lit "all" \/ listed sym e.
Proof.
  intros Hs. unfold libau_test_func. destruct e as [|c e]; [split; auto|].
  destruct (Z.eqb_spec (strcasecmp (c :: e) (lit "all")) 0) as [H|H].
  - apply strcasecmp_0 in H. change (map tolower (lit "all")) with (lit "all") in H. split; auto.
  - rewrite test_loop_correct by (done || lia). split; [auto|].
    intros [?|[Ha|?]]; [done| |done]. exfalso. apply H, strcasecmp_0. exact Ha.
Qed.

Lemma test_func_correct_witness :
  lit "readdir" <> [] /\
  (libau_test_func (Some (lit "rdu:readdir:")) (lit "readdir") = true <->
   lit "rdu:readdir:" = [] \/ map tolower (lit "rdu:readdir:") = lit "all" \/
   listed (lit "readdir") (lit "rdu:readdir:")).
Proof. split; [done|]. apply (test_func_correct (lit "rdu:readdir:")). done. Defined.

(** The names of a list need not be whole: LIBAU=fpathconf enables pathconf too. *)
Example suffix_enabled : libau_test_func (Some (lit "fpathconf")) (lit "pathconf") = true.
Proof. vm_compute. reflexivity. Qed.
