(* ===== verification/Pathconf.v ===== *)
(** * pathconf(3) and fpathconf(3) on aufs: pathconf.c

    For [_PC_LINK_MAX] the answer has to come from the branch that a new link would
    go to, so the library asks aufs for a descriptor of that branch and calls the real
    fpathconf(3) on it.  The real functions and the ioctl are [PathConf]; a path names
    what [AufsKernel] says it does (which file system, which device). *)
From S2P Require Import Prelude CString AufsType FhsmData Sys LibAu.

#[local] Ltac Zify.zify_post_hook ::= Z.to_euclidean_division_equations.

Definition EISDIR : Z := 21.
Definition EACCES : Z := 13.
Definition ENOMEM : Z := 12.
Definition ENOTSUP : Z := 95.
Definition PC_LINK_MAX : Z := 0.

(** The value and the errno (0: unchanged) of the real functions, and AUFS_CTL_WBR_FD
    with a null argument: the errno, or the branch of the new descriptor. *)
Class PathConf (K : Type) := {
  pc_path : bytes -> Z -> K -> Z * Z;
  pc_fd : bytes -> Z -> K -> Z * Z;
  pc_wbr : bytes -> K -> (Z * bytes) * K
}.

Section pathconf.
Context {K G : Type} `{!AufsKernel K, !LibAuGlobals G, !PathConf K}.
Notation world := (world K G).
Notation MW := (M world).

Definition result (r : Z * Z) : MW Z :=
  (if r.2 =? 0 then mret tt else put_errno r.2) ;; mret r.1.
Definition real_pathconf (path : bytes) (name : Z) : MW Z :=
  k ← gets w_kern; result (pc_path path name k).
Definition real_fpathconf (fd name : Z) : MW Z :=
  what ← fd_what fd; k ← gets w_kern; result (pc_fd what name k).

Definition do_fpathconf (fd name : Z) : MW Z :=
  what ← fd_what fd;
  '(e, wbr) ← kernel (pc_wbr what);
  if truth e then put_errno e ;; mret (-1)
  else
    wbr_fd ← new_fd wbr;
    d ← libau_dl (lit "fpathconf");
    err ← (if truth d then mret (-1) else real_fpathconf wbr_fd name);
    close_keep wbr_fd ;;
    mret err.

(** stat(2): only the device is looked at. *)
Definition stat_ (path : bytes) : MW (Z * (Z * Z)) :=
  err ← fallible; mret (err, k_dev path).
(** opendir(3): the descriptor of the directory, or -1 *)
Definition opendir_ (path : bytes) : MW Z := open_ path.
Definition alloc : MW bool :=
  x ← pop_fault;
  match x with FErr _ => put_errno ENOMEM ;; mret false | _ => mret true end.

(** [l = strlen(path); while (path[l - 1] == '/') l--;]; nothing is left of a path of
    slashes, whose byte before the first is read next. *)
Fixpoint strip_slashes (rev_path : bytes) : bytes :=
  match rev_path with
  | [] => []
  | c :: r => if decide (c = "/"%char) then strip_slashes r else rev_path
  end.

(** Up the tree until a directory opens: the descriptor, and whether it is a DIR. *)
Fixpoint ancestors (fuel : nat) (base : Z * Z) (path parent : bytes) : MW (Z * bool) :=
  match fuel with
  | O => nofuel
  | S k =>
      let parent := parent ++ lit "/.." in
      '(err, st) ← stat_ parent;
      if truth err then mret (err, false)
      else
        put_errno ENOTSUP ;;
        if negb (bool_decide (st = base)) then print (lit "cannot handle " ++ path) ;; mret (-1, false)
        else
          fd ← opendir_ parent;
          if 0 <=? fd then mret (fd, true)
          else
            p ← alloc;
            if p : bool then ancestors k base path parent else mret (-1, false)
  end.

Definition open_aufs_fd (path : bytes) : MW (Z * bool) :=
  err ← open_ path;
  if 0 <=? err then mret (err, false)
  else
    e ← gets w_errno;
    dp ← (if e =? EISDIR then opendir_ path else mret (-1));
    if 0 <=? dp then mret (dp, true)
    else if (e =? EISDIR) || (e =? EACCES) || (e =? EPERM) then
      '(err, base) ← stat_ path;
      if truth err then mret (err, false)
      else
        p ← alloc;
        if negb p then mret (err, false)
        else
          match strip_slashes (rev path) with
          | [] => ub "path[-1]"
          | _ :: r => (* memcpy(parent, path, l); parent[l - 1] = 0; *)
              n ← gets (fun w => S (length (w_faults w)));
              ancestors n base path (rev r)
          end
    else mret (err, false).

Definition libau_pathconf (path : bytes) (name : Z) : MW Z :=
  err ← fallible; (* statfs *)
  if truth err then mret err
  else if k_is_aufs path then
    '(fd, dp) ← open_aufs_fd path;
    if 0 <=? fd then
      err ← do_fpathconf fd name;
      close_keep fd ;; (* close(2) or closedir(3) *)
      mret err
    else mret (-1)
  else
    d ← libau_dl (lit "pathconf");
    if truth d then mret (-1) else real_pathconf path name.

Definition wrapped (name : Z) : MW bool :=
  a ← test_func (lit "pathconf");
  b ← test_func (lit "fpathconf");
  mret ((name =? PC_LINK_MAX) && (a || b)).

Definition pathconf (path : bytes) (name : Z) : MW Z :=
  t ← wrapped name;
  if t : bool then libau_pathconf path name
  else
    d ← libau_dl (lit "pathconf");
    if truth d then mret (-1) else real_pathconf path name.

Definition libau_fpathconf (fd name : Z) : MW Z :=
  err ← fallible; (* fstatfs *)
  if truth err then mret err
  else
    what ← fd_what fd;
    if k_is_aufs what then do_fpathconf fd name
    else
      d ← libau_dl (lit "fpathconf");
      if truth d then mret (-1) else real_fpathconf fd name.

Definition fpathconf (fd name : Z) : MW Z :=
  t ← wrapped name;
  if t : bool then libau_fpathconf fd name
  else
    d ← libau_dl (lit "fpathconf");
    if truth d then mret (-1) else real_fpathconf fd name.
End pathconf.

Section proofs.
Context {K G : Type} `{!AufsKernel K, !LibAuGlobals G, !PathConf K}.
Notation world := (world K G).
Notation MW := (M world).

Lemma libau_dl_ok {A} sym (k : Z -> MW A) (w : world) :
  w_faults w = [] ->
  exists w', (libau_dl sym ≫= k) w = k 0 w' /\ w_faults w' = [] /\ w_fds w' = w_fds w /\
    w_kern w' = w_kern w /\ w_nextfd w' = w_nextfd w /\ w_errno w' = w_errno w.
Proof.
  intros Hf. unfold libau_dl. rewrite bind_assoc, bind_gets.
  case_decide; [by exists w|].
  rewrite bind_assoc, (bind_run _ _ _ _ _ (pop_fault_ok w Hf)), bind_assoc, bind_modify, bind_ret.
  by eexists.
Qed.

Lemma close_keep_run {A} fd (k : unit -> MW A) (w : world) :
  w_faults w = [] ->
  (close_keep fd ≫= k) w = k tt (set_fds (delete fd (w_fds w)) w).
Proof.
  intros Hf. unfold close_keep. rewrite bind_assoc, bind_gets, bind_assoc.
  rewrite (bind_run _ _ _ _ _ (close_ok w fd Hf)). unfold put_errno. rewrite bind_modify.
  by destruct w.
Qed.

Lemma result_run r (w : world) :
  result r w = (Ret r.1, if r.2 =? 0 then w else set_errno r.2 w).
Proof. unfold result. by destruct (r.2 =? 0). Qed.

(** The branch that the kernel names is asked, and no descriptor stays open; when it names
    none, its error is passed on. *)
Definition branch_answer (name : Z) (r : (Z * bytes) * K) : Z :=
  if truth r.1.1 then -1 else (pc_fd r.1.2 name r.2).1.

Lemma do_fpathconf_ok fd name what (w : world) :
  w_faults w = [] -> w_fds w !! fd = Some what -> w_fds w !! w_nextfd w = None ->
  let r := pc_wbr what (w_kern w) in
  exists w', do_fpathconf fd name w = (Ret (branch_answer name r), w') /\ w_faults w' = [] /\
    w_fds w' = w_fds w /\ w_kern w' = r.2 /\ (truth r.1.1 = true -> w_errno w' = r.1.1).
Proof.
  intros Hf Hfd Hn r. unfold do_fpathconf. unfold fd_what at 1. rewrite bind_gets, Hfd.
  change (default [] (Some what)) with what.
  rewrite (bind_run _ _ w r.1 (set_kern r.2 w))
    by (unfold kernel, r; by destruct (pc_wbr what (w_kern w))).
  unfold branch_answer. destruct r as [[e wbr] k]. cbn [fst snd]. destruct (truth e) eqn:Ee.
  { unfold put_errno. rewrite bind_modify. by eexists. }
  unfold new_fd at 1, mbind at 1, M_bind at 1. set (w1 := set_fds _ _).
  match goal with |- context[(libau_dl ?s ≫= ?k) w1] =>
    destruct (libau_dl_ok s k w1) as (w2 & -> & Hf2 & Hd2 & Hk2 & Hn2 & He2); [done|] end.
  cbn [truth negb Z.eqb]. unfold real_fpathconf, fd_what. rewrite !bind_assoc, bind_gets, Hd2.
  rewrite bind_assoc, bind_gets, Hk2.
  replace (w_fds w1 !! w_nextfd (set_kern k w)) with (Some wbr)
    by (simpl; by rewrite lookup_insert_eq).
  change (default [] (Some wbr)) with wbr. change (w_kern w1) with k.
  rewrite (bind_run _ _ _ _ _ (result_run _ w2)). set (w3 := if _ =? 0 then w2 else _).
  assert (w_faults w3 = [] /\ w_fds w3 = w_fds w1 /\ w_kern w3 = k) as (Hf3 & Hd3 & Hk3)
    by (unfold w3; destruct (_ =? 0); simpl; by rewrite ?Hf2, ?Hd2, ?Hk2).
  rewrite close_keep_run by done. eexists. split; [reflexivity|]. split; [done|].
  split; [|split; [done|by intros [=]]].
  simpl. rewrite Hd3. simpl. rewrite delete_insert_id; done.
Qed.

Definition enabled (w : world) : bool :=
  libau_test_func (g_env (w_glob w)) (lit "pathconf")
  || libau_test_func (g_env (w_glob w)) (lit "fpathconf").

Lemma wrapped_run {A} name (k : bool -> MW A) (w : world) :
  (wrapped name ≫= k) w = k ((name =? PC_LINK_MAX) && enabled w) w.
Proof. reflexivity. Qed.

(** C33. What pathconf() answers when no call of the C library fails.  In aufs, for
    _PC_LINK_MAX and with LIBAU enabling the wrapper, it is what the real fpathconf(3) says
    about the branch that the kernel names for the path, or -1 with the kernel's errno when
    it names none.  Otherwise (another name, LIBAU, or a path outside aufs, where the kernel
    is not asked for a branch) it is the answer of the real pathconf(3).  No descriptor
    stays open. *)
Theorem pathconf_answers path name (w : world) :
  w_faults w = [] -> 0 <= w_nextfd w ->
  (forall fd, w_nextfd w <= fd -> w_fds w !! fd = None) ->
  let asked := (name =? PC_LINK_MAX) && enabled w && k_is_aufs path in
  let r := pc_wbr path (w_kern w) in
  exists w', pathconf path name w =
    (Ret (if asked then branch_answer name r else (pc_path path name (w_kern w)).1), w') /\
    w_fds w' = w_fds w /\ w_kern w' = (if asked then r.2 else w_kern w) /\
    (asked && truth r.1.1 = true -> w_errno w' = r.1.1).
Proof.
  intros Hf Hn Hfree asked r. unfold pathconf. rewrite wrapped_run.
  assert (forall w1 : world, w_faults w1 = [] -> w_kern w1 = w_kern w -> w_fds w1 = w_fds w ->
    exists w', ((d ← libau_dl (lit "pathconf");
      if truth d then mret (-1) else real_pathconf path name) : MW Z) w1
        = (Ret (pc_path path name (w_kern w)).1, w') /\ w_fds w' = w_fds w /\
      w_kern w' = w_kern w /\ (false = true -> w_errno w' = r.1.1)) as Hreal.
  { intros w1 Hf1 Hk1 Hd1.
    match goal with |- context[(libau_dl ?s ≫= ?k) w1] =>
      destruct (libau_dl_ok s k w1 Hf1) as (w2 & -> & Hf2 & Hd2 & Hk2 & _) end.
    cbn [truth negb Z.eqb]. unfold real_pathconf. rewrite bind_gets, Hk2, Hk1, result_run.
    eexists. split; [reflexivity|]. destruct (_ =? 0); simpl; split_and!; congruence || done. }
  unfold asked. destruct ((name =? PC_LINK_MAX) && enabled w); [|by apply Hreal]. cbn [andb].
  unfold libau_pathconf. rewrite (bind_run _ _ _ _ _ (fallible_ok w Hf)). cbn [truth negb Z.eqb].
  destruct (k_is_aufs path); [|by apply Hreal]. cbn [andb].
  unfold open_aufs_fd. rewrite bind_assoc.
  rewrite (bind_run _ _ w (w_nextfd w) _ (open_ok w path Hf)), (proj2 (Z.leb_le _ _)) by done.
  rewrite bind_ret, (proj2 (Z.leb_le _ _)) by done. set (w1 := set_fds _ _).
  destruct (do_fpathconf_ok (w_nextfd w) name path w1) as (w2 & E2 & Hf2 & Hd2 & Hk2 & He2);
    try done.
  { apply lookup_insert_eq. }
  { simpl. rewrite lookup_insert_ne by lia. apply Hfree. lia. }
  rewrite (bind_run _ _ _ _ _ E2), close_keep_run by done. eexists. split; [reflexivity|].
  split; [|by split]. simpl. rewrite Hd2. simpl. rewrite delete_insert_id; [done|]. apply Hfree. lia.
Qed.

(** When a file cannot be opened for lack of permission, the library means to
    open a directory above it; but the terminator is put one byte too early, so that
    the directory it opens is the one above a name without its last character:
    another file's, or none. *)
Theorem ancestor_drops_last_char p c e (w : world) :
  w_faults w = [FErr e] -> e = EACCES \/ e = EPERM -> 0 <= w_nextfd w -> c <> "/"%char ->
  k_dev (p ++ lit "/..") = k_dev (p ++ [c]) ->
  exists w', open_aufs_fd (p ++ [c]) w = (Ret (w_nextfd w, true), w') /\
    w_fds w' !! w_nextfd w = Some (p ++ lit "/..").
Proof.
  intros Hf He Hn Hc Hdev. unfold open_aufs_fd, open_. rewrite bind_assoc.
  rewrite (bind_run _ _ _ _ _ (fallible_FErr w e [] Hf)). cbn [Z.eqb]. rewrite bind_ret.
  cbn [Z.leb Z.compare]. rewrite bind_gets. set (w1 := set_errno e _).
  change (w_errno w1) with e.
  assert ((e =? EISDIR) = false) as ->.
  { unfold EISDIR, EACCES, EPERM in *. destruct He as [->| ->]; done. }
  rewrite bind_ret. cbn [Z.leb Z.compare orb].
  assert ((e =? EACCES) || (e =? EPERM) = true) as ->.
  { unfold EACCES, EPERM in *. destruct He as [->| ->]; done. }
  assert (w_faults w1 = []) as Hf1 by done.
  unfold stat_. rewrite bind_assoc, (bind_run _ _ _ _ _ (fallible_ok w1 Hf1)), bind_ret.
  cbn [truth negb Z.eqb]. unfold alloc.
  rewrite bind_assoc, (bind_run _ _ _ _ _ (pop_fault_ok w1 Hf1)), bind_ret. cbn [negb].
  rewrite rev_app_distr. cbn [rev app strip_slashes]. rewrite decide_False by done.
  rewrite rev_involutive, bind_gets, Hf1. cbn [length ancestors]. cbv zeta.
  unfold stat_. rewrite bind_assoc, (bind_run _ _ _ _ _ (fallible_ok w1 Hf1)), bind_ret.
  cbn [truth negb Z.eqb]. unfold put_errno. rewrite bind_modify.
  rewrite bool_decide_true by done. cbn [negb]. set (w2 := set_errno _ w1).
  unfold opendir_. rewrite (bind_run _ _ w2 (w_nextfd w) _ (open_ok w2 _ Hf1)).
  rewrite (proj2 (Z.leb_le _ _)) by done. eexists. split; [reflexivity|]. apply lookup_insert_eq.
Qed.

(** When there is no memory for the name of the parent, open_aufs_fd() returns the
    0 of the stat(2) before it: the library then asks aufs about standard input, and
    closes it. *)
Theorem failed_malloc_closes_stdin path name e e' wbr k (w : world) :
  w_faults w = [FOk; FErr e; FOk; FErr e'] -> e = EACCES \/ e = EPERM -> k_is_aufs path = true ->
  pc_wbr (default [] (w_fds w !! 0)) (w_kern w) = ((0, wbr), k) -> 0 < w_nextfd w ->
  exists v w', libau_pathconf path name w = (Ret v, w') /\ w_fds w' !! 0 = None.
Proof.
  intros Hf He Ha Hw Hn. unfold libau_pathconf.
  rewrite (bind_run _ _ _ _ _ (fallible_FOk w _ Hf)). cbn [truth negb Z.eqb]. rewrite Ha.
  set (w1 := set_faults _ w). unfold open_aufs_fd, open_. rewrite !bind_assoc.
  assert (w_faults w1 = [FErr e; FOk; FErr e']) as Hf1 by done.
  rewrite (bind_run _ _ _ _ _ (fallible_FErr w1 e _ Hf1)). cbn [Z.eqb]. rewrite bind_ret.
  cbn [Z.leb Z.compare]. rewrite bind_assoc, bind_gets. set (w2 := set_errno e _).
  change (w_errno w2) with e.
  assert ((e =? EISDIR) = false) as ->.
  { unfold EISDIR, EACCES, EPERM in *. destruct He as [->| ->]; done. }
  rewrite bind_assoc, bind_ret. cbn [Z.leb Z.compare orb].
  assert ((e =? EACCES) || (e =? EPERM) = true) as ->.
  { unfold EACCES, EPERM in *. destruct He as [->| ->]; done. }
  assert (w_faults w2 = [FOk; FErr e']) as Hf2 by done.
  unfold stat_. rewrite !bind_assoc, (bind_run _ _ _ _ _ (fallible_FOk w2 _ Hf2)), bind_ret.
  cbn [truth negb Z.eqb]. set (w3 := set_faults _ w2). unfold alloc.
  assert (pop_fault w3 = (Ret (FErr e'), set_faults [] w3)) as E3 by done.
  rewrite !bind_assoc, (bind_run _ _ _ _ _ E3). unfold put_errno.
  rewrite bind_assoc, bind_modify, bind_ret. cbn [negb]. rewrite bind_ret.
  cbn [Z.leb Z.compare]. set (w4 := set_errno _ _).
  unfold do_fpathconf. rewrite bind_assoc. unfold fd_what at 1. rewrite bind_gets.
  unfold kernel at 1. rewrite bind_assoc. unfold mbind at 1, M_bind at 1.
  change (pc_wbr (default [] (w_fds w4 !! 0)) (w_kern w4))
    with (pc_wbr (default [] (w_fds w !! 0)) (w_kern w)). rewrite Hw. cbn [truth negb Z.eqb].
  rewrite bind_assoc. unfold new_fd at 1, mbind at 1, M_bind at 1.
  set (w5 := set_fds _ _). rewrite bind_assoc.
  match goal with |- context[(libau_dl ?s ≫= ?k) w5] =>
    destruct (libau_dl_ok s k w5) as (w6 & -> & Hf6 & Hd6 & Hk6 & Hn6 & _); [done|] end.
  cbn [truth negb Z.eqb]. rewrite bind_assoc. unfold real_fpathconf. rewrite bind_assoc.
  unfold fd_what. rewrite bind_gets, bind_assoc, bind_gets.
  rewrite (bind_run _ _ _ _ _ (result_run _ w6)).
  set (w7 := if _ =? 0 then w6 else _).
  assert (w_faults w7 = []) as Hf7 by (unfold w7; destruct (_ =? 0); done).
  rewrite bind_assoc, close_keep_run, bind_ret by done.
  rewrite close_keep_run by done. eexists _, _. split; [reflexivity|]. simpl. apply lookup_delete_eq.
Qed.
End proofs.

(** ** Concrete runs *)

Module PathconfDemo.
Import Demo.
(** One aufs, on /mnt. *)
Definition in_aufs (path : bytes) : bool := bool_decide (take 5 path = lit "/mnt/").
#[export] Instance somewhere : AufsKernel unit :=
  {| k_is_aufs := in_aufs; k_dev := k_dev; k_ino := k_ino; k_br_count := k_br_count;
     k_br_fill := k_br_fill; k_wbr_fd := k_wbr_fd; k_openat := k_openat; k_nlink := k_nlink;
     k_mvdown := k_mvdown; k_fhsm_fd := k_fhsm_fd; k_fhsm_read := k_fhsm_read;
     k_list_cmd := k_list_cmd |}.
#[export] Instance links : PathConf unit := {
  pc_path p _ _ := (127, 0);
  pc_fd p _ _ := if decide (p = lit "/rw") then (32000, 0) else (8, 0);
  pc_wbr p k := (if in_aufs p then (0, lit "/rw") else (25 (* ENOTTY *), []), k)
}.
#[export, program] Instance globals : LibAuGlobals (gset bytes) :=
  {| g_loaded g := g; put_loaded s _ := s; g_env _ := Some (lit "all") |}.
Next Obligation. done. Qed.
Next Obligation. done. Qed.
Definition start (f : list fault) : world unit (gset bytes) :=
  World 0 f tt ∅ ∅ ∅ {[0 := lit "/mnt/in"]} 3 ∅ [] [] [].
End PathconfDemo.
Import Demo PathconfDemo.

(** In aufs, and outside. *)
Lemma pathconf_answers_witness :
  (exists w', pathconf (lit "/mnt/a") PC_LINK_MAX (start []) = (Ret 32000, w') /\
     w_fds w' = w_fds (start [])) /\
  (exists w', pathconf (lit "/home/a") PC_LINK_MAX (start []) = (Ret 127, w') /\
     w_fds w' = w_fds (start [])).
Proof.
  assert (forall fd, w_nextfd (start []) <= fd -> w_fds (start []) !! fd = None) as Hfd.
  { intros fd H. simpl in *. rewrite lookup_singleton_ne by lia. done. }
  split.
  - destruct (pathconf_answers (lit "/mnt/a") PC_LINK_MAX (start []) eq_refl
      ltac:(cbn; lia) Hfd) as (w' & E & H & _).
    exists w'. split; [|exact H]. rewrite E. vm_compute. reflexivity.
  - destruct (pathconf_answers (lit "/home/a") PC_LINK_MAX (start []) eq_refl
      ltac:(cbn; lia) Hfd) as (w' & E & H & _).
    exists w'. split; [|exact H]. rewrite E. vm_compute. reflexivity.
Defined.

Lemma ancestor_drops_last_char_witness :
  exists w', open_aufs_fd (lit "/mnt/file") (start [FErr EACCES]) = (Ret (3, true), w') /\
    w_fds w' !! 3 = Some (lit "/mnt/fil/..").
Proof.
  exact (ancestor_drops_last_char (lit "/mnt/fil") "e"%char EACCES (start [FErr EACCES]) eq_refl
    (or_introl eq_refl) ltac:(cbn; lia) ltac:(discriminate) eq_refl).
Defined.

Lemma failed_malloc_closes_stdin_witness :
  exists v w', libau_pathconf (lit "/mnt/file") PC_LINK_MAX
      (start [FOk; FErr EACCES; FOk; FErr ENOMEM]) = (Ret v, w') /\ w_fds w' !! 0 = None.
Proof.
  assert (pc_wbr (lit "/mnt/in") tt = ((0, lit "/rw"), tt)) as Hp by reflexivity.
  exact (failed_malloc_closes_stdin (lit "/mnt/file") PC_LINK_MAX EACCES ENOMEM (lit "/rw") tt
    (start [FOk; FErr EACCES; FOk; FErr ENOMEM]) eq_refl (or_introl eq_refl) eq_refl Hp
    ltac:(cbn; lia)).
Defined.
