(* ===== verification/AuCmd.v ===== *)
(** * aumvdown.c, auibusy.c and perror.c: the two small commands

    [aumvdown] moves files down by the AUFS_CTL_MVDOWN ioctl, one after another, asking
    first when told to; [auibusy] asks for the inodes that keep a branch busy.  The
    globals [cmd] are au_errno and what is left of stdin.

    main() takes the sequence of the results of getopt_long(3), the option characters with
    their arguments, and the operands; Cmdline.v computes them from [argv].  Texts of
    strerror(3) are not printed. *)
From Stdlib Require Import SpecFloat.
From S2P Require Import Prelude CString AuUtil Float32 Scan AufsType FhsmData Sys.

Definition AUFS_MVDOWN_ROLOWER_R : Z := Z.shiftl 1 4.
Definition AUFS_MVDOWN_ROUPPER_R : Z := Z.shiftl 1 6.

Definition EAU_MVDOWN_WHITEOUT : Z := 2.
Definition EAU_MVDOWN_UPPER : Z := 3.
Definition EAU_MVDOWN_BOTTOM : Z := 4.
Definition EAU_MVDOWN_NOUPPER : Z := 5.
Definition EAU_MVDOWN_NOLOWERBR : Z := 6.

Record cmd := Cmd {
  au_errno : Z;
  g_stdin : bytes
}.

(** ** perror.c *)

Definition au_errlist (e : Z) : option bytes :=
  if e =? EAU_MVDOWN_OPAQUE then Some (lit "Opaque ancestor")
  else if e =? EAU_MVDOWN_WHITEOUT then Some (lit "Whiteout-ed by ancestor")
  else if e =? EAU_MVDOWN_UPPER then Some (lit "Upper exists")
  else if e =? EAU_MVDOWN_BOTTOM then Some (lit "No writable lower")
  else if e =? EAU_MVDOWN_NOUPPER then Some (lit "No upper exists")
  else if e =? EAU_MVDOWN_NOLOWERBR then Some (lit "No such lower branch")
  else None.

Section cmd.
Context {K : Type}.
Notation world := (world K cmd).
Notation MC := (M world).

Definition put_au_errno (e : Z) : MC unit :=
  modify (fun w => set_glob (Cmd e (g_stdin (w_glob w))) w).
Definition put_stdin (s : bytes) : MC unit :=
  modify (fun w => set_glob (Cmd (au_errno (w_glob w)) s) w).

(** perror(3), without the text of errno *)
Definition perror (s : bytes) : MC unit := print s.

Definition au_perror (s : bytes) : MC unit :=
  e ← gets (fun w => au_errno (w_glob w));
  let colon := match s with [] => [] | _ => lit ": " end in
  if e =? 0 then perror s
  else if (0 <? e) && (e <? EAU_Last) then
    match au_errlist e with
    | Some t => print (s ++ colon ++ t)
    | None => ub "au_errlist has no text"
    end
  else print (s ++ colon ++ lit "Unknown error " ++ fmt_d e).

(** fgetc(3): [None] is EOF. *)
Definition fgetc : MC (option ascii) :=
  s ← gets (fun w => g_stdin (w_glob w));
  match s with
  | [] => mret None
  | c :: r => put_stdin r ;; mret (Some c)
  end.

Definition newline : ascii := byte_of 10.
(** fgets(a, size, stdin): at most [size - 1] bytes, up to and with the newline. *)
Fixpoint take_line (n : nat) (s : bytes) : bytes :=
  match n, s with
  | S k, c :: r => c :: (if decide (c = newline) then [] else take_line k r)
  | _, _ => []
  end.
Definition fgets (size : nat) : MC (option bytes) :=
  s ← gets (fun w => g_stdin (w_glob w));
  match take_line (size - 1) s with
  | [] => mret None
  | l => put_stdin (drop (length l) s) ;; mret (Some l)
  end.

(** toupper(c) == 'Y' *)
Definition is_Y (c : option ascii) : bool :=
  match c with Some c => bool_decide (c = "y"%char \/ c = "Y"%char) | None => false end.
End cmd.

(** ** aumvdown *)

Definition INTERACTIVE : Z := 1.
Definition VERBOSE : Z := Z.shiftl 1 1.

(** strtol(s, NULL, 10): the value, clamped, and whether errno becomes ERANGE *)
Definition strtol10 (s : bytes) : Z * bool :=
  let '(neg, s) := scan_sign (skip_space s) in
  let '(v, _, _) := scan_digits 10 s 0 0 in
  let v := if neg : bool then - v else v in
  if v <? - 2 ^ 63 then (- 2 ^ 63, true)
  else if 2 ^ 63 - 1 <? v then (2 ^ 63 - 1, true)
  else (v, false).

(** (int)(a * 100.0 / b) in double precision; [None] where C leaves it undefined. *)
Definition f64_of_Z (z : Z) : spec_float := binary_normalize 53 1024 z 0 false.
Definition percent (a b : Z) : option Z :=
  match SFdiv 53 1024 (SFmul 53 1024 (f64_of_Z a) (f64_of_Z 100)) (f64_of_Z b) with
  | S754_zero _ => Some 0
  | S754_finite neg m e =>
      let v := Z.shiftl (Zpos m) e in
      let v := if neg : bool then - v else v in
      if (- 2 ^ 31 <=? v) && (v <? 2 ^ 31) then Some v else None
  | _ => None
  end.

Definition mvdown_zero : aufs_mvdown :=
  Mvdown 0 (Stbr 0 0 (Stfs 0 0 0 0)) (Stbr 0 0 (Stfs 0 0 0 0)) 0.

Definition or_flags (x : Z) (m : aufs_mvdown) : aufs_mvdown :=
  Mvdown (Z.lor (mv_flags m) x) (mv_upper m) (mv_lower m) (mv_errno m).
(** [stbr[..].brid = err] on an int16_t *)
Definition brid_s (x : Z) (s : aufs_stbr) : aufs_stbr :=
  Stbr (wrap_s 16 x) (st_bindex s) (st_stfs s).

Section aumvdown.
Context {K : Type} `{!AufsKernel K}.
Notation world := (world K cmd).
Notation MC := (M world).

Definition usage : MC unit :=
  print (clit "usage: aumvdown [options] file ...\n" ++
    clit "move-down the specified file (an opposite action of copy-up)\n" ++
    clit "from the highest branch where the file exist to the next\n" ++
    clit "lower writable branch.\n" ++
    clit "options:\n" ++
    clit "-b | --lower-branch-id brid\n" ++
    clit "-B | --upper-branch-id brid\n" ++
    clit "-i | --interactive\n" ++
    clit "-k | --keep-upper\n" ++
    clit "-o | --overwrite-lower\n" ++
    clit "-r | --allow-ro-lower\n" ++
    clit "-R | --allow-ro-upper\n" ++
    clit "-v | --verbose\n" ++
    clit "-V | --version\n" ++
    AuVersion ++ clit "\n").

Definition cvt (str : bytes) : MC Z :=
  put_errno 0 ;;
  let '(ret, range) := strtol10 str in
  if range : bool then put_errno 34 ;; mret (-1) else mret ret.

Definition pr_stbr (s : aufs_stbr) : MC unit :=
  match percent (f_bavail (st_stfs s)) (f_blocks (st_stfs s)),
        percent (f_ffree (st_stfs s)) (f_files (st_stfs s)) with
  | Some b, Some i =>
      print (lit "b" ++ fmt_d (st_bindex s) ++ lit " " ++ fmt_d b ++ lit "%(" ++
             fmt_u (f_bavail (st_stfs s)) ++ lit "/" ++ fmt_u (f_blocks (st_stfs s)) ++
             lit "), " ++ fmt_d i ++ lit "%(" ++
             fmt_u (f_ffree (st_stfs s)) ++ lit "/" ++ fmt_u (f_files (st_stfs s)) ++
             lit ") free")
  | _, _ => ub "a double that no int holds"
  end.

(** AuMvDownFin(), with the line number of its use *)
Definition AuMvDownFin (line : Z) (m : aufs_mvdown) (str : bytes) : MC unit :=
  let a := take 1023 (lit "aumvdown.c:" ++ fmt_d line ++ lit ": " ++ str) in
  put_au_errno (mv_errno m) ;;
  au_perror a ;;
  e ← gets w_errno;
  when (truth e) (exit_ (u8 e)).

(** The option loop.  [inl err] leaves main() with that status. *)
Fixpoint parse (calls : list (ascii * bytes)) (err uf : Z) (m : aufs_mvdown)
    : MC (Z + Z * aufs_mvdown) :=
  match calls with
  | [] => mret (inr (uf, m))
  | (c, optarg) :: r =>
      if decide (c = "b"%char) then
        v ← cvt optarg;
        let err := i32 v in
        if err <? 0 then perror optarg ;; mret (inl err)
        else
          let m := or_flags AUFS_MVDOWN_BRID_LOWER m in
          parse r err uf (Mvdown (mv_flags m) (mv_upper m) (brid_s err (mv_lower m)) (mv_errno m))
      else if decide (c = "B"%char) then
        v ← cvt optarg;
        let err := i32 v in
        if err <? 0 then perror optarg ;; mret (inl err)
        else
          let m := or_flags AUFS_MVDOWN_BRID_UPPER m in
          parse r err uf (Mvdown (mv_flags m) (brid_s err (mv_upper m)) (mv_lower m) (mv_errno m))
      else if decide (c = "i"%char) then parse r err (Z.lor uf INTERACTIVE) m
      else if decide (c = "k"%char) then parse r err uf (or_flags AUFS_MVDOWN_KUPPER m)
      else if decide (c = "o"%char) then parse r err uf (or_flags AUFS_MVDOWN_OWLOWER m)
      else if decide (c = "r"%char) then parse r err uf (or_flags AUFS_MVDOWN_ROLOWER m)
      else if decide (c = "R"%char) then parse r err uf (or_flags AUFS_MVDOWN_ROUPPER m)
      else if decide (c = "v"%char) then parse r err (Z.lor uf VERBOSE) m
      else if decide (c = "V"%char) then print (AuVersion ++ clit "\n") ;; mret (inl err)
      else if decide (c = "d"%char) then parse r err uf (or_flags AUFS_MVDOWN_DMSG m)
      else if decide (c = "s"%char) then parse r err uf (or_flags AUFS_MVDOWN_STFS m)
      else usage ;; mret (inl err)
  end.

Definition pr_moved (f : bytes) (m : aufs_mvdown) : MC unit :=
  let side (s : aufs_stbr) (ro : Z) :=
    lit "b" ++ fmt_d (st_bindex s) ++ lit "(brid" ++ fmt_d (st_brid s) ++ lit ")" ++
    (if truth (Z.land (mv_flags m) ro) then lit "(RO)" else []) in
  print (lit "'" ++ f ++ lit "' " ++ side (mv_upper m) AUFS_MVDOWN_ROUPPER_R ++
         lit " --> " ++ side (mv_lower m) AUFS_MVDOWN_ROLOWER_R) ;;
  when (truth (Z.land (mv_flags m) AUFS_MVDOWN_STFS))
    (if negb (truth (Z.land (mv_flags m) AUFS_MVDOWN_STFS_FAILED))
     then pr_stbr (mv_upper m) ;; pr_stbr (mv_lower m)
     else print (lit "STFS failed, ignored")).

(** The loop over the operands: the structure that the kernel fills is passed on. *)
Fixpoint move_files (uf : Z) (files : list bytes) (m : aufs_mvdown) (err : Z) : MC Z :=
  match files with
  | [] => mret err
  | f :: rest =>
      yes ← (if truth (Z.land uf INTERACTIVE)
             then print (lit "move down '" ++ f ++ lit "'? ") ;; c ← fgetc; mret (is_Y c)
             else mret true);
      if negb (yes : bool) then move_files uf rest m err
      else
        fd ← open_ f;
        when (fd <? 0) (AuMvDownFin 204 m f) ;;
        what ← fd_what fd;
        '(e, m) ← kernel (k_mvdown what m);
        when (truth e) (put_errno e ;; AuMvDownFin 207 m f) ;;
        when (truth (Z.land uf VERBOSE)) (pr_moved f m) ;;
        err ← close_ fd;
        when (truth err) (AuMvDownFin 234 m f) ;;
        move_files uf rest m err
  end.

Definition main (calls : list (ascii * bytes)) (operands : list bytes) : MC Z :=
  o ← parse calls 0 0 mvdown_zero;
  match o with
  | inl err => mret err
  | inr (uf, m) =>
      match operands with
      | [] => usage ;; mret EINVAL
      | _ => move_files uf operands m EINVAL
      end
  end.
End aumvdown.

(** ** auibusy *)

Record aufs_ibusy := Ibusy {
  ib_ino : Z;
  ib_h_ino : Z;
  ib_bindex : Z
}.

(** ioctl(AUFS_CTL_IBUSY): errno or 0, and the structure the kernel wrote back. *)
Class IbusyKernel (K : Type) := {
  k_ibusy : bytes -> aufs_ibusy -> K -> (Z * aufs_ibusy) * K
}.

(** strtoul(s, NULL, 0) on an LP64 machine *)
Definition strtoul0 : bytes -> Z * bool := strtoull0.

Section auibusy.
Context {K : Type} `{!IbusyKernel K}.
Notation world := (world K cmd).
Notation MC := (M world).

Definition usage_ibusy (me : bytes) : MC unit :=
  print (lit "usage: " ++ me ++ lit " mntpnt bindex [inum ...]").

Definition do_ibusy (inum : bytes) (fd : Z) (ibusy : aufs_ibusy) : MC (Z * aufs_ibusy) :=
  put_errno 0 ;;
  let '(ino, range) := strtoul0 inum in
  let ibusy := Ibusy ino (ib_h_ino ibusy) (ib_bindex ibusy) in
  if range : bool then put_errno 34 ;; mret (-1, ibusy)
  else if ino =? AUFS_ROOT_INO then mret (0, ibusy)
  else
    what ← fd_what fd;
    '(e, ibusy) ← kernel (k_ibusy what ibusy);
    if truth e then put_errno e ;; mret (-1, ibusy)
    else
      when (truth (ib_h_ino ibusy))
        (print (lit "i" ++ fmt_u (ib_ino ibusy) ++ [byte_of 9] ++ lit "b" ++
                fmt_d (ib_bindex ibusy) ++ [byte_of 9] ++ lit "hi" ++ fmt_u (ib_h_ino ibusy))) ;;
      mret (0, ibusy).

(** The loop over the arguments: the status and what [eprefix] points to. *)
Fixpoint ibusy_args (inums : list bytes) (fd : Z) (ibusy : aufs_ibusy) (eprefix : bytes)
    : MC (Z * option bytes) :=
  match inums with
  | [] => mret (0, Some eprefix)
  | a :: r =>
      '(err, ibusy) ← do_ibusy a fd ibusy;
      if truth err then mret (err, Some a) else ibusy_args r fd ibusy a
  end.

(** The loop over stdin, through a buffer [a] of 16 bytes, which holds nothing before
    the first line.  With no line at all the status is still -1. *)
Fixpoint ibusy_stdin (fuel : nat) (fd : Z) (ibusy : aufs_ibusy) (err : Z)
    (eprefix : option bytes) : MC (Z * option bytes) :=
  match fuel with
  | O => nofuel
  | S k =>
      l ← fgets 16;
      match l with
      | None => mret (err, eprefix)
      | Some a =>
          '(err, ibusy) ← do_ibusy a fd ibusy;
          if truth err then mret (err, Some a) else ibusy_stdin k fd ibusy err (Some a)
      end
  end.

Definition main_ibusy (argv0 : bytes) (args : list bytes) : MC Z :=
  put_errno EINVAL ;;
  match args with
  | mnt :: bindex :: inums =>
      fd ← open_ mnt; (* opendir, dirfd *)
      if fd <? 0 then perror mnt ;; mret (-1)
      else
        put_errno 0 ;;
        let '(b, range) := strtoul0 bindex in
        if range : bool then put_errno 34 ;; perror bindex ;; mret (-1)
        else
          let ibusy := Ibusy 0 0 (wrap_s 16 b) in
          '(err, eprefix) ←
             match inums with
             | [] =>
                 s ← gets (fun w => g_stdin (w_glob w));
                 ibusy_stdin (S (length s)) fd ibusy (-1) None
             | _ => ibusy_args inums fd ibusy bindex
             end;
          if truth err then
            match eprefix with
            | Some a => perror a ;; mret err
            | None => ub "perror of an uninitialised buffer"
            end
          else mret err
  | _ => usage_ibusy argv0 ;; perror argv0 ;; mret (-1)
  end.
End auibusy.

(** ** What aumvdown does *)

Section moves.
Context {K : Type} `{!AufsKernel K}.
Notation world := (world K cmd).

(** The ioctls that a sequence of files gives, up to the first failure. *)
Fixpoint moved (files : list bytes) (m : aufs_mvdown) (k : K) : Z * K :=
  match files with
  | [] => (0, k)
  | f :: r =>
      let '((e, m), k) := k_mvdown f m k in
      if e =? 0 then moved r m k else (e, k)
  end.

(** Every file asks for one byte of stdin, and it is taken by a y. *)
Fixpoint asked (files : list bytes) (s : bytes) : list bytes :=
  match files with
  | [] => []
  | f :: r => if is_Y (head s) then f :: asked r (tail s) else asked r (tail s)
  end.

Definition chosen (uf : Z) (files : list bytes) (s : bytes) : list bytes :=
  if truth (Z.land uf INTERACTIVE) then asked files s else files.

Lemma au_perror_runs s (w : world) :
  exists w', au_perror s w = (Ret tt, w') /\ w_errno w' = w_errno w /\ w_kern w' = w_kern w.
Proof.
  unfold au_perror. rewrite bind_gets. set (e := au_errno _). destruct (e =? 0).
  { by eexists. }
  destruct ((0 <? e) && (e <? EAU_Last)) eqn:E; [|by eexists].
  assert (exists t, au_errlist e = Some t) as [t ->]; [|by eexists].
  apply andb_true_iff in E as [H1%Z.ltb_lt H2%Z.ltb_lt]. unfold EAU_Last in H2.
  assert (e = 1 \/ e = 2 \/ e = 3 \/ e = 4 \/ e = 5 \/ e = 6) as He by lia.
  by repeat destruct He as [-> | He]; [by eexists..|rewrite He; eexists].
Qed.

Lemma AuMvDownFin_exits line m f e (w : world) :
  e <> 0 -> w_errno w = e ->
  exists w', AuMvDownFin line m f w = (Exit (u8 e), w') /\ w_kern w' = w_kern w.
Proof.
  intros He Hw. unfold AuMvDownFin. cbv zeta. unfold put_au_errno. rewrite bind_modify.
  match goal with |- context [au_perror ?a ≫= _] => set (a' := a) end.
  destruct (au_perror_runs a' (set_glob (Cmd (mv_errno m) (g_stdin (w_glob w))) w))
    as (w' & E & Ee & Ek).
  rewrite (bind_run _ _ _ _ _ E), bind_gets. cbn in Ee. rewrite Ee, Hw.
  exists w'. unfold truth. rewrite (proj2 (Z.eqb_neq e 0) He). by split.
Qed.

(** The state of a loop that meets no fault of open(2) or close(2). *)
Definition calm (w : world) : Prop := w_faults w = [] /\ 0 <= w_nextfd w.

Lemma move_one f (w : world) :
  calm w ->
  open_ f w = (Ret (w_nextfd w), set_fds (<[w_nextfd w := f]> (w_fds w))
                                   (set_nextfd (w_nextfd w + 1) w)).
Proof. intros [Hf _]. by rewrite open_ok. Qed.

Lemma move_files_spec uf files m err (w : world) :
  truth (Z.land uf VERBOSE) = false -> calm w ->
  let sel := chosen uf files (g_stdin (w_glob w)) in
  let '(e, k) := moved sel m (w_kern w) in
  exists w', w_kern w' = k /\
    move_files uf files m err w =
      (if e =? 0 then Ret (match sel with [] => err | _ => 0 end) else Exit (u8 e), w').
Proof.
  intros Hv. revert m err w. induction files as [|f r IH]; intros m err w Hc sel.
  { assert (sel = []) as Es.
    { subst sel. unfold chosen.
      destruct (truth (Z.land uf INTERACTIVE)); reflexivity. }
    clearbody sel. subst sel. by exists w. }
  cbn [move_files]. rewrite Hv.
  (* the question *)
  set (q := if truth (Z.land uf INTERACTIVE) then _ else _).
  assert (exists yes w1, q w = (Ret yes, w1) /\ calm w1 /\ w_kern w1 = w_kern w /\
    sel = if yes : bool then f :: chosen uf r (g_stdin (w_glob w1))
          else chosen uf r (g_stdin (w_glob w1))) as (yes & w1 & Eq & Hc1 & Ek & Es).
  { subst q sel. unfold chosen. destruct (truth (Z.land uf INTERACTIVE)).
    - unfold print. rewrite bind_modify. unfold fgetc. rewrite bind_assoc, bind_gets. cbn [w_glob set_out asked].
      destruct (g_stdin (w_glob w)) as [|c s] eqn:E.
      + eexists false, _. split; [reflexivity|]. cbn. by rewrite E.
      + unfold put_stdin. rewrite bind_assoc, bind_modify.
        eexists (is_Y (Some c)), _. split; [reflexivity|]. by cbn.
    - exists true, w. by split_and!. }
  rewrite (bind_run _ _ _ _ _ Eq), Es, <- Ek. clearbody sel. clear Eq Es sel q.
  destruct yes; cbn [negb]; [|by apply IH].
  rewrite (bind_run _ _ _ _ _ (move_one f w1 Hc1)).
  rewrite (proj2 (Z.ltb_ge _ _)) by apply Hc1. cbn [when]. rewrite bind_ret.
  unfold fd_what. rewrite bind_gets. cbn [w_fds set_fds]. rewrite lookup_insert_eq. cbn [default id].
  cbn [moved]. unfold kernel. unfold mbind at 1, M_bind at 1. cbn [w_kern set_fds set_nextfd].
  destruct (k_mvdown f m (w_kern w1)) as [[e m'] k'] eqn:Ekm.
  unfold truth. destruct (Z.eqb_spec e 0) as [->|He].
  - cbn [negb when]. rewrite bind_ret, bind_ret.
    match goal with |- context [(close_ ?fd ≫= _) ?x] =>
      rewrite (bind_run _ _ _ _ _ (close_ok x fd (proj1 Hc1))) end.
    cbn [truth negb Z.eqb when]. rewrite bind_ret.
    match goal with |- context [move_files uf r m' 0 ?x] => set (w2 := x) end.
    specialize (IH m' 0 w2). cbn zeta in IH. change (w_kern w2) with k' in IH.
    change (w_glob w2) with (w_glob w1) in IH.
    destruct (moved _ m' k') as [e2 k2]. destruct IH as (w3 & E3 & ->).
    { split; [apply Hc1|]. cbn. destruct Hc1. lia. }
    exists w3. split; [done|]. f_equal. destruct (e2 =? 0); [|done]. by case_match.
  - cbn [negb when]. rewrite (proj2 (Z.eqb_neq e 0) He).
    unfold put_errno. rewrite bind_assoc, bind_modify.
    match goal with |- context [(AuMvDownFin 207 m' f ≫= _) ?x] => set (w2 := x) end.
    destruct (AuMvDownFin_exits 207 m' f e w2) as (w3 & E3 & K3); [done|done|].
    exists w3. split; [by rewrite K3|]. unfold mbind, M_bind. by rewrite E3.
Qed.

(** The options that only set a flag, -v aside. *)
Definition plain_flag (c : ascii) : option Z :=
  if decide (c = "k"%char) then Some AUFS_MVDOWN_KUPPER
  else if decide (c = "o"%char) then Some AUFS_MVDOWN_OWLOWER
  else if decide (c = "r"%char) then Some AUFS_MVDOWN_ROLOWER
  else if decide (c = "R"%char) then Some AUFS_MVDOWN_ROUPPER
  else if decide (c = "d"%char) then Some AUFS_MVDOWN_DMSG
  else if decide (c = "s"%char) then Some AUFS_MVDOWN_STFS
  else if decide (c = "i"%char) then Some 0
  else None.

Definition plain_flags (calls : list (ascii * bytes)) : Z :=
  fold_left Z.lor (omap (fun c => plain_flag c.1) calls) 0.
Definition asks (calls : list (ascii * bytes)) : bool :=
  existsb (fun c => bool_decide (c.1 = "i"%char)) calls.

Lemma parse_plain calls err uf m (w : world) :
  Forall (fun c => is_Some (plain_flag c.1)) calls ->
  parse calls err uf m w =
    (Ret (inr (if asks calls then Z.lor uf INTERACTIVE else uf,
               Mvdown (fold_left Z.lor (omap (fun c => plain_flag c.1) calls) (mv_flags m))
                 (mv_upper m) (mv_lower m) (mv_errno m))), w).
Proof.
  intros H. revert uf m. induction H as [|[c a] calls [x Hx] _ IH]; intros uf m.
  { by destruct m. }
  cbn in Hx. unfold asks. cbn [existsb fst omap list_omap]. rewrite Hx. fold (asks calls).
  assert (c = "k" \/ c = "o" \/ c = "r" \/ c = "R" \/ c = "d" \/ c = "s" \/ c = "i")%char as Hc.
  { unfold plain_flag in Hx. repeat case_decide; tauto || discriminate. }
  repeat destruct Hc as [-> | Hc]; [..|subst c].
  all: injection Hx as <-; cbn [parse].
  all: repeat (case_decide as Hd; [try discriminate Hd|try by destruct Hd]; clear Hd).
  all: rewrite IH; cbn; try done.
  rewrite Z.lor_0_r. destruct (asks calls); [|done].
  by rewrite <- Z.lor_assoc, Z.lor_diag.
Qed.

(** aumvdown moves the operands down in their order, each by one ioctl with the
    flags of its options and what the kernel left in the structure for the file before;
    with -i only those that a key allows.  It stops at the first file the kernel
    refuses and exits with its errno; else it returns 0, but EINVAL when no file was
    chosen. *)
Theorem aumvdown_moves calls files (w : world) :
  Forall (fun c => is_Some (plain_flag c.1)) calls -> files <> [] -> calm w ->
  let sel := if asks calls then asked files (g_stdin (w_glob w)) else files in
  let '(e, k) := moved sel (Mvdown (plain_flags calls) (mv_upper mvdown_zero)
                              (mv_lower mvdown_zero) 0) (w_kern w) in
  exists w', w_kern w' = k /\
    main calls files w =
      (if e =? 0 then Ret (match sel with [] => EINVAL | _ => 0 end) else Exit (u8 e), w').
Proof.
  intros Hc Hf Hw sel. unfold main.
  rewrite (bind_run _ _ _ _ _ (parse_plain calls 0 0 mvdown_zero w Hc)).
  destruct files as [|f r]; [done|].
  set (uf := if asks calls then Z.lor 0 INTERACTIVE else 0).
  pose proof (move_files_spec uf (f :: r) (Mvdown (plain_flags calls) (mv_upper mvdown_zero)
    (mv_lower mvdown_zero) 0) EINVAL w) as H.
  assert (chosen uf (f :: r) (g_stdin (w_glob w)) = sel) as Es
    by (unfold chosen, uf, sel; by destruct (asks calls)).
  rewrite Es in H. apply H; [unfold uf; by destruct (asks calls)|done].
Qed.

(** Every other element. *)
Fixpoint odds {A} (l : list A) : list A :=
  match l with
  | x :: _ :: r => x :: odds r
  | l => l
  end.

Definition y_enter : bytes := ["y"%char; newline].

Lemma asked_nothing files : asked files [] = [].
Proof. induction files; [done|]. by cbn. Qed.

Lemma asked_lines n files s :
  (length files <= n)%nat -> (length files <= 2 * length s)%nat ->
  Forall (fun l => l = y_enter) s -> asked files (concat s) = odds files.
Proof.
  revert files s. induction n as [|n IH]; intros files s Hn Hs Hf.
  { destruct files; [done|simpl in Hn; lia]. }
  destruct files as [|f [|g r]]; [done| |].
  all: destruct Hf as [|l s -> Hf]; [simpl in Hs; lia|].
  - done.
  - cbn. f_equal. apply IH; [|simpl in *; lia|done]. simpl in Hn. lia.
Qed.

(** With -i, a user who answers every question with y and Enter has only every
    other file moved: the newline that ends an answer is the answer to the next
    question. *)
Theorem enter_answers_next files n (w : world) :
  files <> [] -> calm w -> (length files <= 2 * n)%nat ->
  g_stdin (w_glob w) = concat (replicate n y_enter) ->
  let '(e, k) := moved (odds files) mvdown_zero (w_kern w) in
  exists w', w_kern w' = k /\
    main [("i"%char, [])] files w = (if e =? 0 then Ret 0 else Exit (u8 e), w').
Proof.
  intros Hf Hc Hn Hs.
  pose proof (move_files_spec INTERACTIVE files mvdown_zero EINVAL w eq_refl Hc) as H. cbv zeta in H.
  unfold chosen in H. change (truth (Z.land INTERACTIVE INTERACTIVE)) with true in H. cbv iota in H.
  rewrite Hs, (asked_lines (length files)) in H.
  2: done. 2: by rewrite length_replicate. 2: by apply Forall_replicate.
  unfold main. rewrite (bind_run _ _ w (inr (INTERACTIVE, mvdown_zero)) w) by done.
  destruct (moved _ _ _) as [e k]. destruct H as (w' & Hk & E). exists w'. split; [done|].
  destruct files as [|f [|g r]]; [done|exact E..].
Qed.
End moves.

(** ** auibusy *)

Section ibusy_term.
Context {K : Type} `{!IbusyKernel K}.
Notation world := (world K cmd).

Lemma take_line_le n s : (length (take_line n s) <= length s)%nat.
Proof.
  revert s; induction n as [|n IH]; intros [|c s]; simpl; try lia.
  case_decide; simpl; [lia|]. specialize (IH s). lia.
Qed.

Lemma do_ibusy_stdin a fd ib (w : world) :
  exists r w', do_ibusy a fd ib w = (Ret r, w') /\ g_stdin (w_glob w') = g_stdin (w_glob w).
Proof.
  unfold do_ibusy, put_errno. rewrite bind_modify.
  destruct (strtoul0 a) as [ino range]. cbv zeta. destruct range; [by eexists _, _|].
  destruct (ino =? AUFS_ROOT_INO); [by eexists _, _|].
  unfold fd_what. rewrite bind_gets. unfold kernel. unfold mbind at 1, M_bind at 1.
  destruct (k_ibusy _ _ _) as [[e ib'] k']. destruct (truth e); [by eexists _, _|].
  unfold when, print. by destruct (truth (ib_h_ino ib')); eexists _, _.
Qed.

Lemma fallible_glob (w : world) :
  exists e w', fallible w = (Ret e, w') /\ w_glob w' = w_glob w.
Proof.
  unfold fallible, pop_fault, put_errno, mbind, M_bind, modify, mret, M_ret.
  destruct (w_faults w) as [|[] r]; by eexists _, _.
Qed.

Lemma ibusy_args_runs inums fd ib e0 (w : world) :
  exists r w', ibusy_args inums fd ib e0 w = (Ret r, w') /\ r.2 <> None.
Proof.
  revert ib e0 w. induction inums as [|a r IH]; intros ib e0 w; cbn [ibusy_args]; [by eexists _, _|].
  destruct (do_ibusy_stdin a fd ib w) as ([err ib'] & w1 & E & _).
  rewrite (bind_run _ _ _ _ _ E). destruct (truth err); [by eexists _, _|apply IH].
Qed.

Lemma ibusy_stdin_runs fuel fd ib err e0 (w : world) :
  (length (g_stdin (w_glob w)) < fuel)%nat ->
  exists r w', ibusy_stdin fuel fd ib err e0 w = (Ret r, w') /\
    (r.2 = None -> r.1 = err /\ g_stdin (w_glob w) = [] /\ e0 = None).
Proof.
  revert ib err e0 w. induction fuel as [|k IH]; intros ib err e0 w Hf; [lia|].
  cbn [ibusy_stdin]. unfold fgets. rewrite bind_assoc, bind_gets.
  pose proof (take_line_le (16 - 1) (g_stdin (w_glob w))) as Hl.
  destruct (take_line (16 - 1) (g_stdin (w_glob w))) as [|c l] eqn:El.
  { rewrite bind_ret. eexists _, _. split; [reflexivity|]. intros Hr. split_and!; try done.
    destruct (g_stdin (w_glob w)); [done|]. cbn in El. by case_decide. }
  unfold put_stdin. rewrite bind_assoc, bind_modify, bind_ret.
  match goal with |- context [(do_ibusy ?a fd ib ≫= _) ?x] =>
    set (w1 := x); destruct (do_ibusy_stdin a fd ib w1) as ([err' ib'] & w2 & E & Es) end.
  rewrite (bind_run _ _ _ _ _ E). destruct (truth err').
  { eexists _, _. by split. }
  destruct (IH ib' err' (Some (c :: l)) w2) as (r & w3 & E3 & H3).
  { rewrite Es. subst w1. cbn [w_glob set_glob g_stdin]. rewrite length_drop. simpl in *. lia. }
  exists r, w3. split; [done|]. intros Hr. by destruct (H3 Hr) as (_ & _ & ?).
Qed.

(** auibusy ends: it asks the kernel for one inode after another, from its
    arguments or the lines of stdin, and either returns or, when stdin has no line at
    all, prints a buffer that nothing was written to. *)
Theorem auibusy_ends argv0 args (w : world) :
  exists r w', main_ibusy argv0 args w = (r, w') /\
    ((exists st, r = Ret st) \/
     r = Ub "perror of an uninitialised buffer" /\ length args = 2%nat /\
       g_stdin (w_glob w) = []).
Proof.
  unfold main_ibusy, put_errno. rewrite bind_modify.
  destruct args as [|mnt [|bindex inums]]; [eexists _, _; split; [reflexivity|by left; eexists]..|].
  unfold open_. rewrite bind_assoc.
  destruct (fallible_glob (set_errno EINVAL w)) as (e & w1 & E & G1).
  rewrite (bind_run _ _ _ _ _ E). destruct (e =? 0).
  2:{ eexists _, _; split; [reflexivity|by left; eexists]. }
  unfold new_fd. unfold mbind at 1, M_bind at 1. set (w2 := set_fds _ _).
  destruct (w_nextfd w1 <? 0); [eexists _, _; split; [reflexivity|by left; eexists]|]. rewrite bind_modify.
  destruct (strtoul0 bindex) as [b range]. destruct range; [eexists _, _; split; [reflexivity|by left; eexists]|].
  cbv zeta. set (w3 := set_errno 0 w2).
  assert (g_stdin (w_glob w3) = g_stdin (w_glob w)) as Es by (subst w3 w2; cbn; by rewrite G1).
  set (ib := Ibusy 0 0 (wrap_s 16 b)).
  set (body := match inums with [] => _ | _ => _ end).
  assert (exists r w4, body w3 = (Ret r, w4) /\
    (r.2 = None -> inums = [] /\ g_stdin (w_glob w3) = [])) as ([err ep] & w4 & E4 & Hep).
  { subst body. destruct inums as [|a r].
    - rewrite bind_gets.
      match goal with |- context [ibusy_stdin ?n ?fd ib (-1) None w3] =>
        destruct (ibusy_stdin_runs n fd ib (-1) None w3) as (x & w4 & E4 & H4) end; [lia|].
      exists x, w4. split; [done|]. intros Hx. by destruct (H4 Hx) as (_ & ? & _).
    - match goal with |- context [ibusy_args ?l ?fd ib ?e w3] =>
        destruct (ibusy_args_runs l fd ib e w3) as (x & w4 & E4 & H4) end.
      exists x, w4. split; [done|]. intros Hx. by destruct (H4 Hx). }
  rewrite (bind_run _ _ _ _ _ E4). destruct (truth err); [|eexists _, _; split; [reflexivity|by left; eexists]].
  destruct ep as [a|]; [eexists _, _; split; [reflexivity|by left; eexists]|].
  eexists _, w4. split; [reflexivity|]. right.
  destruct (Hep eq_refl) as [-> Hs]. by rewrite <- Es.
Qed.
End ibusy_term.

(** ** Concrete runs *)

Module CmdDemo.
(** A kernel that moves everything down, but refuses "busy", and remembers the files. *)
#[export] Instance kernel : AufsKernel (list bytes) := {
  k_is_aufs _ := true;
  k_dev _ := (0, 42);
  k_ino _ := 2;
  k_br_count k := ((2, 0), k);
  k_br_fill _ k := ((0, []), k);
  k_wbr_fd _ k := ((0, lit "/rw"), k);
  k_openat _ k := (0, k);
  k_nlink _ _ := 1;
  k_mvdown f m k :=
    if decide (f = lit "busy") then ((EBUSY, m), k) else ((0, m), k ++ [f]);
  k_fhsm_fd k := ((3, 0), k);
  k_fhsm_read _ k := ((0, []), k);
  k_list_cmd _ k := ((0, []), k)
}.

(** Every inode keeps the branch busy under its own number plus one. *)
#[export] Instance ibusy_kernel : IbusyKernel (list bytes) := {
  k_ibusy mnt b k := ((0, Ibusy (ib_ino b) (ib_ino b + 1) (ib_bindex b)), k)
}.

Definition start (stdin : bytes) : world (list bytes) cmd :=
  World 0 [] [] (Cmd 0 stdin) ∅ ∅ ∅ 3 ∅ [] [] [].
Definition files : list bytes := [lit "a"; lit "b"; lit "c"; lit "busy"; lit "d"].
Definition opts : list (ascii * bytes) := [("k"%char, []); ("o"%char, [])].
End CmdDemo.
Import CmdDemo.

Lemma aumvdown_moves_witness :
  exists w', w_kern w' = [lit "a"; lit "b"; lit "c"] /\
    main CmdDemo.opts CmdDemo.files (CmdDemo.start []) = (Exit 16, w').
Proof.
  assert (H : Forall (fun c => is_Some (plain_flag c.1)) CmdDemo.opts)
    by (repeat constructor; by eexists).
  assert (C : calm (CmdDemo.start [])) by (split; [done|cbn; lia]).
  pose proof (aumvdown_moves CmdDemo.opts CmdDemo.files (CmdDemo.start []) H
                ltac:(done) C) as M.
  vm_compute in M. vm_compute. exact M.
Defined.

Lemma enter_answers_next_witness :
  exists w', w_kern w' = [lit "a"; lit "c"; lit "d"] /\
    main [("i"%char, [])] CmdDemo.files (CmdDemo.start (concat (replicate 5 y_enter))) = (Ret 0, w').
Proof.
  assert (C : calm (CmdDemo.start (concat (replicate 5 y_enter)))) by (split; [done|cbn; lia]).
  pose proof (enter_answers_next CmdDemo.files 5 _ ltac:(done) C ltac:(cbn; lia) eq_refl) as M.
  vm_compute in M. vm_compute. exact M.
Defined.

(** The branch id of -b is an int16_t: 65537 selects branch 1, and no digit at all
    branch 0. *)
Example brid_truncated :
  (parse [("b"%char, lit "65537")] 0 0 mvdown_zero (CmdDemo.start [])).1 =
    Ret (inr (0, Mvdown AUFS_MVDOWN_BRID_LOWER (mv_upper mvdown_zero)
                   (Stbr 1 0 (Stfs 0 0 0 0)) 0)).
Proof. reflexivity. Qed.
(** The status of -V after -b is the branch id. *)
Example version_status :
  (main [("b"%char, lit "3"); ("V"%char, [])] [] (CmdDemo.start [])).1 = Ret 3.
Proof. reflexivity. Qed.
(** btrfs counts no inodes: the percentage of free ones is no number. *)
Example no_inodes_percent : percent 0 0 = None /\ percent 25 200 = Some 12.
Proof. by vm_compute. Qed.
(** A line of more than 15 bytes is taken for two inode numbers. *)
Example long_line_split :
  w_out (main_ibusy (lit "auibusy") [lit "/mnt"; lit "0"]
    (CmdDemo.start (lit "1152921504606846977" ++ [newline]))).2 =
  [lit "i115292150460684" ++ [byte_of 9] ++ lit "b0" ++ [byte_of 9] ++ lit "hi115292150460685";
   lit "i6977" ++ [byte_of 9] ++ lit "b0" ++ [byte_of 9] ++ lit "hi6978"].
Proof. vm_compute. reflexivity. Qed.
