(* ===== verification/Cmdline.v ===== *)
(** * The programs from their command lines

    One Section per program that parses options: its tables, and its main() as a function
    of [argv], getopt(3) and the rest of main() put together.  The mode of getopt(3), which
    POSIXLY_CORRECT in the environment changes, is a parameter. *)
From S2P Require Import Prelude CString Scan GetOpt AufsType Sys Shm FhsmList FhsmCtl Daemon.
From S2P Require Import Mvdown Event FhsmDaemon Mtab Plink Mount Ulolib Ulobdev Ulohttp Logrow AuCmd.

(** A long option has the effect of its letter when the two tables agree. *)
Definition agrees (short : bytes) (o : longopt) : bool :=
  match short_find short (lo_val o) with
  | Some h => bool_decide (h = lo_has o)
  | None => false
  end.

(** What a program that does not look at the index sees of a result. *)
Definition chars_of (r : optres) : ascii * bytes := (r_opt r, default [] (r_arg r)).

(** The vector that a program which calls getopt(3) until -1 is left with. *)
Definition argv_after (order : ordering) (short : bytes) (longs : option (list longopt))
    (args : list bytes) : list bytes :=
  getopt_argv order short longs (S (size_of args)) (start args).

(** ** aufhsm *)

Definition aufhsm_opts : list longopt :=
  [LongOpt (lit "inode") no_argument "i"; LongOpt (lit "dir") required_argument "d";
   LongOpt (lit "recreate") no_argument "r"; LongOpt (lit "kill") no_argument "k";
   LongOpt (lit "quiet") no_argument "q"; LongOpt (lit "verbose") no_argument "v";
   LongOpt (lit "version") no_argument "V"; LongOpt (lit "help") no_argument "h"].
Definition aufhsm_short_opts : bytes := lit "id:rkqv" ++ lit "Vh".

(** The loop of opt() makes at most [argc - 1] calls; [optind] is where the last one left
    it. *)
Definition aufhsm_opt_calls (order : ordering) (args : list bytes) : list getopt * list bytes :=
  let '(rs, st) := getopt_n order aufhsm_short_opts (Some aufhsm_opts) (length args) (start args) in
  (map (fun r => FhsmCtl.GetOpt (r_opt r) (default [] (r_arg r))) rs, g_rest st).

Section aufhsm.
Context {K : Type} `{!AufsKernel K}.
Context (realpath : bytes -> option bytes) (is_dir : bytes -> bool).
Context (shm_root : bytes) (st_size : nat) (env_dir : option bytes) (prog : bytes).
Context (spawn : list bytes -> Z) (ticks : nat) (order : ordering).

Definition aufhsm_main (uid : Z) (argv : list bytes) : M (world K controller) Z :=
  let '(calls, operands) := aufhsm_opt_calls order (tail argv) in
  FhsmCtl.main realpath is_dir shm_root st_size env_dir prog spawn ticks uid (length argv)
    calls operands.
End aufhsm.

(** ** aufhsmd *)

Definition aufhsmd_opts : list longopt :=
  [LongOpt (lit "dir") required_argument "d"; LongOpt (lit "verbose") no_argument "v";
   LongOpt (lit "no-daemon") no_argument "D"; LongOpt (lit "version") no_argument "V";
   LongOpt (lit "help") no_argument "h"].
Definition aufhsmd_short_opts : bytes := lit "d:v" ++ lit "D" ++ lit "Vh".

Definition aufhsmd_opt_calls (order : ordering) (args : list bytes) : list getopt * list bytes :=
  let '(rs, st) := getopt_n order aufhsmd_short_opts (Some aufhsmd_opts) (length args) (start args) in
  (map (fun r => FhsmCtl.GetOpt (r_opt r) (default [] (r_arg r))) rs, g_rest st).

Section aufhsmd.
Context {K : Type} `{!AufsKernel K}.
Context (realpath : bytes -> option bytes) (is_dir : bytes -> bool).
Context (shm_root : bytes) (st_size : nat) (env_dir : option bytes) (prog : bytes).
Context (order : ordering).

Definition aufhsmd_main (fuel : nat) (evs : list ep_result) (argv : list bytes) : M (world K fhsmd) Z :=
  let '(calls, operands) := aufhsmd_opt_calls order (tail argv) in
  fhsmd_main realpath is_dir shm_root st_size env_dir prog fuel evs (length argv) calls operands.
End aufhsmd.

(** ** mount.aufs *)

(** [getopt(argc - 2, argv + 2, ...)]: the mount point is taken for the program. *)
Definition mount_aufs_short_opts : bytes := lit "fnvo:".

Section mount.
Context {K : Type} `{!AufsKernel K} `{!MountKernel K} `{!PlinkKernel K}.
Context (nftw : (bytes -> option Ftw.stat -> Z -> nat -> M (world K plink) Z) -> bytes -> Z -> Z
                -> M (world K plink) Z).
Context (actionretval : Z) (decode : bytes -> M (world K plink) (option bytes)).
Context (getcwd : bytes -> bytes) (wstatus : list bytes -> Z) (mtab_status : Z).
Context (spawn : list bytes -> Z) (order : ordering).

Definition mount_aufs_main (argv : list bytes) : M (world K plink) Z :=
  let args := drop 3 argv in
  let '(rs, _) := getopt_all order mount_aufs_short_opts None args in
  mount_main nftw actionretval decode getcwd wstatus mtab_status spawn
    (take 3 argv ++ argv_after order mount_aufs_short_opts None args)
    (map (fun r => MOpt (r_opt r) (default [] (r_arg r))) rs).
End mount.

(** ** aumvdown *)

Definition aumvdown_opts : list longopt :=
  [LongOpt (lit "lower-branch-id") required_argument "b";
   LongOpt (lit "upper-branch-id") required_argument "B";
   LongOpt (lit "interactive") no_argument "i"; LongOpt (lit "keep-upper") no_argument "k";
   LongOpt (lit "overwrite-lower") no_argument "o";
   LongOpt (lit "allow-ro-lower") no_argument "r";
   LongOpt (lit "allow-ro-upper") no_argument "R"; LongOpt (lit "verbose") no_argument "v";
   LongOpt (lit "version") no_argument "V"; LongOpt (lit "help") no_argument "h";
   LongOpt (lit "dmsg") no_argument "d"; LongOpt (lit "stfs") no_argument "s"].
Definition aumvdown_OPTS_FORM : bytes := lit "b:B:ikorRvVh" ++ lit "ds".

Definition aumvdown_main {K} `{!AufsKernel K} (order : ordering) (argv : list bytes) : M (world K cmd) Z :=
  let '(rs, operands) := getopt_all order aumvdown_OPTS_FORM (Some aumvdown_opts) (tail argv) in
  AuCmd.main (map chars_of rs) operands.

(** ** ulobdev and ulohttp *)

Definition ulobdev_short_opts : bytes := lit "b:c:".
Definition ulobdev_main (order : ordering) (pid : Z) (argv : list bytes) :=
  let '(rs, operands) := getopt_all order ulobdev_short_opts None (tail argv) in
  Ulobdev.main (default [] (head argv)) pid (map chars_of rs) operands.

(** strtol(s, NULL, 0): the value; nothing when errno becomes ERANGE. *)
Definition strtol0 (s : bytes) : option Z :=
  let '(neg, s) := scan_sign (skip_space s) in
  let '(v, _, _) :=
    match scan_word (lit "0x") s, s with
    | Some r, _ => scan_digits 16 r 0 0
    | None, c :: _ => if decide (c = "0"%char) then scan_digits 8 s 0 0 else scan_digits 10 s 0 0
    | None, [] => (0, 0, [])
    end in
  let v := if neg : bool then - v else v in
  if (- 2 ^ 63 <=? v) && (v <? 2 ^ 63) then Some v else None.

Definition ulohttp_short_opts : bytes := lit "b:c:t:".
Definition ulohttp_opt (r : optres) : http_opt :=
  let arg := default [] (r_arg r) in
  if decide (r_opt r = "b"%char) then OptB arg
  else if decide (r_opt r = "c"%char) then OptC arg
  else if decide (r_opt r = "t"%char) then OptT arg (strtol0 arg)
  else Ulohttp.OptBad.
Definition ulohttp_main {CU : Curl} (order : ordering) (pid : Z) (argv : list bytes) :=
  let '(rs, operands) := getopt_all order ulohttp_short_opts None (tail argv) in
  Ulohttp.main (default [] (head argv)) pid (map ulohttp_opt rs) operands.

(** ** logrow *)

(** The array of options has no terminating element. *)
Definition logrow_opts : list longopt :=
  [LongOpt (lit "set") required_argument "s"; LongOpt (lit "help") no_argument "h"].
Definition logrow_short_opts : bytes := lit "s:h".

(** The next call looks for a name that the array does not have, and runs off its end. *)
Definition logrow_off_end (order : ordering) (st : gstate) : bool :=
  match g_next st, ahead order st with
  | [], a :: _ =>
      match undash a ≫= undash with
      | Some (c :: s) =>
          let '(n, _) := split_eq (c :: s) in
          negb (existsb (fun o => bool_decide (lo_name o = n)) logrow_opts)
      | _ => false
      end
  | _, _ => false
  end.

(** [i] is [argv[i]], once getopt_long(3) has set [i]; the indices are 0 and 1, and
    [argv[0]] is not moved. *)
Fixpoint logrow_calls (order : ordering) (argv : list bytes) (n : nat) (i : option bytes)
    (st : gstate) : list log_opt * list bytes :=
  match n with
  | O => ([], [])
  | S k =>
      if logrow_off_end order st then ([OptNoMatch], [])
      else
        match getopt_long order logrow_short_opts (Some logrow_opts) st with
        | (None, st) => ([], g_rest st)
        | (Some r, st) =>
            let i := match r_ind r with Some j => argv !! j | None => i end in
            let o := if decide (r_opt r = "s"%char) then OptSet (default [] (r_arg r)) i
                     else if decide (r_opt r = "h"%char) then OptHelp
                     else Logrow.OptBad i in
            let '(os, ops) := logrow_calls order argv k i st in (o :: os, ops)
        end
  end.

Definition logrow_main (order : ordering) (argv : list bytes) :=
  let args := tail argv in
  let '(os, ops) := logrow_calls order argv (S (size_of args)) None (start args) in
  Logrow.main (default [] (head argv)) os ops.

(** ** Properties *)

(** Every long option of every program has its letter, with the same arity. *)
Lemma tables_agree :
  forallb (agrees aufhsm_short_opts) aufhsm_opts
  && forallb (agrees aufhsmd_short_opts) aufhsmd_opts
  && forallb (agrees aumvdown_OPTS_FORM) aumvdown_opts
  && forallb (agrees logrow_short_opts) logrow_opts = true.
Proof. reflexivity. Qed.

(** What each argument yields at most: one option. *)
Definition one_each (it : item) : Prop := (length (results it) <= length (render it))%nat.

Lemma one_each_length its :
  Forall one_each its ->
  (length (concat (map results its)) + length (concat (map operand its))
   <= length (concat (map render its)))%nat.
Proof.
  induction 1 as [|it its Hit _ IH]; [done|]. cbn [map concat]. rewrite !length_app.
  assert (length (results it) + length (operand it) <= length (render it))%nat; [|lia].
  unfold one_each in Hit. by destruct it; cbn in *; lia.
Qed.

Definition ctl_call (r : optres) : getopt := FhsmCtl.GetOpt (r_opt r) (default [] (r_arg r)).

(** aufhsm finds all of its options, in any spelling and among the operands, and leaves
    the operands in their order, if no two of them share one argument and there is an
    operand (or "--"). *)
Theorem aufhsm_reads_separate_options its tl :
  Forall (written aufhsm_short_opts (Some aufhsm_opts)) its -> Forall one_each its ->
  concat (map operand its) ++ dashed tl <> [] ->
  aufhsm_opt_calls PERMUTE (concat (map render its) ++ dashed tl)
  = (map ctl_call (concat (map results its)), concat (map operand its) ++ default [] tl).
Proof.
  intros Hw H1 Hne. unfold aufhsm_opt_calls.
  destruct (getopt_n_render PERMUTE aufhsm_short_opts (Some aufhsm_opts) its tl
    (length (concat (map render its) ++ dashed tl))) as (st & E & Hr); [done|done| |].
  { rewrite length_app. pose proof (one_each_length its H1) as Hl.
    destruct (concat (map operand its)), (dashed tl); cbn in *; lia || done. }
  by rewrite E, Hr.
Qed.

Lemma ctl_flag_short c : c ∈ lit "irkqvVh" -> GetOpt.plain_flag aufhsm_short_opts c.
Proof.
  intros Hc. apply (proj1 (Forall_forall (fun c => GetOpt.plain_flag aufhsm_short_opts c) (lit "irkqvVh")));
    [|done]. cbn. repeat (apply Forall_cons; split; [by split|]). by apply Forall_nil.
Qed.

(** opt() calls getopt_long() only [argc - 1] times, so that three flags in one argument
    are one too many: the third is not seen, [optind] still points at the cluster, and
    the program takes it for the mount point. *)
Theorem aufhsm_cluster_is_mount_point {K} `{!AufsKernel K} realpath is_dir shm_root st_size env_dir
    prog spawn ticks order uid me a b c cs mntpnt :
  Forall (fun f => f ∈ lit "irkqvVh") (a :: b :: c :: cs) ->
  let cluster := "-"%char :: a :: b :: c :: cs in
  aufhsm_main (K := K) realpath is_dir shm_root st_size env_dir prog spawn ticks order uid
      [me; cluster; mntpnt]
  = FhsmCtl.main realpath is_dir shm_root st_size env_dir prog spawn ticks uid 3
      [FhsmCtl.GetOpt a []; FhsmCtl.GetOpt b []] [cluster; mntpnt].
Proof.
  intros Hf cluster. unfold aufhsm_main. cbn [tail length].
  enough (aufhsm_opt_calls order [cluster; mntpnt]
    = ([FhsmCtl.GetOpt a []; FhsmCtl.GetOpt b []], [cluster; mntpnt])) as E.
  { unfold aufhsm_opt_calls in E |- *. unfold aufhsm_main. cbn [tail].
    unfold aufhsm_opt_calls. by rewrite E. }
  inversion_clear Hf as [|? ? Ha Hf']. inversion_clear Hf' as [|? ? Hb _].
  apply ctl_flag_short in Ha as [Ha Hda], Hb as [Hb _].
  unfold aufhsm_opt_calls. cbn [length getopt_n start]. unfold start, cluster.
  rewrite enter_cluster by done. rewrite inside_cluster. unfold short_option. rewrite Ha.
  rewrite inside_cluster. unfold short_option. by rewrite Hb.
Qed.

(** *** The programs start one another *)

Lemma written_long short ls n i o :
  long_find ls n = Some (i, o) -> lo_has o = no_argument -> n <> [] -> "="%char ∉ n ->
  written short (Some ls) (Long n i o).
Proof. intros ? ? ? ?. split; [done|]. by exists ls. Qed.
Lemma written_long_sep short ls n i o arg :
  long_find ls n = Some (i, o) -> lo_has o = required_argument -> n <> [] -> "="%char ∉ n ->
  written short (Some ls) (LongSep n i o arg).
Proof. intros ? ? ? ?. split; [done|]. by exists ls. Qed.

Lemma absolute_operand r : nonoption ("/"%char :: r) = true.
Proof. reflexivity. Qed.

(** C24. The vector that au_run_fhsmd() builds is read back by aufhsmd's opt(): the directory of
    the lists is the controller's whatever its name looks like, --verbose arrives, and
    the mount point (an absolute path, from realpath(3)) is the operand. *)
Theorem fhsmd_reads_controller {K} `{!AufsKernel K} order prog env_dir dir r verbose
    (w : world K fhsmd) :
  let argv := fhsmd_argv dir ("/"%char :: r) verbose in
  let '(calls, operands) := aufhsmd_opt_calls order (tail argv) in
  operands = ["/"%char :: r] /\
  fhsmd_opt_loop prog (length argv - 1) calls env_dir w
  = (Ret (Some dir), if verbose then
       set_glob (dset_optflags (au_opt_set (d_optflags (w_glob w)) OptFhsmd_VERBOSE) (w_glob w)) w
     else w).
Proof.
  intros argv. unfold aufhsmd_opt_calls.
  set (its := LongSep (lit "dir") 0 (LongOpt (lit "dir") required_argument "d") dir ::
    if verbose then [Long (lit "verbose") 1 (LongOpt (lit "verbose") no_argument "v")] else []).
  assert (tail argv = concat (map render its) ++ ["/"%char :: r]) as ->.
  { unfold argv, fhsmd_argv, its. by destruct verbose. }
  destruct (options_then_operand order aufhsmd_short_opts (Some aufhsmd_opts) its ("/"%char :: r)
    (length (concat (map render its) ++ ["/"%char :: r]))) as (st & E & Hr).
  - unfold its. by destruct verbose.
  - unfold its. destruct verbose; repeat (apply Forall_cons; split); try apply Forall_nil;
      try (apply written_long_sep || apply written_long); try done; set_solver.
  - apply absolute_operand.
  - unfold its. destruct verbose; cbn; lia.
  - rewrite E, Hr. split; [done|]. unfold argv, its, fhsmd_argv. destruct verbose; [|done].
    unfold md. by destruct w.
Qed.

(** Likewise what mng_fhsm() passes from the mount helpers to aufhsm. *)
Theorem aufhsm_reads_helpers {K} `{!AufsKernel K} order prog env_dir nfhsm unmount o r
    (w : world K controller) :
  mng_fhsm_opt nfhsm unmount = Some o ->
  let args := [o; "/"%char :: r] in
  let '(calls, operands) := aufhsm_opt_calls order args in
  operands = ["/"%char :: r] /\
  opt_loop prog (length args) calls env_dir w
  = (set_opt (if negb unmount && (2 <=? nfhsm) then OptFhsm_QUIET else OptFhsm_KILL) ;;
     mret env_dir) w.
Proof.
  intros Ho args. unfold aufhsm_opt_calls.
  assert (exists i l, o = lit "--" ++ lo_name l /\ lo_has l = no_argument /\
    long_find aufhsm_opts (lo_name l) = Some (i, l) /\ "="%char ∉ lo_name l /\ lo_name l <> [] /\
    lo_val l = (if negb unmount && (2 <=? nfhsm) then "q"%char else "k"%char))
    as (i & l & -> & Hh & Hf & Heq & Hne & Hv).
  { unfold mng_fhsm_opt in Ho. destruct unmount; cbn [negb andb] in *; [|destruct (2 <=? nfhsm)];
      [destruct (nfhsm <? 2); [done|]| |]; injection Ho as <-.
    - exists 3%nat, (LongOpt (lit "kill") no_argument "k"). split_and!; try done. set_solver.
    - exists 4%nat, (LongOpt (lit "quiet") no_argument "q"). split_and!; try done. set_solver.
    - exists 3%nat, (LongOpt (lit "kill") no_argument "k"). split_and!; try done. set_solver. }
  destruct (options_then_operand order aufhsm_short_opts (Some aufhsm_opts)
    [Long (lo_name l) i l] ("/"%char :: r) 2) as (st & E & Hr); [done| |done|cbn; lia|].
  { apply Forall_singleton. by apply written_long. }
  cbn [map concat render app] in E. unfold args. cbn [length]. rewrite E, Hr. split; [done|].
  cbn [results map concat app]. cbn [opt_loop r_opt r_arg]. rewrite Hv.
  by destruct (negb unmount && _).
Qed.

(** *** aumvdown *)

(** C32. aumvdown, from its command line, with any of the flags -k, -o, -r, -R, -d, -s
    and -i (not -v, -V, -h, -b, -B), when open(2) and close(2) do not fail: whatever way
    the flags are written (letters one by one or together, long names and their
    abbreviations, among the operands), the operands are moved down in their order, each
    by one ioctl with exactly the flags that were given and what the kernel left in the
    structure for the file before; with -i only those that a key allows. At the first
    one that the kernel refuses the program exits with its errno and moves none of those
    behind it; else it returns 0, or EINVAL when no file was chosen. *)
Theorem aumvdown_command {K} `{!AufsKernel K} its tl me (w : world K cmd) :
  Forall (written aumvdown_OPTS_FORM (Some aumvdown_opts)) its ->
  let calls := map chars_of (concat (map results its)) in
  let files := concat (map operand its) ++ default [] tl in
  Forall (fun c => is_Some (plain_flag c.1)) calls -> files <> [] -> calm w ->
  let sel := if asks calls then asked files (g_stdin (w_glob w)) else files in
  let '(e, k) := moved sel (Mvdown (plain_flags calls) (mv_upper mvdown_zero)
                              (mv_lower mvdown_zero) 0) (w_kern w) in
  exists w', w_kern w' = k /\
    aumvdown_main PERMUTE (me :: concat (map render its) ++ dashed tl) w =
      (if e =? 0 then Ret (match sel with [] => EINVAL | _ => 0 end) else Exit (u8 e), w').
Proof.
  intros Hw calls files Hc Hf Hcalm. unfold aumvdown_main. cbn [tail].
  rewrite getopt_render by done. by apply aumvdown_moves.
Qed.

(** *** mount.aufs *)

(** When mount(8) passes no operands, as it does, mount.aufs works on the vector as it
    was given: getopt(3) moves nothing, and its results are the options. *)
Theorem mount_aufs_command {K} `{!AufsKernel K} `{!MountKernel K} `{!PlinkKernel K} nftw actionretval
    decode getcwd wstatus mtab_status spawn order me dev mntpnt its :
  Forall (written mount_aufs_short_opts None) its -> concat (map operand its) = [] ->
  let args := concat (map render its) in
  mount_aufs_main (K := K) nftw actionretval decode getcwd wstatus mtab_status spawn order
      (me :: dev :: mntpnt :: args)
  = mount_main nftw actionretval decode getcwd wstatus mtab_status spawn
      (me :: dev :: mntpnt :: args)
      (map (fun r => MOpt (r_opt r) (default [] (r_arg r))) (concat (map results its))).
Proof.
  intros Hw Ho args. unfold mount_aufs_main. cbn [drop take]. rewrite drop_0, take_0. fold args.
  assert (runs order mount_aufs_short_opts None (start args) (concat (map results its)) []) as Hr.
  { unfold args, start. rewrite <- (app_nil_r (concat (map render its))).
    apply items_run; [by right|done|]. rewrite Ho. apply (tail_runs _ _ _ None). }
  rewrite (runs_getopt_all _ _ _ _ _ _ Hr). f_equal. unfold argv_after.
  destruct (runs_getopt_n _ _ _ _ _ _ (S (length (concat (map results its)) + size_of args)) Hr)
    as (_ & st & E & Hst); [lia|].
  rewrite (getopt_n_enough _ _ _ (S (size_of args))) in E
    by (try apply getopt_n_ends; unfold weight, start; simpl; lia).
  destruct (getopt_argv_same order mount_aufs_short_opts None (S (size_of args)) (start args)
    (concat (map results its)) st) as [_ ->]; [|exact E|exact Hst|done].
  apply getopt_n_ends. unfold weight, start. simpl. lia.
Qed.

(** *** logrow *)

(** A long option that logrow does not have, an abbreviation included, makes getopt_long(3)
    run off the array of options, which nothing ends. *)
Theorem logrow_unknown_option order me c s r w :
  let '(n, _) := split_eq (c :: s) in
  forallb (fun o => negb (bool_decide (lo_name o = n))) logrow_opts = true ->
  logrow_main order (me :: (lit "--" ++ c :: s) :: r) w
  = (Ub "opts is not terminated", set_glob (Some me) w).
Proof.
  destruct (split_eq (c :: s)) as [n v] eqn:Es. intros Hn.
  unfold logrow_main. cbn [tail head]. set (a := lit "--" ++ c :: s).
  assert (nonoption a = false) as Ha by done.
  assert (logrow_off_end order (start (a :: r)) = true) as E.
  { unfold logrow_off_end, start, ahead. cbn [g_next g_rest split_nonopts]. rewrite Ha.
    assert ((undash a ≫= undash) = Some (c :: s)) as Hu by done.
    destruct order; cbn [snd]; rewrite Hu, Es; apply negb_true_iff;
      cbn in Hn |- *; repeat case_bool_decide; done. }
  cbn [logrow_calls]. rewrite E. cbn. unfold Logrow.main, modify. cbn. by destruct w.
Qed.

(** ** Witnesses *)

Import Sys.Demo MountDemo CmdDemo.

Lemma aufhsm_reads_separate_options_witness :
  aufhsm_opt_calls PERMUTE
      [lit "-r"; lit "/mnt"; lit "--di"; lit "-x"; lit "/rw=75-50"; lit "-d/lists"; lit "--"; lit "-y"]
  = ([FhsmCtl.GetOpt "r" []; FhsmCtl.GetOpt "d" (lit "-x"); FhsmCtl.GetOpt "d" (lit "/lists")],
     [lit "/mnt"; lit "/rw=75-50"; lit "-y"]).
Proof.
  apply (aufhsm_reads_separate_options
    [Flags (lit "r"); Operand (lit "/mnt");
     LongSep (lit "di") 1 (LongOpt (lit "dir") required_argument "d") (lit "-x");
     Operand (lit "/rw=75-50"); FlagArg [] "d" (lit "/lists")] (Some [lit "-y"])).
  - repeat (apply Forall_cons; split); try apply Forall_nil; try done.
    + split; [done|]. apply Forall_singleton. done.
    + apply written_long_sep; [done..|set_solver].
  - repeat (apply Forall_cons; split); try apply Forall_nil; unfold one_each; cbn; lia.
  - done.
Defined.

Lemma aufhsm_cluster_is_mount_point_witness :
  aufhsm_main (K := unit) Some (fun _ => true) (lit "/dev/shm") 0 None (lit "aufhsm")
      (fun _ => 0) 0 PERMUTE 0 [lit "aufhsm"; lit "-ikv"; lit "/mnt"]
  = FhsmCtl.main Some (fun _ => true) (lit "/dev/shm") 0 None (lit "aufhsm") (fun _ => 0) 0 0 3
      [FhsmCtl.GetOpt "i" []; FhsmCtl.GetOpt "k" []] [lit "-ikv"; lit "/mnt"].
Proof.
  apply (aufhsm_cluster_is_mount_point Some (fun _ => true) (lit "/dev/shm") 0 None
    (lit "aufhsm") (fun _ => 0) 0 PERMUTE 0 (lit "aufhsm") "i" "k" "v" [] (lit "/mnt")).
  repeat (apply Forall_cons; split); try apply Forall_nil; set_solver.
Defined.

Lemma aufhsm_reads_helpers_witness :
  let '(calls, operands) := aufhsm_opt_calls PERMUTE [lit "--kill"; lit "/mnt"] in
  operands = [lit "/mnt"] /\
  opt_loop (lit "aufhsm") 2 calls None (Demo.world0 (Ctl None 0))
  = (set_opt OptFhsm_KILL ;; mret None) (Demo.world0 (Ctl None 0)).
Proof.
  apply (aufhsm_reads_helpers PERMUTE (lit "aufhsm") None 2 true (lit "--kill") (lit "mnt")
    (Demo.world0 (Ctl None 0))). reflexivity.
Defined.

Definition mvdown_items : list item :=
  [Operand (lit "a"); Flags (lit "ko");
   Long (lit "over") 4 (LongOpt (lit "overwrite-lower") no_argument "o")].

Lemma aumvdown_command_witness :
  exists w', w_kern w' = [lit "a"; lit "-b"] /\
    aumvdown_main PERMUTE [lit "aumvdown"; lit "a"; lit "-ko"; lit "--over"; lit "--"; lit "-b"]
      (CmdDemo.start []) = (Ret 0, w').
Proof.
  assert (C : calm (CmdDemo.start [])) by (split; [done|cbn; lia]).
  assert (H : Forall (written aumvdown_OPTS_FORM (Some aumvdown_opts)) mvdown_items).
  { repeat (apply Forall_cons; split); try apply Forall_nil; try done.
    - split; [done|]. repeat (apply Forall_cons; split); done.
    - apply written_long; [done..|set_solver]. }
  pose proof (aumvdown_command mvdown_items (Some [lit "-b"]) (lit "aumvdown") (CmdDemo.start []) H
    ltac:(repeat constructor; by eexists) ltac:(done) C) as M.
  vm_compute in M. vm_compute. exact M.
Defined.

Lemma mount_aufs_command_witness :
  mount_aufs_main (K := unit) nftw_musl 0 au_decode_mntpnt_glibc id (fun _ => 0) 0 (fun _ => 0) PERMUTE
      [lit "mount.aufs"; lit "none"; lit "/a"; lit "-v"; lit "-o"; lit "br:/rw"]
  = mount_main nftw_musl 0 au_decode_mntpnt_glibc id (fun _ => 0) 0 (fun _ => 0)
      [lit "mount.aufs"; lit "none"; lit "/a"; lit "-v"; lit "-o"; lit "br:/rw"]
      [MOpt "v" []; MOpt "o" (lit "br:/rw")].
Proof.
  apply (mount_aufs_command nftw_musl 0 au_decode_mntpnt_glibc id (fun _ => 0) 0 (fun _ => 0) PERMUTE
    (lit "mount.aufs") (lit "none") (lit "/a") [Flags (lit "v"); FlagSep [] "o" (lit "br:/rw")]).
  - repeat (apply Forall_cons; split); try apply Forall_nil; try done.
    split; [done|]. by apply Forall_singleton.
  - reflexivity.
Defined.

Lemma logrow_unknown_option_witness :
  logrow_main PERMUTE [lit "logrow"; lit "--sets=9"] (World 0 [] (LoopDev 0 []) None ∅ ∅ ∅ 3 ∅ [] [] [])
  = (Ub "opts is not terminated",
     World 0 [] (LoopDev 0 []) (Some (lit "logrow")) ∅ ∅ ∅ 3 ∅ [] [] []).
Proof.
  apply (logrow_unknown_option PERMUTE (lit "logrow") "s" (lit "ets=9") []
    (World 0 [] (LoopDev 0 []) None ∅ ∅ ∅ 3 ∅ [] [] [])). reflexivity.
Defined.
